(** * Crossword Wrapped: the card computations of [data_output/app.js]

    A shallow embedding of the pure computations behind the cards of the
    page: time formatting, the weekday sort, the shared histogram scale,
    the trend normalisation with its biggest-improver selection, the
    fastest-puzzle selection and the slide navigation.

    JavaScript numbers are IEEE 754 binary64 values ([spec_float] of the
    Standard Library with [prec = 53] and [emax = 1024], round to nearest
    even), strings are sequences of UTF-16 code units, arrays are lists,
    and a [d3.group] map is an association list in insertion order. *)

From Stdlib Require Import Ascii String.
From Stdlib Require Import ZArith NArith PArith Lia Bool List.
From Stdlib Require Import Permutation Sorted.
From Stdlib Require Import Floats.SpecFloat.
Import ListNotations.
Local Open Scope Z_scope.

(* ===================================================================== *)
(** * Part I: the embedding                                               *)
(* ===================================================================== *)

(** ** Numbers *)

Module Num.

Definition prec : Z := 53.
Definition emax : Z := 1024.

(** A JavaScript Number. *)
Definition number : Type := spec_float.

Definition NaN : number := S754_nan.
Definition Infinity : number := S754_infinity false.
Definition NegInfinity : number := S754_infinity true.
Definition zero : number := S754_zero false.

(** The datum is a binary64 value: its mantissa is canonical for its
    exponent and the exponent is in range. *)
Definition valid (x : number) : bool := valid_binary prec emax x.

(** [x / y], [x * y], [x - y]. *)
Definition div (x y : number) : number := SFdiv prec emax x y.
Definition mul (x y : number) : number := SFmul prec emax x y.
Definition sub (x y : number) : number := SFsub prec emax x y.

(** [x < y], [x > y], [x >= y], [x <= y], [x === y]; all false on NaN. *)
Definition ltb (x y : number) : bool := SFltb x y.
Definition gtb (x y : number) : bool := SFltb y x.
Definition geb (x y : number) : bool := SFleb y x.
Definition leb (x y : number) : bool := SFleb x y.
Definition eqb (x y : number) : bool := SFeqb x y.

Definition isNaN (x : number) : bool :=
  match x with S754_nan => true | _ => false end.

(** [Number.isFinite(x)]. *)
Definition isFinite (x : number) : bool :=
  match x with
  | S754_zero _ | S754_finite _ _ _ => true
  | S754_infinity _ | S754_nan => false
  end.

(** The Number nearest to the ratio [a / b] of two positive integers,
    ties to even, with sign [neg]. *)
Definition round_ratio (neg : bool) (a b : positive) : number :=
  let '(q, e, l) := SFdiv_core_binary prec emax (Zpos a) 0 (Zpos b) 0 in
  binary_round_aux prec emax neg q e l.

(** Removes the factors of ten of [m], counting them: [m = m' * 10^k]
    with [m'] returned beside [k].  [fuel] bounds the number of steps. *)
Fixpoint strip10 (fuel : nat) (m : positive) (k : Z) : positive * Z :=
  match fuel with
  | O => (m, k)
  | S fuel' =>
      if (Zpos m mod 10 =? 0)
      then strip10 fuel' (Z.to_pos (Zpos m / 10)) (k + 1)
      else (m, k)
  end.

(** The Number value of the decimal [(-1)^neg * m * 10^e], as a numeric
    literal or a parsed string denotes it. *)
Definition of_decimal (neg : bool) (m : N) (e : Z) : number :=
  match m with
  | N0 => S754_zero neg
  | Npos p =>
      let '(p', e') := strip10 (Pos.to_nat (Pos.size p)) p e in
      match e' with
      | Z0 => round_ratio neg p' 1
      | Zpos k => round_ratio neg (p' * 10 ^ k) 1
      | Zneg k => round_ratio neg p' (10 ^ k)
      end
  end.

(** The literals [100] and [1.1] of the source. *)
Definition n100 : number := of_decimal false 100 0.
Definition n1_1 : number := of_decimal false 11 (-1).
Definition one : number := of_decimal false 1 0.

(** The Number of an integer literal. *)
Definition of_Z (z : Z) : number := of_decimal (z <? 0) (Z.abs_N z) 0.

(** [ToNumber(v)] for a value that may be [undefined]: [undefined]
    converts to NaN. *)
Definition of_optional (v : option number) : number :=
  match v with Some x => x | None => NaN end.

End Num.

Abbreviation number := Num.number.

(** ** Strings *)

(** A JavaScript string: its UTF-16 code units. *)
Definition jsstring : Type := list N.

(** The code units of an ASCII literal. *)
Definition js (s : string) : jsstring := map N_of_ascii (list_ascii_of_string s).
Arguments js s%_string.

Definition jsstring_eqb (a b : jsstring) : bool :=
  if list_eq_dec N.eq_dec a b then true else false.

(** [\d] of a regular expression (and a decimal digit of a numeric string). *)
Definition isDigit (c : N) : bool := ((48 <=? c) && (c <=? 57))%N.

(** [\s]: the WhiteSpace and LineTerminator code points, which
    [String.prototype.trim] strips too. *)
Definition isSpace (c : N) : bool :=
  ((9 <=? c) && (c <=? 13) || (c =? 32) || (c =? 160) || (c =? 5760)
   || (8192 <=? c) && (c <=? 8202) || (c =? 8232) || (c =? 8233)
   || (c =? 8239) || (c =? 8287) || (c =? 12288) || (c =? 65279))%N.

(** The longest prefix of [s] whose code units satisfy [p], and the rest. *)
Fixpoint span (p : N -> bool) (s : jsstring) : jsstring * jsstring :=
  match s with
  | [] => ([], [])
  | c :: s' =>
      if p c then let '(a, b) := span p s' in (c :: a, b) else ([], s)
  end.

(** ** Numeric strings *)

(** [s.trim()]'s left half: the string without its leading white space. *)
Fixpoint trimStart (s : jsstring) : jsstring :=
  match s with
  | c :: s' => if isSpace c then trimStart s' else s
  | [] => []
  end.

(** [s.trim()]. *)
Definition trim (s : jsstring) : jsstring := rev (trimStart (rev (trimStart s))).

(** The integer a run of decimal digits denotes, most significant first,
    continuing from [acc]. *)
Fixpoint digits_value (ds : jsstring) (acc : N) : N :=
  match ds with
  | [] => acc
  | d :: ds' => digits_value ds' (10 * acc + (d - 48))%N
  end.

(** The decimal digits of [n] put before [acc]; no digit for 0. *)
Fixpoint digits_before (fuel : nat) (n : N) (acc : jsstring) : jsstring :=
  match fuel with
  | O => acc
  | S fuel' =>
      match n with
      | N0 => acc
      | _ => digits_before fuel' (n / 10)%N ((48 + n mod 10)%N :: acc)
      end
  end.

(** The decimal digits of [n], ["0"] for 0. *)
Definition digits_of (n : N) : jsstring :=
  match n with
  | N0 => [48%N]
  | _ => digits_before (N.to_nat (N.size n)) n []
  end.

(** [s] starts with the code units [p]: what follows them. *)
Fixpoint after_prefix (p s : jsstring) : option jsstring :=
  match p, s with
  | [], _ => Some s
  | a :: p', b :: s' => if (a =? b)%N then after_prefix p' s' else None
  | _ :: _, [] => None
  end.

(** A sign character at the head of [s]: whether it is ['-'], and the
    rest. *)
Definition read_sign (s : jsstring) : bool * jsstring :=
  match s with
  | 45%N :: r => (true, r)
  | 43%N :: r => (false, r)
  | _ => (false, s)
  end.

(** The exponent an [ExponentPart] at the head of [s] denotes, 0 when
    there is none: [e] or [E], an optional sign, digits. *)
Definition read_exponent (s : jsstring) : Z :=
  match s with
  | c :: r =>
      if ((c =? 101) || (c =? 69))%N then
        let '(neg, r') := read_sign r in
        let '(ds, _) := span isDigit r' in
        match ds with
        | [] => 0
        | _ :: _ =>
            if neg then - Z.of_N (digits_value ds 0) else Z.of_N (digits_value ds 0)
        end
      else 0
  | [] => 0
  end.

(** [parseFloat(string)] of ECMAScript: the Number value of the longest
    prefix of the trimmed string that is a [StrDecimalLiteral], NaN when
    no prefix is one. *)
Definition parseFloat (input : jsstring) : number :=
  let '(neg, s) := read_sign (trimStart input) in
  match after_prefix (js "Infinity") s with
  | Some _ => S754_infinity neg
  | None =>
      let '(ip, r1) := span isDigit s in
      let '(fp, r2) :=
        match r1 with
        | 46%N :: r => span isDigit r
        | _ => ([], r1)
        end in
      match ip ++ fp with
      | [] => Num.NaN
      | _ :: _ =>
          Num.of_decimal neg (digits_value (ip ++ fp) 0)
            (read_exponent r2 - Z.of_nat (length fp))
      end
  end.

(** A hexadecimal digit's value. *)
Definition hex_digit (c : N) : option N :=
  if isDigit c then Some (c - 48)%N
  else if ((97 <=? c) && (c <=? 102))%N then Some (c - 87)%N
  else if ((65 <=? c) && (c <=? 70))%N then Some (c - 55)%N
  else None.

(** The integer the longest run of hexadecimal digits at the head of [s]
    denotes, continuing from [acc], and whether the run is non-empty. *)
Fixpoint hex_value (s : jsstring) (acc : N) (seen : bool) : N * bool :=
  match s with
  | c :: s' =>
      match hex_digit c with
      | Some d => hex_value s' (16 * acc + d)%N true
      | None => (acc, seen)
      end
  | [] => (acc, seen)
  end.

(** [parseInt(string)] of ECMAScript with no radix: radix 16 after a
    [0x] or [0X] prefix, radix 10 otherwise; NaN when no digit follows
    the sign. *)
Definition parseInt (input : jsstring) : number :=
  let '(neg, s) := read_sign (trimStart input) in
  let hex :=
    match after_prefix (js "0x") s with
    | Some r => Some r
    | None => after_prefix (js "0X") s
    end in
  match hex with
  | Some r =>
      let '(v, seen) := hex_value r 0 false in
      if seen then Num.of_decimal neg v 0 else Num.NaN
  | None =>
      let '(ds, _) := span isDigit s in
      match ds with
      | [] => Num.NaN
      | _ :: _ => Num.of_decimal neg (digits_value ds 0) 0
      end
  end.

(** ** [Number::toString] *)

(** Structural equality of two Numbers ([Object.is], on data in normal
    form). *)
Definition same_number (x y : number) : bool :=
  match x, y with
  | S754_zero a, S754_zero b => Bool.eqb a b
  | S754_infinity a, S754_infinity b => Bool.eqb a b
  | S754_nan, S754_nan => true
  | S754_finite a m e, S754_finite b m' e' =>
      Bool.eqb a b && (m =? m')%positive && (e =? e')
  | _, _ => false
  end.

(** The value [m * 2^e] as a fraction of two positive integers. *)
Definition fraction (m : positive) (e : Z) : Z * Z :=
  match e with
  | Z0 => (Zpos m, 1)
  | Zpos p => (Zpos m * 2 ^ Zpos p, 1)
  | Zneg p => (Zpos m, 2 ^ Zpos p)
  end.

(** The least [n >= start] with [num / den < 10^n]. *)
Fixpoint magnitude_up (fuel : nat) (num den n : Z) : Z :=
  match fuel with
  | O => n
  | S fuel' =>
      if num <? den * 10 ^ n then n else magnitude_up fuel' num den (n + 1)
  end.

(** The greatest [n <= start] with [10^(n-1) <= num / den], for a start
    that is at most 0. *)
Fixpoint magnitude_down (fuel : nat) (num den n : Z) : Z :=
  match fuel with
  | O => n
  | S fuel' =>
      if den <=? num * 10 ^ (1 - n) then n
      else magnitude_down fuel' num den (n - 1)
  end.

(** The decimal magnitude of [num / den]: the [n] with
    [10^(n-1) <= num / den < 10^n]. *)
Definition magnitude (num den : Z) : Z :=
  if den <=? num
  then magnitude_up (Z.to_nat (Z.log2 num) + 1) num den 1
  else magnitude_down (Z.to_nat (Z.log2 den) + 1) num den 0.

(** [floor (num / den / 10^scale)] and whether the quotient is exact,
    below, at or above the half between two integers. *)
Definition scaled (num den scale : Z) : Z * comparison :=
  let '(a, b) :=
    if 0 <=? scale then (num, den * 10 ^ scale) else (num * 10 ^ (- scale), den) in
  (a / b, (2 * (a mod b)) ?= b).

(** The decimal [s * 10^scale] reads back as [x]. *)
Definition reads_back (x : number) (s scale : Z) : bool :=
  same_number (Num.of_decimal false (Z.to_N s) scale) x.

(** A decimal of the given scale that reads back as [x], the nearer to
    [x] of the two that enclose it (the even one at a tie), if either
    does. *)
Definition candidate (x : number) (num den scale : Z) : option Z :=
  let '(lo, half) := scaled num den scale in
  let hi := lo + 1 in
  let lo_ok := (0 <? lo) && reads_back x lo scale in
  let hi_ok := reads_back x hi scale in
  let prefer_hi :=
    match half with
    | Gt => true
    | Eq => Z.odd lo
    | Lt => false
    end in
  if lo_ok && hi_ok then Some (if prefer_hi then hi else lo)
  else if lo_ok then Some lo
  else if hi_ok then Some hi
  else None.

(** The first [k], counting up from the given one while the fuel lasts,
    for which a decimal of [k] digits reads back as [x]: the decimal and
    its scale. *)
Fixpoint shortest_from (fuel : nat) (x : number) (num den n k : Z) : option (Z * Z) :=
  match fuel with
  | O => None
  | S fuel' =>
      match candidate x num den (n - k) with
      | Some s => Some (s, n - k)
      | None => shortest_from fuel' x num den n (k + 1)
      end
  end.

(** The exact decimal expansion of [num / den], for [den] a power of two. *)
Definition exact_decimal (num den : Z) : Z * Z :=
  let j := Z.log2 den in (num * 5 ^ j, - j).

(** Step 5 of [Number::toString]: integers [s] and [scale] with
    [s * 10^scale] reading back as the positive finite [x], [s] with as
    few digits as possible (17 suffice for a binary64 value) and not
    divisible by ten. *)
Definition shortest_decimal (x : number) (m : positive) (e : Z) : positive * Z :=
  let '(num, den) := fraction m e in
  let '(s, scale) :=
    match shortest_from 17 x num den (magnitude num den) 1 with
    | Some d => d
    | None => exact_decimal num den
    end in
  Num.strip10 (Z.to_nat (Z.log2 s) + 1) (Z.to_pos s) scale.

(** The layouts of [Number::toString] for the digits [ds] of [s] and
    [n = scale + length ds]. *)
Definition layout (ds : jsstring) (n : Z) : jsstring :=
  let k := Z.of_nat (length ds) in
  if (k <=? n) && (n <=? 21) then ds ++ repeat 48%N (Z.to_nat (n - k))
  else if (0 <? n) && (n <=? 21) then
    firstn (Z.to_nat n) ds ++ 46%N :: skipn (Z.to_nat n) ds
  else if (-6 <? n) && (n <=? 0) then
    48%N :: 46%N :: repeat 48%N (Z.to_nat (- n)) ++ ds
  else
    let e := n - 1 in
    let exponent :=
      101%N :: (if e <? 0 then 45%N else 43%N) :: digits_of (Z.abs_N e) in
    match ds with
    | [d] => d :: exponent
    | d :: rest => d :: 46%N :: rest ++ exponent
    | [] => exponent
    end.

(** [Number::toString(x)] with radix 10, which [String(x)] and a template
    literal apply to a Number. *)
Definition Number_toString (x : number) : jsstring :=
  match x with
  | S754_nan => js "NaN"
  | S754_zero _ => js "0"
  | S754_infinity neg => (if neg then [45%N] else []) ++ js "Infinity"
  | S754_finite neg m e =>
      let '(s, scale) := shortest_decimal (S754_finite false m e) m e in
      let ds := digits_of (Npos s) in
      (if neg then [45%N] else []) ++ layout ds (scale + Z.of_nat (length ds))
  end.

(** ** Values *)

(** The values a JSON field holds, with [undefined] for an absent one. *)
Inductive value : Type :=
  | VUndefined
  | VNull
  | VBool (b : bool)
  | VNumber (n : number)
  | VString (s : jsstring).

(** [ToBoolean(v)]: [undefined], [null], [false], [0], [-0], [NaN] and
    the empty string are falsy. *)
Definition truthy (v : value) : bool :=
  match v with
  | VUndefined | VNull => false
  | VBool b => b
  | VNumber (S754_zero _) | VNumber S754_nan => false
  | VNumber _ => true
  | VString [] => false
  | VString _ => true
  end.

(** What a call does to the program: it returns, or it throws a
    [TypeError]. *)
Inductive completion (A : Type) : Type :=
  | Returns (a : A)
  | Throws.
Arguments Returns {A} a.
Arguments Throws {A}.

(** ** [formatTimeToMMSS] *)

(** [/(\d+)\s*m\s*(\d+)\s*s/] tried at the start of [s]: the two groups.
    The classes [\d], [\s] and the letters are disjoint, so taking the
    longest run at each star and plus is the only way to match. *)
Definition match_here (s : jsstring) : option (jsstring * jsstring) :=
  let '(minutes, r1) := span isDigit s in
  match minutes with
  | [] => None
  | _ :: _ =>
      let '(_, r2) := span isSpace r1 in
      match r2 with
      | 109%N :: r3 =>
          let '(_, r4) := span isSpace r3 in
          let '(seconds, r5) := span isDigit r4 in
          match seconds with
          | [] => None
          | _ :: _ =>
              let '(_, r6) := span isSpace r5 in
              match r6 with
              | 115%N :: _ => Some (minutes, seconds)
              | _ => None
              end
          end
      | _ => None
      end
  end.

(** [timeStr.match(/(\d+)\s*m\s*(\d+)\s*s/)]: the groups [parts[1]] and
    [parts[2]] of the leftmost match, or [None] for [null]. *)
Fixpoint regex_match (s : jsstring) : option (jsstring * jsstring) :=
  match match_here s with
  | Some g => Some g
  | None =>
      match s with
      | [] => None
      | _ :: s' => regex_match s'
      end
  end.

(** [s.padStart(targetLength, padString)]. *)
Definition padStart (s : jsstring) (targetLength : nat) (padString : jsstring) : jsstring :=
  if (targetLength <=? length s)%nat then s
  else
    match padString with
    | [] => s
    | _ :: _ =>
        let fillLen := (targetLength - length s)%nat in
        firstn fillLen (concat (repeat padString fillLen)) ++ s
    end.

(** [s.startsWith('0')]. *)
Definition startsWith0 (s : jsstring) : bool :=
  match s with 48%N :: _ => true | _ => false end.

(** [formatTimeToMMSS(timeStr)].  A truthy argument that is not a
    string has no [match] method: the call throws. *)
Definition formatTimeToMMSS (timeStr : value) : completion value :=
  if negb (truthy timeStr) then Returns (VString (js "00:00"))
  else
    match timeStr with
    | VString str =>
        match regex_match str with
        | Some (parts1, parts2) =>
            let seconds := padStart parts2 2 (js "0") in
            let minutes :=
              if (1 <? length parts1)%nat && startsWith0 parts1
              then skipn 1 parts1 else parts1 in
            Returns (VString (minutes ++ js ":" ++ seconds))
        | None => Returns timeStr
        end
    | _ => Throws
    end.

(** What the pattern accepts at the start of a string: digits, white
    space, [m], white space, digits, white space, [s], then anything. *)
Definition matches_at (minutes seconds t : jsstring) : Prop :=
  exists w1 w2 w3 post,
    t = minutes ++ w1 ++ 109%N :: w2 ++ seconds ++ w3 ++ 115%N :: post /\
    minutes <> [] /\ seconds <> [] /\
    forallb isDigit minutes = true /\ forallb isDigit seconds = true /\
    forallb isSpace w1 = true /\ forallb isSpace w2 = true /\
    forallb isSpace w3 = true.

(** The string holds a match of the pattern. *)
Definition matches (s : jsstring) : Prop :=
  exists pre minutes seconds t, s = pre ++ t /\ matches_at minutes seconds t.

(** [minutes] and [seconds] are the groups of the leftmost match in [s]. *)
Definition leftmost_match (minutes seconds s : jsstring) : Prop :=
  exists pre t,
    s = pre ++ t /\ matches_at minutes seconds t /\
    forall pre' t' m' s', s = pre' ++ t' -> (length pre' < length pre)%nat ->
                          ~ matches_at m' s' t'.

(** The digits [d] with one leading zero removed when more digits follow
    it: at most one zero goes, and never the only digit. *)
Definition without_one_leading_zero (d : jsstring) : jsstring :=
  match d with
  | 48%N :: (_ :: _) as rest => rest
  | _ => d
  end.

(** The digits [d] with as many ['0'] put before them as they lack to be
    two characters long. *)
Definition padded_to_two (d : jsstring) : jsstring :=
  repeat 48%N (2 - length d) ++ d.

(** ** Arrays *)

Section ArraySort.

Context {A : Type}.

(** The comparator of a sort: negative when its first argument goes
    first, positive when its second does. *)
Variable comparefn : A -> A -> Z.

(** [x] put into a sorted array before the first element it does not
    follow. *)
Fixpoint insert_sorted (x : A) (l : list A) : list A :=
  match l with
  | [] => [x]
  | y :: l' =>
      if comparefn x y >? 0 then y :: insert_sorted x l' else x :: y :: l'
  end.

(** [array.sort(comparefn)]: the stable sort of ECMAScript, whose result
    a consistent comparator determines.  Elements that compare equal
    keep the order they had. *)
Definition array_sort (l : list A) : list A := fold_right insert_sorted [] l.

End ArraySort.

(** [array.indexOf(x)] on an array of strings: the first index that holds
    [x], or -1. *)
Fixpoint indexOf_from (l : list jsstring) (x : jsstring) (i : Z) : Z :=
  match l with
  | [] => -1
  | y :: l' => if jsstring_eqb y x then i else indexOf_from l' x (i + 1)
  end.

Definition indexOf (l : list jsstring) (x : jsstring) : Z := indexOf_from l x 0.

(** [DAY_ORDER], and the [dayOrder] of [renderCard2] and [renderCard3]. *)
Definition DAY_ORDER : list jsstring :=
  [js "Mon"; js "Tue"; js "Wed"; js "Thu"; js "Fri"; js "Sat"; js "Sun"].

(** ** Card 2: the weekly summary *)

Module Card2.

(** An entry of the weekly summary artifact. *)
Record entry : Type := {
  Day_of_Week : jsstring;
  fastest_in_minutes : number;
  average_in_minutes : number;
  slowest_in_minutes : number
}.

Definition dayOrder : list jsstring := DAY_ORDER.

(** The comparator
    [(a, b) => dayOrder.indexOf(a.Day_of_Week) - dayOrder.indexOf(b.Day_of_Week)]. *)
Definition by_day (a b : entry) : Z :=
  indexOf dayOrder (Day_of_Week a) - indexOf dayOrder (Day_of_Week b).

(** [chartData.sort(...)] of [renderCard2]: the array as the chart then
    reads it. *)
Definition renderCard2_sort (chartData : list entry) : list entry :=
  array_sort by_day chartData.

(** Every label is one of the seven of [dayOrder]. *)
Definition labels_in_dayOrder (chartData : list entry) : Prop :=
  forall e, In e chartData -> In (Day_of_Week e) dayOrder.

(** The entries stand in Monday to Sunday order. *)
Definition monday_to_sunday (chartData : list entry) : Prop :=
  StronglySorted
    (fun a b => indexOf dayOrder (Day_of_Week a) <= indexOf dayOrder (Day_of_Week b))
    chartData.

End Card2.

(** [String(v)]. *)
Definition String_of (v : value) : jsstring :=
  match v with
  | VUndefined => js "undefined"
  | VNull => js "null"
  | VBool true => js "true"
  | VBool false => js "false"
  | VNumber n => Number_toString n
  | VString s => s
  end.

(** ** The d3-array functions the cards call *)

Module D3.

(** [d3.max(values)], and [d3.max(array, accessor)] on the accessed
    values: [undefined] for no comparable value; NaN is skipped. *)
Definition max (values : list number) : option number :=
  fold_left
    (fun (max : option number) (value : number) =>
       match max with
       | Some m => if Num.ltb m value then Some value else max
       | None => if Num.geb value value then Some value else None
       end)
    values None.

(** One step of [d3.group]: [value] pushed to the group of [key], a new
    group at the end for a new key. *)
Fixpoint group_push {A : Type} (key : jsstring) (value : A)
    (groups : list (jsstring * list A)) : list (jsstring * list A) :=
  match groups with
  | [] => [(key, [value])]
  | (k, vs) :: rest =>
      if jsstring_eqb k key then (k, vs ++ [value]) :: rest
      else (k, vs) :: group_push key value rest
  end.

(** [d3.group(values, key)]: the groups in the order their keys first
    occur, each with its values in array order. *)
Definition group {A : Type} (values : list A) (key : A -> jsstring)
    : list (jsstring * list A) :=
  fold_left (fun groups value => group_push (key value) value groups) values [].

(** [map.get(key)]. *)
Fixpoint get {B : Type} (map : list (jsstring * B)) (key : jsstring) : option B :=
  match map with
  | [] => None
  | (k, v) :: rest => if jsstring_eqb k key then Some v else get rest key
  end.

(** [ascending(a, b)] of d3 on two Numbers: [None] stands for NaN. *)
Definition ascending (a b : number) : option Z :=
  if Num.ltb a b then Some (-1)
  else if Num.gtb a b then Some 1
  else if Num.geb a b then Some 0
  else None.

(** [d3.least(values, accessor)]: the first element whose accessed
    value is least, [undefined] when no value is comparable. *)
Definition least {A : Type} (values : list A) (accessor : A -> number) : option A :=
  option_map fst
    (fold_left
       (fun (st : option (A * number)) (element : A) =>
          let value := accessor element in
          match st with
          | Some (_, minValue) =>
              match ascending value minValue with
              | Some c => if c <? 0 then Some (element, value) else st
              | None => st
              end
          | None =>
              match ascending value value with
              | Some 0 => Some (element, value)
              | _ => None
              end
          end)
       values None).

End D3.

(** [DAY_FULL_NAMES[day]]. *)
Definition DAY_FULL_NAMES (day : jsstring) : option jsstring :=
  D3.get
    [ (js "Mon", js "Monday"); (js "Tue", js "Tuesday");
      (js "Wed", js "Wednesday"); (js "Thu", js "Thursday");
      (js "Fri", js "Friday"); (js "Sat", js "Saturday");
      (js "Sun", js "Sunday") ]
    day.

(** ** Card 3: the histograms *)

Module Card3.

(** A bin of the histograms artifact as the JSON file holds it. *)
Record json_bin : Type := {
  json_Day_of_Week : jsstring;
  json_bin_index : value;
  json_frequency : value;
  json_time_end_min : value
}.

(** The bin after the coercion of [renderCard3]. *)
Record bin : Type := {
  Day_of_Week : jsstring;
  bin_index : value;
  frequency : number;
  time_end_min : value
}.

(** [d.frequency = parseFloat(String(d.frequency).trim())]. *)
Definition coerce (d : json_bin) : bin :=
  {| Day_of_Week := json_Day_of_Week d;
     bin_index := json_bin_index d;
     frequency := parseFloat (trim (String_of (json_frequency d)));
     time_end_min := json_time_end_min d |}.

(** What [renderDayHistogram] draws: the container of the chart, its
    bars, the domain of its y scale, and the peak of its own data, which
    only picks the bars to highlight. *)
Record chart : Type := {
  containerId : jsstring;
  bars : list bin;
  y_domain : number * number;
  maxVal : option number
}.

(** [renderDayHistogram(containerId, chartData, maxFrequency)]. *)
Definition renderDayHistogram (containerId : jsstring) (chartData : list bin)
    (maxFrequency : option number) : chart :=
  {| containerId := containerId;
     bars := chartData;
     y_domain := (Num.zero, Num.mul (Num.of_optional maxFrequency) Num.n1_1);
     maxVal := D3.max (map frequency chartData) |}.

Definition dayOrder : list jsstring := DAY_ORDER.

(** [maxFrequency] of [renderCard3]: the maximum over the frequencies of
    the whole array. *)
Definition maxFrequency (rawData : list bin) : option number :=
  D3.max (map frequency rawData).

(** [renderCard3] on the fetched artifact: the charts it renders, in the
    order of [dayOrder], one for each weekday that has bins. *)
Definition renderCard3 (json : list json_bin) : list chart :=
  let rawData := map coerce json in
  let dataByDay := D3.group rawData Day_of_Week in
  let maxFrequency := maxFrequency rawData in
  flat_map
    (fun day =>
       match D3.get dataByDay day with
       | Some (b :: dayData) =>
           [renderDayHistogram (js "histogram-" ++ day) (b :: dayData) maxFrequency]
       | _ => []
       end)
    dayOrder.

End Card3.

(** ** Card 4: the normalised trend *)

Module Card4.

(** A point of the evolution artifact as the JSON file holds it. *)
Record json_point : Type := {
  json_day_of_year : value;
  json_Day_of_Week : jsstring;
  json_average_time_min : value
}.

(** The point as [renderCard4] works on it; [normalized_time] is
    [undefined] until the normalisation sets it. *)
Record point : Type := {
  day_of_year : number;
  Day_of_Week : jsstring;
  average_time_min : number;
  normalized_time : option number
}.

(** Step 1, the coercion:
    [d.day_of_year = parseInt(String(d.day_of_year).trim())] and
    [d.average_time_min = parseFloat(String(d.average_time_min).trim())]. *)
Definition coerce (d : json_point) : point :=
  {| day_of_year := parseInt (trim (String_of (json_day_of_year d)));
     Day_of_Week := json_Day_of_Week d;
     average_time_min := parseFloat (trim (String_of (json_average_time_min d)));
     normalized_time := None |}.

(** [maxTimeByDay]: for each day of [DAY_ORDER], the maximum of the
    average times of its points ([undefined] when it has none). *)
Definition maxTimeByDay (chartData : list point) : list (jsstring * option number) :=
  let dataByDay := D3.group chartData Day_of_Week in
  map
    (fun day =>
       let dayData :=
         match D3.get dataByDay day with Some l => l | None => [] end in
       (day, D3.max (map average_time_min dayData)))
    DAY_ORDER.

(** [maxTimeByDay.get(day)]: [undefined] for a day the map lacks and for
    a day whose maximum is [undefined]. *)
Definition maxTime (chartData : list point) (day : jsstring) : option number :=
  match D3.get (maxTimeByDay chartData) day with
  | Some m => m
  | None => None
  end.

(** Step 2, the normalisation:
    [d.normalized_time = (d.average_time_min / maxTime) * 100]. *)
Definition normalize (chartData : list point) : list point :=
  map
    (fun d =>
       {| day_of_year := day_of_year d;
          Day_of_Week := Day_of_Week d;
          average_time_min := average_time_min d;
          normalized_time :=
            Some (Num.mul
                    (Num.div (average_time_min d)
                       (Num.of_optional (maxTime chartData (Day_of_Week d))))
                    Num.n100) |})
    chartData.

(** The coercion and the normalisation of [renderCard4] on the fetched
    artifact. *)
Definition renderCard4_data (json : list json_point) : list point :=
  normalize (map coerce json).

(** The sign [Array.prototype.sort] reads off the Number a comparator
    returns: NaN counts as 0. *)
Definition sign (x : number) : Z :=
  if Num.ltb x Num.zero then -1 else if Num.gtb x Num.zero then 1 else 0.

(** The comparator [(a, b) => a.day_of_year - b.day_of_year]. *)
Definition by_day_of_year (a b : point) : Z :=
  sign (Num.sub (day_of_year a) (day_of_year b)).

(** [biggestImprover]: [day] is [null] at the start. *)
Record improver : Type := {
  day : option jsstring;
  improvement : number;
  dayName : option jsstring
}.

(** [startVal - endVal] for the points of one weekday: the normalised
    time of the first point of [sorted] less that of the last.
    [Array.prototype.sort] is stable, so for days of the year that are
    Numbers other than NaN there is one order it can give, that of
    [array_sort].  With a NaN among them the comparator returns NaN,
    which counts as 0 against every other day, and ECMAScript leaves
    the order to the engine; [array_sort] then is one such engine, the
    insertion sort, and nothing is claimed of the others. *)
Definition improvement_of (data : list point) : number :=
  let sorted := array_sort by_day_of_year data in
  match sorted with
  | [] => Num.NaN
  | first :: _ =>
      let startVal := Num.of_optional (normalized_time first) in
      let endVal := Num.of_optional (normalized_time (last sorted first)) in
      Num.sub startVal endVal
  end.

(** The body of [normalizedDataByDay.forEach((data, day) => ...)]. *)
Definition consider (biggestImprover : improver) (entry : jsstring * list point)
    : improver :=
  let '(day, data) := entry in
  if (1 <? length data)%nat then
    let improvement := improvement_of data in
    if Num.gtb improvement (Card4.improvement biggestImprover)
    then {| Card4.day := Some day; Card4.improvement := improvement;
            dayName := DAY_FULL_NAMES day |}
    else biggestImprover
  else biggestImprover.

(** The biggest improver of a normalised data set. *)
Definition biggestImprover (chartData : list point) : improver :=
  fold_left consider (D3.group chartData Day_of_Week)
    {| day := None; improvement := Num.NegInfinity; dayName := None |}.

(** The record as the pass leaves it in the array: when the pass runs
    on the same array again, [d.day_of_year] and [d.average_time_min]
    hold the Numbers the first pass stored ([d.normalized_time] is
    overwritten without being read). *)
Definition stored (d : point) : json_point :=
  {| json_day_of_year := VNumber (day_of_year d);
     json_Day_of_Week := Day_of_Week d;
     json_average_time_min := VNumber (average_time_min d) |}.

End Card4.

(** ** Cards 6 and 7: the fastest puzzle *)

Module Card6.

(** A row of the fast_days artifact. *)
Record row : Type := {
  Date : value;
  Day_of_Week : value;
  Author : value;
  Time_formatted : value;
  Deviation_Percent_Label : value;
  puzzle_id : value
}.

(** The fetched JSON: an array of rows, or an object whose [data] may
    hold one. *)
Inductive artifact : Type :=
  | JArray (rows : list row)
  | JObject (data : option (list row)).

(** [Array.isArray(raw) ? raw : raw.data || []]. *)
Definition tableData_of (rawTableData : artifact) : list row :=
  match rawTableData with
  | JArray rows => rows
  | JObject (Some rows) => rows
  | JObject None => []
  end.

(** The characters [replace(/[^0-9.-]+/g, '')] keeps. *)
Definition numeric_char (c : N) : bool := (isDigit c || (c =? 46) || (c =? 45))%N.

(** [label == null]. *)
Definition nullish (v : value) : bool :=
  match v with VUndefined | VNull => true | _ => false end.

(** [_parseDeviation(label)]. *)
Definition _parseDeviation (label : value) : number :=
  if nullish label then Num.Infinity
  else
    let num := parseFloat (filter numeric_char (String_of label)) in
    if Num.isFinite num then num else Num.Infinity.

(** The [reduce] the cards fall back on when [d3.least] is missing. *)
Definition least_by_reduce (tableData : list row) : option row :=
  fold_left
    (fun (best : option row) (d : row) =>
       match best with
       | None => Some d
       | Some b =>
           if Num.ltb (_parseDeviation (Deviation_Percent_Label d))
                      (_parseDeviation (Deviation_Percent_Label b))
           then Some d else best
       end)
    tableData None.

(** [_fastestPuzzle] of [renderCard6] and [renderCard7];
    [d3_has_least] is [typeof d3.least === 'function']. *)
Definition _fastestPuzzle (d3_has_least : bool) (tableData : list row) : option row :=
  if d3_has_least
  then D3.least tableData (fun d => _parseDeviation (Deviation_Percent_Label d))
  else least_by_reduce tableData.

(** What [renderCard7] does about the replay: it warns and returns, or
    it fetches [`../puzzle_completion_data/${puzzleId}.json`]. *)
Inductive replay : Type :=
  | Skipped
  | Fetches (puzzleId : value).

(** [renderCard7] up to the fetch of the replay data. *)
Definition renderCard7 (d3_has_least : bool) (rawTableData : artifact) : replay :=
  let tableData := tableData_of rawTableData in
  match tableData with
  | [] => Skipped
  | _ :: _ =>
      match _fastestPuzzle d3_has_least tableData with
      | None => Skipped
      | Some p => if truthy (puzzle_id p) then Fetches (puzzle_id p) else Skipped
      end
  end.

(** The label parses to a finite number. *)
Definition parseable (label : value) : bool :=
  negb (nullish label)
  && Num.isFinite (parseFloat (filter numeric_char (String_of label))).

End Card6.

(** ** Card 1: the completion arcs *)

Module Card1.

(** The summary artifact as [animateArc] receives it. *)
Record summary : Type := {
  total_completed : number;
  gold_star_completed : number;
  total_available : number
}.

(** [finalRateTotal] and [finalRateGold] of [animateArc]. *)
Definition finalRateTotal (data : summary) : number :=
  Num.mul (Num.div (total_completed data) (total_available data)) Num.n100.

Definition finalRateGold (data : summary) : number :=
  Num.mul (Num.div (gold_star_completed data) (total_available data)) Num.n100.

End Card1.

(** ** Slide navigation *)

Definition totalCards : Z := 9.

Section Navigation.

(** The page: whether [document.getElementById(`card-${i}`)] finds an
    element.  The markup (index.html) is the page's own. *)
Variable page_has_card : Z -> bool.

(** [nextCard()]: the new [currentCardIndex]. *)
Definition nextCard (currentCardIndex : Z) : completion Z :=
  if page_has_card currentCardIndex
  then Returns (Z.rem (currentCardIndex + 1) totalCards)
  else Throws.

(** [prevCard()]: the new [currentCardIndex]. *)
Definition prevCard (currentCardIndex : Z) : completion Z :=
  if page_has_card currentCardIndex
  then Returns (Z.rem (currentCardIndex - 1 + totalCards) totalCards)
  else Throws.

(** The navigation keys of the [keydown] listener. *)
Inductive key : Type := ArrowRight | ArrowLeft.

(** One key press: a handler that throws leaves [currentCardIndex] as it
    was, since the assignment comes after the throwing statement. *)
Definition press (k : key) (currentCardIndex : Z) : Z :=
  match (match k with
         | ArrowRight => nextCard currentCardIndex
         | ArrowLeft => prevCard currentCardIndex
         end) with
  | Returns i => i
  | Throws => currentCardIndex
  end.

(** [currentCardIndex] after a sequence of key presses. *)
Definition presses (ks : list key) (currentCardIndex : Z) : Z :=
  fold_left (fun i k => press k i) ks currentCardIndex.

End Navigation.

(** A page that holds the cards [card-0] .. [card-8]. *)
Definition page_complete (page_has_card : Z -> bool) : Prop :=
  forall i, 0 <= i < totalCards -> page_has_card i = true.

(** ** Notions the statements and proofs use *)

(** A Number other than NaN has a place in a linear order: the rank
    compares as the Number does. *)
Definition rank (x : number) : Z * Z * Z :=
  match x with
  | S754_infinity true => (-2, 0, 0)
  | S754_finite true m e => (-1, - e, - Zpos m)
  | S754_zero _ => (0, 0, 0)
  | S754_nan => (0, 0, 0)
  | S754_finite false m e => (1, e, Zpos m)
  | S754_infinity false => (2, 0, 0)
  end.

Definition rank_lt (p q : Z * Z * Z) : Prop :=
  let '(a, b, c) := p in
  let '(a', b', c') := q in
  a < a' \/ (a = a' /\ (b < b' \/ (b = b' /\ c < c'))).

Definition rank_le (p q : Z * Z * Z) : Prop :=
  let '(a, b, c) := p in
  let '(a', b', c') := q in
  a < a' \/ (a = a' /\ (b < b' \/ (b = b' /\ c <= c'))).

(** [fexp] at binary64: the exponent of the last place of a Number of
    magnitude [2^e]. *)
Definition fexp53 (e : Z) : Z := Z.max (e - 53) (-1074).

(** Nothing was shifted out of the record. *)
Definition shr_exact (mrs : shr_record) : bool := negb (shr_r mrs || shr_s mrs).

(** The finite datum, zero or infinity a rounded mantissa [m2 <= 2^53] at
    exponent [e1] becomes. *)
Definition pack (s : bool) (m2 e1 : Z) : number :=
  if m2 =? 0 then S754_zero s
  else if m2 <? 2 ^ 53 then
    if e1 <=? 971 then S754_finite s (Z.to_pos m2) e1 else S754_infinity s
  else
    if e1 + 1 <=? 971 then S754_finite s (Z.to_pos (m2 / 2)) (e1 + 1)
    else S754_infinity s.

(** The mantissa [m] is canonical for the exponent [e]. *)
Definition canonical (m : positive) (e : Z) : Prop :=
  fexp53 (Zdigits2 (Zpos m) + e) = e.

(** The integer [(-1)^s * m * 2^(e - c)]: the value of a finite Number
    in units of [2^c]. *)
Definition scaled_value (c : Z) (s : bool) (m : positive) (e : Z) : Z :=
  cond_Zopp s (Zpos m * 2 ^ (e - c)).

(** [el] with its value [v] is least among the elements seen. *)
Definition least_of {A : Type} (f : A -> number) (seen : list A)
    (st : option (A * number)) : Prop :=
  match st with
  | Some (el, v) =>
      v = f el /\ In el seen /\ forall x, In x seen -> Num.leb v (f x) = true
  | None => seen = []
  end.

(** The values of [l] whose key is [k], in array order. *)
Definition with_key {A : Type} (key : A -> jsstring) (k : jsstring) (l : list A)
    : list A :=
  filter (fun x => jsstring_eqb (key x) k) l.

(** [map.get] finds a group when the key has values. *)
Definition lookup_of {A : Type} (vs : list A) : option (list A) :=
  match vs with [] => None | _ :: _ => Some vs end.

(** ** [Number.prototype.toFixed] *)

(** [x.toFixed(0)]: [Number::toString(x)] for a Number that is not
    finite or whose magnitude is [10^21] or more; otherwise the integer
    nearest to [x] (the larger of two that are equally near to the
    magnitude), in digits, after a minus sign when [x < 0]. *)
Definition Number_toFixed0 (x : number) : jsstring :=
  match x with
  | S754_nan | S754_infinity _ => Number_toString x
  | S754_zero _ => js "0"
  | S754_finite neg m e =>
      let '(num, den) := fraction m e in
      (if neg then [45%N] else [])
      ++ (if 10 ^ 21 * den <=? num
          then Number_toString (S754_finite false m e)
          else digits_of (Z.to_N ((2 * num + den) / (2 * den))))
  end.

(** ** Card 4: the lines and the trend summary *)

Module Trend.

(** [`${v}`] for a property that holds a string or is [undefined]. *)
Definition text_of (v : option jsstring) : jsstring :=
  match v with Some s => s | None => js "undefined" end.

(** The two texts [drawLineSequentially] puts into the trend summary:
    [`${biggestImprover.dayName}s`] and
    [`${biggestImprover.improvement.toFixed(0)}%`]. *)
Definition trendText (biggestImprover : Card4.improver) : jsstring * jsstring :=
  (text_of (Card4.dayName biggestImprover) ++ js "s",
   Number_toFixed0 (Card4.improvement biggestImprover) ++ js "%").

(** What [drawLineSequentially] puts on the chart: the path of a
    weekday, the marker at the end of a path, the trend summary. *)
Inductive drawing : Type :=
  | Line (day : jsstring) (dayData : list Card4.point)
  | Marker (day : jsstring) (lastPoint : Card4.point)
  | Summary (texts : jsstring * jsstring).

(** [drawLineSequentially(index, normalizedDataByDay, ...,
    biggestImprover)]: what it and the calls it makes draw, in order.
    The call for the next index is made when the transition of the line
    has ended (or at once, for a weekday without a line); [fuel] bounds
    the number of calls. *)
Fixpoint drawLineSequentially (fuel : nat) (index : nat)
    (normalizedDataByDay : list (jsstring * list Card4.point))
    (biggestImprover : Card4.improver) : list drawing :=
  match fuel with
  | O => []
  | S fuel' =>
      match nth_error DAY_ORDER index with
      | None => [Summary (trendText biggestImprover)]
      | Some day =>
          let next :=
            drawLineSequentially fuel' (S index) normalizedDataByDay biggestImprover in
          match D3.get normalizedDataByDay day with
          | Some (first :: rest) =>
              if (1 <? length (first :: rest))%nat
              then Line day (first :: rest) :: Marker day (last rest first) :: next
              else next
          | _ => next
          end
      end
  end.

(** The drawing [renderCard4] starts for the fetched artifact, with
    calls enough for the seven weekdays and the summary.  For an empty
    artifact [renderCard4] returns before it does anything with the
    data: nothing is drawn, and the summary stays hidden. *)
Definition renderCard4_drawing (json : list Card4.json_point) : list drawing :=
  match json with
  | [] => []
  | _ :: _ =>
      let chartData := Card4.renderCard4_data json in
      drawLineSequentially 8 0 (D3.group chartData Card4.Day_of_Week)
        (Card4.biggestImprover chartData)
  end.

(** The weekdays of the lines of a drawing, in the order drawn. *)
Definition lines (ds : list drawing) : list jsstring :=
  flat_map (fun d => match d with Line day _ => [day] | _ => [] end) ds.

End Trend.

(** ** Card 3: inside a histogram *)

Module Histogram.

(** [s.split(sep)] for a separator of one code unit: the pieces between
    its occurrences; one empty piece for the empty string. *)
Fixpoint split (sep : N) (s : jsstring) : list jsstring :=
  match s with
  | [] => [[]]
  | c :: s' =>
      if (c =? sep)%N then [] :: split sep s'
      else
        match split sep s' with
        | piece :: pieces => (c :: piece) :: pieces
        | [] => [[c]]
        end
  end.

(** [dayName] of [renderDayHistogram]:
    [containerId.split('-')[1] || "Mon"]. *)
Definition dayName (containerId : jsstring) : jsstring :=
  match nth_error (split 45 containerId) 1 with
  | Some (c :: piece) => c :: piece
  | _ => js "Mon"
  end.

(** [gradId]: the id of the gradient the chart defines for its bars,
    [`grad-${dayName}`]. *)
Definition gradId (containerId : jsstring) : jsstring :=
  js "grad-" ++ dayName containerId.

(** The test of the peak styling of a bar,
    [d.frequency === maxVal && d.frequency > 0]. *)
Definition peak (c : Card3.chart) (d : Card3.bin) : bool :=
  match Card3.maxVal c with
  | Some maxVal =>
      Num.eqb (Card3.frequency d) maxVal && Num.gtb (Card3.frequency d) Num.zero
  | None => false
  end.

(** The bars that get a frequency label: [.filter(d => d.frequency > 0)]. *)
Definition labelled (c : Card3.chart) : list Card3.bin :=
  filter (fun d => Num.gtb (Card3.frequency d) Num.zero) (Card3.bars c).

End Histogram.

(** ** Card 7: the completion curve of the replay *)

Module Replay.

(** A cell of [data.board.cells]: [blank] as the file has it,
    [timestamp] a JSON number or absent ([undefined]). *)
Record cell : Type := {
  blank : value;
  timestamp : option number;
  guess : value
}.

(** [!c.blank && c.timestamp !== undefined]. *)
Definition filled (c : cell) : bool :=
  negb (truthy (blank c))
  && match timestamp c with Some _ => true | None => false end.

(** The comparator [(a, b) => a.timestamp - b.timestamp]. *)
Definition by_timestamp (a b : cell) : Z :=
  Card4.sign (Num.sub (Num.of_optional (timestamp a)) (Num.of_optional (timestamp b))).

(** [sortedFills]. *)
Definition sortedFills (cells : list cell) : list cell :=
  array_sort by_timestamp (filter filled cells).

(** [d3.min(values)], and [d3.min(array, accessor)] on the accessed
    values: [undefined] for no comparable value; NaN is skipped. *)
Definition d3_min (values : list number) : option number :=
  fold_left
    (fun (min : option number) (value : number) =>
       match min with
       | Some m => if Num.gtb m value then Some value else min
       | None => if Num.geb value value then Some value else None
       end)
    values None.

(** A point of the completion curve. *)
Record sample : Type := {
  time : option number;
  percent : number
}.

(** [sortedFills.map(d => { cumulative++; return { time: d.timestamp,
    percent: (cumulative / totalFillable) * 100 }; })], from the count
    [cumulative] on.  The counter and the length are integers below
    [2^53] (an array has fewer than [2^32] elements), which are Numbers
    as they stand. *)
Fixpoint samples (cumulative totalFillable : Z) (fills : list cell) : list sample :=
  match fills with
  | [] => []
  | d :: rest =>
      {| time := timestamp d;
         percent :=
           Num.mul (Num.div (Num.of_Z (cumulative + 1)) (Num.of_Z totalFillable))
             Num.n100 |}
      :: samples (cumulative + 1) totalFillable rest
  end.

(** [chartData] of [renderCard7], with the point
    [{ time: minTS, percent: 0 }] put in front. *)
Definition chartData (cells : list cell) : list sample :=
  let sortedFills := sortedFills cells in
  let totalFillable := Z.of_nat (length sortedFills) in
  let minTS := d3_min (map (fun d => Num.of_optional (timestamp d)) sortedFills) in
  {| time := minTS; percent := Num.zero |} :: samples 0 totalFillable sortedFills.

End Replay.

(** [x + y]. *)
Definition Num_add (x y : number) : number := SFadd Num.prec Num.emax x y.

(** ** Card 7: the letters of the replay *)

Module Reveal.

(** [startDelay] and [totalSolveDuration] of [renderCard7]. *)
Definition startDelay : number := Num.of_Z 2000.
Definition totalSolveDuration : number := Num.of_Z 20000.

(** [minTS] and [maxTS]: [d3.min] and [d3.max] of the time stamps of
    [sortedFills]. *)
Definition minTS (cells : list Replay.cell) : option number :=
  Replay.d3_min (map (fun d => Num.of_optional (Replay.timestamp d)) (Replay.sortedFills cells)).

Definition maxTS (cells : list Replay.cell) : option number :=
  D3.max (map (fun d => Num.of_optional (Replay.timestamp d)) (Replay.sortedFills cells)).

(** [normalizedDelay] for the cell [cellData]:
    [startDelay + ((cellData.timestamp - minTS) / (maxTS - minTS)) * totalSolveDuration]. *)
Definition normalizedDelay (cells : list Replay.cell) (cellData : Replay.cell) : number :=
  Num_add startDelay
    (Num.mul
       (Num.div
          (Num.sub (Num.of_optional (Replay.timestamp cellData))
                   (Num.of_optional (minTS cells)))
          (Num.sub (Num.of_optional (maxTS cells)) (Num.of_optional (minTS cells))))
       totalSolveDuration).

(** The letters of [cells.forEach]: a cell that is not blank gets a
    letter and a timer with its delay, in the order of the board. *)
Definition letters (cells : list Replay.cell) : list (Replay.cell * number) :=
  map (fun cellData => (cellData, normalizedDelay cells cellData))
      (filter (fun cellData => negb (truthy (Replay.blank cellData))) cells).

End Reveal.

(** ** [Math.min] and [Math.max] *)

(** [Math.min(...values)]: NaN if a value is NaN; otherwise the least
    value, from [+Infinity] on, with [-0] below [+0]. *)
Definition Math_min (values : list number) : number :=
  if existsb Num.isNaN values then Num.NaN
  else
    fold_left
      (fun (lowest : number) (n : number) =>
         match n, lowest with
         | S754_zero true, S754_zero false => n
         | _, _ => if Num.ltb n lowest then n else lowest
         end)
      values Num.Infinity.

(** [Math.max(...values)]: NaN if a value is NaN; otherwise the
    greatest value, from [-Infinity] on, with [+0] above [-0]. *)
Definition Math_max (values : list number) : number :=
  if existsb Num.isNaN values then Num.NaN
  else
    fold_left
      (fun (highest : number) (n : number) =>
         match n, highest with
         | S754_zero false, S754_zero true => n
         | _, _ => if Num.gtb n highest then n else highest
         end)
      values Num.NegInfinity.

(** ** The frame of the app *)

Module Frame.

(** [scale] of [fitAppFrame]: [Math.min(vw / 540, vh / 960, 1)]. *)
Definition scale (vw vh : number) : number :=
  Math_min [Num.div vw (Num.of_Z 540); Num.div vh (Num.of_Z 960); Num.one].

(** [fitAppFrame()]: the [transform] it gives the frame, if the page
    has an element of class [app-frame]; [innerWidth] and [innerHeight]
    are those of the window. *)
Definition fitAppFrame (frame : bool) (innerWidth innerHeight : number) : option jsstring :=
  if frame
  then Some (js "scale(" ++ Number_toString (scale innerWidth innerHeight) ++ js ")")
  else None.

End Frame.

(** ** Card 1: the frames of the arcs *)

Module Arc.

(** [duration] and [goldArcDelay] of [animateArc]. *)
Definition duration : number := Num.of_Z 2500.
Definition goldArcDelay : number := Num.of_Z 400.

(** What a call of [draw] computes and shows: the two progresses and
    rates the arcs are drawn from, whether the gold arc is drawn, the
    text of [completion-rate], whether [draw] asks for another frame,
    and, when it does not, the text of [hint-difference].  The canvas
    calls that stroke the arcs are not part of the record. *)
Record frame : Type := {
  progressTotal : number;
  currentRateTotal : number;
  progressGold : number;
  currentRateGold : number;
  goldArc : bool;
  rate : jsstring;
  again : bool;
  hint : option jsstring
}.

(** [if (!startTime) startTime = timestamp;] for [let startTime],
    which is [undefined] before the first frame. *)
Definition started (startTime : option number) (timestamp : number) : number :=
  match startTime with
  | Some t => if truthy (VNumber t) then t else timestamp
  | None => timestamp
  end.

(** [draw(timestamp)]: the new [startTime] and the frame. *)
Definition draw (data : Card1.summary) (startTime : option number) (timestamp : number)
    : number * frame :=
  let finalRateTotal := Card1.finalRateTotal data in
  let finalRateGold := Card1.finalRateGold data in
  let startTime := started startTime timestamp in
  let elapsed := Num.sub timestamp startTime in
  let progressTotal := Math_min [Num.one; Num.div elapsed duration] in
  let currentRateTotal := Num.mul finalRateTotal progressTotal in
  let goldElapsed := Math_max [Num.zero; Num.sub elapsed goldArcDelay] in
  let progressGold :=
    Math_min [Num.one; Num.div goldElapsed (Num.sub duration goldArcDelay)] in
  let currentRateGold := Num.mul finalRateGold progressGold in
  let again := Num.ltb progressTotal Num.one in
  let differenceRate := Num.sub finalRateTotal finalRateGold in
  (startTime,
   {| progressTotal := progressTotal;
      currentRateTotal := currentRateTotal;
      progressGold := progressGold;
      currentRateGold := currentRateGold;
      goldArc := Num.geb elapsed goldArcDelay;
      rate :=
        (if again then Number_toFixed0 currentRateGold else Number_toFixed0 finalRateGold)
        ++ js "%";
      again := again;
      hint :=
        if again then None
        else if Num.ltb finalRateGold Num.n100 && Num.gtb differenceRate Num.zero
             then Some (js "+" ++ Number_toFixed0 differenceRate ++ js "%")
             else Some [] |}).

(** The frames of the animation for the time stamps the browser hands
    to [draw], one after the other: [draw] asks for the next frame as
    long as [progressTotal < 1]. *)
Fixpoint frames (data : Card1.summary) (startTime : option number)
    (timestamps : list number) : list frame :=
  match timestamps with
  | [] => []
  | timestamp :: later =>
      let '(startTime', f) := draw data startTime timestamp in
      f :: (if again f then frames data (Some startTime') later else [])
  end.

(** [animateArc(canvas, data)] with the frames the browser gives it. *)
Definition animateArc (data : Card1.summary) (timestamps : list number) : list frame :=
  frames data None timestamps.

End Arc.

(** [Math.floor(x)]: the greatest integer no greater than [x].  A
    finite Number with a negative exponent is [m / 2^(-e)], and its
    floor has no more bits than [m], so it is the Number [Num.of_Z]
    gives; [Math.floor(-0.5)] is [-1] and [Math.floor(0.5)] is [+0]. *)
Definition Math_floor (x : number) : number :=
  match x with
  | S754_finite s m e =>
      if 0 <=? e then x
      else Num.of_Z (cond_Zopp s (Zpos m) / 2 ^ (- e))
  | _ => x
  end.

(** ** Card 4: the y axis of the trend chart *)

Module TrendAxis.

(** [minNormalizedTime]: [d3.min(chartData, d => d.normalized_time)]. *)
Definition minNormalizedTime (chartData : list Card4.point) : option number :=
  Replay.d3_min (map (fun d => Num.of_optional (Card4.normalized_time d)) chartData).

(** [yMinDomain]: [Math.floor(minNormalizedTime * 0.95)]. *)
Definition yMinDomain (chartData : list Card4.point) : number :=
  Math_floor (Num.mul (Num.of_optional (minNormalizedTime chartData))
                      (Num.of_decimal false 95 (-2))).

(** The domain of the scale [y]: [[100, yMinDomain]]. *)
Definition y_domain (chartData : list Card4.point) : number * number :=
  (Num.n100, yMinDomain chartData).

End TrendAxis.

(** ** Card 7: where the confetti starts *)

Module Confetti.

(** The rectangle [getBoundingClientRect()] gives for the frame. *)
Record rect : Type := {
  left : number;
  top : number;
  width : number;
  height : number
}.

(** An origin of a confetti launch, in fractions of the viewport. *)
Record origin : Type := {
  x : number;
  y : number
}.

(** [a || b] for two Numbers. *)
Definition or_else (a b : number) : number :=
  if truthy (VNumber a) then a else b.

(** [clamp]: [v => Math.min(Math.max(v, 0), 1)]. *)
Definition clamp (v : number) : number :=
  Math_min [Math_max [v; Num.zero]; Num.one].

(** [_confettiOrigins]: the origins [left] and [right]; [frame] is the
    rectangle of the element of class [app-frame], if the page has
    one. *)
Definition confettiOrigins (frame : option rect)
    (innerWidth clientWidth innerHeight clientHeight : number) : origin * origin :=
  match frame with
  | None =>
      ({| x := Num.zero; y := Num.of_decimal false 8 (-1) |},
       {| x := Num.one; y := Num.of_decimal false 8 (-1) |})
  | Some r =>
      let vw := or_else innerWidth clientWidth in
      let vh := or_else innerHeight clientHeight in
      let leftX :=
        Num.div (Num_add (left r) (Num.mul (width r) (Num.of_decimal false 8 (-2)))) vw in
      let rightX :=
        Num.div (Num_add (left r) (Num.mul (width r) (Num.of_decimal false 92 (-2)))) vw in
      let bottomY :=
        Num.div (Num_add (top r) (Num.mul (height r) (Num.of_decimal false 9 (-1)))) vh in
      ({| x := clamp leftX; y := clamp bottomY |},
       {| x := clamp rightX; y := clamp bottomY |})
  end.

End Confetti.

(** ** Objects used as maps *)

(** The array index a property key stands for, if it is one: the
    canonical decimal string of an integer below [2^32 - 1]. *)
Definition array_index (key : jsstring) : option N :=
  let n := digits_value key 0 in
  if forallb isDigit key && jsstring_eqb key (digits_of n) && (n <? 2 ^ 32 - 1)%N
  then Some n else None.

(** [Object.keys(o)] for an object whose own properties, all
    enumerable and with string keys, are [o] in the order of their
    creation: the array indices in ascending order, then the other
    keys in the order of creation. *)
Definition Object_keys {A : Type} (o : list (jsstring * A)) : list jsstring :=
  let keys := map fst o in
  let index (key : jsstring) : Z :=
    match array_index key with Some n => Z.of_N n | None => 0 end in
  array_sort (fun a b => index a - index b)
    (filter (fun key => match array_index key with Some _ => true | None => false end) keys)
  ++ filter (fun key => match array_index key with Some _ => false | None => true end) keys.

(** [array.join(separator)] for an array of strings. *)
Fixpoint join (separator : jsstring) (array : list jsstring) : jsstring :=
  match array with
  | [] => []
  | [a] => a
  | a :: rest => a ++ separator ++ join separator rest
  end.

(** ** Card 5: the authors that stumped the solver *)

Module Card5.

(** What a property of [authorCounts] holds: a Number, or a string.
    The string is what [+ 1] makes of a function or of an object
    inherited from [Object.prototype], and of that string again: it
    begins with the text of the function or of the object, so that it
    is not empty and converts to NaN. *)
Inductive tally : Type :=
  | Counted (n : number)
  | Written.

(** The own property [key] of the object. *)
Fixpoint own (o : list (jsstring * tally)) (key : jsstring) : option tally :=
  match o with
  | [] => None
  | (k, v) :: rest => if jsstring_eqb k key then Some v else own rest key
  end.

(** [o[key] = v] where [key] is not [__proto__]: the own property is
    set, a new one is created at the end. *)
Fixpoint put (o : list (jsstring * tally)) (key : jsstring) (v : tally)
    : list (jsstring * tally) :=
  match o with
  | [] => [(key, v)]
  | (k, w) :: rest =>
      if jsstring_eqb k key then (k, v) :: rest else (k, w) :: put rest key v
  end.

Section Host.

(** The property names of [Object.prototype] in the host, other than
    [__proto__]: [constructor], [toString], [valueOf] and the like,
    each of which holds a function. *)
Variable on_Object_prototype : jsstring -> bool.

(** An object created by [{}] inherits the property [key]. *)
Definition inherited (key : jsstring) : bool :=
  jsstring_eqb key (js "__proto__") || on_Object_prototype key.

(** [(authorCounts[key] || 0) + 1]: an own count, or 0, and 1; an own
    string, or an inherited function or object, and ["1"]. *)
Definition incremented (authorCounts : list (jsstring * tally)) (key : jsstring) : tally :=
  match own authorCounts key with
  | Some (Counted n) =>
      Counted (Num_add (if truthy (VNumber n) then n else Num.zero) Num.one)
  | Some Written => Written
  | None =>
      if inherited key then Written else Counted (Num_add Num.zero Num.one)
  end.

(** [authorCounts[key] = v]: the setter of [__proto__] ignores a
    value that is no object. *)
Definition assign (authorCounts : list (jsstring * tally)) (key : jsstring) (v : tally)
    : list (jsstring * tally) :=
  if jsstring_eqb key (js "__proto__") then authorCounts else put authorCounts key v.

(** [authorCounts] after the [forEach] over [tableData]; the key of
    [d.Author] is [String(d.Author)]. *)
Definition authorCounts (tableData : list Card6.row) : list (jsstring * tally) :=
  fold_left
    (fun counts d =>
       let key := String_of (Card6.Author d) in
       assign counts key (incremented counts key))
    tableData [].

(** [authorCounts[author] > 1]. *)
Definition more_than_once (authorCounts : list (jsstring * tally)) (author : jsstring) : bool :=
  match own authorCounts author with
  | Some (Counted n) => Num.gtb n Num.one
  | Some Written => false
  | None => false
  end.

(** [frequentAuthors]. *)
Definition frequentAuthors (tableData : list Card6.row) : list jsstring :=
  let authorCounts := authorCounts tableData in
  filter (more_than_once authorCounts) (Object_keys authorCounts).

End Host.

(** [authorList] for the authors of [frequentAuthors], one at least. *)
Definition authorList (frequentAuthors : list jsstring) : jsstring :=
  match frequentAuthors with
  | [a] => a
  | [a; b] => a ++ js " and " ++ b
  | _ =>
      join (js ", ") (removelast frequentAuthors)
      ++ js ", and " ++ last frequentAuthors (js "undefined")
  end.

(** The row of [d] can be written: [formatTimeToMMSS(d.Time_formatted)],
    which [allRows.html] calls for it, returns. *)
Definition row_is_written (d : Card6.row) : bool :=
  match formatTimeToMMSS (Card6.Time_formatted d) with
  | Returns _ => true
  | Throws => false
  end.

(** The text [renderCard5] shows below the table, if it shows one:
    none for an empty table and none without a frequent author.  The
    rows are written after the authors are counted and before the text
    is set up: when [formatTimeToMMSS] throws for a row, the [catch] of
    [renderCard5] takes over and no text is shown. *)
Definition summary (on_Object_prototype : jsstring -> bool) (rawData : Card6.artifact)
    : option jsstring :=
  match Card6.tableData_of rawData with
  | [] => None
  | tableData =>
      let frequentAuthors := frequentAuthors on_Object_prototype tableData in
      if forallb row_is_written tableData then
        match frequentAuthors with
        | [] => None
        | authors => Some (authorList authors ++ js " really stumped you!")
        end
      else None
  end.

End Card5.

(** [n % d]: the remainder of the division that truncates, which is
    exact and has the sign of the dividend [n]. *)
Definition Num_rem (n d : number) : number :=
  match n, d with
  | S754_nan, _ => Num.NaN
  | _, S754_nan => Num.NaN
  | S754_infinity _, _ => Num.NaN
  | _, S754_zero _ => Num.NaN
  | _, S754_infinity _ => n
  | S754_zero _, _ => n
  | S754_finite sn mn en, S754_finite _ md ed =>
      let c := Z.min en ed in
      let r := (Zpos mn * 2 ^ (en - c)) mod (Zpos md * 2 ^ (ed - c)) in
      if r =? 0 then S754_zero sn
      else binary_normalize Num.prec Num.emax (cond_Zopp sn r) c false
  end.

(** ** Card 7: the timer of the replay *)

Module Timer.

(** [d3.interpolateNumber(a, b)] at [t]. *)
Definition interpolateNumber (a b t : number) : number :=
  Num_add (Num.mul a (Num.sub Num.one t)) (Num.mul b t).

(** The text the tween of [renderCard7] gives the timer at [t], for
    [actualSeconds] a JSON number or absent ([undefined]). *)
Definition textContent (actualSeconds : option number) (t : number) : jsstring :=
  let i := interpolateNumber Num.zero (Num.of_optional actualSeconds) in
  let currentSec := Math_floor (i t) in
  let mins := Math_floor (Num.div currentSec (Num.of_Z 60)) in
  let secs := Num_rem currentSec (Num.of_Z 60) in
  Number_toString mins ++ js ":" ++ padStart (Number_toString secs) 2 (js "0").

End Timer.

(** [Math.round(x)]: the integer nearest to [x], the greater one of
    two that are equally near; [-0] for a value from [-0.5] up to
    [-0]. *)
Definition Math_round (x : number) : number :=
  match x with
  | S754_finite s m e =>
      if 0 <=? e then x
      else
        let q := (cond_Zopp s (2 * Zpos m) + 2 ^ (- e)) / 2 ^ (1 - e) in
        if q =? 0 then S754_zero s else Num.of_Z q
  | _ => x
  end.

(** ** Card 3: the labels of the time axis *)

Module TimeAxis.

(** The label [tickFormat] gives the tick of a bin that ends at the
    Number [maxTimeMin] of minutes: none for a falsy [time_end_min]. *)
Definition tickLabel (maxTimeMin : number) : completion value :=
  if truthy (VNumber maxTimeMin) then
    let minutes := Math_floor maxTimeMin in
    let seconds := Math_round (Num.mul (Num_rem maxTimeMin Num.one) (Num.of_Z 60)) in
    let timeString :=
      Number_toString minutes ++ js "m " ++ Number_toString seconds ++ js "s" in
    formatTimeToMMSS (VString timeString)
  else Returns (VString []).

End TimeAxis.

(** ** More notions the statements and proofs use *)

(** The Number [x] with the sign [neg]. *)
Definition with_sign (neg : bool) (x : number) : number :=
  match x with
  | S754_zero _ => S754_zero neg
  | S754_infinity _ => S754_infinity neg
  | S754_nan => S754_nan
  | S754_finite _ m e => S754_finite neg m e
  end.

(** The scan for the characters [p] stops at the head of [rest]. *)
Definition stops (p : N -> bool) (rest : jsstring) : Prop :=
  match rest with
  | c :: _ => p c = false
  | [] => True
  end.

(** A code unit [trim] leaves in place. *)
Definition nonspace (c : N) : bool := negb (isSpace c).

(** The sign [Number::toString] writes. *)
Definition minus (neg : bool) : jsstring := if neg then [45%N] else [].

(** [String(x)] is a run of decimal digits after an optional minus
    sign. *)
Definition written_in_digits (x : number) : bool :=
  forallb isDigit (snd (read_sign (Number_toString x))).

(** [x] is an integer: a zero, or a finite Number whose value
    [m * 2^e], as a fraction, has no remainder. *)
Definition integral (x : number) : bool :=
  match x with
  | S754_zero _ => true
  | S754_finite _ m e => let '(num, den) := fraction m e in num mod den =? 0
  | _ => false
  end.

(** [x] is an integer, an infinity or NaN: it has no fraction digits. *)
Definition whole_or_not_finite (x : number) : bool :=
  integral x || negb (Num.isFinite x).

(** [1e21], from which on [Number::toString] writes an exponent. *)
Definition n1e21 : number := Num.of_decimal false 1 21.

(** [x] is [-0]. *)
Definition negative_zero (x : number) : bool :=
  match x with S754_zero true => true | _ => false end.

(** The point goes through the coercion of [renderCard4] unchanged:
    neither Number is [-0], and the day of the year is NaN or of
    magnitude below [10^21]. *)
Definition repeatable (d : Card4.point) : bool :=
  negb (negative_zero (Card4.average_time_min d))
  && negb (negative_zero (Card4.day_of_year d))
  && (Num.isNaN (Card4.day_of_year d)
      || Num.ltb (SFabs (Card4.day_of_year d)) n1e21).

(** The array after [renderCard4] has run on it [n] times more than
    once: each run finds in the records the Numbers the run before has
    stored. *)
Fixpoint run_again (n : nat) (json : list Card4.json_point) : list Card4.point :=
  match n with
  | O => Card4.renderCard4_data json
  | S n' => Card4.renderCard4_data (map Card4.stored (run_again n' json))
  end.

(** What one weekday adds to the drawing. *)
Definition one_day (groups : list (jsstring * list Card4.point)) (day : jsstring)
    : list Trend.drawing :=
  match D3.get groups day with
  | Some (first :: rest) =>
      if (1 <? length (first :: rest))%nat
      then [Trend.Line day (first :: rest); Trend.Marker day (last rest first)]
      else []
  | _ => []
  end.

(** The cell was filled no later than [b]. *)
Definition filled_no_later (a b : Replay.cell) : Prop :=
  Num.leb (Num.of_optional (Replay.timestamp a)) (Num.of_optional (Replay.timestamp b)) = true.

(** The time stamp of the cell, if it has one, is a binary64 value
    other than NaN: what a JSON number is. *)
Definition stamped (c : Replay.cell) : Prop :=
  forall t, Replay.timestamp c = Some t -> Num.valid t = true /\ Num.isNaN t = false.

(** A code unit of a formatted time: a digit or the colon. *)
Definition clock_char (c : N) : bool := (isDigit c || (c =? 58))%N.

(** The shift record [mrs] holds the quotient of [W] by [Dn], and its
    round and sticky bits tell where the remainder lies against the
    half of [Dn]. *)
Definition located (mrs : shr_record) (W Dn : Z) : Prop :=
  shr_m mrs = W / Dn /\
  (shr_r mrs = true <-> Dn <= 2 * (W mod Dn)) /\
  (shr_s mrs = true <->
   if shr_r mrs then Dn < 2 * (W mod Dn) else 0 < W mod Dn).

(** [m2] is the multiple of the unit [U] nearest to [V], the even one of
    two that are equally near. *)
Definition nearest_even (V U m2 : Z) : Prop :=
  - U <= 2 * V - 2 * (m2 * U) <= U /\
  (2 * V - 2 * (m2 * U) = U \/ 2 * V - 2 * (m2 * U) = - U -> Z.even m2 = true).

(** The value of a finite Number in units of [2^c]; zero for a zero. *)
Definition val (c : Z) (x : number) : Z :=
  match x with
  | S754_finite s m e => scaled_value c s m e
  | _ => 0
  end.

(** The unit [2^c] divides the Number: it is a zero or its exponent is
    [c] at least. *)
Definition fits (c : Z) (x : number) : Prop :=
  match x with
  | S754_finite _ _ e => c <= e
  | S754_zero _ => True
  | _ => False
  end.

(** An amount: a binary64 Number that is finite and not negative. *)
Definition amount (x : number) : bool :=
  Num.valid x && Num.isFinite x && Num.leb Num.zero x.

(** The Number nearest to [V * 2^c], for an integer [V]: what a sum or
    a difference of two finite Numbers is rounded to. *)
Definition rnd (V c : Z) : number := binary_normalize Num.prec Num.emax V c false.

(** The time stamps of the cell are amounts: finite Numbers, not
    negative. *)
Definition clocked (c : Replay.cell) : Prop :=
  forall t, Replay.timestamp c = Some t -> amount t = true.

(** The time stamp of a cell, NaN for none. *)
Definition stamp (c : Replay.cell) : number := Num.of_optional (Replay.timestamp c).

(** [startDelay + totalSolveDuration]. *)
Definition endDelay : number := Num.of_Z 22000.

(** A board of two letters, the second cell filled in at 10 seconds
    and the first at 30. *)
Definition first_fill : Replay.cell :=
  {| Replay.blank := VBool false; Replay.timestamp := Some (Num.of_Z 10);
     Replay.guess := VString (js "A") |}.

Definition last_fill : Replay.cell :=
  {| Replay.blank := VBool false; Replay.timestamp := Some (Num.of_Z 30);
     Replay.guess := VString (js "B") |}.

(** The coordinate lies in the viewport: between 0 and 1. *)
Definition on_screen (c : number) : Prop :=
  Num.leb Num.zero c = true /\ Num.leb c Num.one = true.

(** How often the key occurs among the keys. *)
Definition occurrences (key : jsstring) (keys : list jsstring) : nat :=
  length (filter (jsstring_eqb key) keys).

(** The keys without their repetitions, in the order in which they
    first occur. *)
Fixpoint firsts (keys : list jsstring) : list jsstring :=
  match keys with
  | [] => []
  | k :: rest => k :: filter (fun k' => negb (jsstring_eqb k k')) (firsts rest)
  end.

(** The keys of the authors of the table. *)
Definition author_keys (tableData : list Card6.row) : list jsstring :=
  map (fun d => String_of (Card6.Author d)) tableData.

(** The key is not [__proto__]. *)
Definition plain_key (key : jsstring) : bool := negb (jsstring_eqb key (js "__proto__")).

(** What [authorCounts] holds for a key after the keys [keys] have
    been counted, in a host whose [Object.prototype] has the property
    names [host]. *)
Definition counted_as (host : jsstring -> bool) (keys : list jsstring) (key : jsstring)
    : option Card5.tally :=
  if plain_key key then
    match occurrences key keys with
    | O => None
    | S c =>
        Some (if host key then Card5.Written
              else Card5.Counted (Num.of_Z (Z.of_nat (S c))))
    end
  else None.

(** A table of three puzzles, two of them by one author. *)
Definition puzzle_by (author : string) : Card6.row :=
  {| Card6.Date := VString (js "2025-01-05");
     Card6.Day_of_Week := VString (js "Sun");
     Card6.Author := VString (js author);
     Card6.Time_formatted := VString (js "31:07");
     Card6.Deviation_Percent_Label := VString (js "+40%");
     Card6.puzzle_id := VUndefined |}.

Definition three_puzzles : list Card6.row :=
  [puzzle_by "Ada Cross"; puzzle_by "Ben Down"; puzzle_by "Ada Cross"].

(** A host whose [Object.prototype] has [constructor] and [toString]. *)
Definition small_host (key : jsstring) : bool :=
  jsstring_eqb key (js "constructor") || jsstring_eqb key (js "toString").

(** The two digits of a number below 100. *)
Definition two_digits (n : Z) : jsstring :=
  [(48 + Z.to_N (n / 10))%N; (48 + Z.to_N (n mod 10))%N].

(* ===================================================================== *)
(** * Part II: properties                                                 *)
(* ===================================================================== *)

Lemma n100_value : Num.n100 = S754_finite false 7036874417766400 (-46).
Proof. vm_compute. reflexivity. Qed.

Lemma n1_1_value : Num.n1_1 = S754_finite false 4953959590107546 (-52).
Proof. vm_compute. reflexivity. Qed.

Lemma one_value : Num.one = S754_finite false 4503599627370496 (-52).
Proof. vm_compute. reflexivity. Qed.

(** ** Slide navigation *)

Section NavigationFacts.

Variable page_has_card : Z -> bool.

Lemma small_index (i : Z) :
  0 <= i < totalCards ->
  i = 0 \/ i = 1 \/ i = 2 \/ i = 3 \/ i = 4 \/ i = 5 \/ i = 6 \/ i = 7 \/ i = 8.
Proof. unfold totalCards. lia. Qed.

Lemma press_in_range (k : key) (i : Z) :
  0 <= i < totalCards -> 0 <= press page_has_card k i < totalCards.
Proof.
  intros Hi. unfold press, nextCard, prevCard.
  destruct k; destruct (page_has_card i); try exact Hi;
    destruct (small_index i Hi) as [-> | [-> | [-> | [-> | [-> | [-> | [-> | [-> | ->]]]]]]]];
    vm_compute; split; congruence.
Qed.

Lemma presses_in_range (ks : list key) :
  forall i, 0 <= i < totalCards -> 0 <= presses page_has_card ks i < totalCards.
Proof.
  unfold presses. induction ks as [| k ks IH]; intros i Hi; simpl.
  - exact Hi.
  - apply IH, press_in_range, Hi.
Qed.

Lemma next_then_prev (i : Z) :
  0 <= i < totalCards ->
  Z.rem (Z.rem (i + 1) totalCards - 1 + totalCards) totalCards = i.
Proof.
  intros Hi.
  destruct (small_index i Hi) as [-> | [-> | [-> | [-> | [-> | [-> | [-> | [-> | ->]]]]]]]];
    reflexivity.
Qed.

Lemma prev_then_next (i : Z) :
  0 <= i < totalCards ->
  Z.rem (Z.rem (i - 1 + totalCards) totalCards + 1) totalCards = i.
Proof.
  intros Hi.
  destruct (small_index i Hi) as [-> | [-> | [-> | [-> | [-> | [-> | [-> | [-> | ->]]]]]]]];
    reflexivity.
Qed.

Lemma rem_next_in_range (i : Z) :
  0 <= i < totalCards -> 0 <= Z.rem (i + 1) totalCards < totalCards.
Proof.
  intros Hi.
  destruct (small_index i Hi) as [-> | [-> | [-> | [-> | [-> | [-> | [-> | [-> | ->]]]]]]]];
    vm_compute; split; congruence.
Qed.

Lemma rem_prev_in_range (i : Z) :
  0 <= i < totalCards -> 0 <= Z.rem (i - 1 + totalCards) totalCards < totalCards.
Proof.
  intros Hi.
  destruct (small_index i Hi) as [-> | [-> | [-> | [-> | [-> | [-> | [-> | [-> | ->]]]]]]]];
    vm_compute; split; congruence.
Qed.

End NavigationFacts.

(** C10.  Started at 0, [currentCardIndex] stays within 0 .. totalCards - 1
    = 8 after any finite sequence of [nextCard] and [prevCard] calls,
    whatever the page holds; and on a page that holds its nine cards, from
    every index so reached, [nextCard] followed by [prevCard], and
    [prevCard] followed by [nextCard], both return and leave
    [currentCardIndex] at its prior value. *)
Theorem currentCardIndex_stays_in_range_and_is_restored :
  forall (page_has_card : Z -> bool) (ks : list key),
    let i := presses page_has_card ks 0 in
    (0 <= i < totalCards /\ totalCards - 1 = 8) /\
    (page_complete page_has_card ->
     (exists j, nextCard page_has_card i = Returns j /\
                prevCard page_has_card j = Returns i) /\
     (exists j, prevCard page_has_card i = Returns j /\
                nextCard page_has_card j = Returns i) /\
     presses page_has_card [ArrowRight; ArrowLeft] i = i /\
     presses page_has_card [ArrowLeft; ArrowRight] i = i).
Proof.
  intros page ks i.
  assert (Hi : 0 <= i < totalCards).
  { apply presses_in_range. unfold totalCards. lia. }
  split; [split; [exact Hi | reflexivity] |].
  intros Hpage.
  assert (Hn := rem_next_in_range i Hi).
  assert (Hp := rem_prev_in_range i Hi).
  assert (En : nextCard page i = Returns (Z.rem (i + 1) totalCards)).
  { unfold nextCard. rewrite (Hpage i Hi). reflexivity. }
  assert (Ep : prevCard page i = Returns (Z.rem (i - 1 + totalCards) totalCards)).
  { unfold prevCard. rewrite (Hpage i Hi). reflexivity. }
  assert (Enp : prevCard page (Z.rem (i + 1) totalCards) = Returns i).
  { unfold prevCard. rewrite (Hpage _ Hn), next_then_prev by exact Hi. reflexivity. }
  assert (Epn : nextCard page (Z.rem (i - 1 + totalCards) totalCards) = Returns i).
  { unfold nextCard. rewrite (Hpage _ Hp), prev_then_next by exact Hi. reflexivity. }
  repeat split.
  - eexists; split; [exact En | exact Enp].
  - eexists; split; [exact Ep | exact Epn].
  - unfold presses; simpl. unfold press at 2. rewrite En. unfold press. rewrite Enp. reflexivity.
  - unfold presses; simpl. unfold press at 2. rewrite Ep. unfold press. rewrite Epn. reflexivity.
Qed.

(** The page with the cards [card-0] .. [card-8] and no other. *)
Lemma currentCardIndex_witness :
  page_complete (fun i => (0 <=? i) && (i <? 9)) /\
  presses (fun i => (0 <=? i) && (i <? 9))
    [ArrowRight; ArrowLeft]
    (presses (fun i => (0 <=? i) && (i <? 9)) [ArrowLeft; ArrowLeft; ArrowRight] 0)
  = 8.
Proof.
  assert (H : page_complete (fun i => (0 <=? i) && (i <? 9))).
  { intros i Hi. unfold totalCards in Hi.
    apply andb_true_intro; split; [apply Z.leb_le | apply Z.ltb_lt]; lia. }
  split; [exact H |].
  destruct (currentCardIndex_stays_in_range_and_is_restored
              (fun i => (0 <=? i) && (i <? 9)) [ArrowLeft; ArrowLeft; ArrowRight])
    as [_ Hr].
  destruct (Hr H) as (_ & _ & Hnp & _).
  exact Hnp.
Defined.

(** ** [formatTimeToMMSS] *)

Lemma span_spec (p : N -> bool) (s : jsstring) :
  forall a b, span p s = (a, b) ->
    s = a ++ b /\ forallb p a = true /\
    (b = [] \/ exists c b', b = c :: b' /\ p c = false).
Proof.
  induction s as [| c s IH]; simpl; intros a b H.
  - inversion H; subst. repeat split; auto.
  - destruct (p c) eqn:Hc.
    + destruct (span p s) as [a' b'] eqn:Hs. inversion H; subst.
      destruct (IH a' b eq_refl) as (E & Ha & Hb).
      simpl. rewrite Hc, Ha. split; [now rewrite E | split; [reflexivity | exact Hb]].
    + inversion H; subst. split; [reflexivity | split; [reflexivity |]].
      right. now exists c, s.
Qed.

Lemma span_app (p : N -> bool) (a b : jsstring) :
  forallb p a = true ->
  (b = [] \/ exists c b', b = c :: b' /\ p c = false) ->
  span p (a ++ b) = (a, b).
Proof.
  intros Ha Hb. induction a as [| x a IH]; simpl in *.
  - destruct Hb as [-> | (c & b' & -> & Hc)]; simpl; [reflexivity |].
    now rewrite Hc.
  - apply andb_prop in Ha as [Hx Ha]. rewrite Hx, (IH Ha). reflexivity.
Qed.

Lemma digit_not_space (c : N) : isDigit c = true -> isSpace c = false.
Proof.
  unfold isDigit, isSpace. intros H.
  apply andb_prop in H as [H1 H2].
  apply N.leb_le in H1. apply N.leb_le in H2.
  assert (E1 : (c <=? 13)%N = false) by (apply N.leb_gt; lia).
  assert (E2 : (8192 <=? c)%N = false) by (apply N.leb_gt; lia).
  assert (E3 : forall k, (57 < k)%N -> (c =? k)%N = false)
    by (intros k Hk; apply N.eqb_neq; lia).
  assert (E4 : (c =? 32)%N = false) by (apply N.eqb_neq; lia).
  rewrite E1, E2, E4, !E3 by lia.
  rewrite !andb_false_r. reflexivity.
Qed.

Lemma space_not_digit (c : N) : isSpace c = true -> isDigit c = false.
Proof.
  intros H. destruct (isDigit c) eqn:E; [| reflexivity].
  apply digit_not_space in E. congruence.
Qed.

(** A run of [p] followed by something that starts outside [p] (here: a
    shorter run of another class, then a letter) is split at its end. *)
Lemma span_run (p : N -> bool) (a w : jsstring) (c : N) (r : jsstring) :
  forallb p a = true ->
  (forall x, In x w -> p x = false) -> p c = false ->
  span p (a ++ w ++ c :: r) = (a, w ++ c :: r).
Proof.
  intros Ha Hw Hc. apply span_app; [exact Ha |].
  right. destruct w as [| x w]; simpl.
  - now exists c, r.
  - exists x, (w ++ c :: r). split; [reflexivity |]. apply Hw. now left.
Qed.

Lemma forallb_In (p : N -> bool) (l : jsstring) :
  forallb p l = true -> forall x, In x l -> p x = true.
Proof. intros H x Hx. rewrite forallb_forall in H. now apply H. Qed.

Lemma match_here_complete (minutes seconds t : jsstring) :
  matches_at minutes seconds t -> match_here t = Some (minutes, seconds).
Proof.
  intros (w1 & w2 & w3 & post & -> & Hm & Hs & Dm & Ds & W1 & W2 & W3).
  assert (E1 : span isDigit (minutes ++ w1 ++ 109%N :: w2 ++ seconds ++ w3 ++ 115%N :: post)
               = (minutes, w1 ++ 109%N :: w2 ++ seconds ++ w3 ++ 115%N :: post)).
  { apply span_run; [exact Dm | | reflexivity].
    intros x Hx. apply space_not_digit. exact (forallb_In _ _ W1 x Hx). }
  assert (E2 : span isSpace (w1 ++ 109%N :: w2 ++ seconds ++ w3 ++ 115%N :: post)
               = (w1, 109%N :: w2 ++ seconds ++ w3 ++ 115%N :: post)).
  { apply span_app; [exact W1 |]. right. eexists _, _. split; reflexivity. }
  assert (E3 : span isSpace (w2 ++ seconds ++ w3 ++ 115%N :: post)
               = (w2, seconds ++ w3 ++ 115%N :: post)).
  { apply span_app; [exact W2 |]. right.
    destruct seconds as [| d seconds']; [congruence |].
    exists d, (seconds' ++ w3 ++ 115%N :: post). split; [reflexivity |].
    apply digit_not_space. simpl in Ds. now apply andb_prop in Ds as [Ds _]. }
  assert (E4 : span isDigit (seconds ++ w3 ++ 115%N :: post)
               = (seconds, w3 ++ 115%N :: post)).
  { apply span_run; [exact Ds | | reflexivity].
    intros x Hx. apply space_not_digit. exact (forallb_In _ _ W3 x Hx). }
  assert (E5 : span isSpace (w3 ++ 115%N :: post) = (w3, 115%N :: post)).
  { apply span_app; [exact W3 |]. right. eexists _, _. split; reflexivity. }
  unfold match_here. rewrite E1.
  destruct minutes as [| m0 minutes']; [congruence |].
  rewrite E2, E3, E4.
  destruct seconds as [| s0 seconds']; [congruence |].
  rewrite E5. reflexivity.
Qed.

Lemma match_here_sound (t minutes seconds : jsstring) :
  match_here t = Some (minutes, seconds) -> matches_at minutes seconds t.
Proof.
  unfold match_here.
  destruct (span isDigit t) as [m r1] eqn:E1.
  destruct m as [| m0 m']; [discriminate |].
  destruct (span isSpace r1) as [w1 r2] eqn:E2.
  destruct r2 as [| c r3]; [discriminate |].
  destruct (N.eq_dec c 109) as [-> | Hc].
  2: { destruct c as [| pc]; [discriminate |].
       do 7 (destruct pc as [pc | pc |]; try discriminate). congruence. }
  destruct (span isSpace r3) as [w2 r4] eqn:E3.
  destruct (span isDigit r4) as [sec r5] eqn:E4.
  destruct sec as [| s0 sec']; [discriminate |].
  destruct (span isSpace r5) as [w3 r6] eqn:E5.
  destruct r6 as [| c' post]; [discriminate |].
  destruct (N.eq_dec c' 115) as [-> | Hc'].
  2: { destruct c' as [| pc]; [discriminate |].
       do 7 (destruct pc as [pc | pc |]; try discriminate). congruence. }
  intros H. inversion H; subst minutes seconds.
  apply span_spec in E1 as (-> & D1 & _).
  apply span_spec in E2 as (-> & S1 & _).
  apply span_spec in E3 as (-> & S2 & _).
  apply span_spec in E4 as (-> & D2 & _).
  apply span_spec in E5 as (-> & S3 & _).
  exists w1, w2, w3, post.
  repeat split; try assumption; try discriminate.
Qed.

Lemma regex_match_unfold (s : jsstring) :
  regex_match s =
  match match_here s with
  | Some g => Some g
  | None => match s with [] => None | _ :: s' => regex_match s' end
  end.
Proof. destruct s; reflexivity. Qed.

Lemma regex_match_sound (s minutes seconds : jsstring) :
  regex_match s = Some (minutes, seconds) -> leftmost_match minutes seconds s.
Proof.
  induction s as [| c s IH]; simpl.
  - discriminate.
  - destruct (match_here (c :: s)) as [g |] eqn:E.
    + intros H; inversion H; subst g. exists [], (c :: s). split; [reflexivity |].
      split; [now apply match_here_sound |]. simpl; intros; lia.
    + intros H. destruct (IH H) as (pre & t & -> & Hm & Hleft).
      exists (c :: pre), t. split; [reflexivity |]. split; [exact Hm |].
      intros pre' t' m' s' Heq Hlen Hm'.
      destruct pre' as [| c' pre']; simpl in *.
      * subst t'. apply match_here_complete in Hm'. congruence.
      * inversion Heq; subst c'. apply (Hleft pre' t' m' s'); [assumption | lia | exact Hm'].
Qed.

Lemma regex_match_complete (s : jsstring) :
  matches s -> exists minutes seconds, regex_match s = Some (minutes, seconds).
Proof.
  intros (pre & minutes & seconds & t & -> & Hm).
  induction pre as [| c pre IH]; simpl.
  - rewrite regex_match_unfold, (match_here_complete _ _ _ Hm); eauto.
  - destruct (match_here (c :: pre ++ t)) as [[m' s'] |]; [eauto | exact IH].
Qed.

Lemma matches_nonempty (s : jsstring) : matches s -> s <> [].
Proof.
  intros (pre & m & sec & t & -> & w1 & w2 & w3 & post & -> & Hm & _) E.
  apply app_eq_nil in E as [_ E]. apply app_eq_nil in E as [E _]. contradiction.
Qed.

Lemma leftmost_match_matches (minutes seconds s : jsstring) :
  leftmost_match minutes seconds s -> matches s.
Proof. intros (pre & t & E & Hm & _). now exists pre, minutes, seconds, t. Qed.

Lemma leftmost_match_seconds (minutes seconds s : jsstring) :
  leftmost_match minutes seconds s -> seconds <> [].
Proof. intros (pre & t & _ & (w1 & w2 & w3 & post & _ & _ & Hs & _) & _). exact Hs. Qed.

Lemma padStart_two (d : jsstring) :
  d <> [] -> padStart d 2 (js "0") = padded_to_two d.
Proof.
  intros Hd. unfold padStart, padded_to_two.
  destruct d as [| a [| b d]]; [contradiction | reflexivity | reflexivity].
Qed.

Lemma minutes_without_zero (d : jsstring) :
  (if (1 <? length d)%nat && startsWith0 d then skipn 1 d else d)
  = without_one_leading_zero d.
Proof.
  destruct d as [| a [| b d]]; simpl.
  - reflexivity.
  - unfold without_one_leading_zero.
    destruct a as [| p]; [reflexivity |].
    do 7 (destruct p as [p | p |]; try reflexivity).
  - unfold startsWith0, without_one_leading_zero.
    destruct a as [| p]; [reflexivity |].
    do 7 (destruct p as [p | p |]; try reflexivity).
Qed.

Lemma truthy_string (s : jsstring) : s <> [] -> truthy (VString s) = true.
Proof. destruct s; [contradiction | reflexivity]. Qed.

(** C8.  [formatTimeToMMSS] returns, and does not throw, on every
    falsy argument and on every string, and on no other value: a truthy
    argument that is no string (a Number other than 0 and NaN, [true])
    has no [match] method, and the call throws a [TypeError].  A falsy
    argument (the empty string among them) gives "00:00"; a string that
    is not empty and holds no match of [<digits> m <digits> s] comes
    back unchanged; a string that holds one gives the minutes digits of
    its leftmost match with at most one leading zero removed, a colon,
    and the seconds digits padded on the left with '0' to two
    characters at least; so "007m 5s" gives "07:05". *)
Theorem formatTimeToMMSS_total_and_formats :
  (forall v, truthy v = false ->
     formatTimeToMMSS v = Returns (VString (js "00:00"))) /\
  (forall s, s <> [] -> ~ matches s ->
     formatTimeToMMSS (VString s) = Returns (VString s)) /\
  (forall s, matches s ->
     exists minutes seconds,
       leftmost_match minutes seconds s /\
       formatTimeToMMSS (VString s) =
       Returns (VString (without_one_leading_zero minutes ++ js ":"
                         ++ padded_to_two seconds))) /\
  (forall v, truthy v = false \/ (exists s, v = VString s) ->
     exists r, formatTimeToMMSS v = Returns (VString r)) /\
  (forall v, truthy v = true -> (forall s, v <> VString s) ->
     formatTimeToMMSS v = Throws) /\
  formatTimeToMMSS (VString (js "007m 5s")) = Returns (VString (js "07:05")).
Proof.
  assert (P1 : forall v, truthy v = false ->
                 formatTimeToMMSS v = Returns (VString (js "00:00"))).
  { intros v Hv. unfold formatTimeToMMSS. rewrite Hv. reflexivity. }
  assert (P2 : forall s, s <> [] -> ~ matches s ->
                 formatTimeToMMSS (VString s) = Returns (VString s)).
  { intros s Hs Hn. unfold formatTimeToMMSS. rewrite (truthy_string s Hs). simpl.
    destruct (regex_match s) as [[m sec] |] eqn:E; [| reflexivity].
    exfalso. apply Hn. eapply leftmost_match_matches, regex_match_sound, E. }
  assert (P3 : forall s, matches s ->
     exists minutes seconds,
       leftmost_match minutes seconds s /\
       formatTimeToMMSS (VString s) =
       Returns (VString (without_one_leading_zero minutes ++ js ":"
                         ++ padded_to_two seconds))).
  { intros s Hs. destruct (regex_match_complete s Hs) as (m & sec & E).
    assert (L := regex_match_sound _ _ _ E).
    exists m, sec. split; [exact L |].
    unfold formatTimeToMMSS.
    rewrite (truthy_string s (matches_nonempty s Hs)). simpl. rewrite E.
    rewrite (padStart_two sec (leftmost_match_seconds _ _ _ L)).
    rewrite minutes_without_zero. reflexivity. }
  split; [exact P1 |]. split; [exact P2 |]. split; [exact P3 |].
  split; [| split; [| vm_compute; reflexivity]];
    [| intros v Hv Hs; unfold formatTimeToMMSS; rewrite Hv; cbn [negb];
       destruct v as [| | b | n | s]; try reflexivity; now destruct (Hs s)].
  intros v [Hv | (s & ->)].
  - eexists. apply P1, Hv.
  - destruct s as [| c s].
    + eexists. apply P1. reflexivity.
    + destruct (regex_match (c :: s)) as [[m sec] |] eqn:E.
      * destruct (P3 (c :: s)) as (m' & sec' & _ & R).
        { eapply leftmost_match_matches, regex_match_sound, E. }
        eexists. exact R.
      * exists (c :: s). apply P2; [discriminate |].
        intros Hm. destruct (regex_match_complete _ Hm) as (m' & sec' & E').
        congruence.
Qed.

(** ** Sorting *)

Section SortFacts.

Context {A : Type}.
Variable key : A -> Z.

Let by_key (a b : A) : Z := key a - key b.

Lemma insert_sorted_perm (cmp : A -> A -> Z) (x : A) (l : list A) :
  Permutation (x :: l) (insert_sorted cmp x l).
Proof.
  induction l as [| y l IH]; simpl.
  - apply Permutation_refl.
  - destruct (cmp x y >? 0).
    + eapply Permutation_trans; [apply perm_swap |]. now apply perm_skip.
    + apply Permutation_refl.
Qed.

Lemma array_sort_perm (cmp : A -> A -> Z) (l : list A) :
  Permutation l (array_sort cmp l).
Proof.
  induction l as [| x l IH]; simpl.
  - apply perm_nil.
  - eapply Permutation_trans; [apply perm_skip, IH | apply insert_sorted_perm].
Qed.

Lemma insert_sorted_sorted (x : A) (l : list A) :
  StronglySorted (fun a b => key a <= key b) l ->
  StronglySorted (fun a b => key a <= key b) (insert_sorted by_key x l).
Proof.
  induction 1 as [| y l Hs IH Hy]; simpl.
  - constructor; constructor.
  - unfold by_key at 1. destruct (Z.gtb_spec (key x - key y) 0) as [Hgt | Hle].
    + constructor; [exact IH |].
      rewrite Forall_forall in *. intros z Hz.
      apply (Permutation_in _ (Permutation_sym (insert_sorted_perm by_key x l))) in Hz.
      destruct Hz as [<- | Hz]; [lia | now apply Hy].
    + constructor; [now constructor |].
      constructor; [lia |].
      rewrite Forall_forall in *. intros z Hz. specialize (Hy z Hz). lia.
Qed.

Lemma array_sort_sorted (l : list A) :
  StronglySorted (fun a b => key a <= key b) (array_sort by_key l).
Proof.
  induction l as [| x l IH]; simpl.
  - constructor.
  - now apply insert_sorted_sorted.
Qed.

Lemma sorted_strict (l : list A) :
  StronglySorted (fun a b => key a <= key b) l ->
  NoDup (map key l) ->
  StronglySorted (fun a b => key a < key b) l.
Proof.
  induction 1 as [| y l Hs IH Hy]; simpl; intros Hnd.
  - constructor.
  - inversion Hnd as [| k ks Hnotin Hnd']; subst.
    constructor; [now apply IH |].
    rewrite Forall_forall in *. intros z Hz.
    assert (key y <> key z).
    { intros E. apply Hnotin. rewrite E. now apply in_map. }
    specialize (Hy z Hz). lia.
Qed.

Lemma strictly_sorted_unique (l1 : list A) :
  forall l2,
    StronglySorted (fun a b => key a < key b) l1 ->
    StronglySorted (fun a b => key a < key b) l2 ->
    Permutation l1 l2 -> l1 = l2.
Proof.
  induction l1 as [| a l1 IH]; intros l2 H1 H2 P.
  - apply Permutation_nil in P. now subst.
  - destruct l2 as [| b l2].
    + apply Permutation_sym, Permutation_nil in P. discriminate.
    + inversion H1 as [| ? ? S1 F1]; subst. inversion H2 as [| ? ? S2 F2]; subst.
      rewrite Forall_forall in F1, F2.
      assert (a = b).
      { assert (Ha : In a (b :: l2)) by (eapply Permutation_in; [exact P | now left]).
        assert (Hb : In b (a :: l1)) by
          (eapply Permutation_in; [apply Permutation_sym; exact P | now left]).
        destruct Ha as [-> | Ha]; [reflexivity |].
        destruct Hb as [-> | Hb]; [reflexivity |].
        specialize (F1 b Hb). specialize (F2 a Ha). lia. }
      subst b. f_equal. apply IH; try assumption.
      eapply Permutation_cons_inv; exact P.
Qed.

Lemma array_sort_unique (l l' : list A) :
  NoDup (map key l) -> Permutation l l' ->
  array_sort by_key l' = array_sort by_key l.
Proof.
  intros Hnd P.
  assert (P1 := array_sort_perm by_key l).
  assert (P2 := array_sort_perm by_key l').
  apply strictly_sorted_unique.
  - apply sorted_strict; [apply array_sort_sorted |].
    eapply Permutation_NoDup; [| exact Hnd].
    apply Permutation_map. eapply Permutation_trans; [exact P | exact P2].
  - apply sorted_strict; [apply array_sort_sorted |].
    eapply Permutation_NoDup; [| exact Hnd].
    apply Permutation_map. exact P1.
  - eapply Permutation_trans; [apply Permutation_sym; exact P2 |].
    eapply Permutation_trans; [apply Permutation_sym; exact P | exact P1].
Qed.

End SortFacts.

(** ** Card 2: the weekday sort *)

Lemma indexOf_DAY_ORDER (x : jsstring) :
  In x DAY_ORDER ->
  x = js "Mon" /\ indexOf DAY_ORDER x = 0 \/
  x = js "Tue" /\ indexOf DAY_ORDER x = 1 \/
  x = js "Wed" /\ indexOf DAY_ORDER x = 2 \/
  x = js "Thu" /\ indexOf DAY_ORDER x = 3 \/
  x = js "Fri" /\ indexOf DAY_ORDER x = 4 \/
  x = js "Sat" /\ indexOf DAY_ORDER x = 5 \/
  x = js "Sun" /\ indexOf DAY_ORDER x = 6.
Proof.
  intros [<- | [<- | [<- | [<- | [<- | [<- | [<- | []]]]]]]];
    [ left | do 1 right; left | do 2 right; left | do 3 right; left
    | do 4 right; left | do 5 right; left | do 6 right ];
    (split; [reflexivity | vm_compute; reflexivity]).
Qed.

Lemma indexOf_DAY_ORDER_inj (x y : jsstring) :
  In x DAY_ORDER -> In y DAY_ORDER ->
  indexOf DAY_ORDER x = indexOf DAY_ORDER y -> x = y.
Proof.
  intros Hx Hy E.
  destruct (indexOf_DAY_ORDER x Hx) as [[-> Ex] | [[-> Ex] | [[-> Ex] | [[-> Ex] | [[-> Ex] | [[-> Ex] | [-> Ex]]]]]]];
  destruct (indexOf_DAY_ORDER y Hy) as [[-> Ey] | [[-> Ey] | [[-> Ey] | [[-> Ey] | [[-> Ey] | [[-> Ey] | [-> Ey]]]]]]];
  try reflexivity; rewrite Ex, Ey in E; discriminate.
Qed.

Lemma day_keys_NoDup (l : list Card2.entry) :
  Card2.labels_in_dayOrder l ->
  NoDup (map Card2.Day_of_Week l) ->
  NoDup (map (fun e => indexOf Card2.dayOrder (Card2.Day_of_Week e)) l).
Proof.
  induction l as [| e l IH]; simpl; intros Hl Hnd.
  - constructor.
  - inversion Hnd as [| ? ? Hnotin Hnd']; subst. constructor.
    + intros Hin. apply in_map_iff in Hin as (e' & E & He').
      apply Hnotin. apply in_map_iff. exists e'. split; [| exact He'].
      apply indexOf_DAY_ORDER_inj.
      * apply Hl. now right.
      * apply Hl. now left.
      * exact E.
    + apply IH; [| exact Hnd']. intros e' He'. apply Hl. now right.
Qed.

(** C6, as amended.  The sort of [renderCard2] returns the entries of the
    array, those and no other, in Monday to Sunday order; and when the
    labels are drawn from the seven of [dayOrder] and no two entries carry
    the same label (one entry per weekday), every permutation of the
    array sorts to the same result. *)
Theorem renderCard2_sort_monday_to_sunday :
  forall chartData : list Card2.entry,
    Card2.labels_in_dayOrder chartData ->
    Permutation chartData (Card2.renderCard2_sort chartData) /\
    Card2.monday_to_sunday (Card2.renderCard2_sort chartData) /\
    (NoDup (map Card2.Day_of_Week chartData) ->
     forall chartData', Permutation chartData chartData' ->
       Card2.renderCard2_sort chartData' = Card2.renderCard2_sort chartData).
Proof.
  intros l Hl. split; [apply array_sort_perm |]. split.
  - apply (array_sort_sorted (fun e => indexOf Card2.dayOrder (Card2.Day_of_Week e))).
  - intros Hnd l' P.
    apply (array_sort_unique (fun e => indexOf Card2.dayOrder (Card2.Day_of_Week e)));
      [| exact P].
    now apply day_keys_NoDup.
Qed.

(** Two entries for the same weekday: the sort keeps them in the order
    the array had them, so the result follows the input order. *)
Lemma renderCard2_sort_keeps_input_order_of_ties :
  let a := {| Card2.Day_of_Week := js "Mon";
              Card2.fastest_in_minutes := Num.of_Z 3;
              Card2.average_in_minutes := Num.of_Z 4;
              Card2.slowest_in_minutes := Num.of_Z 5 |} in
  let b := {| Card2.Day_of_Week := js "Mon";
              Card2.fastest_in_minutes := Num.of_Z 6;
              Card2.average_in_minutes := Num.of_Z 7;
              Card2.slowest_in_minutes := Num.of_Z 8 |} in
  Card2.labels_in_dayOrder [a; b] /\
  Permutation [a; b] [b; a] /\
  Card2.renderCard2_sort [a; b] = [a; b] /\
  Card2.renderCard2_sort [b; a] = [b; a] /\
  Card2.renderCard2_sort [b; a] <> Card2.renderCard2_sort [a; b].
Proof.
  cbv zeta. split; [| split; [| split; [| split]]].
  - intros e [<- | [<- | []]]; left; reflexivity.
  - apply perm_swap.
  - vm_compute. reflexivity.
  - vm_compute. reflexivity.
  - vm_compute. intros H. discriminate H.
Qed.

Lemma renderCard2_sort_witness :
  let tue := {| Card2.Day_of_Week := js "Tue";
                Card2.fastest_in_minutes := Num.of_Z 6;
                Card2.average_in_minutes := Num.of_Z 7;
                Card2.slowest_in_minutes := Num.of_Z 8 |} in
  let mon := {| Card2.Day_of_Week := js "Mon";
                Card2.fastest_in_minutes := Num.of_Z 3;
                Card2.average_in_minutes := Num.of_Z 4;
                Card2.slowest_in_minutes := Num.of_Z 5 |} in
  Card2.labels_in_dayOrder [tue; mon] /\
  NoDup (map Card2.Day_of_Week [tue; mon]) /\
  Card2.monday_to_sunday (Card2.renderCard2_sort [tue; mon]) /\
  Card2.renderCard2_sort [mon; tue] = Card2.renderCard2_sort [tue; mon].
Proof.
  cbv zeta.
  assert (Hl : Card2.labels_in_dayOrder
                 [ {| Card2.Day_of_Week := js "Tue";
                      Card2.fastest_in_minutes := Num.of_Z 6;
                      Card2.average_in_minutes := Num.of_Z 7;
                      Card2.slowest_in_minutes := Num.of_Z 8 |};
                   {| Card2.Day_of_Week := js "Mon";
                      Card2.fastest_in_minutes := Num.of_Z 3;
                      Card2.average_in_minutes := Num.of_Z 4;
                      Card2.slowest_in_minutes := Num.of_Z 5 |} ]).
  { intros e [<- | [<- | []]]; [right; left | left]; reflexivity. }
  assert (Hn : NoDup (map Card2.Day_of_Week
                 [ {| Card2.Day_of_Week := js "Tue";
                      Card2.fastest_in_minutes := Num.of_Z 6;
                      Card2.average_in_minutes := Num.of_Z 7;
                      Card2.slowest_in_minutes := Num.of_Z 8 |};
                   {| Card2.Day_of_Week := js "Mon";
                      Card2.fastest_in_minutes := Num.of_Z 3;
                      Card2.average_in_minutes := Num.of_Z 4;
                      Card2.slowest_in_minutes := Num.of_Z 5 |} ])).
  { simpl. constructor.
    - intros [H | []]. discriminate H.
    - constructor; [intros [] | constructor]. }
  destruct (renderCard2_sort_monday_to_sunday _ Hl) as (_ & Hs & Hu).
  split; [exact Hl |]. split; [exact Hn |]. split; [exact Hs |].
  apply (Hu Hn). apply perm_swap.
Defined.

(** ** The order of Numbers *)


Ltac order_cases :=
  repeat match goal with
         | s : bool |- _ => destruct s
         end;
  simpl;
  repeat match goal with
         | |- context [Z.compare ?a ?b] => destruct (Z.compare_spec a b)
         | |- context [Pos.compare_cont Eq ?a ?b] =>
             change (Pos.compare_cont Eq a b) with (Pos.compare a b);
             destruct (Pos.compare_spec a b)
         end;
  simpl; split; intros; try discriminate; try reflexivity; try lia.

Lemma ltb_rank (x y : number) :
  Num.isNaN x = false -> Num.isNaN y = false ->
  (Num.ltb x y = true <-> rank_lt (rank x) (rank y)).
Proof.
  unfold Num.ltb, SFltb, rank_lt.
  destruct x as [sx | sx | | sx mx ex], y as [sy | sy | | sy my ey];
    simpl; intros Hx Hy; try discriminate; order_cases.
Qed.

Lemma leb_rank (x y : number) :
  Num.isNaN x = false -> Num.isNaN y = false ->
  (Num.leb x y = true <-> rank_le (rank x) (rank y)).
Proof.
  unfold Num.leb, SFleb, rank_le.
  destruct x as [sx | sx | | sx mx ex], y as [sy | sy | | sy my ey];
    simpl; intros Hx Hy; try discriminate; order_cases.
Qed.

Lemma ltb_not_NaN (x y : number) :
  Num.ltb x y = true -> Num.isNaN x = false /\ Num.isNaN y = false.
Proof.
  unfold Num.ltb, SFltb.
  destruct x as [sx | sx | | sx mx ex], y as [sy | sy | | sy my ey];
    simpl; intros H; try discriminate; split; reflexivity.
Qed.

Lemma leb_not_NaN (x y : number) :
  Num.leb x y = true -> Num.isNaN x = false /\ Num.isNaN y = false.
Proof.
  unfold Num.leb, SFleb.
  destruct x as [sx | sx | | sx mx ex], y as [sy | sy | | sy my ey];
    simpl; intros H; try discriminate; split; reflexivity.
Qed.

Lemma geb_self (x : number) : Num.geb x x = negb (Num.isNaN x).
Proof.
  unfold Num.geb, SFleb.
  destruct x as [[|] | [|] | | [|] m e]; simpl; try reflexivity;
    rewrite Z.compare_refl; change (Pos.compare_cont Eq m m) with (Pos.compare m m);
    rewrite Pos.compare_refl; reflexivity.
Qed.

Lemma ltb_irrefl (x : number) : Num.ltb x x = false.
Proof.
  destruct (Num.ltb x x) eqn:E; [| reflexivity].
  destruct (ltb_not_NaN _ _ E) as [Hx _].
  apply (ltb_rank x x Hx Hx) in E. unfold rank_lt in E.
  destruct (rank x) as [[a b] c]. lia.
Qed.

Lemma ltb_trans (x y z : number) :
  Num.ltb x y = true -> Num.ltb y z = true -> Num.ltb x z = true.
Proof.
  intros H1 H2.
  destruct (ltb_not_NaN _ _ H1) as [Hx Hy].
  destruct (ltb_not_NaN _ _ H2) as [_ Hz].
  apply (ltb_rank x y Hx Hy) in H1. apply (ltb_rank y z Hy Hz) in H2.
  apply (ltb_rank x z Hx Hz). unfold rank_lt in *.
  destruct (rank x) as [[a b] c], (rank y) as [[a' b'] c'], (rank z) as [[a'' b''] c''].
  lia.
Qed.

Lemma not_ltb_leb (x y : number) :
  Num.isNaN x = false -> Num.isNaN y = false ->
  Num.ltb x y = false -> Num.leb y x = true.
Proof.
  intros Hx Hy H. apply (leb_rank y x Hy Hx).
  assert (N : ~ rank_lt (rank x) (rank y)).
  { intros L. apply (ltb_rank x y Hx Hy) in L. congruence. }
  unfold rank_lt, rank_le in *.
  destruct (rank x) as [[a b] c], (rank y) as [[a' b'] c']. lia.
Qed.

Lemma leb_not_ltb (x y : number) : Num.leb y x = true -> Num.ltb x y = false.
Proof.
  intros H. destruct (leb_not_NaN _ _ H) as [Hy Hx].
  destruct (Num.ltb x y) eqn:E; [| reflexivity].
  apply (ltb_rank x y Hx Hy) in E. apply (leb_rank y x Hy Hx) in H.
  unfold rank_lt, rank_le in *.
  destruct (rank x) as [[a b] c], (rank y) as [[a' b'] c']. lia.
Qed.

Lemma leb_trans (x y z : number) :
  Num.leb x y = true -> Num.leb y z = true -> Num.leb x z = true.
Proof.
  intros H1 H2.
  destruct (leb_not_NaN _ _ H1) as [Hx Hy].
  destruct (leb_not_NaN _ _ H2) as [_ Hz].
  apply (leb_rank x y Hx Hy) in H1. apply (leb_rank y z Hy Hz) in H2.
  apply (leb_rank x z Hx Hz). unfold rank_le in *.
  destruct (rank x) as [[a b] c], (rank y) as [[a' b'] c'], (rank z) as [[a'' b''] c''].
  lia.
Qed.

Lemma leb_ltb_trans (x y z : number) :
  Num.leb x y = true -> Num.ltb y z = true -> Num.ltb x z = true.
Proof.
  intros H1 H2.
  destruct (leb_not_NaN _ _ H1) as [Hx Hy].
  destruct (ltb_not_NaN _ _ H2) as [_ Hz].
  apply (leb_rank x y Hx Hy) in H1. apply (ltb_rank y z Hy Hz) in H2.
  apply (ltb_rank x z Hx Hz). unfold rank_le, rank_lt in *.
  destruct (rank x) as [[a b] c], (rank y) as [[a' b'] c'], (rank z) as [[a'' b''] c''].
  lia.
Qed.

Lemma ltb_leb (x y : number) : Num.ltb x y = true -> Num.leb x y = true.
Proof.
  intros H. destruct (ltb_not_NaN _ _ H) as [Hx Hy].
  apply (ltb_rank x y Hx Hy) in H. apply (leb_rank x y Hx Hy).
  unfold rank_le, rank_lt in *.
  destruct (rank x) as [[a b] c], (rank y) as [[a' b'] c']. lia.
Qed.

(** ** The fastest puzzle *)

Section Least.

Context {A : Type}.
Variable f : A -> number.
Hypothesis f_not_NaN : forall a, Num.isNaN (f a) = false.


Lemma leb_refl_f (a : A) : Num.leb (f a) (f a) = true.
Proof.
  change (Num.geb (f a) (f a) = true). rewrite geb_self, f_not_NaN. reflexivity.
Qed.

Lemma least_step (seen : list A) (st : option (A * number)) (a : A) (b : bool) :
  least_of f seen st ->
  (match st with Some (_, v) => b = Num.ltb (f a) v | None => True end) ->
  least_of f (seen ++ [a])
    (match st with
     | Some (el, v) => if b then Some (a, f a) else Some (el, v)
     | None => Some (a, f a)
     end).
Proof.
  destruct st as [[el v] |]; simpl.
  - intros (Ev & Hin & Hmin) ->. destruct (Num.ltb (f a) v) eqn:L; simpl.
    + split; [reflexivity |]. split; [apply in_or_app; right; now left |].
      intros x Hx. apply in_app_or in Hx as [Hx | [<- | []]].
      * eapply leb_trans; [apply ltb_leb; exact L | now apply Hmin].
      * apply leb_refl_f.
    + split; [exact Ev |]. split; [apply in_or_app; now left |].
      intros x Hx. apply in_app_or in Hx as [Hx | [<- | []]].
      * now apply Hmin.
      * apply not_ltb_leb; [apply f_not_NaN | subst v; apply f_not_NaN | exact L].
  - intros -> _. simpl. split; [reflexivity |]. split; [now left |].
    intros x [<- | []]. apply leb_refl_f.
Qed.

Lemma d3_least_fold (l : list A) :
  forall seen st,
    least_of f seen st ->
    least_of f (seen ++ l)
      (fold_left
         (fun (st : option (A * number)) (element : A) =>
            let value := f element in
            match st with
            | Some (_, minValue) =>
                match D3.ascending value minValue with
                | Some c => if c <? 0 then Some (element, value) else st
                | None => st
                end
            | None =>
                match D3.ascending value value with
                | Some 0 => Some (element, value)
                | _ => None
                end
            end) l st).
Proof.
  induction l as [| a l IH]; intros seen st Inv; simpl.
  - now rewrite app_nil_r.
  - replace (seen ++ a :: l) with ((seen ++ [a]) ++ l) by now rewrite <- app_assoc.
    apply IH.
    destruct st as [[el v] |].
    + assert (S := least_step seen (Some (el, v)) a (Num.ltb (f a) v) Inv eq_refl).
      unfold D3.ascending, Num.gtb, Num.geb.
      destruct (Num.ltb (f a) v); [exact S |].
      destruct (SFltb v (f a)); [exact S |].
      destruct (SFleb v (f a)); exact S.
    + assert (S := least_step seen None a true Inv I).
      unfold D3.ascending, Num.gtb.
      rewrite ltb_irrefl. fold (Num.ltb (f a) (f a)). rewrite ltb_irrefl.
      rewrite geb_self, f_not_NaN. exact S.
Qed.

Lemma d3_least_spec (l : list A) :
  l <> [] ->
  exists r, D3.least l f = Some r /\ In r l /\
            forall x, In x l -> Num.leb (f r) (f x) = true.
Proof.
  intros Hl. unfold D3.least.
  assert (Inv := d3_least_fold l [] None eq_refl). simpl in Inv.
  destruct (fold_left _ l None) as [[el v] |]; simpl in *.
  - destruct Inv as (-> & Hin & Hmin). now exists el.
  - contradiction.
Qed.

End Least.

Lemma parseDeviation_not_NaN (label : value) :
  Num.isNaN (Card6._parseDeviation label) = false.
Proof.
  unfold Card6._parseDeviation.
  destruct (Card6.nullish label); [reflexivity |].
  destruct (parseFloat _) as [s | s | | s m e]; reflexivity.
Qed.

Lemma parseDeviation_unparseable (label : value) :
  Card6.parseable label = false -> Card6._parseDeviation label = Num.Infinity.
Proof.
  unfold Card6.parseable, Card6._parseDeviation.
  destruct (Card6.nullish label); simpl; [reflexivity |].
  intros ->. reflexivity.
Qed.

Lemma parseDeviation_parseable (label : value) :
  Card6.parseable label = true ->
  Num.isFinite (Card6._parseDeviation label) = true.
Proof.
  unfold Card6.parseable, Card6._parseDeviation.
  destruct (Card6.nullish label); simpl; [discriminate |].
  intros H. rewrite H. exact H.
Qed.

Lemma least_by_reduce_fold (l : list Card6.row) :
  forall seen best,
    least_of (fun d => Card6._parseDeviation (Card6.Deviation_Percent_Label d)) seen
      (option_map
         (fun b => (b, Card6._parseDeviation (Card6.Deviation_Percent_Label b))) best) ->
    least_of (fun d => Card6._parseDeviation (Card6.Deviation_Percent_Label d)) (seen ++ l)
      (option_map
         (fun b => (b, Card6._parseDeviation (Card6.Deviation_Percent_Label b)))
         (fold_left
            (fun (best : option Card6.row) (d : Card6.row) =>
               match best with
               | None => Some d
               | Some b =>
                   if Num.ltb (Card6._parseDeviation (Card6.Deviation_Percent_Label d))
                              (Card6._parseDeviation (Card6.Deviation_Percent_Label b))
                   then Some d else best
               end) l best)).
Proof.
  induction l as [| a l IH]; intros seen best Inv; simpl.
  - now rewrite app_nil_r.
  - replace (seen ++ a :: l) with ((seen ++ [a]) ++ l) by now rewrite <- app_assoc.
    apply IH.
    destruct best as [b |].
    + assert (S := least_step
                     (fun d => Card6._parseDeviation (Card6.Deviation_Percent_Label d))
                     (fun d => parseDeviation_not_NaN _) seen
                     (Some (b, Card6._parseDeviation (Card6.Deviation_Percent_Label b)))
                     a _ Inv eq_refl).
      simpl in S |- *.
      destruct (Num.ltb _ _); exact S.
    + exact (least_step
               (fun d => Card6._parseDeviation (Card6.Deviation_Percent_Label d))
               (fun d => parseDeviation_not_NaN _) seen None a true Inv I).
Qed.

Lemma fastestPuzzle_spec (d3_has_least : bool) (tableData : list Card6.row) :
  tableData <> [] ->
  exists p,
    Card6._fastestPuzzle d3_has_least tableData = Some p /\ In p tableData /\
    forall r, In r tableData ->
      Num.leb (Card6._parseDeviation (Card6.Deviation_Percent_Label p))
              (Card6._parseDeviation (Card6.Deviation_Percent_Label r)) = true.
Proof.
  intros Hne. unfold Card6._fastestPuzzle. destruct d3_has_least.
  - apply d3_least_spec; [| exact Hne]. intros a. apply parseDeviation_not_NaN.
  - unfold Card6.least_by_reduce.
    assert (Inv := least_by_reduce_fold tableData [] None eq_refl). simpl in Inv.
    destruct (fold_left _ tableData None) as [b |]; simpl in Inv.
    + destruct Inv as (_ & Hin & Hmin). now exists b.
    + contradiction.
Qed.

(** C5.  For a non-empty fast_days array, the puzzle [renderCard7] (and
    [renderCard6]) selects is a row of the array whose label parses to
    the minimum deviation among all rows of the array; its [puzzle_id]
    is the identifier the replay data is fetched with; and when that
    [puzzle_id] is missing (falsy) the replay is skipped, nothing raised. *)
Theorem renderCard7_replays_the_fastest_puzzle :
  forall (d3_has_least : bool) (rawTableData : Card6.artifact),
    Card6.tableData_of rawTableData <> [] ->
    exists p,
      Card6._fastestPuzzle d3_has_least (Card6.tableData_of rawTableData) = Some p /\
      In p (Card6.tableData_of rawTableData) /\
      (forall r, In r (Card6.tableData_of rawTableData) ->
         Num.leb (Card6._parseDeviation (Card6.Deviation_Percent_Label p))
                 (Card6._parseDeviation (Card6.Deviation_Percent_Label r)) = true) /\
      (truthy (Card6.puzzle_id p) = true ->
         Card6.renderCard7 d3_has_least rawTableData = Card6.Fetches (Card6.puzzle_id p)) /\
      (truthy (Card6.puzzle_id p) = false ->
         Card6.renderCard7 d3_has_least rawTableData = Card6.Skipped).
Proof.
  intros b raw Hne.
  destruct (fastestPuzzle_spec b _ Hne) as (p & E & Hin & Hmin).
  exists p. split; [exact E |]. split; [exact Hin |]. split; [exact Hmin |].
  unfold Card6.renderCard7.
  destruct (Card6.tableData_of raw) as [| r0 rows]; [contradiction |].
  rewrite E. split; intros ->; reflexivity.
Qed.

Lemma Infinity_leb_finite (y : number) :
  Num.isFinite y = true -> Num.leb Num.Infinity y = false.
Proof. destruct y as [s | s | | s m e]; simpl; try discriminate; reflexivity. Qed.

(** C9.  [_parseDeviation] maps a label that is null, undefined or does
    not parse to a finite number to +Infinity; so whenever some row of
    the array has a parseable label, the row [renderCard6] and
    [renderCard7] select has a parseable label too. *)
Theorem unparseable_label_is_never_the_fastest :
  (forall label, Card6.parseable label = false ->
     Card6._parseDeviation label = Num.Infinity) /\
  (forall (d3_has_least : bool) (tableData : list Card6.row),
     (exists r, In r tableData /\
                Card6.parseable (Card6.Deviation_Percent_Label r) = true) ->
     exists p,
       Card6._fastestPuzzle d3_has_least tableData = Some p /\
       In p tableData /\
       Card6.parseable (Card6.Deviation_Percent_Label p) = true).
Proof.
  split; [exact parseDeviation_unparseable |].
  intros b tableData (r & Hr & Pr).
  assert (Hne : tableData <> []) by (intros ->; contradiction).
  destruct (fastestPuzzle_spec b _ Hne) as (p & E & Hin & Hmin).
  exists p. split; [exact E |]. split; [exact Hin |].
  destruct (Card6.parseable (Card6.Deviation_Percent_Label p)) eqn:Pp; [reflexivity |].
  exfalso. specialize (Hmin r Hr).
  rewrite (parseDeviation_unparseable _ Pp) in Hmin.
  rewrite (Infinity_leb_finite _ (parseDeviation_parseable _ Pr)) in Hmin.
  discriminate.
Qed.

(** ** [d3.group] and [d3.max] *)

Lemma jsstring_eqb_eq (a b : jsstring) : jsstring_eqb a b = true <-> a = b.
Proof.
  unfold jsstring_eqb. destruct (list_eq_dec N.eq_dec a b); split; auto; discriminate.
Qed.

Lemma jsstring_eqb_refl (a : jsstring) : jsstring_eqb a a = true.
Proof. now apply jsstring_eqb_eq. Qed.

Lemma jsstring_eqb_neq (a b : jsstring) : jsstring_eqb a b = false <-> a <> b.
Proof.
  unfold jsstring_eqb. destruct (list_eq_dec N.eq_dec a b); split; auto;
    try discriminate; contradiction.
Qed.

Section Group.

Context {A : Type}.
Variable key : A -> jsstring.


Lemma get_group_push (g : list (jsstring * list A)) (k' : jsstring) (a : A) (k : jsstring) :
  D3.get (D3.group_push k' a g) k =
  if jsstring_eqb k' k
  then Some (match D3.get g k with Some vs => vs ++ [a] | None => [a] end)
  else D3.get g k.
Proof.
  induction g as [| [k0 vs0] g IH]; simpl.
  - destruct (jsstring_eqb k' k); reflexivity.
  - destruct (jsstring_eqb k0 k') eqn:E0; simpl.
    + apply jsstring_eqb_eq in E0. subst k0.
      destruct (jsstring_eqb k' k); reflexivity.
    + destruct (jsstring_eqb k0 k) eqn:E1.
      * apply jsstring_eqb_eq in E1. subst k0.
        destruct (jsstring_eqb k' k) eqn:E2; [| reflexivity].
        apply jsstring_eqb_eq in E2. subst k'. rewrite jsstring_eqb_refl in E0.
        discriminate.
      * exact IH.
Qed.

Lemma keys_group_push (g : list (jsstring * list A)) (k' : jsstring) (a : A) :
  NoDup (map fst g) -> NoDup (map fst (D3.group_push k' a g)) /\
  forall k, In k (map fst (D3.group_push k' a g)) <-> k = k' \/ In k (map fst g).
Proof.
  induction g as [| [k0 vs0] g IH]; simpl; intros Hnd.
  - split; [constructor; [intros [] | constructor] |]. intros k. intuition.
  - inversion Hnd as [| ? ? Hnotin Hnd']; subst.
    destruct (jsstring_eqb k0 k') eqn:E0; simpl.
    + apply jsstring_eqb_eq in E0. subst k0. split; [exact Hnd |].
      intros k. intuition.
    + apply jsstring_eqb_neq in E0. destruct (IH Hnd') as [IH1 IH2].
      split.
      * constructor; [| exact IH1]. intros Hin. apply IH2 in Hin as [-> | Hin]; contradiction.
      * intros k. rewrite IH2. intuition.
Qed.

Lemma with_key_snoc (k : jsstring) (l : list A) (a : A) :
  with_key key k (l ++ [a]) =
  if jsstring_eqb (key a) k then with_key key k l ++ [a] else with_key key k l.
Proof.
  unfold with_key. rewrite filter_app. simpl.
  destruct (jsstring_eqb (key a) k); [reflexivity | apply app_nil_r].
Qed.

Lemma group_fold (l : list A) :
  forall (l0 : list A) (g : list (jsstring * list A)),
    NoDup (map fst g) ->
    (forall k, D3.get g k = lookup_of (with_key key k l0)) ->
    let g' := fold_left (fun groups value => D3.group_push (key value) value groups) l g in
    NoDup (map fst g') /\ forall k, D3.get g' k = lookup_of (with_key key k (l0 ++ l)).
Proof.
  induction l as [| a l IH]; intros l0 g Hnd Hget; simpl.
  - rewrite app_nil_r. split; assumption.
  - replace (l0 ++ a :: l) with ((l0 ++ [a]) ++ l) by now rewrite <- app_assoc.
    apply IH.
    + apply keys_group_push, Hnd.
    + intros k. rewrite get_group_push, with_key_snoc, Hget.
      destruct (jsstring_eqb (key a) k); [| reflexivity].
      destruct (with_key key k l0); reflexivity.
Qed.

Lemma get_group (l : list A) (k : jsstring) :
  D3.get (D3.group l key) k = lookup_of (with_key key k l).
Proof.
  unfold D3.group.
  destruct (group_fold l [] [] (NoDup_nil _) (fun _ => eq_refl)) as [_ H].
  exact (H k).
Qed.

Lemma group_keys_NoDup (l : list A) : NoDup (map fst (D3.group l key)).
Proof.
  unfold D3.group.
  now destruct (group_fold l [] [] (NoDup_nil _) (fun _ => eq_refl)) as [H _].
Qed.

Lemma get_In {B : Type} (g : list (jsstring * B)) (k : jsstring) (v : B) :
  D3.get g k = Some v -> In (k, v) g.
Proof.
  induction g as [| [k0 v0] g IH]; simpl; [discriminate |].
  destruct (jsstring_eqb k0 k) eqn:E.
  - apply jsstring_eqb_eq in E. subst k0. intros H; inversion H; subst. now left.
  - intros H. right. now apply IH.
Qed.

Lemma In_get {B : Type} (g : list (jsstring * B)) (k : jsstring) (v : B) :
  NoDup (map fst g) -> In (k, v) g -> D3.get g k = Some v.
Proof.
  induction g as [| [k0 v0] g IH]; simpl; intros Hnd Hin; [contradiction |].
  inversion Hnd as [| ? ? Hnotin Hnd']; subst.
  destruct Hin as [E | Hin].
  - inversion E; subst. now rewrite jsstring_eqb_refl.
  - destruct (jsstring_eqb k0 k) eqn:E.
    + apply jsstring_eqb_eq in E. subst k0. exfalso. apply Hnotin.
      apply in_map_iff. now exists (k, v).
    + now apply IH.
Qed.

(** A group of [d3.group] holds the values of its key, all of them, in
    array order, and is never empty. *)
Lemma In_group (l : list A) (k : jsstring) (vs : list A) :
  In (k, vs) (D3.group l key) <-> vs = with_key key k l /\ vs <> [].
Proof.
  split.
  - intros Hin. apply In_get in Hin; [| apply group_keys_NoDup].
    rewrite get_group in Hin. destruct (with_key key k l) eqn:E; simpl in Hin; [discriminate |].
    inversion Hin; subst. split; [reflexivity | discriminate].
  - intros [-> Hne]. apply get_In. rewrite get_group.
    destruct (with_key key k l); [contradiction | reflexivity].
Qed.

End Group.

Lemma d3_max_fold (vs : list number) :
  forall (seen : list number) (mx : option number),
    match mx with
    | Some m => In m seen /\ Num.isNaN m = false /\
                forall v, In v seen -> Num.ltb m v = false
    | None => forall v, In v seen -> Num.isNaN v = true
    end ->
    match fold_left
            (fun (max : option number) (value : number) =>
               match max with
               | Some m => if Num.ltb m value then Some value else max
               | None => if Num.geb value value then Some value else None
               end) vs mx with
    | Some m => In m (seen ++ vs) /\ Num.isNaN m = false /\
                forall v, In v (seen ++ vs) -> Num.ltb m v = false
    | None => forall v, In v (seen ++ vs) -> Num.isNaN v = true
    end.
Proof.
  induction vs as [| a vs IH]; intros seen mx Inv; simpl.
  - now rewrite app_nil_r.
  - replace (seen ++ a :: vs) with ((seen ++ [a]) ++ vs) by now rewrite <- app_assoc.
    apply IH. destruct mx as [m |].
    + destruct Inv as (Hin & Hm & Hmax).
      destruct (Num.ltb m a) eqn:L.
      * split; [apply in_or_app; right; now left |].
        split; [now destruct (ltb_not_NaN _ _ L) |].
        intros v Hv. apply in_app_or in Hv as [Hv | [<- | []]].
        -- destruct (Num.ltb a v) eqn:L'; [| reflexivity].
           specialize (Hmax v Hv). rewrite (ltb_trans _ _ _ L L') in Hmax. discriminate Hmax.
        -- apply ltb_irrefl.
      * split; [apply in_or_app; now left |]. split; [exact Hm |].
        intros v Hv. apply in_app_or in Hv as [Hv | [<- | []]]; [now apply Hmax | exact L].
    + rewrite geb_self. destruct (Num.isNaN a) eqn:Na; simpl.
      * intros v Hv. apply in_app_or in Hv as [Hv | [<- | []]]; [now apply Inv | exact Na].
      * split; [apply in_or_app; right; now left |]. split; [exact Na |].
        intros v Hv. apply in_app_or in Hv as [Hv | [<- | []]].
        -- specialize (Inv v Hv). destruct (Num.ltb a v) eqn:L; [| reflexivity].
           destruct (ltb_not_NaN _ _ L) as [_ Hv']. congruence.
        -- apply ltb_irrefl.
Qed.

(** [d3.max] returns a value of the array that is not NaN and that no
    value of the array exceeds; [undefined] when every value is NaN. *)
Lemma d3_max_spec (vs : list number) :
  match D3.max vs with
  | Some m => In m vs /\ Num.isNaN m = false /\
              forall v, In v vs -> Num.ltb m v = false
  | None => forall v, In v vs -> Num.isNaN v = true
  end.
Proof.
  unfold D3.max. apply (d3_max_fold vs [] None). intros v [].
Qed.

(** ** Card 3: one frequency scale for all weekdays *)

Lemma in_flat_map_day (json : list Card3.json_bin) (c : Card3.chart) :
  In c (Card3.renderCard3 json) <->
  exists day b dayData,
    In day Card3.dayOrder /\
    D3.get (D3.group (map Card3.coerce json) Card3.Day_of_Week) day = Some (b :: dayData) /\
    c = Card3.renderDayHistogram (js "histogram-" ++ day) (b :: dayData)
          (Card3.maxFrequency (map Card3.coerce json)).
Proof.
  unfold Card3.renderCard3. rewrite in_flat_map. split.
  - intros (day & Hday & Hc).
    destruct (D3.get _ day) as [[| b dayData] |] eqn:E; try contradiction.
    destruct Hc as [<- | []]. now exists day, b, dayData.
  - intros (day & b & dayData & Hday & E & ->). exists day. split; [exact Hday |].
    rewrite E. now left.
Qed.

(** C4.  The frequency scale of the histograms is one reduction over the
    whole artifact, made before any chart is drawn: [maxFrequency] is a
    frequency of some bin of the artifact that no bin of any weekday
    exceeds; every chart [renderCard3] renders, one for each weekday of
    [dayOrder] that has bins and drawn from that weekday's bins alone,
    has the y domain [0, maxFrequency * 1.1], the same for all of them
    whatever the chart's own peak is. *)
Theorem renderCard3_shares_one_frequency_scale :
  forall json : list Card3.json_bin,
    let rawData := map Card3.coerce json in
    let shared := Card3.maxFrequency rawData in
    match shared with
    | Some m =>
        (exists b, In b rawData /\ Card3.frequency b = m) /\
        Num.isNaN m = false /\
        forall b, In b rawData -> Num.ltb m (Card3.frequency b) = false
    | None => forall b, In b rawData -> Num.isNaN (Card3.frequency b) = true
    end /\
    (forall c, In c (Card3.renderCard3 json) ->
       Card3.y_domain c = (Num.zero, Num.mul (Num.of_optional shared) Num.n1_1) /\
       exists day,
         In day Card3.dayOrder /\
         Card3.containerId c = js "histogram-" ++ day /\
         Card3.bars c = with_key Card3.Day_of_Week day rawData /\
         Card3.bars c <> [] /\
         Card3.maxVal c = D3.max (map Card3.frequency (Card3.bars c))) /\
    (forall day, In day Card3.dayOrder ->
       with_key Card3.Day_of_Week day rawData <> [] ->
       exists c, In c (Card3.renderCard3 json) /\
                 Card3.bars c = with_key Card3.Day_of_Week day rawData) /\
    (forall c c', In c (Card3.renderCard3 json) -> In c' (Card3.renderCard3 json) ->
       Card3.y_domain c = Card3.y_domain c').
Proof.
  intros json rawData shared.
  assert (Charts : forall c, In c (Card3.renderCard3 json) ->
       Card3.y_domain c = (Num.zero, Num.mul (Num.of_optional shared) Num.n1_1) /\
       exists day,
         In day Card3.dayOrder /\
         Card3.containerId c = js "histogram-" ++ day /\
         Card3.bars c = with_key Card3.Day_of_Week day rawData /\
         Card3.bars c <> [] /\
         Card3.maxVal c = D3.max (map Card3.frequency (Card3.bars c))).
  { intros c Hc. apply in_flat_map_day in Hc as (day & b & dayData & Hday & E & ->).
    split; [reflexivity |]. exists day. split; [exact Hday |]. split; [reflexivity |].
    apply get_In, In_group in E as [E _]. simpl.
    split; [exact E |]. split; [discriminate | reflexivity]. }
  split; [| split; [exact Charts | split]].
  - subst shared. unfold Card3.maxFrequency.
    assert (S := d3_max_spec (map Card3.frequency rawData)).
    destruct (D3.max (map Card3.frequency rawData)) as [m |].
    + destruct S as (Hin & Hm & Hmax). split; [| split; [exact Hm |]].
      * apply in_map_iff in Hin as (b & E & Hb). now exists b.
      * intros b Hb. apply Hmax. now apply in_map.
    + intros b Hb. apply S. now apply in_map.
  - intros day Hday Hne.
    assert (E := get_group Card3.Day_of_Week rawData day).
    destruct (with_key Card3.Day_of_Week day rawData) as [| b dayData] eqn:W;
      [contradiction |].
    simpl in E.
    exists (Card3.renderDayHistogram (js "histogram-" ++ day) (b :: dayData) shared).
    split; [| reflexivity].
    apply in_flat_map_day. now exists day, b, dayData.
  - intros c c' Hc Hc'. destruct (Charts c Hc) as [-> _].
    destruct (Charts c' Hc') as [-> _]. reflexivity.
Qed.

(** ** Division by zero *)

Lemma div_by_zero (x : number) (s : bool) :
  Num.isFinite (Num.div x (S754_zero s)) = false /\
  (Num.isNaN (Num.div x (S754_zero s)) = true <->
   (exists s', x = S754_zero s') \/ x = Num.NaN).
Proof.
  destruct x as [sx | sx | | sx m e]; simpl; (split; [reflexivity |]);
    split; try discriminate; try (intros _; eauto; fail);
    intros [[s' H] | H]; discriminate.
Qed.

Lemma mul_100_not_finite (x : number) :
  Num.isFinite x = false ->
  Num.isFinite (Num.mul x Num.n100) = false /\
  Num.isNaN (Num.mul x Num.n100) = Num.isNaN x.
Proof.
  rewrite n100_value. destruct x as [sx | sx | | sx m e]; simpl;
    try discriminate; intros _; split; reflexivity.
Qed.

Lemma in_normalize (chartData : list Card4.point) (d' : Card4.point) :
  In d' (Card4.normalize chartData) <->
  exists d, In d chartData /\
    Card4.day_of_year d' = Card4.day_of_year d /\
    Card4.Day_of_Week d' = Card4.Day_of_Week d /\
    Card4.average_time_min d' = Card4.average_time_min d /\
    Card4.normalized_time d' =
      Some (Num.mul
              (Num.div (Card4.average_time_min d)
                 (Num.of_optional (Card4.maxTime chartData (Card4.Day_of_Week d))))
              Num.n100) /\
    d' = {| Card4.day_of_year := Card4.day_of_year d;
            Card4.Day_of_Week := Card4.Day_of_Week d;
            Card4.average_time_min := Card4.average_time_min d;
            Card4.normalized_time :=
              Some (Num.mul
                      (Num.div (Card4.average_time_min d)
                         (Num.of_optional (Card4.maxTime chartData (Card4.Day_of_Week d))))
                      Num.n100) |}.
Proof.
  unfold Card4.normalize. rewrite in_map_iff. split.
  - intros (d & <- & Hd). exists d. simpl. repeat split; auto.
  - intros (d & Hd & _ & _ & _ & _ & ->). now exists d.
Qed.

(** C3, as amended.  A zero denominator is not guarded and nothing is
    raised: when the maximum average time of a point's weekday is zero,
    its normalised time is NaN if its own average time is zero (or NaN)
    and an infinity otherwise; when [total_available] is zero, the final
    rates of [animateArc] are NaN if the count is zero (or NaN) and an
    infinity otherwise.  In no case is the result the number zero. *)
Theorem zero_denominator_gives_NaN_or_Infinity :
  (forall (chartData : list Card4.point) (d' : Card4.point) (s : bool),
     In d' (Card4.normalize chartData) ->
     Card4.maxTime chartData (Card4.Day_of_Week d') = Some (S754_zero s) ->
     exists r,
       Card4.normalized_time d' = Some r /\
       Num.isFinite r = false /\
       (Num.isNaN r = true <->
        (exists s', Card4.average_time_min d' = S754_zero s') \/
        Card4.average_time_min d' = Num.NaN)) /\
  (forall (data : Card1.summary) (s : bool),
     Card1.total_available data = S754_zero s ->
     Num.isFinite (Card1.finalRateTotal data) = false /\
     Num.isFinite (Card1.finalRateGold data) = false /\
     (Num.isNaN (Card1.finalRateTotal data) = true <->
      (exists s', Card1.total_completed data = S754_zero s') \/
      Card1.total_completed data = Num.NaN) /\
     (Num.isNaN (Card1.finalRateGold data) = true <->
      (exists s', Card1.gold_star_completed data = S754_zero s') \/
      Card1.gold_star_completed data = Num.NaN)).
Proof.
  split.
  - intros chartData d' s Hd' Hmax.
    apply in_normalize in Hd' as (d & Hd & _ & El & Ea & En & _).
    rewrite El in Hmax. rewrite En, Hmax, Ea. simpl Num.of_optional.
    eexists. split; [reflexivity |].
    destruct (div_by_zero (Card4.average_time_min d) s) as [F N].
    destruct (mul_100_not_finite _ F) as [F' N'].
    split; [exact F' |]. rewrite N'. exact N.
  - intros data s Hz. unfold Card1.finalRateTotal, Card1.finalRateGold. rewrite Hz.
    destruct (div_by_zero (Card1.total_completed data) s) as [F1 N1].
    destruct (div_by_zero (Card1.gold_star_completed data) s) as [F2 N2].
    destruct (mul_100_not_finite _ F1) as [F1' N1'].
    destruct (mul_100_not_finite _ F2) as [F2' N2'].
    split; [exact F1' |]. split; [exact F2' |].
    rewrite N1', N2'. split; assumption.
Qed.

(** A Monday whose only average time is 0, and a summary with no
    puzzle available: the results are NaN, not 0. *)
Lemma zero_denominator_is_not_guarded :
  let monday := {| Card4.json_day_of_year := VNumber (Num.of_Z 6);
                   Card4.json_Day_of_Week := js "Mon";
                   Card4.json_average_time_min := VNumber (Num.of_Z 0) |} in
  let summary := {| Card1.total_completed := Num.of_Z 0;
                    Card1.gold_star_completed := Num.of_Z 0;
                    Card1.total_available := Num.of_Z 0 |} in
  Card4.maxTime (map Card4.coerce [monday]) (js "Mon") = Some Num.zero /\
  map Card4.normalized_time (Card4.renderCard4_data [monday]) = [Some Num.NaN] /\
  Card1.finalRateTotal summary = Num.NaN /\
  Card1.finalRateGold summary = Num.NaN /\
  Num.NaN <> Num.zero.
Proof.
  cbv zeta. repeat split; try (vm_compute; reflexivity). discriminate.
Qed.

Lemma zero_denominator_witness :
  let sunday := {| Card4.day_of_year := Num.of_Z 5;
                   Card4.Day_of_Week := js "Sun";
                   Card4.average_time_min := Num.of_Z 0;
                   Card4.normalized_time := None |} in
  let summary := {| Card1.total_completed := Num.of_Z 3;
                    Card1.gold_star_completed := Num.of_Z 0;
                    Card1.total_available := Num.of_Z 0 |} in
  (exists r, Card4.normalized_time (hd sunday (Card4.normalize [sunday])) = Some r /\
             Num.isFinite r = false) /\
  Num.isFinite (Card1.finalRateTotal summary) = false.
Proof.
  cbv zeta. split.
  - destruct (proj1 zero_denominator_gives_NaN_or_Infinity
                [ {| Card4.day_of_year := Num.of_Z 5;
                     Card4.Day_of_Week := js "Sun";
                     Card4.average_time_min := Num.of_Z 0;
                     Card4.normalized_time := None |} ]
                (hd {| Card4.day_of_year := Num.of_Z 5;
                       Card4.Day_of_Week := js "Sun";
                       Card4.average_time_min := Num.of_Z 0;
                       Card4.normalized_time := None |}
                    (Card4.normalize
                       [ {| Card4.day_of_year := Num.of_Z 5;
                            Card4.Day_of_Week := js "Sun";
                            Card4.average_time_min := Num.of_Z 0;
                            Card4.normalized_time := None |} ]))
                false) as (r & E & F & _).
    + left. reflexivity.
    + vm_compute. reflexivity.
    + exists r. split; [exact E | exact F].
  - apply (proj2 zero_denominator_gives_NaN_or_Infinity _ false). vm_compute. reflexivity.
Defined.

(** ** Binary64 arithmetic: rounding *)

Lemma fexp_53 (e : Z) : fexp Num.prec Num.emax e = fexp53 e.
Proof. reflexivity. Qed.

Lemma digits2_pos_size (p : positive) : digits2_pos p = Pos.size p.
Proof. induction p; simpl; congruence. Qed.

Lemma Zdigits2_log2 (m : Z) : 0 < m -> Zdigits2 m = Z.log2 m + 1.
Proof.
  destruct m as [| p | p]; try lia. intros _. simpl.
  rewrite digits2_pos_size. destruct p; simpl; lia.
Qed.

Lemma Zdigits2_bounds (m : Z) :
  0 < m -> 2 ^ (Zdigits2 m - 1) <= m < 2 ^ Zdigits2 m.
Proof.
  intros Hm. rewrite (Zdigits2_log2 m Hm).
  replace (Z.log2 m + 1 - 1) with (Z.log2 m) by lia.
  replace (Z.log2 m + 1) with (Z.succ (Z.log2 m)) by lia.
  now apply Z.log2_spec.
Qed.

Lemma Zdigits2_unique (m d : Z) :
  2 ^ (d - 1) <= m < 2 ^ d -> 0 < m -> Zdigits2 m = d.
Proof.
  intros H Hm. rewrite (Zdigits2_log2 m Hm).
  assert (0 <= d - 1).
  { destruct (Z.le_gt_cases 0 (d - 1)) as [|Hn]; [assumption |].
    exfalso. assert (d <= 0) by lia.
    assert (2 ^ d <= 1).
    { destruct (Z.eq_dec d 0) as [-> | ]; [simpl; lia |].
      rewrite Z.pow_neg_r by lia. lia. }
    lia. }
  rewrite (Z.log2_unique m (d - 1)); try lia.
  replace (Z.succ (d - 1)) with d by lia. exact H.
Qed.

Lemma Zdigits2_nonneg (m : Z) : 0 <= Zdigits2 m.
Proof. destruct m; simpl; lia. Qed.

Lemma Zdigits2_pos (m : Z) : 0 < m -> 0 < Zdigits2 m.
Proof. destruct m; simpl; lia. Qed.

(* shr *)
Lemma shr_1_m (mrs : shr_record) :
  0 <= shr_m mrs -> shr_m (shr_1 mrs) = shr_m mrs / 2.
Proof.
  destruct mrs as [m r s]. simpl. intros Hm.
  destruct m as [| [p | p |] | p]; simpl; try lia; try reflexivity.
  - rewrite Pos2Z.inj_xI. apply (Z.div_unique _ 2 _ 1); lia.
  - rewrite Pos2Z.inj_xO. apply (Z.div_unique _ 2 _ 0); lia.
Qed.


Lemma shr_1_exact (mrs : shr_record) :
  0 <= shr_m mrs ->
  shr_exact (shr_1 mrs) = shr_exact mrs && Z.even (shr_m mrs).
Proof.
  destruct mrs as [m r s]. unfold shr_exact. simpl. intros Hm.
  destruct m as [| [p | p |] | p]; simpl; try lia; destruct r, s; reflexivity.
Qed.

Lemma iter_pos_nat {A : Type} (f : A -> A) (p : positive) (x : A) :
  iter_pos f p x = Nat.iter (Pos.to_nat p) f x.
Proof.
  revert x. induction p as [p IH | p IH |]; intros x; cbn [iter_pos].
  - rewrite !IH, Pos2Nat.inj_xI.
    replace (S (2 * Pos.to_nat p)) with (S (Pos.to_nat p + Pos.to_nat p)) by lia.
    rewrite Nat.iter_succ_r, Nat.iter_add. reflexivity.
  - rewrite !IH, Pos2Nat.inj_xO.
    replace (2 * Pos.to_nat p)%nat with (Pos.to_nat p + Pos.to_nat p)%nat by lia.
    now rewrite Nat.iter_add.
  - reflexivity.
Qed.

Lemma shr_iter (n : nat) (mrs : shr_record) :
  0 <= shr_m mrs ->
  0 <= shr_m (Nat.iter n shr_1 mrs) /\
  shr_m (Nat.iter n shr_1 mrs) = shr_m mrs / 2 ^ Z.of_nat n /\
  shr_exact (Nat.iter n shr_1 mrs)
  = shr_exact mrs && (shr_m mrs mod 2 ^ Z.of_nat n =? 0).
Proof.
  intros Hm. induction n as [| n (IH0 & IH1 & IH2)].
  - simpl. rewrite Z.div_1_r, Z.mod_1_r. simpl. rewrite andb_true_r. auto.
  - rewrite Nat2Z.inj_succ, Z.pow_succ_r by lia. simpl Nat.iter.
    rewrite shr_1_m, shr_1_exact by exact IH0. rewrite IH1, IH2.
    assert (P : 0 < 2 ^ Z.of_nat n) by (apply Z.pow_pos_nonneg; lia).
    split; [apply Z.div_pos; [apply Z.div_pos |]; lia |].
    split.
    + rewrite Z.div_div by lia. f_equal. lia.
    + rewrite <- andb_assoc. f_equal.
      set (q := 2 ^ Z.of_nat n) in *. set (m := shr_m mrs) in *.
      assert (Em : m = q * (m / q) + m mod q) by (apply Z.div_mod; lia).
      assert (Hr : 0 <= m mod q < q) by (apply Z.mod_pos_bound; lia).
      clearbody q m.
      destruct (Z.eqb_spec (m mod q) 0) as [E0 | N0];
        [rewrite andb_true_l | rewrite andb_false_l].
      * destruct (Z.even (m / q)) eqn:Ev.
        -- symmetry. apply Z.eqb_eq.
           apply Z.even_spec in Ev. destruct Ev as [k Ek].
           rewrite E0, Ek in Em.
           assert (Em' : m = k * (2 * q)) by (rewrite Em; ring).
           rewrite Em'. apply Z.mod_mul. lia.
        -- symmetry. apply Z.eqb_neq. intros E.
           assert (Ho : Z.odd (m / q) = true) by (rewrite <- Z.negb_even, Ev; reflexivity).
           apply Z.odd_spec in Ho. destruct Ho as [k Ek].
           rewrite E0, Ek in Em.
           assert (Em' : m = (2 * q) * k + q) by (rewrite Em; ring).
           assert (m mod (2 * q) = q).
           { symmetry. apply (Z.mod_unique _ _ k); lia. }
           lia.
      * symmetry. apply Z.eqb_neq. intros E.
        apply N0.
        assert (Em' : m = (2 * q) * (m / (2 * q)) + m mod (2 * q)) by (apply Z.div_mod; lia).
        rewrite E in Em'.
        assert (Em'' : m = (2 * (m / (2 * q))) * q) by (rewrite Em' at 1; ring).
        rewrite Em''. apply Z.mod_mul. lia.
Qed.

Lemma shr_spec (mrs : shr_record) (e n : Z) :
  0 <= shr_m mrs -> 0 <= n ->
  snd (shr mrs e n) = e + n /\
  0 <= shr_m (fst (shr mrs e n)) /\
  shr_m (fst (shr mrs e n)) = shr_m mrs / 2 ^ n /\
  shr_exact (fst (shr mrs e n)) = shr_exact mrs && (shr_m mrs mod 2 ^ n =? 0).
Proof.
  intros Hm Hn. destruct n as [| p | p]; try lia; simpl shr.
  - simpl. rewrite Z.div_1_r, Z.mod_1_r, andb_true_r. repeat split; lia.
  - cbn [fst snd]. rewrite iter_pos_nat.
    destruct (shr_iter (Pos.to_nat p) mrs Hm) as (H0 & H1 & H2).
    rewrite positive_nat_Z in H1, H2. repeat split; assumption.
Qed.

Lemma shr_nonpos (mrs : shr_record) (e n : Z) : n <= 0 -> shr mrs e n = (mrs, e).
Proof. destruct n; try reflexivity. lia. Qed.

Lemma round_nearest_even_bounds (mrs : shr_record) :
  let m2 := round_nearest_even (shr_m mrs) (loc_of_shr_record mrs) in
  shr_m mrs <= m2 <= shr_m mrs + 1 /\ (shr_exact mrs = true -> m2 = shr_m mrs).
Proof.
  destruct mrs as [m [|] [|]]; unfold shr_exact; simpl;
    try destruct (Z.even m); split; try lia; try discriminate; reflexivity.
Qed.

Lemma shr_record_of_loc_m (m : Z) (l : location) : shr_m (shr_record_of_loc m l) = m.
Proof. destruct l as [| []]; reflexivity. Qed.

Lemma shr_record_of_loc_exact (m : Z) (l : location) :
  shr_exact (shr_record_of_loc m l) = match l with loc_Exact => true | _ => false end.
Proof. destruct l as [| []]; reflexivity. Qed.


Lemma fexp53_ge (e : Z) : -1074 <= fexp53 e /\ e - 53 <= fexp53 e.
Proof. unfold fexp53. lia. Qed.

Lemma pow2_pos (n : Z) : 0 <= n -> 0 < 2 ^ n.
Proof. intros. apply Z.pow_pos_nonneg; lia. Qed.

Lemma div_pow2_bounds (m d n : Z) :
  0 <= n -> n <= d -> 2 ^ (d - 1) <= m < 2 ^ d -> 1 <= d - n ->
  2 ^ (d - n - 1) <= m / 2 ^ n < 2 ^ (d - n).
Proof.
  intros Hn Hd [Hlo Hhi] H1.
  assert (P := pow2_pos n Hn).
  split.
  - apply Z.div_le_lower_bound; [lia |].
    rewrite <- Z.pow_add_r by lia. replace (n + (d - n - 1)) with (d - 1) by lia. exact Hlo.
  - apply Z.div_lt_upper_bound; [lia |].
    rewrite <- Z.pow_add_r by lia. replace (n + (d - n)) with d by lia. exact Hhi.
Qed.

Lemma digits_le_of_lt_pow (m k : Z) : 0 < m -> m < 2 ^ k -> 0 <= k -> Zdigits2 m <= k.
Proof.
  intros Hm Hlt Hk. destruct (Zdigits2_bounds m Hm) as [Hlo _].
  assert (Hd := Zdigits2_pos m Hm).
  destruct (Z.le_gt_cases (Zdigits2 m) k) as [| Hgt]; [assumption |].
  exfalso. assert (2 ^ k <= 2 ^ (Zdigits2 m - 1)) by (apply Z.pow_le_mono_r; lia). lia.
Qed.

Lemma digits_ge_of_le_pow (m k : Z) : 2 ^ k <= m -> 0 <= k -> k + 1 <= Zdigits2 m.
Proof.
  intros Hle Hk. assert (Hm : 0 < m) by (pose proof (pow2_pos k Hk); lia).
  destruct (Zdigits2_bounds m Hm) as [_ Hhi].
  assert (Hd := Zdigits2_pos m Hm).
  destruct (Z.le_gt_cases (k + 1) (Zdigits2 m)) as [| Hgt]; [assumption |].
  exfalso. assert (2 ^ Zdigits2 m <= 2 ^ k) by (apply Z.pow_le_mono_r; lia). lia.
Qed.

Lemma bra_spec (s : bool) (mx ex : Z) (lx : location) :
  0 <= mx -> ex <= fexp53 (Zdigits2 mx + ex) ->
  exists m2,
    mx / 2 ^ (fexp53 (Zdigits2 mx + ex) - ex) <= m2
      <= mx / 2 ^ (fexp53 (Zdigits2 mx + ex) - ex) + 1 /\
    (lx = loc_Exact -> mx mod 2 ^ (fexp53 (Zdigits2 mx + ex) - ex) = 0 ->
     m2 = mx / 2 ^ (fexp53 (Zdigits2 mx + ex) - ex)) /\
    m2 <= 2 ^ 53 /\
    (0 < m2 < 2 ^ 53 ->
     fexp53 (Zdigits2 m2 + fexp53 (Zdigits2 mx + ex)) = fexp53 (Zdigits2 mx + ex)) /\
    binary_round_aux Num.prec Num.emax s mx ex lx
    = pack s m2 (fexp53 (Zdigits2 mx + ex)).
Proof.
  intros Hmx Hex.
  set (e1 := fexp53 (Zdigits2 mx + ex)) in *.
  set (n := e1 - ex). assert (Hn : 0 <= n) by (unfold n; lia).
  set (m1 := mx / 2 ^ n).
  assert (P := pow2_pos n Hn).
  assert (Hm1 : 0 <= m1) by (apply Z.div_pos; lia).
  assert (He1 := fexp53_ge (Zdigits2 mx + ex)). fold e1 in He1.
  (* the truncated mantissa has at most 53 digits, exactly 53 when normal *)
  assert (Hm1hi : m1 < 2 ^ 53).
  { destruct (Z.eq_dec mx 0) as [-> | Hnz].
    - unfold m1. rewrite Z.div_0_l by lia. reflexivity.
    - assert (Hpos : 0 < mx) by lia.
      destruct (Zdigits2_bounds mx Hpos) as [_ Hhi].
      assert (Hd := Zdigits2_pos mx Hpos).
      apply Z.div_lt_upper_bound; [lia |].
      rewrite <- Z.pow_add_r by lia.
      eapply Z.lt_le_trans; [exact Hhi |]. apply Z.pow_le_mono_r; lia. }
  assert (Hnormal : -1074 < e1 -> 2 ^ 52 <= m1).
  { intros Hgt. assert (E : e1 = Zdigits2 mx + ex - 53) by (unfold e1, fexp53 in *; lia).
    assert (Hpos : 0 < mx).
    { destruct (Z.eq_dec mx 0) as [-> | ]; [| lia]. simpl in E. lia. }
    destruct (Zdigits2_bounds mx Hpos) as [Hlo _].
    apply Z.div_le_lower_bound; [lia |].
    rewrite <- Z.pow_add_r by lia.
    replace (n + 52) with (Zdigits2 mx - 1) by (unfold n; lia). exact Hlo. }
  unfold binary_round_aux, shr_fexp.
  change (fexp Num.prec Num.emax (Zdigits2 mx + ex)) with e1. fold n.
  pose proof (shr_spec (shr_record_of_loc mx lx) ex n) as S1.
  rewrite shr_record_of_loc_m, shr_record_of_loc_exact in S1.
  specialize (S1 Hmx Hn).
  destruct (shr (shr_record_of_loc mx lx) ex n) as [mrs' e'].
  cbn [fst snd] in S1. destruct S1 as (Ee & _ & Em & Ex).
  assert (Ee' : e' = e1) by (unfold n in Ee; lia). clear Ee. subst e'.
  fold m1 in Em.
  destruct (round_nearest_even_bounds mrs') as [Hb Hexact].
  set (m2 := round_nearest_even (shr_m mrs') (loc_of_shr_record mrs')) in *.
  rewrite Em in Hb, Hexact.
  exists m2.
  split; [exact Hb |].
  split.
  { intros -> Hmod. apply Hexact. rewrite Ex. simpl. apply Z.eqb_eq. exact Hmod. }
  split; [lia |].
  assert (Hcanon : 0 < m2 < 2 ^ 53 -> fexp53 (Zdigits2 m2 + e1) = e1).
  { intros [H0 H53].
    assert (Hd := digits_le_of_lt_pow m2 53 H0 H53 ltac:(lia)).
    destruct (Z.eq_dec e1 (-1074)) as [E | Hne].
    - unfold fexp53. lia.
    - assert (2 ^ 52 <= m2) by (specialize (Hnormal ltac:(lia)); lia).
      assert (Hd' := digits_ge_of_le_pow m2 52 H ltac:(lia)).
      unfold fexp53. lia. }
  split; [exact Hcanon |].
  (* the second shift *)
  change (fexp Num.prec Num.emax (Zdigits2 m2 + e1)) with (fexp53 (Zdigits2 m2 + e1)).
  unfold pack.
  destruct (Z.eqb_spec m2 0) as [E0 | Hnz].
  - rewrite E0. simpl Zdigits2. rewrite shr_nonpos by (unfold fexp53; lia).
    reflexivity.
  - assert (H0 : 0 < m2) by lia.
    destruct (Z.ltb_spec m2 (2 ^ 53)) as [Hlt | Hge].
    + rewrite (Hcanon (conj H0 Hlt)), Z.sub_diag. simpl shr.
      destruct m2 as [| p | p]; try lia. simpl. reflexivity.
    + assert (E53 : m2 = 2 ^ 53) by lia.
      rewrite E53.
      replace (fexp53 (Zdigits2 (2 ^ 53) + e1) - e1) with 1
        by (change (Zdigits2 (2 ^ 53)) with 54; unfold fexp53; lia).
      simpl. replace (e1 + 1 <=? 971) with (e1 + 1 <=? 971) by reflexivity.
      reflexivity.
Qed.


Lemma valid_finite (s : bool) (m : positive) (e : Z) :
  Num.valid (S754_finite s m e) = true <-> canonical m e /\ e <= 971.
Proof.
  unfold Num.valid, valid_binary, bounded, canonical_mantissa, canonical.
  change (fexp Num.prec Num.emax) with fexp53.
  change (Num.emax - Num.prec) with 971.
  rewrite andb_true_iff, Z.eqb_eq, Z.leb_le. reflexivity.
Qed.

Lemma fexp53_mono (a b : Z) : a <= b -> fexp53 a <= fexp53 b.
Proof. unfold fexp53. lia. Qed.

Lemma scaled_bounds (m : positive) (k : Z) :
  0 <= k ->
  2 ^ (Zdigits2 (Zpos m) - 1 + k) <= Zpos m * 2 ^ k < 2 ^ (Zdigits2 (Zpos m) + k).
Proof.
  intros Hk. assert (Hm : 0 < Zpos m) by lia.
  destruct (Zdigits2_bounds _ Hm) as [Hlo Hhi].
  assert (Hd := Zdigits2_pos _ Hm). assert (P := pow2_pos k Hk).
  rewrite !Z.pow_add_r by lia. split.
  - apply Z.mul_le_mono_nonneg_r; lia.
  - apply Z.mul_lt_mono_pos_r; lia.
Qed.

Lemma canonical_le (m m' : positive) (e e' c : Z) :
  canonical m e -> canonical m' e' -> c <= e -> c <= e' ->
  (Zpos m * 2 ^ (e - c) <= Zpos m' * 2 ^ (e' - c) <->
   e < e' \/ (e = e' /\ (m <= m')%positive)).
Proof.
  unfold canonical. intros Cm Cm' Hc Hc'.
  destruct (scaled_bounds m (e - c)) as [Hlo Hhi]; [lia |].
  destruct (scaled_bounds m' (e' - c)) as [Hlo' Hhi']; [lia |].
  assert (Hd : 0 < Zdigits2 (Zpos m)) by (apply Zdigits2_pos; lia).
  assert (Hd' : 0 < Zdigits2 (Zpos m')) by (apply Zdigits2_pos; lia).
  split.
  - intros Hle.
    destruct (Z.lt_trichotomy e e') as [Hlt | [Heq | Hgt]].
    + now left.
    + right. split; [exact Heq |]. subst e'.
      assert (P := pow2_pos (e - c) ltac:(lia)).
      apply Z.mul_le_mono_pos_r in Hle; [| exact P]. exact Hle.
    + exfalso.
      assert (Hdd : Zdigits2 (Zpos m') + e' < Zdigits2 (Zpos m) + e).
      { destruct (Z.lt_ge_cases (Zdigits2 (Zpos m') + e') (Zdigits2 (Zpos m) + e))
          as [| Hge]; [assumption |].
        apply fexp53_mono in Hge. lia. }
      assert (2 ^ (Zdigits2 (Zpos m') + (e' - c)) <= 2 ^ (Zdigits2 (Zpos m) - 1 + (e - c)))
        by (apply Z.pow_le_mono_r; lia).
      lia.
  - intros [Hlt | [-> Hm]].
    + assert (Hdd : Zdigits2 (Zpos m) + e < Zdigits2 (Zpos m') + e').
      { destruct (Z.lt_ge_cases (Zdigits2 (Zpos m) + e) (Zdigits2 (Zpos m') + e'))
          as [| Hge]; [assumption |].
        apply fexp53_mono in Hge. lia. }
      assert (2 ^ (Zdigits2 (Zpos m) + (e - c)) <= 2 ^ (Zdigits2 (Zpos m') - 1 + (e' - c)))
        by (apply Z.pow_le_mono_r; lia).
      lia.
    + assert (P := pow2_pos (e' - c) ltac:(lia)).
      apply Z.mul_le_mono_nonneg_r; lia.
Qed.

Lemma leb_finite_pos (m m' : positive) (e e' : Z) :
  Num.leb (S754_finite false m e) (S754_finite false m' e') = true <->
  e < e' \/ (e = e' /\ (m <= m')%positive).
Proof.
  unfold Num.leb, SFleb, SFcompare.
  destruct (Z.compare_spec e e') as [-> | Hlt | Hgt].
  - change (Pos.compare_cont Eq m m') with (Pos.compare m m').
    destruct (Pos.compare_spec m m') as [-> | H | H]; split; intros; try discriminate;
      try reflexivity; try lia.
  - split; intros; [now left | reflexivity].
  - split; intros; [discriminate | lia].
Qed.

Lemma bra_upper (mx ex : Z) (lx : location) (mb : positive) (eb : Z) :
  0 <= mx -> ex <= fexp53 (Zdigits2 mx + ex) ->
  canonical mb eb -> eb <= 971 -> ex <= eb ->
  (mx < Zpos mb * 2 ^ (eb - ex) \/ (mx = Zpos mb * 2 ^ (eb - ex) /\ lx = loc_Exact)) ->
  Num.valid (binary_round_aux Num.prec Num.emax false mx ex lx) = true /\
  Num.leb Num.zero (binary_round_aux Num.prec Num.emax false mx ex lx) = true /\
  Num.leb (binary_round_aux Num.prec Num.emax false mx ex lx)
          (S754_finite false mb eb) = true.
Proof.
  intros Hmx Hex Cb Hb Hexb Hle.
  destruct (bra_spec false mx ex lx Hmx Hex) as (m2 & Hm2 & Hexact & H53 & Hcanon & ->).
  set (e1 := fexp53 (Zdigits2 mx + ex)) in *.
  set (n := e1 - ex) in *. assert (Hn : 0 <= n) by (unfold n; lia).
  assert (Pn := pow2_pos n Hn).
  assert (Hm1 : 0 <= mx / 2 ^ n) by (apply Z.div_pos; lia).
  assert (He1 := fexp53_ge (Zdigits2 mx + ex)). fold e1 in He1.
  assert (Heb : -1074 <= eb) by (unfold canonical, fexp53 in Cb; lia).
  (* the rounded mantissa stays below the bound *)
  assert (Hbound : m2 = 0 \/ (e1 <= eb /\ m2 <= Zpos mb * 2 ^ (eb - e1))).
  { destruct (Z.eq_dec mx 0) as [E0 | Hnz].
    - subst mx. rewrite Z.div_0_l in Hm2 by lia.
      destruct (Z.eq_dec m2 0) as [| Hone]; [now left | right].
      assert (m2 = 1) by lia. subst m2.
      assert (e1 = -1074) by (unfold e1, fexp53 in *; simpl in *; lia).
      split; [lia |].
      assert (P := pow2_pos (eb - e1) ltac:(lia)). nia.
    - right. assert (Hpos : 0 < mx) by lia.
      assert (Hlee : e1 <= eb).
      { destruct (Z.le_gt_cases e1 eb) as [| Hgt]; [assumption |]. exfalso.
        assert (Hdd : Zdigits2 (Zpos mb) + eb < Zdigits2 mx + ex).
        { destruct (Z.lt_ge_cases (Zdigits2 (Zpos mb) + eb) (Zdigits2 mx + ex))
            as [| Hge]; [assumption |].
          apply fexp53_mono in Hge. unfold canonical in Cb. fold e1 in Hge. lia. }
        destruct (Zdigits2_bounds mx Hpos) as [Hlo _].
        destruct (scaled_bounds mb (eb - ex)) as [_ Hhi]; [lia |].
        assert (2 ^ (Zdigits2 (Zpos mb) + (eb - ex)) <= 2 ^ (Zdigits2 mx - 1))
          by (apply Z.pow_le_mono_r; lia).
        lia. }
      split; [exact Hlee |].
      assert (EK : Zpos mb * 2 ^ (eb - ex) = (Zpos mb * 2 ^ (eb - e1)) * 2 ^ n).
      { rewrite <- Z.mul_assoc, <- Z.pow_add_r by lia. do 2 f_equal. unfold n. lia. }
      set (K1 := Zpos mb * 2 ^ (eb - e1)) in *.
      assert (Hdiv : mx / 2 ^ n <= K1).
      { apply Z.div_le_upper_bound; [lia |]. rewrite Z.mul_comm. lia. }
      destruct (Z.eq_dec (mx / 2 ^ n) K1) as [Eq1 | Hne]; [| lia].
      assert (Hge : K1 * 2 ^ n <= mx).
      { rewrite <- Eq1. rewrite Z.mul_comm. apply Z.mul_div_le. lia. }
      destruct Hle as [Hlt | [Emx ->]]; [lia |].
      rewrite Hexact; [lia | reflexivity |].
      rewrite Emx, EK. apply Z.mod_mul. lia. }
  unfold pack.
  destruct (Z.eqb_spec m2 0) as [E0 | Hnz]; [repeat split; reflexivity |].
  destruct Hbound as [| [Hlee Hm2b]]; [contradiction |].
  assert (H0 : 0 < m2) by lia.
  destruct (Z.ltb_spec m2 (2 ^ 53)) as [Hlt | Hge].
  - destruct (Z.leb_spec e1 971) as [_ | Hov]; [| lia].
    assert (C2 : canonical (Z.to_pos m2) e1)
      by (unfold canonical; rewrite Z2Pos.id by lia; apply Hcanon; lia).
    split; [apply valid_finite; split; [exact C2 | lia] |].
    split; [reflexivity |].
    apply leb_finite_pos.
    apply (canonical_le _ _ _ _ e1 C2 Cb); try lia.
    rewrite Z2Pos.id, Z.sub_diag by lia. simpl (2 ^ 0). lia.
  - assert (E53 : m2 = 2 ^ 53) by lia. subst m2.
    change (2 ^ 53 / 2) with (2 ^ 52).
    assert (C2 : canonical (Z.to_pos (2 ^ 52)) (e1 + 1)).
    { unfold canonical. change (Zdigits2 (Zpos (Z.to_pos (2 ^ 52)))) with 53.
      unfold fexp53. lia. }
    assert (L : e1 + 1 < eb \/ (e1 + 1 = eb /\ (Z.to_pos (2 ^ 52) <= mb)%positive)).
    { apply (canonical_le _ _ _ _ e1 C2 Cb); try lia.
      replace (e1 + 1 - e1) with 1 by lia.
      change (Zpos (Z.to_pos (2 ^ 52)) * 2 ^ 1) with (2 ^ 53). exact Hm2b. }
    destruct (Z.leb_spec (e1 + 1) 971) as [_ | Hov]; [| lia].
    split; [apply valid_finite; split; [exact C2 | lia] |].
    split; [reflexivity |].
    apply leb_finite_pos. exact L.
Qed.

Lemma bra_valid (s : bool) (mx ex : Z) (lx : location) :
  0 <= mx -> ex <= fexp53 (Zdigits2 mx + ex) ->
  Num.valid (binary_round_aux Num.prec Num.emax s mx ex lx) = true.
Proof.
  intros Hmx Hex.
  destruct (bra_spec s mx ex lx Hmx Hex) as (m2 & Hm2 & _ & H53 & Hcanon & ->).
  assert (He1 := fexp53_ge (Zdigits2 mx + ex)).
  unfold pack.
  destruct (Z.eqb_spec m2 0) as [E0 | Hnz]; [reflexivity |].
  assert (Hm1 : 0 <= mx / 2 ^ (fexp53 (Zdigits2 mx + ex) - ex)).
  { apply Z.div_pos; [lia | apply pow2_pos; lia]. }
  destruct (Z.ltb_spec m2 (2 ^ 53)) as [Hlt | Hge].
  - destruct (Z.leb_spec (fexp53 (Zdigits2 mx + ex)) 971); [| reflexivity].
    apply valid_finite. split; [| assumption].
    unfold canonical. rewrite Z2Pos.id by lia. apply Hcanon. lia.
  - assert (E53 : m2 = 2 ^ 53) by lia. subst m2. change (2 ^ 53 / 2) with (2 ^ 52).
    destruct (Z.leb_spec (fexp53 (Zdigits2 mx + ex) + 1) 971); [| reflexivity].
    apply valid_finite. split; [| assumption].
    unfold canonical. change (Zdigits2 (Zpos (Z.to_pos (2 ^ 52)))) with 53.
    unfold fexp53. lia.
Qed.

Lemma div_eucl_div_mod (a b : Z) : Z.div_eucl a b = (a / b, a mod b).
Proof. unfold Z.div, Z.modulo. destruct (Z.div_eucl a b). reflexivity. Qed.

Lemma div_core_eq (m1 e1 m2 e2 : Z) :
  0 < m1 -> 0 < m2 ->
  SFdiv_core_binary Num.prec Num.emax m1 e1 m2 e2 =
  ((m1 * 2 ^ (e1 - e2 - Z.min (fexp53 (Zdigits2 m1 + e1 - (Zdigits2 m2 + e2))) (e1 - e2))) / m2,
   Z.min (fexp53 (Zdigits2 m1 + e1 - (Zdigits2 m2 + e2))) (e1 - e2),
   new_location m2
     ((m1 * 2 ^ (e1 - e2 - Z.min (fexp53 (Zdigits2 m1 + e1 - (Zdigits2 m2 + e2))) (e1 - e2)))
      mod m2)).
Proof.
  intros H1 H2. unfold SFdiv_core_binary.
  change (fexp Num.prec Num.emax) with fexp53.
  set (e' := Z.min (fexp53 (Zdigits2 m1 + e1 - (Zdigits2 m2 + e2))) (e1 - e2)).
  assert (Hs : 0 <= e1 - e2 - e') by (unfold e'; lia).
  assert (Em : match e1 - e2 - e' with
               | 0 => m1
               | Zpos _ => Z.shiftl m1 (e1 - e2 - e')
               | Zneg _ => 0
               end = m1 * 2 ^ (e1 - e2 - e')).
  { destruct (e1 - e2 - e') as [| p | p] eqn:E.
    - simpl. lia.
    - rewrite Z.shiftl_mul_pow2 by lia. reflexivity.
    - lia. }
  rewrite Em, div_eucl_div_mod. reflexivity.
Qed.

Lemma new_location_zero (m : Z) : new_location m 0 = loc_Exact.
Proof. unfold new_location, new_location_even, new_location_odd. now destruct (Z.even m). Qed.

(** The quotient the division core hands to the rounding has the bits
    the rounding needs. *)
Lemma div_core_pre (m1 e1 m2 e2 : Z) :
  0 < m1 -> 0 < m2 ->
  let e' := Z.min (fexp53 (Zdigits2 m1 + e1 - (Zdigits2 m2 + e2))) (e1 - e2) in
  let q := (m1 * 2 ^ (e1 - e2 - e')) / m2 in
  0 <= q /\ e' <= fexp53 (Zdigits2 q + e').
Proof.
  intros H1 H2 e' q.
  assert (Hs : 0 <= e1 - e2 - e') by (unfold e'; lia).
  assert (Ps := pow2_pos _ Hs).
  assert (Hq : 0 <= q) by (apply Z.div_pos; nia).
  split; [exact Hq |].
  set (t := Zdigits2 m1 + (e1 - e2 - e') - Zdigits2 m2).
  assert (Hdq : t <= Zdigits2 q).
  { destruct (Z.le_gt_cases t 0) as [Ht | Ht]; [pose proof (Zdigits2_nonneg q); lia |].
    assert (Hlow : 2 ^ (t - 1) <= q).
    { apply Z.div_le_lower_bound; [lia |].
      destruct (Zdigits2_bounds m1 H1) as [Hlo1 _].
      destruct (Zdigits2_bounds m2 H2) as [_ Hhi2].
      assert (Hd1 := Zdigits2_pos m1 H1). assert (Hd2 := Zdigits2_pos m2 H2).
      assert (E : 2 ^ (Zdigits2 m1 - 1) * 2 ^ (e1 - e2 - e') = 2 ^ Zdigits2 m2 * 2 ^ (t - 1)).
      { rewrite <- !Z.pow_add_r by lia. f_equal. unfold t. lia. }
      assert (Pt := pow2_pos (t - 1) ltac:(lia)).
      nia. }
    pose proof (digits_ge_of_le_pow q (t - 1) Hlow ltac:(lia)). lia. }
  assert (Hx : Zdigits2 m1 + e1 - (Zdigits2 m2 + e2) <= Zdigits2 q + e') by (unfold t in Hdq; lia).
  apply fexp53_mono in Hx. unfold e' at 1. lia.
Qed.

Lemma round_ratio_valid (neg : bool) (a b : positive) : Num.valid (Num.round_ratio neg a b) = true.
Proof.
  unfold Num.round_ratio. rewrite div_core_eq by lia.
  destruct (div_core_pre (Zpos a) 0 (Zpos b) 0) as [Hq Hpre]; try lia.
  now apply bra_valid.
Qed.

Lemma of_decimal_valid (neg : bool) (m : N) (e : Z) : Num.valid (Num.of_decimal neg m e) = true.
Proof.
  unfold Num.of_decimal. destruct m as [| p]; [reflexivity |].
  destruct (Num.strip10 _ p e) as [p' e']. destruct e'; apply round_ratio_valid.
Qed.

Lemma parseFloat_valid (s : jsstring) : Num.valid (parseFloat s) = true.
Proof.
  unfold parseFloat. destruct (read_sign (trimStart s)) as [neg r].
  destruct (after_prefix (js "Infinity") r); [reflexivity |].
  destruct (span isDigit r) as [ip r1].
  destruct (match r1 with 46%N :: r0 => span isDigit r0 | _ => ([], r1) end) as [fp r2].
  destruct (ip ++ fp); [reflexivity | apply of_decimal_valid].
Qed.

Lemma parseInt_valid (s : jsstring) : Num.valid (parseInt s) = true.
Proof.
  unfold parseInt. destruct (read_sign (trimStart s)) as [neg r].
  destruct (match after_prefix (js "0x") r with Some r0 => Some r0 | None => after_prefix (js "0X") r end).
  - destruct (hex_value j 0 false) as [v [|]]; [apply of_decimal_valid | reflexivity].
  - destruct (span isDigit r) as [ds r']. destruct ds; [reflexivity | apply of_decimal_valid].
Qed.

Lemma one_canonical : canonical 4503599627370496 (-52).
Proof. reflexivity. Qed.

Lemma n100_canonical : canonical 7036874417766400 (-46).
Proof. reflexivity. Qed.

(** [a / b] for two positive finite Numbers with [a <= b]: a Number
    between 0 and 1. *)
Lemma div_le_one (ma mb : positive) (ea eb : Z) :
  Num.valid (S754_finite false ma ea) = true ->
  Num.valid (S754_finite false mb eb) = true ->
  Num.leb (S754_finite false ma ea) (S754_finite false mb eb) = true ->
  Num.valid (Num.div (S754_finite false ma ea) (S754_finite false mb eb)) = true /\
  Num.leb Num.zero (Num.div (S754_finite false ma ea) (S754_finite false mb eb)) = true /\
  Num.leb (Num.div (S754_finite false ma ea) (S754_finite false mb eb)) Num.one = true.
Proof.
  intros Va Vb Hle.
  apply valid_finite in Va as [Ca Ha]. apply valid_finite in Vb as [Cb Hb].
  apply leb_finite_pos in Hle.
  unfold Num.div, SFdiv. rewrite div_core_eq by lia. cbn [xorb].
  destruct (div_core_pre (Zpos ma) ea (Zpos mb) eb) as [Hq Hpre]; try lia.
  set (e' := Z.min (fexp53 (Zdigits2 (Zpos ma) + ea - (Zdigits2 (Zpos mb) + eb))) (ea - eb)) in *.
  set (m' := Zpos ma * 2 ^ (ea - eb - e')) in *.
  assert (Hs : 0 <= ea - eb - e') by (unfold e'; lia).
  (* a <= b puts the digits of a at or below those of b *)
  assert (Hx : Zdigits2 (Zpos ma) + ea <= Zdigits2 (Zpos mb) + eb).
  { destruct (Z.le_gt_cases (Zdigits2 (Zpos ma) + ea) (Zdigits2 (Zpos mb) + eb)) as [| Hgt];
      [assumption |].
    exfalso. set (c := Z.min ea eb).
    assert (V : Zpos ma * 2 ^ (ea - c) <= Zpos mb * 2 ^ (eb - c))
      by (apply (canonical_le _ _ _ _ c Ca Cb); unfold c; try lia; exact Hle).
    destruct (scaled_bounds ma (ea - c)) as [Hlo _]; [unfold c; lia |].
    destruct (scaled_bounds mb (eb - c)) as [_ Hhi]; [unfold c; lia |].
    assert (Hd := Zdigits2_pos (Zpos mb) ltac:(lia)).
    assert (2 ^ (Zdigits2 (Zpos mb) + (eb - c)) <= 2 ^ (Zdigits2 (Zpos ma) - 1 + (ea - c)))
      by (apply Z.pow_le_mono_r; unfold c; lia).
    lia. }
  assert (He' : e' <= -53) by (unfold e', fexp53; lia).
  (* the scaled numerator is at most 2^(-e') times the denominator *)
  assert (Hnum : m' <= Zpos mb * 2 ^ (- e')).
  { unfold m'. set (c := Z.min ea eb).
    assert (V : Zpos ma * 2 ^ (ea - c) <= Zpos mb * 2 ^ (eb - c))
      by (apply (canonical_le _ _ _ _ c Ca Cb); unfold c; try lia; exact Hle).
    assert (E1 : Zpos ma * 2 ^ (ea - eb - e') * 2 ^ (eb - c)
                 = Zpos ma * 2 ^ (ea - c) * 2 ^ (- e')).
    { rewrite <- !Z.mul_assoc, <- !Z.pow_add_r by (unfold c; lia).
      do 2 f_equal. lia. }
    assert (E2 : Zpos mb * 2 ^ (- e') * 2 ^ (eb - c) = Zpos mb * 2 ^ (eb - c) * 2 ^ (- e'))
      by ring.
    assert (P1 := pow2_pos (eb - c) ltac:(unfold c; lia)).
    assert (P2 := pow2_pos (- e') ltac:(lia)).
    apply (Z.mul_le_mono_pos_r _ _ (2 ^ (eb - c))); [exact P1 |].
    rewrite E1, E2. apply Z.mul_le_mono_nonneg_r; lia. }
  apply (bra_upper _ _ _ 4503599627370496 (-52)); try assumption; try lia.
  - exact one_canonical.
  - replace (Zpos 4503599627370496 * 2 ^ (-52 - e')) with (2 ^ (- e')).
    2: { change (Zpos 4503599627370496) with (2 ^ 52).
         rewrite <- Z.pow_add_r by lia. f_equal. lia. }
    assert (P2 := pow2_pos (- e') ltac:(lia)).
    assert (Hdiv : m' / Zpos mb <= 2 ^ (- e')).
    { apply Z.div_le_upper_bound; [lia |]. lia. }
    destruct (Z.eq_dec (m' / Zpos mb) (2 ^ (- e'))) as [Eq | Hne]; [right | left; lia].
    split; [exact Eq |].
    assert (Hge : Zpos mb * 2 ^ (- e') <= m').
    { rewrite <- Eq. apply Z.mul_div_le. lia. }
    assert (Em : m' = 2 ^ (- e') * Zpos mb) by lia.
    rewrite Em, Z.mod_mul by lia. apply new_location_zero.
Qed.

(** [q * 100] for a Number [q] between 0 and 1: a Number between 0 and
    100. *)
Lemma mul_100_le (q : number) :
  Num.valid q = true ->
  Num.leb Num.zero q = true -> Num.leb q Num.one = true ->
  Num.valid (Num.mul q Num.n100) = true /\
  Num.leb Num.zero (Num.mul q Num.n100) = true /\
  Num.leb (Num.mul q Num.n100) Num.n100 = true.
Proof.
  destruct q as [s | s | | s mq eq]; intros Vq H0 H1.
  - destruct s; repeat split; reflexivity.
  - destruct s; [discriminate H0 | discriminate H1].
  - discriminate H0.
  - destruct s; [discriminate H0 |].
    apply valid_finite in Vq as [Cq Hq].
    rewrite one_value in H1. apply leb_finite_pos in H1.
    assert (Heq : eq <= -52) by (destruct H1 as [H1 | [H1 _]]; lia).
    assert (V : Zpos mq <= 2 ^ (- eq)).
    { pose proof (proj2 (canonical_le _ _ _ _ eq Cq one_canonical (Z.le_refl eq) Heq) H1)
        as V'.
      clear H1.
      rewrite Z.sub_diag in V'. change (Zpos 4503599627370496) with (2 ^ 52) in V'.
      rewrite <- Z.pow_add_r in V' by lia.
      replace (52 + (-52 - eq)) with (- eq) in V' by lia. simpl (2 ^ 0) in V'. lia. }
    clear H1.
    rewrite n100_value. unfold Num.mul, SFmul. cbn [xorb].
    apply (bra_upper _ _ _ 7036874417766400 (-46)); try lia.
    + (* the product has the bits the rounding needs *)
      rewrite Pos2Z.inj_mul.
      assert (Hd : Zdigits2 (Zpos mq) + 52 <= Zdigits2 (Zpos mq * Zpos 7036874417766400)).
      { destruct (Zdigits2_bounds (Zpos mq) ltac:(lia)) as [Hlo _].
        assert (Hdq := Zdigits2_pos (Zpos mq) ltac:(lia)).
        assert (L : 2 ^ (Zdigits2 (Zpos mq) - 1 + 52) <= Zpos mq * Zpos 7036874417766400).
        { rewrite Z.pow_add_r by lia.
          assert (2 ^ 52 <= Zpos 7036874417766400) by (vm_compute; discriminate).
          assert (0 < 2 ^ (Zdigits2 (Zpos mq) - 1)) by (apply pow2_pos; lia).
          nia. }
        pose proof (digits_ge_of_le_pow _ _ L ltac:(lia)). lia. }
      unfold canonical in Cq.
      assert (M := fexp53_mono _ _ (proj1 (Z.add_le_mono_r _ _ (eq + -46)) Hd)).
      unfold fexp53 in *. lia.
    + exact n100_canonical.
    + rewrite Pos2Z.inj_mul.
      replace (-46 - (eq + -46)) with (- eq) by lia.
      assert (P := pow2_pos (- eq) ltac:(lia)).
      destruct (Z.eq_dec (Zpos mq) (2 ^ (- eq))) as [Eq | Hne].
      * right. split; [rewrite Eq; ring | reflexivity].
      * left. nia.
Qed.

(** [x / x] is 1 for a finite Number [x] other than zero. *)
Lemma div_self (s : bool) (m : positive) (e : Z) :
  Num.div (S754_finite s m e) (S754_finite s m e) = Num.one.
Proof.
  unfold Num.div, SFdiv. rewrite div_core_eq by lia.
  replace (Zdigits2 (Zpos m) + e - (Zdigits2 (Zpos m) + e)) with 0 by lia.
  rewrite Z.sub_diag.
  change (Z.min (fexp53 0) 0) with (-53). change (0 - -53) with 53.
  rewrite (Z.mul_comm (Zpos m)), Z.div_mul, Z.mod_mul by lia.
  rewrite new_location_zero, xorb_nilpotent. vm_compute. reflexivity.
Qed.

Lemma mul_one_100 : Num.mul Num.one Num.n100 = Num.n100.
Proof. vm_compute. reflexivity. Qed.

(** ** Subtraction: the sign of a difference *)

Lemma shl_align_spec (mx : positive) (ex ez : Z) :
  ez <= ex ->
  Zpos (fst (shl_align mx ex ez)) = Zpos mx * 2 ^ (ex - ez) /\
  snd (shl_align mx ex ez) = ez.
Proof.
  intros H. unfold shl_align.
  destruct (ez - ex) as [| d | d] eqn:E; try lia.
  - assert (ex = ez) by lia. subst. rewrite Z.sub_diag. simpl. split; lia.
  - cbn [fst snd]. split; [| reflexivity].
    change (Pos.iter xO mx d) with (shift_pos d mx).
    rewrite shift_pos_correct, Z.pow_pos_fold.
    replace (ex - ez) with (Zpos d) by lia. ring.
Qed.

Lemma shl_align_keep (mx : positive) (ex ez : Z) :
  ex <= ez -> shl_align mx ex ez = (mx, ex).
Proof.
  intros H. unfold shl_align. destruct (ez - ex) as [| d | d] eqn:E; try reflexivity. lia.
Qed.

Lemma Zdigits2_mul_pow2 (m : positive) (k : Z) :
  0 <= k -> Zdigits2 (Zpos m * 2 ^ k) = Zdigits2 (Zpos m) + k.
Proof.
  intros Hk. assert (P := pow2_pos k Hk).
  apply Zdigits2_unique; [| nia].
  destruct (scaled_bounds m k Hk) as [Hlo Hhi].
  replace (Zdigits2 (Zpos m) + k - 1) with (Zdigits2 (Zpos m) - 1 + k) by lia.
  split; assumption.
Qed.

(** Rounding a positive integer mantissa at an exponent no lower than
    the least gives a finite Number of the sign asked for, or that
    infinity: never zero. *)
Lemma binary_round_nonzero (s : bool) (p : positive) (ez : Z) :
  -1074 <= ez ->
  (exists m e, binary_round Num.prec Num.emax s p ez = S754_finite s m e) \/
  binary_round Num.prec Num.emax s p ez = S754_infinity s.
Proof.
  intros Hez. unfold binary_round.
  change (fexp Num.prec Num.emax) with fexp53.
  change (Zpos (digits2_pos p)) with (Zdigits2 (Zpos p)).
  set (ex' := fexp53 (Zdigits2 (Zpos p) + ez)).
  assert (Hal : exists mz ez', shl_align p ez ex' = (mz, ez') /\
                  ez' <= fexp53 (Zdigits2 (Zpos mz) + ez') /\
                  -1074 <= ez' /\
                  2 ^ (-1074 - ez') <= Zpos mz).
  { destruct (Z.le_gt_cases ez ex') as [Hle | Hgt].
    - exists p, ez. rewrite shl_align_keep by exact Hle.
      split; [reflexivity |]. split; [exact Hle |]. split; [exact Hez |].
      destruct (Z.eq_dec ez (-1074)) as [-> | Hne]; [simpl; lia |].
      rewrite Z.pow_neg_r by lia. lia.
    - destruct (shl_align_spec p ez ex' ltac:(lia)) as [Hm He].
      destruct (shl_align p ez ex') as [mz ez']. cbn [fst snd] in Hm, He. subst ez'.
      exists mz, ex'. split; [reflexivity |].
      assert (Hd : Zdigits2 (Zpos mz) = Zdigits2 (Zpos p) + (ez - ex'))
        by (rewrite Hm; apply Zdigits2_mul_pow2; lia).
      assert (Hge := fexp53_ge (Zdigits2 (Zpos p) + ez)). fold ex' in Hge.
      split; [rewrite Hd; replace (Zdigits2 (Zpos p) + (ez - ex') + ex')
                        with (Zdigits2 (Zpos p) + ez) by lia; fold ex'; lia |].
      split; [lia |].
      rewrite Hm.
      assert (P := pow2_pos (ez - ex') ltac:(lia)).
      assert (2 ^ (-1074 - ex') <= 2 ^ (ez - ex')).
      { destruct (Z.eq_dec ex' (-1074)) as [E | Hne'].
        - rewrite E. apply Z.pow_le_mono_r; lia.
        - rewrite Z.pow_neg_r by lia. lia. }
      nia. }
  destruct Hal as (mz & ez' & -> & Hpre & Hez' & Hlow).
  destruct (bra_spec s (Zpos mz) ez' loc_Exact ltac:(lia) Hpre)
    as (m2 & Hm2 & _ & H53 & _ & ->).
  set (e1 := fexp53 (Zdigits2 (Zpos mz) + ez')) in *.
  assert (H1 : 1 <= Zpos mz / 2 ^ (e1 - ez')).
  { assert (Hn : 0 <= e1 - ez') by lia. assert (P := pow2_pos _ Hn).
    apply Z.div_le_lower_bound; [lia |]. rewrite Z.mul_1_r.
    destruct (Z.eq_dec e1 (-1074)) as [E | Hne].
    - rewrite E. exact Hlow.
    - assert (E : e1 = Zdigits2 (Zpos mz) + ez' - 53) by (unfold e1, fexp53 in *; lia).
      destruct (Zdigits2_bounds (Zpos mz) ltac:(lia)) as [Hlo _].
      assert (2 ^ (e1 - ez') <= 2 ^ (Zdigits2 (Zpos mz) - 1))
        by (apply Z.pow_le_mono_r; lia).
      lia. }
  unfold pack.
  destruct (Z.eqb_spec m2 0) as [E0 | Hnz]; [lia |].
  destruct (m2 <? 2 ^ 53).
  - destruct (e1 <=? 971); [left; eauto | now right].
  - destruct (e1 + 1 <=? 971); [left; eauto | now right].
Qed.

Lemma gtb_zero_sign (x : number) (s : bool) :
  (exists m e, x = S754_finite s m e) \/ x = S754_infinity s ->
  Num.gtb x Num.zero = negb s /\ Num.ltb x Num.zero = s.
Proof. intros [(m & e & ->) | ->]; destruct s; split; reflexivity. Qed.


Lemma ltb_finite_values (sa sb : bool) (ma mb : positive) (ea eb c : Z) :
  canonical ma ea -> canonical mb eb -> c <= ea -> c <= eb ->
  (Num.ltb (S754_finite sa ma ea) (S754_finite sb mb eb) = true <->
   scaled_value c sa ma ea < scaled_value c sb mb eb).
Proof.
  intros Ca Cb Ha Hb.
  assert (Pa := pow2_pos (ea - c) ltac:(lia)). assert (Pb := pow2_pos (eb - c) ltac:(lia)).
  assert (L1 := canonical_le ma mb ea eb c Ca Cb Ha Hb).
  assert (L2 := canonical_le mb ma eb ea c Cb Ca Hb Ha).
  rewrite (ltb_rank (S754_finite sa ma ea) (S754_finite sb mb eb) eq_refl eq_refl).
  unfold scaled_value, rank_lt, rank.
  set (A := Zpos ma * 2 ^ (ea - c)) in *. set (B := Zpos mb * 2 ^ (eb - c)) in *.
  assert (HA : 0 < A) by (unfold A; nia). assert (HB : 0 < B) by (unfold B; nia).
  clearbody A B. clear Pa Pb Ca Cb.
  destruct sa, sb; simpl cond_Zopp; intuition lia.
Qed.

Lemma bool_eq_iff (b : bool) (P : Prop) : (b = true <-> P) -> forall c : bool, (c = true <-> P) -> c = b.
Proof. intros H c Hc. destruct b, c; try reflexivity; intuition congruence. Qed.

(** The sign of [a - b] tells how [a] and [b] compare. *)
Lemma sub_sign (a b : number) :
  Num.valid a = true -> Num.valid b = true ->
  Num.isNaN a = false -> Num.isNaN b = false ->
  Num.gtb (Num.sub a b) Num.zero = Num.ltb b a /\
  Num.ltb (Num.sub a b) Num.zero = Num.ltb a b.
Proof.
  destruct a as [sa | sa | | sa ma ea], b as [sb | sb | | sb mb eb];
    intros Va Vb Na Nb; try discriminate;
    try (destruct sa, sb; split; reflexivity).
  apply valid_finite in Va as [Ca Ha]. apply valid_finite in Vb as [Cb Hb].
  set (ez := Z.min ea eb).
  assert (Hez : -1074 <= ez) by (unfold canonical, fexp53 in *; unfold ez; lia).
  assert (Lba := ltb_finite_values sb sa mb ma eb ea ez Cb Ca ltac:(unfold ez; lia) ltac:(unfold ez; lia)).
  assert (Lab := ltb_finite_values sa sb ma mb ea eb ez Ca Cb ltac:(unfold ez; lia) ltac:(unfold ez; lia)).
  unfold Num.sub, SFsub. fold ez.
  destruct (shl_align_spec ma ea ez ltac:(unfold ez; lia)) as [-> _].
  destruct (shl_align_spec mb eb ez ltac:(unfold ez; lia)) as [-> _].
  change (cond_Zopp sa (Zpos ma * 2 ^ (ea - ez))) with (scaled_value ez sa ma ea).
  change (cond_Zopp sb (Zpos mb * 2 ^ (eb - ez))) with (scaled_value ez sb mb eb).
  set (Va := scaled_value ez sa ma ea) in *. set (Vb := scaled_value ez sb mb eb) in *.
  clearbody Va Vb.
  unfold binary_normalize.
  destruct (Va - Vb) as [| p | p] eqn:D.
  - split; [change (Num.gtb (S754_zero false) Num.zero) with false
           | change (Num.ltb (S754_zero false) Num.zero) with false].
    + destruct (Num.ltb (S754_finite sb mb eb) (S754_finite sa ma ea)); [| reflexivity].
      assert (Vb < Va) by (apply Lba; reflexivity). lia.
    + destruct (Num.ltb (S754_finite sa ma ea) (S754_finite sb mb eb)); [| reflexivity].
      assert (Va < Vb) by (apply Lab; reflexivity). lia.
  - destruct (gtb_zero_sign _ false (binary_round_nonzero false p ez Hez)) as [-> ->].
    split.
    + symmetry. apply Lba. lia.
    + destruct (Num.ltb (S754_finite sa ma ea) (S754_finite sb mb eb)); [| reflexivity].
      assert (Va < Vb) by (apply Lab; reflexivity). lia.
  - destruct (gtb_zero_sign _ true (binary_round_nonzero true p ez Hez)) as [-> ->].
    split.
    + destruct (Num.ltb (S754_finite sb mb eb) (S754_finite sa ma ea)); [| reflexivity].
      assert (Vb < Va) by (apply Lba; reflexivity). lia.
    + symmetry. apply Lab. lia.
Qed.

(** ** Card 4: the normalisation *)

Lemma get_map_keys {B : Type} (f : jsstring -> B) (l : list jsstring) (k : jsstring) :
  D3.get (map (fun day => (day, f day)) l) k = if in_dec (list_eq_dec N.eq_dec) k l
                                                then Some (f k) else None.
Proof.
  induction l as [| d l IH]; simpl; [reflexivity |].
  destruct (jsstring_eqb d k) eqn:E.
  - apply jsstring_eqb_eq in E. subst d.
    destruct (list_eq_dec N.eq_dec k k); [reflexivity | contradiction].
  - apply jsstring_eqb_neq in E. rewrite IH.
    destruct (list_eq_dec N.eq_dec d k); [contradiction |].
    destruct (in_dec (list_eq_dec N.eq_dec) k l); reflexivity.
Qed.

Lemma group_or_empty {A : Type} (key : A -> jsstring) (l : list A) (k : jsstring) :
  match D3.get (D3.group l key) k with Some vs => vs | None => [] end = with_key key k l.
Proof. rewrite get_group. now destruct (with_key key k l). Qed.

(** The maximum the normalisation divides by: that of the average times
    of the points of the weekday, for a day of [DAY_ORDER]; [undefined]
    for any other label. *)
Lemma maxTime_spec (chartData : list Card4.point) (day : jsstring) :
  (In day DAY_ORDER ->
   Card4.maxTime chartData day
   = D3.max (map Card4.average_time_min (with_key Card4.Day_of_Week day chartData))) /\
  (~ In day DAY_ORDER -> Card4.maxTime chartData day = None).
Proof.
  unfold Card4.maxTime, Card4.maxTimeByDay.
  rewrite (get_map_keys
             (fun day =>
                D3.max (map Card4.average_time_min
                          match D3.get (D3.group chartData Card4.Day_of_Week) day with
                          | Some l => l
                          | None => []
                          end))).
  destruct (in_dec (list_eq_dec N.eq_dec) day DAY_ORDER) as [Hin | Hnot].
  - split; [| contradiction]. intros _. now rewrite group_or_empty.
  - split; [contradiction | reflexivity].
Qed.

Lemma in_with_key {A : Type} (key : A -> jsstring) (k : jsstring) (l : list A) (x : A) :
  In x (with_key key k l) <-> In x l /\ key x = k.
Proof. unfold with_key. rewrite filter_In, jsstring_eqb_eq. reflexivity. Qed.

(** A positive finite Number, as a datum. *)
Lemma positive_finite (x : number) :
  Num.isFinite x = true -> Num.ltb Num.zero x = true ->
  exists m e, x = S754_finite false m e.
Proof.
  destruct x as [s | s | | [|] m e]; try discriminate; intros _ H;
    try discriminate H. now exists m, e.
Qed.

Lemma eqb_finite_pos (m m' : positive) (e e' : Z) :
  Num.eqb (S754_finite false m e) (S754_finite false m' e') = true ->
  m = m' /\ e = e'.
Proof.
  unfold Num.eqb, SFeqb, SFcompare.
  destruct (Z.compare_spec e e') as [-> | H | H]; try discriminate.
  change (Pos.compare_cont Eq m m') with (Pos.compare m m').
  destruct (Pos.compare_spec m m') as [-> | H | H]; try discriminate. auto.
Qed.

(** The trend data the claim is about: labels of [DAY_ORDER], average
    times that are binary64 values, finite and above zero. *)
Definition positive_averages (chartData : list Card4.point) : Prop :=
  forall d, In d chartData ->
    In (Card4.Day_of_Week d) DAY_ORDER /\
    Num.valid (Card4.average_time_min d) = true /\
    Num.isFinite (Card4.average_time_min d) = true /\
    Num.ltb Num.zero (Card4.average_time_min d) = true.

Lemma normalize_in_range (chartData : list Card4.point) :
  positive_averages chartData ->
  forall d', In d' (Card4.normalize chartData) ->
    exists weekday_max normalized,
      D3.max (map Card4.average_time_min
                (with_key Card4.Day_of_Week (Card4.Day_of_Week d') chartData))
      = Some weekday_max /\
      Num.leb (Card4.average_time_min d') weekday_max = true /\
      Card4.normalized_time d' = Some normalized /\
      normalized = Num.mul (Num.div (Card4.average_time_min d') weekday_max) Num.n100 /\
      Num.leb Num.zero normalized = true /\
      Num.leb normalized Num.n100 = true /\
      (Num.eqb (Card4.average_time_min d') weekday_max = true -> normalized = Num.n100).
Proof.
  intros Hpos d' Hd'.
  apply in_normalize in Hd' as (d & Hd & _ & El & Ea & En & _).
  destruct (Hpos d Hd) as (Hday & Va & Fa & Pa).
  rewrite El, Ea, En. clear El Ea En d'.
  rewrite (proj1 (maxTime_spec chartData (Card4.Day_of_Week d)) Hday).
  set (group := with_key Card4.Day_of_Week (Card4.Day_of_Week d) chartData).
  assert (Hg : In d group) by (apply in_with_key; auto).
  assert (S := d3_max_spec (map Card4.average_time_min group)).
  destruct (D3.max (map Card4.average_time_min group)) as [mx |].
  2: { specialize (S _ (in_map Card4.average_time_min _ _ Hg)).
       destruct (Card4.average_time_min d); discriminate. }
  destruct S as (Hin & Nm & Hmax).
  apply in_map_iff in Hin as (dm & Em & Hdm).
  apply in_with_key in Hdm as [Hdm _].
  destruct (Hpos dm Hdm) as (_ & Vm & Fm & Pm). rewrite Em in Vm, Fm, Pm.
  clear Em Hdm dm.
  assert (Na : Num.isNaN (Card4.average_time_min d) = false)
    by (destruct (Card4.average_time_min d); try discriminate; reflexivity).
  assert (Hle : Num.leb (Card4.average_time_min d) mx = true).
  { apply not_ltb_leb; [exact Nm | exact Na |].
    apply Hmax. now apply in_map. }
  destruct (positive_finite _ Fa Pa) as (ma & ea & Ea).
  destruct (positive_finite _ Fm Pm) as (mm & em & Emx).
  rewrite Ea in Va, Hle |- *. subst mx.
  destruct (div_le_one ma mm ea em Va Vm Hle) as (Vq & Q0 & Q1).
  destruct (mul_100_le _ Vq Q0 Q1) as (_ & R0 & R1).
  exists (S754_finite false mm em). eexists.
  split; [reflexivity |]. split; [exact Hle |]. split; [reflexivity |].
  split; [reflexivity |]. split; [exact R0 |]. split; [exact R1 |].
  intros Heq. apply eqb_finite_pos in Heq as [-> ->].
  simpl Num.of_optional. rewrite div_self. apply mul_one_100.
Qed.

(** C1, as amended.  For every trend data set whose points carry labels
    of [DAY_ORDER] and average times that are finite and above zero, the
    normalisation of [renderCard4] gives every point the normalised time
    [(average_time_min / weekday_max) * 100], where [weekday_max] is the
    maximum of [average_time_min] over the points that share its
    [Day_of_Week]; that normalised time lies in [0, 100], and it is
    exactly 100 for a point whose average time equals the maximum of its
    weekday. *)
Theorem renderCard4_normalizes_by_weekday_max :
  forall json : list Card4.json_point,
    (forall d, In d (map Card4.coerce json) ->
       In (Card4.Day_of_Week d) DAY_ORDER /\
       Num.isFinite (Card4.average_time_min d) = true /\
       Num.ltb Num.zero (Card4.average_time_min d) = true) ->
    forall d', In d' (Card4.renderCard4_data json) ->
      exists weekday_max normalized,
        D3.max (map Card4.average_time_min
                  (with_key Card4.Day_of_Week (Card4.Day_of_Week d')
                     (map Card4.coerce json)))
        = Some weekday_max /\
        Num.leb (Card4.average_time_min d') weekday_max = true /\
        Card4.normalized_time d' = Some normalized /\
        normalized = Num.mul (Num.div (Card4.average_time_min d') weekday_max) Num.n100 /\
        Num.leb Num.zero normalized = true /\
        Num.leb normalized Num.n100 = true /\
        (Num.eqb (Card4.average_time_min d') weekday_max = true ->
         normalized = Num.n100).
Proof.
  intros json H d' Hd'. apply normalize_in_range; [| exact Hd'].
  intros d Hd. destruct (H d Hd) as (Hday & Hf & Hp).
  split; [exact Hday |]. split; [| split; assumption].
  apply in_map_iff in Hd as (j & <- & _). apply parseFloat_valid.
Qed.

(** A point labelled "Monday", which is no key of [DAY_ORDER], and a
    point whose average time is the string "Infinity": both are above
    zero, and both get NaN, where the formula over the points of their
    label gives 100 for the first. *)
Lemma renderCard4_normalization_outside_its_domain :
  let monday := {| Card4.json_day_of_year := VNumber (Num.of_Z 10);
                   Card4.json_Day_of_Week := js "Monday";
                   Card4.json_average_time_min := VNumber (Num.of_Z 5) |} in
  let endless := {| Card4.json_day_of_year := VNumber (Num.of_Z 10);
                    Card4.json_Day_of_Week := js "Mon";
                    Card4.json_average_time_min := VString (js "Infinity") |} in
  map Card4.average_time_min (map Card4.coerce [monday]) = [Num.of_Z 5] /\
  Num.ltb Num.zero (Num.of_Z 5) = true /\
  D3.max (map Card4.average_time_min
            (with_key Card4.Day_of_Week (js "Monday") (map Card4.coerce [monday])))
  = Some (Num.of_Z 5) /\
  Num.mul (Num.div (Num.of_Z 5) (Num.of_Z 5)) Num.n100 = Num.n100 /\
  map Card4.normalized_time (Card4.renderCard4_data [monday]) = [Some Num.NaN] /\
  Num.leb Num.NaN Num.n100 = false /\
  map Card4.average_time_min (map Card4.coerce [endless]) = [Num.Infinity] /\
  Num.ltb Num.zero Num.Infinity = true /\
  map Card4.normalized_time (Card4.renderCard4_data [endless]) = [Some Num.NaN].
Proof. cbv zeta. repeat split; vm_compute; reflexivity. Qed.

Lemma renderCard4_normalization_witness :
  let early := {| Card4.json_day_of_year := VNumber (Num.of_Z 6);
                  Card4.json_Day_of_Week := js "Mon";
                  Card4.json_average_time_min := VString (js "10.5") |} in
  let late := {| Card4.json_day_of_year := VNumber (Num.of_Z 300);
                 Card4.json_Day_of_Week := js "Mon";
                 Card4.json_average_time_min := VNumber (Num.of_Z 7) |} in
  (forall d, In d (map Card4.coerce [early; late]) ->
     In (Card4.Day_of_Week d) DAY_ORDER /\
     Num.isFinite (Card4.average_time_min d) = true /\
     Num.ltb Num.zero (Card4.average_time_min d) = true) /\
  exists normalized,
    Card4.normalized_time (nth 1 (Card4.renderCard4_data [early; late])
                             (Card4.coerce late)) = Some normalized /\
    Num.leb Num.zero normalized = true /\
    Num.leb normalized Num.n100 = true.
Proof.
  cbv zeta.
  assert (H : forall d,
             In d (map Card4.coerce
                     [ {| Card4.json_day_of_year := VNumber (Num.of_Z 6);
                          Card4.json_Day_of_Week := js "Mon";
                          Card4.json_average_time_min := VString (js "10.5") |};
                       {| Card4.json_day_of_year := VNumber (Num.of_Z 300);
                          Card4.json_Day_of_Week := js "Mon";
                          Card4.json_average_time_min := VNumber (Num.of_Z 7) |} ]) ->
             In (Card4.Day_of_Week d) DAY_ORDER /\
             Num.isFinite (Card4.average_time_min d) = true /\
             Num.ltb Num.zero (Card4.average_time_min d) = true).
  { intros d [<- | [<- | []]]; (split; [left; reflexivity |]);
      split; vm_compute; reflexivity. }
  split; [exact H |].
  destruct (renderCard4_normalizes_by_weekday_max _ H
              (nth 1 (Card4.renderCard4_data
                        [ {| Card4.json_day_of_year := VNumber (Num.of_Z 6);
                             Card4.json_Day_of_Week := js "Mon";
                             Card4.json_average_time_min := VString (js "10.5") |};
                          {| Card4.json_day_of_year := VNumber (Num.of_Z 300);
                             Card4.json_Day_of_Week := js "Mon";
                             Card4.json_average_time_min := VNumber (Num.of_Z 7) |} ])
                 (Card4.coerce
                    {| Card4.json_day_of_year := VNumber (Num.of_Z 300);
                       Card4.json_Day_of_Week := js "Mon";
                       Card4.json_average_time_min := VNumber (Num.of_Z 7) |})))
    as (wm & n & _ & _ & En & _ & R0 & R1 & _).
  { right. left. reflexivity. }
  exists n. split; [exact En |]. split; assumption.
Defined.

(** ** Card 4: the biggest improver *)

Section SortedBy.

Context {A : Type}.
Variable cmp : A -> A -> Z.
Variable le : A -> A -> Prop.
Variable P : A -> Prop.

Hypothesis le_trans : forall x y z, P x -> P y -> P z -> le x y -> le y z -> le x z.
Hypothesis cmp_gt : forall x y, P x -> P y -> cmp x y > 0 -> le y x.
Hypothesis cmp_le : forall x y, P x -> P y -> ~ cmp x y > 0 -> le x y.

Lemma insert_sorted_by (x : A) (l : list A) :
  P x -> Forall P l -> StronglySorted le l ->
  StronglySorted le (insert_sorted cmp x l).
Proof.
  intros Px Pl Hs. induction Hs as [| y l Hs IH Hy]; simpl.
  - constructor; constructor.
  - inversion Pl as [| ? ? Py Pl']; subst.
    destruct (Z.gtb_spec (cmp x y) 0) as [Hgt | Hle].
    + constructor; [now apply IH |].
      rewrite Forall_forall in *. intros z Hz.
      apply (Permutation_in _ (Permutation_sym (insert_sorted_perm cmp x l))) in Hz.
      destruct Hz as [<- | Hz]; [apply cmp_gt; auto; lia | now apply Hy].
    + assert (Lxy : le x y) by (apply cmp_le; auto; lia).
      constructor; [now constructor |].
      constructor; [exact Lxy |].
      rewrite Forall_forall in *. intros z Hz.
      apply (le_trans x y z); auto.
Qed.

Lemma array_sort_sorted_by (l : list A) :
  Forall P l -> StronglySorted le (array_sort cmp l).
Proof.
  induction l as [| x l IH]; simpl; intros Pl.
  - constructor.
  - inversion Pl as [| ? ? Px Pl']; subst.
    apply insert_sorted_by; [exact Px | | now apply IH].
    rewrite Forall_forall in *. intros z Hz. apply Pl'.
    eapply Permutation_in; [apply Permutation_sym, array_sort_perm | exact Hz].
Qed.

End SortedBy.

(** The day of the year is a Number one can order: a binary64 value
    other than NaN. *)
Definition dated (d : Card4.point) : Prop :=
  Num.valid (Card4.day_of_year d) = true /\ Num.isNaN (Card4.day_of_year d) = false.

(** [a] is no later in the year than [b]. *)
Definition no_later (a b : Card4.point) : Prop :=
  Num.leb (Card4.day_of_year a) (Card4.day_of_year b) = true.

Lemma by_day_of_year_gt (x y : Card4.point) :
  dated x -> dated y -> Card4.by_day_of_year x y > 0 -> no_later y x.
Proof.
  intros [Vx Nx] [Vy Ny]. unfold Card4.by_day_of_year, Card4.sign, no_later.
  destruct (sub_sign _ _ Vx Vy Nx Ny) as [-> ->].
  destruct (Num.ltb (Card4.day_of_year x) (Card4.day_of_year y)); [lia |].
  destruct (Num.ltb (Card4.day_of_year y) (Card4.day_of_year x)) eqn:L; [| lia].
  intros _. now apply ltb_leb.
Qed.

Lemma by_day_of_year_le (x y : Card4.point) :
  dated x -> dated y -> ~ Card4.by_day_of_year x y > 0 -> no_later x y.
Proof.
  intros [Vx Nx] [Vy Ny]. unfold Card4.by_day_of_year, Card4.sign, no_later.
  destruct (sub_sign _ _ Vx Vy Nx Ny) as [-> ->].
  destruct (Num.ltb (Card4.day_of_year x) (Card4.day_of_year y)) eqn:L1;
    [intros _; now apply ltb_leb |].
  destruct (Num.ltb (Card4.day_of_year y) (Card4.day_of_year x)) eqn:L2; [lia |].
  intros _. now apply not_ltb_leb.
Qed.

Lemma sorted_by_day_of_year (data : list Card4.point) :
  Forall dated data ->
  StronglySorted no_later (array_sort Card4.by_day_of_year data).
Proof.
  apply (array_sort_sorted_by Card4.by_day_of_year no_later dated).
  - intros x y z _ _ _. apply leb_trans.
  - apply by_day_of_year_gt.
  - apply by_day_of_year_le.
Qed.

(** What the selection has established after the groups [seen]. *)
Definition selected (seen : list (jsstring * list Card4.point)) (bi : Card4.improver)
    : Prop :=
  Num.isNaN (Card4.improvement bi) = false /\
  (forall d data, In (d, data) seen -> (2 <= length data)%nat ->
     Num.gtb (Card4.improvement_of data) (Card4.improvement bi) = false) /\
  ((Card4.day bi = None /\ Card4.improvement bi = Num.NegInfinity) \/
   exists d data,
     In (d, data) seen /\ (2 <= length data)%nat /\
     Card4.day bi = Some d /\
     Card4.improvement bi = Card4.improvement_of data /\
     Card4.dayName bi = DAY_FULL_NAMES d).

Lemma consider_selected (seen : list (jsstring * list Card4.point))
    (bi : Card4.improver) (entry : jsstring * list Card4.point) :
  selected seen bi -> selected (seen ++ [entry]) (Card4.consider bi entry).
Proof.
  intros (Hn & Hmax & Hsel). destruct entry as [d data]. unfold Card4.consider.
  destruct (Nat.ltb_spec 1 (length data)) as [Hlen | Hlen].
  - destruct (Num.gtb (Card4.improvement_of data) (Card4.improvement bi)) eqn:G.
    + unfold Num.gtb in G. fold (Num.ltb (Card4.improvement bi) (Card4.improvement_of data)) in G.
      destruct (ltb_not_NaN _ _ G) as [_ Ni].
      split; [exact Ni |]. split.
      * intros d' data' Hin Hl. simpl.
        apply in_app_or in Hin as [Hin | [E | []]].
        -- specialize (Hmax d' data' Hin Hl). unfold Num.gtb in *.
           fold (Num.ltb (Card4.improvement bi) (Card4.improvement_of data')) in Hmax.
           fold (Num.ltb (Card4.improvement_of data) (Card4.improvement_of data')).
           destruct (Num.ltb (Card4.improvement_of data) (Card4.improvement_of data')) eqn:L;
             [| reflexivity].
           rewrite (ltb_trans _ _ _ G L) in Hmax. discriminate.
        -- inversion E; subst. apply ltb_irrefl.
      * right. exists d, data. simpl.
        split; [apply in_or_app; right; now left |]. repeat split; auto.
    + split; [exact Hn |]. split.
      * intros d' data' Hin Hl.
        apply in_app_or in Hin as [Hin | [E | []]]; [exact (Hmax d' data' Hin Hl) |].
        inversion E; subst. exact G.
      * destruct Hsel as [Hnone | (d0 & data0 & Hin & Hl & Hrest)]; [now left |].
        right. exists d0, data0. split; [apply in_or_app; now left |]. auto.
  - split; [exact Hn |]. split.
    + intros d' data' Hin Hl.
      apply in_app_or in Hin as [Hin | [E | []]]; [exact (Hmax d' data' Hin Hl) |].
      inversion E; subst. lia.
    + destruct Hsel as [Hnone | (d0 & data0 & Hin & Hl & Hrest)]; [now left |].
      right. exists d0, data0. split; [apply in_or_app; now left |]. auto.
Qed.

Lemma fold_consider_selected (groups : list (jsstring * list Card4.point)) :
  forall seen bi,
    selected seen bi -> selected (seen ++ groups) (fold_left Card4.consider groups bi).
Proof.
  induction groups as [| g groups IH]; intros seen bi Hs; simpl.
  - now rewrite app_nil_r.
  - replace (seen ++ g :: groups) with ((seen ++ [g]) ++ groups) by now rewrite <- app_assoc.
    apply IH, consider_selected, Hs.
Qed.

Lemma biggestImprover_selected (chartData : list Card4.point) :
  selected (D3.group chartData Card4.Day_of_Week) (Card4.biggestImprover chartData).
Proof.
  unfold Card4.biggestImprover.
  apply (fold_consider_selected _ []).
  split; [reflexivity |]. split; [intros d data [] |]. now left.
Qed.

Lemma improvement_of_sorted (data : list Card4.point) :
  data <> [] ->
  exists first,
    Permutation data (array_sort Card4.by_day_of_year data) /\
    hd_error (array_sort Card4.by_day_of_year data) = Some first /\
    Card4.improvement_of data =
      Num.sub (Num.of_optional (Card4.normalized_time first))
              (Num.of_optional
                 (Card4.normalized_time
                    (last (array_sort Card4.by_day_of_year data) first))) /\
    (Forall dated data ->
     StronglySorted no_later (array_sort Card4.by_day_of_year data)).
Proof.
  intros Hne. assert (P := array_sort_perm Card4.by_day_of_year data).
  unfold Card4.improvement_of.
  destruct (array_sort Card4.by_day_of_year data) as [| first rest] eqn:E.
  - apply Permutation_sym, Permutation_nil in P. contradiction.
  - exists first. split; [exact P |]. split; [reflexivity |]. split; [reflexivity |].
    intros Hd. rewrite <- E. now apply sorted_by_day_of_year.
Qed.

(** C2.  For a normalised data set in which every [day_of_year] is a
    Number other than NaN, the biggest-improver selection of
    [renderCard4] considers the weekdays that have two points or more,
    those and no other; the improvement of a weekday is the normalised
    time of the first of its points less that of the last, in the
    ascending order of [day_of_year] its sort puts them in; the weekday
    it reports is a considered one, reported with its own improvement,
    unclamped, and no considered weekday has a greater improvement; it
    reports a weekday whenever a considered one improves on
    -Infinity. *)
Theorem biggestImprover_has_the_greatest_improvement :
  forall chartData : list Card4.point,
    Forall dated chartData ->
    let weekday := fun d => with_key Card4.Day_of_Week d chartData in
    let bi := Card4.biggestImprover chartData in
    (forall d, (2 <= length (weekday d))%nat ->
       Num.gtb (Card4.improvement_of (weekday d)) (Card4.improvement bi) = false) /\
    (forall d, Card4.day bi = Some d ->
       (2 <= length (weekday d))%nat /\
       Card4.improvement bi = Card4.improvement_of (weekday d) /\
       Card4.dayName bi = DAY_FULL_NAMES d) /\
    (Card4.day bi = None -> Card4.improvement bi = Num.NegInfinity) /\
    (forall d, (2 <= length (weekday d))%nat ->
       Num.gtb (Card4.improvement_of (weekday d)) Num.NegInfinity = true ->
       Card4.day bi <> None) /\
    (forall d, (2 <= length (weekday d))%nat ->
       exists first,
         Permutation (weekday d) (array_sort Card4.by_day_of_year (weekday d)) /\
         StronglySorted no_later (array_sort Card4.by_day_of_year (weekday d)) /\
         hd_error (array_sort Card4.by_day_of_year (weekday d)) = Some first /\
         Card4.improvement_of (weekday d) =
           Num.sub (Num.of_optional (Card4.normalized_time first))
                   (Num.of_optional
                      (Card4.normalized_time
                         (last (array_sort Card4.by_day_of_year (weekday d)) first)))).
Proof.
  intros chartData Hdated weekday bi.
  destruct (biggestImprover_selected chartData) as (Hn & Hmax & Hsel). fold bi in Hn, Hmax, Hsel.
  assert (A : forall d, (2 <= length (weekday d))%nat ->
       Num.gtb (Card4.improvement_of (weekday d)) (Card4.improvement bi) = false).
  { intros d Hl. apply (Hmax d); [| exact Hl].
    apply In_group. split; [reflexivity |]. intros E.
    fold (weekday d) in E. rewrite E in Hl. simpl in Hl. lia. }
  assert (C : Card4.day bi = None -> Card4.improvement bi = Num.NegInfinity).
  { intros Hd. destruct Hsel as [[_ E] | (d0 & data0 & _ & _ & Ed & _)]; [exact E |].
    congruence. }
  split; [exact A |]. split; [| split; [exact C | split]].
  - intros d Hd. destruct Hsel as [[E _] | (d0 & data0 & Hin & Hl & Ed & Ei & En)];
      [congruence |].
    assert (d0 = d) by congruence. subst d0.
    apply In_group in Hin as [-> _]. auto.
  - intros d Hl G Hd. specialize (A d Hl). rewrite (C Hd) in A. congruence.
  - intros d Hl.
    assert (Hne : weekday d <> []) by (intros E; rewrite E in Hl; simpl in Hl; lia).
    assert (Hd : Forall dated (weekday d)).
    { rewrite Forall_forall in *. intros p Hp. apply Hdated.
      unfold weekday in Hp. now apply in_with_key in Hp as [Hp _]. }
    destruct (improvement_of_sorted (weekday d) Hne) as (first & Hp & Hh & Ei & Hs).
    exists first. split; [exact Hp |]. split; [exact (Hs Hd) |]. split; assumption.
Qed.

(** A year in which Monday got faster and Tuesday slower, and a year
    with Tuesday alone: the slower Tuesday is reported, with the
    negative improvement it has. *)
Lemma biggestImprover_witness :
  let pt := fun (day : string) (doy nt : Z) =>
    {| Card4.day_of_year := Num.of_Z doy; Card4.Day_of_Week := js day;
       Card4.average_time_min := Num.of_Z nt;
       Card4.normalized_time := Some (Num.of_Z nt) |} in
  let tuesdays := [pt "Tue"%string 300 100; pt "Tue"%string 9 90] in
  Forall dated tuesdays /\
  Card4.day (Card4.biggestImprover tuesdays) = Some (js "Tue") /\
  Card4.improvement (Card4.biggestImprover tuesdays) = Num.of_Z (-10) /\
  StronglySorted no_later
    (array_sort Card4.by_day_of_year (with_key Card4.Day_of_Week (js "Tue") tuesdays)) /\
  Card4.day (Card4.biggestImprover
               ([pt "Mon"%string 8 100; pt "Tue"%string 9 90; pt "Wed"%string 10 100]
                ++ [pt "Tue"%string 300 100; pt "Mon"%string 299 80]))
  = Some (js "Mon").
Proof.
  cbv zeta.
  set (tuesdays :=
         [ {| Card4.day_of_year := Num.of_Z 300; Card4.Day_of_Week := js "Tue";
              Card4.average_time_min := Num.of_Z 100;
              Card4.normalized_time := Some (Num.of_Z 100) |};
           {| Card4.day_of_year := Num.of_Z 9; Card4.Day_of_Week := js "Tue";
              Card4.average_time_min := Num.of_Z 90;
              Card4.normalized_time := Some (Num.of_Z 90) |} ]).
  assert (D : Forall dated tuesdays).
  { repeat constructor. }
  destruct (biggestImprover_has_the_greatest_improvement tuesdays D)
    as (_ & _ & _ & _ & Hsort).
  destruct (Hsort (js "Tue") ltac:(vm_compute; lia)) as (first & _ & Hs & _).
  split; [exact D |].
  split; [vm_compute; reflexivity |].
  split; [vm_compute; reflexivity |].
  split; [exact Hs |].
  vm_compute. reflexivity.
Defined.

(** A Monday whose day of the year is missing from the file, between
    the Mondays of day 3 and of day 1: the subtraction gives NaN
    against the missing day, the sort leaves the three as they are,
    and the improvement of Monday is taken from day 3 to day 1: -50,
    where the ascending order gives +50.  Tuesday, with 25, is
    reported. *)
Lemma biggestImprover_with_a_day_of_year_missing :
  let pt := fun (day : string) (doy : value) (avg : Z) =>
    {| Card4.json_day_of_year := doy;
       Card4.json_Day_of_Week := js day;
       Card4.json_average_time_min := VNumber (Num.of_Z avg) |} in
  let chartData :=
    Card4.renderCard4_data
      [ pt "Mon"%string (VNumber (Num.of_Z 3)) 4;
        pt "Mon"%string VUndefined 6;
        pt "Mon"%string (VNumber (Num.of_Z 1)) 8;
        pt "Tue"%string (VNumber (Num.of_Z 2)) 8;
        pt "Tue"%string (VNumber (Num.of_Z 9)) 6 ] in
  let mondays := with_key Card4.Day_of_Week (js "Mon") chartData in
  map Card4.day_of_year (array_sort Card4.by_day_of_year mondays)
  = [Num.of_Z 3; Num.NaN; Num.of_Z 1] /\
  map Card4.normalized_time (array_sort Card4.by_day_of_year mondays)
  = [Some (Num.of_Z 50); Some (Num.of_Z 75); Some (Num.of_Z 100)] /\
  Card4.improvement_of mondays = Num.of_Z (-50) /\
  Card4.day (Card4.biggestImprover chartData) = Some (js "Tue") /\
  Card4.improvement (Card4.biggestImprover chartData) = Num.of_Z 25.
Proof. cbv zeta. repeat split; vm_compute; reflexivity. Qed.

(** Three rows: the second is the fastest, the third has no label. *)
Lemma renderCard7_witness :
  let row := fun (date : string) (label : value) (id : Z) =>
    {| Card6.Date := VString (js date); Card6.Day_of_Week := VString (js "Sat");
       Card6.Author := VString (js "A. Constructor");
       Card6.Time_formatted := VString (js "12m 05s");
       Card6.Deviation_Percent_Label := label;
       Card6.puzzle_id := VNumber (Num.of_Z id) |} in
  let raw := Card6.JArray
               [ row "2025-03-01"%string (VString (js "-12.5%")) 23290;
                 row "2025-03-08"%string (VString (js "-45.2%")) 23297;
                 row "2025-03-15"%string VNull 23304 ] in
  Card6.tableData_of raw <> [] /\
  exists p,
    Card6._fastestPuzzle true (Card6.tableData_of raw) = Some p /\
    Card6.Date p = VString (js "2025-03-08") /\
    Card6.renderCard7 true raw = Card6.Fetches (Card6.puzzle_id p).
Proof.
  cbv zeta.
  set (raw := Card6.JArray _).
  assert (Hne : Card6.tableData_of raw <> []) by discriminate.
  split; [exact Hne |].
  destruct (renderCard7_replays_the_fastest_puzzle true raw Hne)
    as (p & E & _ & _ & Hfetch & _).
  exists p. split; [exact E |].
  vm_compute in E. injection E as <-.
  split; [reflexivity | apply Hfetch; reflexivity].
Defined.

(** A row with an unparseable label before and after a parseable one. *)
Lemma unparseable_label_witness :
  let row := fun (label : value) =>
    {| Card6.Date := VString (js "2025-03-01"); Card6.Day_of_Week := VString (js "Sat");
       Card6.Author := VString (js "A. Constructor");
       Card6.Time_formatted := VString (js "12m 05s");
       Card6.Deviation_Percent_Label := label;
       Card6.puzzle_id := VNumber (Num.of_Z 23290) |} in
  let tableData := [row (VString (js "n/a")); row (VString (js "+3.5%")); row VUndefined] in
  (exists r, In r tableData /\
             Card6.parseable (Card6.Deviation_Percent_Label r) = true) /\
  exists p,
    Card6._fastestPuzzle false tableData = Some p /\
    Card6.parseable (Card6.Deviation_Percent_Label p) = true.
Proof.
  cbv zeta.
  set (tableData := [_; _; _]).
  assert (H : exists r, In r tableData /\
                Card6.parseable (Card6.Deviation_Percent_Label r) = true).
  { exists (nth 1 tableData (nth 0 tableData (nth 0 tableData
             {| Card6.Date := VNull; Card6.Day_of_Week := VNull; Card6.Author := VNull;
                Card6.Time_formatted := VNull; Card6.Deviation_Percent_Label := VNull;
                Card6.puzzle_id := VNull |}))).
    split; [right; left; reflexivity | vm_compute; reflexivity]. }
  split; [exact H |].
  destruct (proj2 unparseable_label_is_never_the_fastest false tableData H)
    as (p & E & _ & Pp).
  exists p. split; assumption.
Defined.

(** A time with a match in the middle of other text. *)
Lemma formatTimeToMMSS_witness :
  matches (js "about 05m  7 s left") /\
  exists minutes seconds,
    leftmost_match minutes seconds (js "about 05m  7 s left") /\
    formatTimeToMMSS (VString (js "about 05m  7 s left")) =
    Returns (VString (without_one_leading_zero minutes ++ js ":"
                      ++ padded_to_two seconds)).
Proof.
  assert (M : matches (js "about 05m  7 s left")).
  { exists (js "about "), (js "05"), (js "7"), (js "05m  7 s left").
    split; [reflexivity |].
    exists [], (js "  "), (js " "), (js " left"). repeat split; discriminate. }
  split; [exact M |].
  exact (proj1 (proj2 (proj2 formatTimeToMMSS_total_and_formats)) _ M).
Defined.

(** A time given as the Number 345 of seconds, as a JSON file can hold
    it, has no [match] method: the call throws.  And the empty string,
    which holds no match of the pattern, does not come back unchanged:
    it is falsy and gives "00:00". *)
Lemma formatTimeToMMSS_throws_on_a_Number :
  formatTimeToMMSS (VNumber (Num.of_Z 345)) = Throws /\
  formatTimeToMMSS (VBool true) = Throws /\
  ~ matches [] /\
  formatTimeToMMSS (VString []) = Returns (VString (js "00:00")).
Proof.
  split; [reflexivity |]. split; [reflexivity |]. split; [| reflexivity].
  intros M. now apply matches_nonempty in M.
Qed.

(* ===================================================================== *)
(** * Part III: further properties of the cards                           *)
(* ===================================================================== *)

(** ** Decimals and the Numbers they denote *)

Lemma binary_round_aux_sign (neg : bool) (mx ex : Z) (lx : location) :
  binary_round_aux Num.prec Num.emax neg mx ex lx
  = with_sign neg (binary_round_aux Num.prec Num.emax false mx ex lx).
Proof.
  unfold binary_round_aux.
  destruct (shr_fexp Num.prec Num.emax mx ex lx) as [mrs' e'].
  destruct (shr_fexp Num.prec Num.emax _ e' loc_Exact) as [mrs'' e''].
  destruct (shr_m mrs''); try reflexivity.
  destruct (e'' <=? Num.emax - Num.prec); reflexivity.
Qed.

Lemma round_ratio_sign (neg : bool) (a b : positive) :
  Num.round_ratio neg a b = with_sign neg (Num.round_ratio false a b).
Proof.
  unfold Num.round_ratio.
  destruct (SFdiv_core_binary Num.prec Num.emax (Zpos a) 0 (Zpos b) 0) as [[q e] l].
  apply binary_round_aux_sign.
Qed.

Lemma of_decimal_sign (neg : bool) (m : N) (e : Z) :
  Num.of_decimal neg m e = with_sign neg (Num.of_decimal false m e).
Proof.
  unfold Num.of_decimal. destruct m as [| p]; [reflexivity |].
  destruct (Num.strip10 _ p e) as [p' e']. destruct e'; apply round_ratio_sign.
Qed.

Lemma same_number_eq (x y : number) : same_number x y = true -> x = y.
Proof.
  destruct x as [a | a | | a m e], y as [b | b | | b m' e']; simpl; try discriminate;
    try reflexivity.
  - intros H. apply eqb_prop in H. now subst.
  - intros H. apply eqb_prop in H. now subst.
  - intros H. apply andb_prop in H as [H He]. apply andb_prop in H as [Hs Hm].
    apply eqb_prop in Hs. apply Pos.eqb_eq in Hm. apply Z.eqb_eq in He. now subst.
Qed.

(** [strip10] keeps the value of the decimal. *)
Lemma strip10_value (fuel : nat) :
  forall (m : positive) (k : Z),
    Zpos m = Zpos (fst (Num.strip10 fuel m k)) * 10 ^ (snd (Num.strip10 fuel m k) - k) /\
    k <= snd (Num.strip10 fuel m k).
Proof.
  induction fuel as [| fuel IH]; intros m k; cbn [Num.strip10].
  - cbn [fst snd]. rewrite Z.sub_diag. simpl. lia.
  - destruct (Z.eqb_spec (Zpos m mod 10) 0) as [E | N]; cbn [fst snd].
    + destruct (IH (Z.to_pos (Zpos m / 10)) (k + 1)) as [Hv Hk].
      set (r := Num.strip10 fuel (Z.to_pos (Zpos m / 10)) (k + 1)) in *.
      assert (Hd : Zpos m = 10 * (Zpos m / 10)).
      { rewrite (Z.div_mod (Zpos m) 10) at 1 by lia. lia. }
      assert (Hq : 0 < Zpos m / 10) by lia.
      rewrite Z2Pos.id in Hv by lia.
      split; [| lia].
      replace (snd r - k) with (Z.succ (snd r - (k + 1))) by lia.
      rewrite Z.pow_succ_r by lia.
      transitivity (10 * (Zpos m / 10)); [exact Hd |]. rewrite Hv. ring.
    + rewrite Z.sub_diag. simpl. lia.
Qed.

(** With fuel enough, what [strip10] leaves is no multiple of ten. *)
Lemma strip10_stripped (fuel : nat) :
  forall (m : positive) (k : Z),
    Zpos m < 2 ^ Z.of_nat fuel ->
    Zpos (fst (Num.strip10 fuel m k)) mod 10 <> 0.
Proof.
  induction fuel as [| fuel IH]; intros m k Hm.
  - simpl in Hm. lia.
  - simpl Num.strip10.
    destruct (Z.eqb_spec (Zpos m mod 10) 0) as [E | N]; [| exact N].
    apply IH.
    assert (Hd : Zpos m = 10 * (Zpos m / 10)).
    { rewrite (Z.div_mod (Zpos m) 10) at 1 by lia. lia. }
    assert (Hq : 0 < Zpos m / 10) by lia.
    rewrite Z2Pos.id by lia.
    rewrite Nat2Z.inj_succ, Z.pow_succ_r in Hm by lia. lia.
Qed.

Lemma pos_lt_pow2_size (p : positive) : Zpos p < 2 ^ Z.of_nat (Pos.to_nat (Pos.size p)).
Proof.
  rewrite positive_nat_Z. rewrite <- digits2_pos_size.
  change (Zpos (digits2_pos p)) with (Zdigits2 (Zpos p)).
  apply Zdigits2_bounds. lia.
Qed.

Lemma strip10_fixed (fuel : nat) (m : positive) (k : Z) :
  Zpos m mod 10 <> 0 -> Num.strip10 fuel m k = (m, k).
Proof.
  intros H. destruct fuel; simpl; [reflexivity |].
  destruct (Z.eqb_spec (Zpos m mod 10) 0); [contradiction | reflexivity].
Qed.

Lemma pow10_pos (n : Z) : 0 <= n -> 0 < 10 ^ n.
Proof. intros. apply Z.pow_pos_nonneg; lia. Qed.

(** Two decimals in lowest terms with one value are one decimal. *)
Lemma stripped_unique (p1 p2 : positive) (k1 k2 c : Z) :
  c <= k1 -> c <= k2 ->
  Zpos p1 mod 10 <> 0 -> Zpos p2 mod 10 <> 0 ->
  Zpos p1 * 10 ^ (k1 - c) = Zpos p2 * 10 ^ (k2 - c) ->
  p1 = p2 /\ k1 = k2.
Proof.
  intros H1 H2 N1 N2 E.
  assert (Hk : k1 = k2).
  { destruct (Z.lt_trichotomy k1 k2) as [Hlt | [Heq | Hgt]]; [| exact Heq |]; exfalso.
    - assert (Ek : 10 ^ (k2 - c) = 10 ^ (k1 - c) * 10 ^ (k2 - k1)).
      { rewrite <- Z.pow_add_r by lia. f_equal. lia. }
      rewrite Ek in E. assert (P := pow10_pos (k1 - c) ltac:(lia)).
      assert (E' : Zpos p1 = Zpos p2 * 10 ^ (k2 - k1)) by nia.
      apply N1. rewrite E'.
      replace (k2 - k1) with (Z.succ (k2 - k1 - 1)) by lia.
      rewrite Z.pow_succ_r by lia.
      replace (Zpos p2 * (10 * 10 ^ (k2 - k1 - 1))) with ((Zpos p2 * 10 ^ (k2 - k1 - 1)) * 10) by ring.
      apply Z.mod_mul. lia.
    - assert (Ek : 10 ^ (k1 - c) = 10 ^ (k2 - c) * 10 ^ (k1 - k2)).
      { rewrite <- Z.pow_add_r by lia. f_equal. lia. }
      rewrite Ek in E. assert (P := pow10_pos (k2 - c) ltac:(lia)).
      assert (E' : Zpos p2 = Zpos p1 * 10 ^ (k1 - k2)) by nia.
      apply N2. rewrite E'.
      replace (k1 - k2) with (Z.succ (k1 - k2 - 1)) by lia.
      rewrite Z.pow_succ_r by lia.
      replace (Zpos p1 * (10 * 10 ^ (k1 - k2 - 1))) with ((Zpos p1 * 10 ^ (k1 - k2 - 1)) * 10) by ring.
      apply Z.mod_mul. lia. }
  split; [| exact Hk]. subst k2.
  assert (P := pow10_pos (k1 - c) ltac:(lia)).
  assert (Zpos p1 = Zpos p2) by nia. congruence.
Qed.

(** Decimals of one value denote one Number. *)
Lemma of_decimal_value (neg : bool) (p1 p2 : positive) (e1 e2 c : Z) :
  c <= e1 -> c <= e2 ->
  Zpos p1 * 10 ^ (e1 - c) = Zpos p2 * 10 ^ (e2 - c) ->
  Num.of_decimal neg (Npos p1) e1 = Num.of_decimal neg (Npos p2) e2.
Proof.
  intros H1 H2 E. unfold Num.of_decimal.
  destruct (strip10_value (Pos.to_nat (Pos.size p1)) p1 e1) as [V1 K1].
  destruct (strip10_value (Pos.to_nat (Pos.size p2)) p2 e2) as [V2 K2].
  assert (S1 := strip10_stripped _ p1 e1 (pos_lt_pow2_size p1)).
  assert (S2 := strip10_stripped _ p2 e2 (pos_lt_pow2_size p2)).
  destruct (Num.strip10 (Pos.to_nat (Pos.size p1)) p1 e1) as [q1 k1].
  destruct (Num.strip10 (Pos.to_nat (Pos.size p2)) p2 e2) as [q2 k2].
  cbn [fst snd] in *.
  assert (U : q1 = q2 /\ k1 = k2).
  { apply (stripped_unique q1 q2 k1 k2 c); try lia.
    rewrite V1, V2 in E.
    replace (k1 - c) with ((k1 - e1) + (e1 - c)) by lia.
    replace (k2 - c) with ((k2 - e2) + (e2 - c)) by lia.
    rewrite !Z.pow_add_r by lia. lia. }
  destruct U as [-> ->]. reflexivity.
Qed.

(** ** Reading back an exact ratio *)

Lemma canonical_digits (m : positive) (e : Z) :
  canonical m e -> Zdigits2 (Zpos m) <= 53.
Proof. unfold canonical, fexp53. lia. Qed.

Lemma pow_lt_inv (a b : Z) : 0 <= b -> 2 ^ a < 2 ^ b -> a < b.
Proof.
  intros Hb H. destruct (Z.lt_ge_cases a b) as [| Hge]; [assumption |].
  exfalso. assert (2 ^ b <= 2 ^ a) by (apply Z.pow_le_mono_r; lia). lia.
Qed.

(** The ratio [a / b] that is [m * 2^e] exactly reads as that Number. *)
Lemma round_ratio_exact (a b m : positive) (e : Z) :
  canonical m e -> e <= 971 ->
  Zpos a * 2 ^ Z.max (- e) 0 = Zpos m * 2 ^ Z.max e 0 * Zpos b ->
  Num.round_ratio false a b = S754_finite false m e.
Proof.
  intros Hc He Hv.
  assert (Ha := Zdigits2_bounds (Zpos a) ltac:(lia)).
  assert (Hb := Zdigits2_bounds (Zpos b) ltac:(lia)).
  assert (Hm := Zdigits2_bounds (Zpos m) ltac:(lia)).
  assert (Da := Zdigits2_pos (Zpos a) ltac:(lia)).
  assert (Db := Zdigits2_pos (Zpos b) ltac:(lia)).
  assert (Dm := Zdigits2_pos (Zpos m) ltac:(lia)).
  set (da := Zdigits2 (Zpos a)) in *. set (db := Zdigits2 (Zpos b)) in *.
  set (dm := Zdigits2 (Zpos m)) in *.
  (* the magnitude of the ratio is that of the Number *)
  assert (Hd : da - db <= dm + e).
  { assert (P1 := pow2_pos (Z.max (- e) 0) ltac:(lia)).
    assert (P2 := pow2_pos (Z.max e 0) ltac:(lia)).
    assert (L : 2 ^ (da - 1 + Z.max (- e) 0) < 2 ^ (dm + Z.max e 0 + db)).
    { rewrite !Z.pow_add_r by lia.
      apply Z.le_lt_trans with (Zpos a * 2 ^ Z.max (- e) 0).
      - apply Z.mul_le_mono_nonneg_r; lia.
      - rewrite Hv.
        assert (Zpos m * 2 ^ Z.max e 0 < 2 ^ dm * 2 ^ Z.max e 0)
          by (apply Z.mul_lt_mono_pos_r; lia).
        assert (0 < 2 ^ dm) by (apply pow2_pos; lia).
        assert (0 < 2 ^ db) by (apply pow2_pos; lia).
        nia. }
    apply pow_lt_inv in L; [| lia]. clear - L. lia. }
  unfold Num.round_ratio. rewrite div_core_eq by lia.
  destruct (div_core_pre (Zpos a) 0 (Zpos b) 0) as [Hq Hpre]; try lia.
  cbv zeta in Hq, Hpre.
  replace (Zdigits2 (Zpos a) + 0 - (Zdigits2 (Zpos b) + 0)) with (da - db) in * by (unfold da, db; lia).
  replace (0 - 0) with 0 in * by lia.
  set (e' := Z.min (fexp53 (da - db)) 0) in *.
  assert (He' : e' <= e /\ e' <= 0).
  { assert (M := fexp53_mono _ _ Hd). unfold canonical in Hc. fold dm in Hc. unfold e'. lia. }
  destruct He' as [Hee H0].
  (* the quotient is exact *)
  assert (Eq : Zpos a * 2 ^ (0 - e') = (Zpos m * 2 ^ (e - e')) * Zpos b).
  { destruct (Z.le_gt_cases 0 e) as [Hpos | Hneg].
    - rewrite (Z.max_r (- e) 0), (Z.max_l e 0) in Hv by lia.
      change (2 ^ 0) with 1 in Hv. rewrite Z.mul_1_r in Hv. rewrite Hv.
      replace (e - e') with (e + (0 - e')) by lia.
      rewrite Z.pow_add_r by lia. ring.
    - rewrite (Z.max_l (- e) 0), (Z.max_r e 0) in Hv by lia.
      change (2 ^ 0) with 1 in Hv. rewrite Z.mul_1_r in Hv.
      replace (0 - e') with (- e + (e - e')) by lia.
      rewrite Z.pow_add_r by lia. rewrite Z.mul_assoc, Hv. ring. }
  rewrite Eq in *. rewrite Z.div_mul in * by lia. rewrite Z.mod_mul by lia.
  rewrite new_location_zero.
  assert (Dq : Zdigits2 (Zpos m * 2 ^ (e - e')) = dm + (e - e'))
    by (apply Zdigits2_mul_pow2; lia).
  rewrite Dq in Hpre.
  destruct (bra_spec false (Zpos m * 2 ^ (e - e')) e' loc_Exact Hq)
    as (m2 & _ & Hex & _ & _ & ->).
  { rewrite Dq. exact Hpre. }
  rewrite Dq in *.
  replace (dm + (e - e') + e') with (dm + e) in * by lia.
  unfold canonical in Hc. fold dm in Hc. rewrite Hc in *.
  assert (P := pow2_pos (e - e') ltac:(lia)).
  rewrite Z.mod_mul, Z.div_mul in Hex by lia.
  rewrite (Hex eq_refl eq_refl).
  unfold pack.
  assert (Hlt : Zpos m < 2 ^ 53).
  { destruct Hm as [_ Hhi]. eapply Z.lt_le_trans; [exact Hhi |].
    apply Z.pow_le_mono_r; [lia |]. unfold fexp53 in Hc. lia. }
  destruct (Z.eqb_spec (Zpos m) 0) as [| _]; [lia |].
  destruct (Z.ltb_spec (Zpos m) (2 ^ 53)) as [_ |]; [| lia].
  destruct (Z.leb_spec e 971) as [_ |]; [| lia].
  reflexivity.
Qed.

(** The decimal [s * 10^sc] that is [m * 2^e] exactly reads as that
    Number. *)
Lemma of_decimal_exact (s : positive) (sc : Z) (m : positive) (e : Z) :
  canonical m e -> e <= 971 ->
  Zpos s * 10 ^ Z.max sc 0 * 2 ^ Z.max (- e) 0
  = Zpos m * 2 ^ Z.max e 0 * 10 ^ Z.max (- sc) 0 ->
  Num.of_decimal false (Npos s) sc = S754_finite false m e.
Proof.
  intros Hc He Hv. unfold Num.of_decimal.
  destruct (strip10_value (Pos.to_nat (Pos.size s)) s sc) as [V K].
  destruct (Num.strip10 (Pos.to_nat (Pos.size s)) s sc) as [p k].
  cbn [fst snd] in V, K.
  set (X := 2 ^ Z.max (- e) 0) in *. set (Y := Zpos m * 2 ^ Z.max e 0) in *.
  assert (G : Zpos p * 10 ^ Z.max k 0 * X = Y * 10 ^ Z.max (- k) 0).
  { assert (P := pow10_pos (Z.max (- sc) 0) ltac:(lia)).
    apply (Z.mul_reg_r _ _ (10 ^ Z.max (- sc) 0)); [lia |].
    transitivity (Zpos p * 10 ^ (k - sc) * 10 ^ Z.max sc 0 * X * 10 ^ Z.max (- k) 0).
    - replace (Zpos p * 10 ^ Z.max k 0 * X * 10 ^ Z.max (- sc) 0)
        with (Zpos p * X * (10 ^ Z.max k 0 * 10 ^ Z.max (- sc) 0)) by ring.
      replace (Zpos p * 10 ^ (k - sc) * 10 ^ Z.max sc 0 * X * 10 ^ Z.max (- k) 0)
        with (Zpos p * X * (10 ^ (k - sc) * 10 ^ Z.max sc 0 * 10 ^ Z.max (- k) 0)) by ring.
      f_equal. rewrite <- !Z.pow_add_r by lia. f_equal. lia.
    - rewrite <- V, Hv. ring. }
  clear Hv V. subst X Y.
  destruct k as [| k | k]; apply round_ratio_exact; try assumption.
  - change (Z.max 0 0) with 0 in G. change (Z.max (- 0) 0) with 0 in G.
    change (10 ^ 0) with 1 in G. rewrite !Z.mul_1_r in G.
    rewrite Z.mul_1_r. exact G.
  - change (Z.max (Zpos k) 0) with (Zpos k) in G.
    change (Z.max (- Zpos k) 0) with 0 in G.
    change (10 ^ 0) with 1 in G. rewrite Z.mul_1_r in G.
    rewrite Pos2Z.inj_mul, Pos2Z.inj_pow, Z.mul_1_r. exact G.
  - change (Z.max (Zneg k) 0) with 0 in G.
    change (Z.max (- Zneg k) 0) with (Zpos k) in G.
    change (10 ^ 0) with 1 in G. rewrite Z.mul_1_r in G.
    rewrite Pos2Z.inj_pow. exact G.
Qed.

Lemma fraction_exact_decimal (m : positive) (e : Z) :
  let d := exact_decimal (fst (fraction m e)) (snd (fraction m e)) in
  0 < fst d /\
  (fst d * 10 ^ Z.max (snd d) 0 * 2 ^ Z.max (- e) 0
   = Zpos m * 2 ^ Z.max e 0 * 10 ^ Z.max (- snd d) 0).
Proof.
  cbv zeta. unfold exact_decimal, fraction. destruct e as [| p | p]; cbn [fst snd].
  - change (Z.log2 1) with 0. change (- 0) with 0. change (- 0) with 0.
    change (Z.max 0 0) with 0.
    change (5 ^ 0) with 1. change (10 ^ 0) with 1. change (2 ^ 0) with 1. lia.
  - change (Z.log2 1) with 0. change (- 0) with 0. change (- 0) with 0.
    change (Z.max 0 0) with 0.
    change (Z.max (- Zpos p) 0) with 0. change (Z.max (Zpos p) 0) with (Zpos p).
    change (5 ^ 0) with 1. change (10 ^ 0) with 1. change (2 ^ 0) with 1.
    assert (P := pow2_pos (Zpos p) ltac:(lia)). split; nia.
  - rewrite Z.log2_pow2 by lia.
    change (Z.max (- Zpos p) 0) with 0. change (- Zneg p) with (Zpos p).
    change (- - Zpos p) with (Zpos p).
    change (Z.max (Zpos p) 0) with (Zpos p). change (Z.max (Zneg p) 0) with 0.
    change (10 ^ 0) with 1. change (2 ^ 0) with 1.
    assert (P5 : 0 < 5 ^ Zpos p) by (apply Z.pow_pos_nonneg; lia).
    split; [nia |].
    change 10 with (2 * 5). rewrite Z.pow_mul_l. ring.
Qed.

Lemma reads_back_finite (m : positive) (e s sc : Z) :
  reads_back (S754_finite false m e) s sc = true ->
  0 < s /\ Num.of_decimal false (Z.to_N s) sc = S754_finite false m e.
Proof.
  unfold reads_back. intros H. apply same_number_eq in H. split; [| exact H].
  destruct s as [| p | p]; try lia; simpl in H; discriminate.
Qed.

Lemma candidate_reads_back (x : number) (num den scale s : Z) :
  candidate x num den scale = Some s -> reads_back x s scale = true.
Proof.
  unfold candidate. destruct (scaled num den scale) as [lo half].
  destruct (0 <? lo); cbn [andb];
    destruct (reads_back x lo scale) eqn:Elo;
    destruct (reads_back x (lo + 1) scale) eqn:Ehi; cbn [andb];
    try discriminate; intros [= <-]; try assumption.
  destruct half; [destruct (Z.odd lo) | |]; assumption.
Qed.

Lemma shortest_from_reads_back (fuel : nat) (x : number) (num den n : Z) :
  forall k s scale,
    shortest_from fuel x num den n k = Some (s, scale) -> reads_back x s scale = true.
Proof.
  induction fuel as [| fuel IH]; intros k s scale; simpl; [discriminate |].
  destruct (candidate x num den (n - k)) as [c |] eqn:E.
  - intros [= <- <-]. exact (candidate_reads_back _ _ _ _ _ E).
  - apply IH.
Qed.

(** The decimal [Number::toString] picks reads back as the Number. *)
Lemma shortest_decimal_reads_back (m : positive) (e : Z) :
  canonical m e -> e <= 971 ->
  Num.of_decimal false
    (Npos (fst (shortest_decimal (S754_finite false m e) m e)))
    (snd (shortest_decimal (S754_finite false m e) m e))
  = S754_finite false m e.
Proof.
  intros Hc He. unfold shortest_decimal.
  assert (F := fraction_exact_decimal m e).
  cbv zeta in F. destruct (fraction m e) as [num den]. cbn [fst snd] in F.
  set (x := S754_finite false m e).
  assert (D : forall s0 sc0,
             match shortest_from 17 x num den (magnitude num den) 1 with
             | Some d => d
             | None => exact_decimal num den
             end = (s0, sc0) ->
             0 < s0 /\ Num.of_decimal false (Z.to_N s0) sc0 = x).
  { intros s0 sc0 E.
    destruct (shortest_from 17 x num den (magnitude num den) 1) as [[s1 sc1] |] eqn:S.
    - injection E as -> ->. apply reads_back_finite.
      exact (shortest_from_reads_back _ _ _ _ _ _ _ _ S).
    - rewrite E in F. cbn [fst snd] in F. destruct F as [Hpos Hv].
      split; [exact Hpos |].
      destruct s0 as [| p | p]; try lia.
      now apply of_decimal_exact. }
  destruct (match shortest_from 17 x num den (magnitude num den) 1 with
            | Some d => d
            | None => exact_decimal num den
            end) as [s0 sc0].
  destruct (D s0 sc0 eq_refl) as [Hpos Hx].
  destruct (strip10_value (Z.to_nat (Z.log2 s0) + 1) (Z.to_pos s0) sc0) as [V K].
  destruct (Num.strip10 (Z.to_nat (Z.log2 s0) + 1) (Z.to_pos s0) sc0) as [s sc].
  cbn [fst snd] in *.
  rewrite <- Hx. destruct s0 as [| p | p]; try lia.
  change (Z.to_N (Zpos p)) with (Npos p). change (Z.to_pos (Zpos p)) with p in V.
  apply (of_decimal_value false s p sc sc0 sc0); try lia.
  rewrite Z.sub_diag. change (10 ^ 0) with 1. lia.
Qed.

(** ** Digits *)

Lemma isDigit_cases (c : N) :
  isDigit c = true -> In c [48; 49; 50; 51; 52; 53; 54; 55; 56; 57]%N.
Proof.
  unfold isDigit. rewrite andb_true_iff, !N.leb_le. intros [H1 H2]. simpl. lia.
Qed.

Ltac digit_cases H :=
  apply isDigit_cases in H; simpl in H;
  repeat (destruct H as [<- | H]); try contradiction.

Lemma digit_not_white (c : N) : isDigit c = true -> isSpace c = false.
Proof. intros H. digit_cases H; reflexivity. Qed.

Lemma read_sign_digit (c : N) (s : jsstring) :
  isDigit c = true -> read_sign (c :: s) = (false, c :: s).
Proof. intros H. digit_cases H; reflexivity. Qed.

Lemma digit_value_add (c : N) (a : N) :
  isDigit c = true -> (10 * a + (c - 48) < 10 * (a + 1))%N.
Proof. unfold isDigit. rewrite andb_true_iff, !N.leb_le. lia. Qed.

Lemma digits_value_app (ds1 ds2 : jsstring) :
  forall a, digits_value (ds1 ++ ds2) a = digits_value ds2 (digits_value ds1 a).
Proof. induction ds1 as [| d ds1 IH]; intros a; simpl; [reflexivity | apply IH]. Qed.

Lemma digits_value_zeros (j : nat) :
  forall a, digits_value (repeat 48%N j) a = (a * 10 ^ N.of_nat j)%N.
Proof.
  induction j as [| j IH]; intros a.
  - simpl. lia.
  - cbn [repeat digits_value]. rewrite IH. rewrite Nat2N.inj_succ, N.pow_succ_r'. lia.
Qed.

(** The digits written before [acc] are digits, denote [n], and start
    with no zero. *)
Lemma digits_before_spec (fuel : nat) :
  forall (n : N) (acc : jsstring),
    (n < 2 ^ N.of_nat fuel)%N ->
    exists ds,
      digits_before fuel n acc = ds ++ acc /\
      forallb isDigit ds = true /\
      (forall a, digits_value ds a = (a * 10 ^ N.of_nat (length ds) + n)%N) /\
      (n = 0%N -> ds = []) /\
      (n <> 0%N -> ds <> [] /\ (10 ^ N.of_nat (length ds) <= 10 * n)%N).
Proof.
  induction fuel as [| fuel IH]; intros n acc Hn.
  - exists []. simpl in *. assert (n = 0%N) by lia. subst.
    repeat split; try reflexivity; try congruence. intros; lia.
  - cbn [digits_before]. destruct n as [| p].
    + exists []. repeat split; try reflexivity; try congruence. intros; simpl; lia.
    + assert (Hpos : (Npos p <> 0)%N) by discriminate.
      set (n := Npos p) in *. clearbody n.
      assert (Hdiv : (n / 10 < 2 ^ N.of_nat fuel)%N).
      { rewrite Nat2N.inj_succ, N.pow_succ_r' in Hn.
        apply N.Div0.div_lt_upper_bound. lia. }
      assert (Hmod : (n mod 10 < 10)%N) by (apply N.mod_lt; lia).
      assert (Edm := N.div_mod n 10 ltac:(lia)).
      set (q := (n / 10)%N) in *. set (r := (n mod 10)%N) in *. clearbody q r.
      destruct (IH q ((48 + r)%N :: acc) Hdiv) as (ds & E & Hd & Hv & Hz & Hnz).
      exists (ds ++ [(48 + r)%N]).
      assert (Hlen : N.of_nat (length (ds ++ [(48 + r)%N])) = N.succ (N.of_nat (length ds))).
      { rewrite length_app. cbn [length]. now rewrite Nat.add_1_r, Nat2N.inj_succ. }
      repeat split.
      * rewrite E, <- app_assoc. reflexivity.
      * rewrite forallb_app, Hd. cbn [forallb]. unfold isDigit.
        rewrite andb_true_r, andb_true_l, andb_true_iff, !N.leb_le. lia.
      * intros a. rewrite digits_value_app, Hv. cbn [digits_value].
        rewrite Hlen, N.pow_succ_r'.
        set (t := (10 ^ N.of_nat (length ds))%N) in *. clearbody t.
        replace (48 + r - 48)%N with r by lia.
        lia.
      * congruence.
      * intros C. apply app_eq_nil in C. destruct C as [_ C]. discriminate.
      * rewrite Hlen, N.pow_succ_r'.
        destruct (N.eq_dec q 0) as [Eq | Nq].
        -- rewrite (Hz Eq). cbn [length]. change (10 ^ N.of_nat 0)%N with 1%N. lia.
        -- destruct (Hnz Nq) as [_ Hb].
           set (t := (10 ^ N.of_nat (length ds))%N) in *. clearbody t. lia.
Qed.

Lemma digits_of_spec (n : N) :
  forallb isDigit (digits_of n) = true /\
  digits_of n <> [] /\
  (forall a, digits_value (digits_of n) a
             = (a * 10 ^ N.of_nat (length (digits_of n)) + n)%N) /\
  (n <> 0%N -> (10 ^ N.of_nat (length (digits_of n)) <= 10 * n)%N).
Proof.
  destruct n as [| p].
  - repeat split; [discriminate | | congruence]. intros a.
    cbn [digits_of digits_value length].
    change (10 ^ N.of_nat 1)%N with 10%N. lia.
  - unfold digits_of.
    destruct (digits_before_spec (N.to_nat (N.size (Npos p))) (Npos p) [])
      as (ds & E & Hd & Hv & _ & Hne).
    { rewrite N2Nat.id. apply N.size_gt. }
    rewrite app_nil_r in E. rewrite E.
    destruct (Hne ltac:(discriminate)) as [H1 H2].
    repeat split; [exact Hd | exact H1 | exact Hv | intros _; exact H2].
Qed.

Lemma digits_of_value (n : N) : digits_value (digits_of n) 0 = n.
Proof. destruct (digits_of_spec n) as (_ & _ & H & _). rewrite H. lia. Qed.

(** ** Scanning *)

Lemma span_until (p : N -> bool) (ds rest : jsstring) :
  forallb p ds = true -> stops p rest -> span p (ds ++ rest) = (ds, rest).
Proof.
  intros Hd Hr. induction ds as [| d ds IH].
  - destruct rest as [| c rest]; simpl in *; [reflexivity |]. now rewrite Hr.
  - simpl in *. apply andb_prop in Hd as [Hd1 Hd2]. rewrite Hd1, (IH Hd2). reflexivity.
Qed.

Lemma span_all (p : N -> bool) (ds : jsstring) :
  forallb p ds = true -> span p ds = (ds, []).
Proof.
  intros H. rewrite <- (app_nil_r ds) at 1. now apply span_until.
Qed.

Lemma trimStart_nonspace (s : jsstring) :
  forallb nonspace s = true -> trimStart s = s.
Proof.
  destruct s as [| c s]; [reflexivity |]. simpl. unfold nonspace at 1.
  intros H. apply andb_prop in H as [H _]. apply negb_true_iff in H. now rewrite H.
Qed.

Lemma forallb_rev {A : Type} (p : A -> bool) (l : list A) :
  forallb p (rev l) = forallb p l.
Proof.
  induction l as [| a l IH]; [reflexivity |].
  simpl. rewrite forallb_app, IH. simpl. rewrite andb_true_r. apply andb_comm.
Qed.

Lemma trim_nonspace (s : jsstring) : forallb nonspace s = true -> trim s = s.
Proof.
  intros H. unfold trim. rewrite (trimStart_nonspace s H).
  rewrite trimStart_nonspace by (now rewrite forallb_rev).
  apply rev_involutive.
Qed.

(** ** Reading a written Number *)

Lemma trimStart_cons (c : N) (s : jsstring) :
  isSpace c = false -> trimStart (c :: s) = c :: s.
Proof. intros H. simpl. now rewrite H. Qed.

Lemma after_Infinity_digit (c : N) (s : jsstring) :
  isDigit c = true -> after_prefix (js "Infinity") (c :: s) = None.
Proof. intros H. digit_cases H; reflexivity. Qed.

Lemma no_fraction (r1 : jsstring) :
  stops (N.eqb 46) r1 ->
  match r1 with
  | 46%N :: r => span isDigit r
  | _ => ([], r1)
  end = ([], r1).
Proof.
  destruct r1 as [| c r]; [reflexivity |]. simpl. intros H.
  destruct c as [| p]; [reflexivity |].
  repeat (destruct p as [p | p |]; try reflexivity).
  discriminate.
Qed.

(** The sign and the first digit are read as such. *)
Lemma signed_digits_start (neg : bool) (d : N) (s : jsstring) :
  isDigit d = true ->
  read_sign (trimStart (minus neg ++ d :: s)) = (neg, d :: s).
Proof.
  intros Hd. destruct neg; cbn [minus app].
  - rewrite trimStart_cons by reflexivity. reflexivity.
  - rewrite trimStart_cons by (now apply digit_not_white). now apply read_sign_digit.
Qed.

Lemma parseFloat_integer (neg : bool) (ip r2 : jsstring) :
  forallb isDigit ip = true -> ip <> [] ->
  stops isDigit r2 -> stops (N.eqb 46) r2 ->
  parseFloat (minus neg ++ ip ++ r2)
  = Num.of_decimal neg (digits_value ip 0) (read_exponent r2 - 0).
Proof.
  intros Hip Hne Hr2 Hdot. destruct ip as [| d ip]; [congruence |].
  assert (Hd : isDigit d = true) by (simpl in Hip; now apply andb_prop in Hip).
  unfold parseFloat. rewrite <- app_comm_cons, (signed_digits_start neg d _ Hd).
  rewrite (after_Infinity_digit d _ Hd).
  rewrite app_comm_cons, (span_until isDigit (d :: ip) r2 Hip Hr2).
  rewrite (no_fraction r2 Hdot). rewrite app_nil_r. reflexivity.
Qed.

Lemma parseFloat_fraction (neg : bool) (ip fp r2 : jsstring) :
  forallb isDigit ip = true -> ip <> [] ->
  forallb isDigit fp = true -> stops isDigit r2 ->
  parseFloat (minus neg ++ ip ++ 46%N :: fp ++ r2)
  = Num.of_decimal neg (digits_value (ip ++ fp) 0)
      (read_exponent r2 - Z.of_nat (length fp)).
Proof.
  intros Hip Hne Hfp Hr2. destruct ip as [| d ip]; [congruence |].
  assert (Hd : isDigit d = true) by (simpl in Hip; now apply andb_prop in Hip).
  unfold parseFloat. rewrite <- app_comm_cons, (signed_digits_start neg d _ Hd).
  rewrite (after_Infinity_digit d _ Hd).
  rewrite app_comm_cons, (span_until isDigit (d :: ip) (46%N :: fp ++ r2) Hip eq_refl).
  rewrite (span_until isDigit fp r2 Hfp Hr2). reflexivity.
Qed.

Lemma read_exponent_written (e : Z) :
  read_exponent (101%N :: (if e <? 0 then 45%N else 43%N) :: digits_of (Z.abs_N e)) = e.
Proof.
  destruct (digits_of_spec (Z.abs_N e)) as (Hd & Hne & _ & _).
  assert (V := digits_of_value (Z.abs_N e)).
  unfold read_exponent. change ((101 =? 101)%N || (101 =? 69)%N) with true. cbv iota.
  destruct (Z.ltb_spec e 0) as [Hneg | Hpos]; cbn [read_sign];
    rewrite (span_all isDigit _ Hd);
    destruct (digits_of (Z.abs_N e)) as [| c ds] eqn:E; try congruence;
    rewrite V, N2Z.inj_abs_N; lia.
Qed.

Lemma of_decimal_value_N (neg : bool) (n1 n2 : N) (e1 e2 c : Z) :
  c <= e1 -> c <= e2 -> 0 < Z.of_N n2 ->
  Z.of_N n1 * 10 ^ (e1 - c) = Z.of_N n2 * 10 ^ (e2 - c) ->
  Num.of_decimal neg n1 e1 = Num.of_decimal neg n2 e2.
Proof.
  intros H1 H2 Hpos E.
  assert (P1 := pow10_pos (e1 - c) ltac:(lia)).
  assert (P2 := pow10_pos (e2 - c) ltac:(lia)).
  destruct n2 as [| p2]; [simpl in Hpos; lia |].
  destruct n1 as [| p1].
  { change (Z.of_N 0) with 0 in E. change (Z.of_N (Npos p2)) with (Zpos p2) in E. nia. }
  now apply (of_decimal_value neg p1 p2 e1 e2 c).
Qed.

Lemma forallb_firstn_skipn {A : Type} (p : A -> bool) (n : nat) (l : list A) :
  forallb p l = true -> forallb p (firstn n l) = true /\ forallb p (skipn n l) = true.
Proof.
  intros H. rewrite <- (firstn_skipn n l), forallb_app in H. now apply andb_prop in H.
Qed.

Lemma forallb_repeat {A : Type} (p : A -> bool) (a : A) (n : nat) :
  p a = true -> forallb p (repeat a n) = true.
Proof. intros H. induction n as [| n IH]; simpl; [reflexivity | now rewrite H]. Qed.

(** Each layout of [Number::toString] reads as the decimal it writes. *)
Lemma parseFloat_layout (neg : bool) (s : positive) (scale : Z) :
  parseFloat
    (minus neg
     ++ layout (digits_of (Npos s)) (scale + Z.of_nat (length (digits_of (Npos s)))))
  = Num.of_decimal neg (Npos s) scale.
Proof.
  destruct (digits_of_spec (Npos s)) as (Hd & Hne & Hv & _).
  assert (V := digits_of_value (Npos s)).
  set (ds := digits_of (Npos s)) in *. clearbody ds.
  unfold layout. set (k := Z.of_nat (length ds)). set (n := scale + k).
  assert (Hk : 0 < k).
  { unfold k. destruct ds; [congruence | simpl; lia]. }
  destruct ((k <=? n) && (n <=? 21)) eqn:C1.
  { (* digits and zeros *)
    apply andb_prop in C1 as [C1 _]. apply Z.leb_le in C1.
    rewrite <- (app_nil_r (ds ++ repeat 48%N (Z.to_nat (n - k)))).
    rewrite parseFloat_integer; try exact I.
    - rewrite digits_value_app, V, digits_value_zeros.
      apply (of_decimal_value_N neg _ _ _ _ 0); cbn [read_exponent]; try lia.
      rewrite N2Z.inj_mul, N2Z.inj_pow, nat_N_Z, Z2Nat.id by lia.
      replace (0 - 0 - 0) with 0 by lia. replace (n - k) with (scale - 0) by (unfold n; lia).
      change (10 ^ 0) with 1. lia.
    - rewrite forallb_app, Hd. now apply forallb_repeat.
    - destruct ds; [congruence | discriminate]. }
  destruct ((0 <? n) && (n <=? 21)) eqn:C2.
  { (* digits, point, digits *)
    apply andb_prop in C2 as [C2 C2']. apply Z.ltb_lt in C2. apply Z.leb_le in C2'.
    assert (Hnk : n < k).
    { apply andb_false_iff in C1 as [C1 | C1]; [apply Z.leb_gt in C1 | apply Z.leb_gt in C1]; lia. }
    destruct (forallb_firstn_skipn isDigit (Z.to_nat n) ds Hd) as [Hf Hs].
    rewrite <- (app_nil_r (skipn (Z.to_nat n) ds)).
    rewrite parseFloat_fraction; try exact I; try assumption.
    - rewrite firstn_skipn, V. f_equal. cbn [read_exponent].
      rewrite length_skipn, Nat2Z.inj_sub, Z2Nat.id by (unfold k in Hnk; lia).
      fold k. unfold n. lia.
    - destruct ds as [| d ds]; [congruence |].
      destruct (Z.to_nat n) eqn:En; [lia | discriminate]. }
  destruct ((-6 <? n) && (n <=? 0)) eqn:C3.
  { (* zero, point, zeros, digits *)
    apply andb_prop in C3 as [C3 C3']. apply Z.ltb_lt in C3. apply Z.leb_le in C3'.
    change (48%N :: 46%N :: repeat 48%N (Z.to_nat (- n)) ++ ds)
      with ([48%N] ++ 46%N :: repeat 48%N (Z.to_nat (- n)) ++ ds).
    rewrite <- (app_nil_r (repeat 48%N (Z.to_nat (- n)) ++ ds)).
    rewrite parseFloat_fraction; try exact I; try reflexivity.
    - rewrite !digits_value_app, digits_value_zeros. cbn [digits_value].
      change (10 * 0 + (48 - 48))%N with 0%N. rewrite N.mul_0_l, V. f_equal.
      cbn [read_exponent]. rewrite length_app, repeat_length, Nat2Z.inj_add, Z2Nat.id by lia.
      fold k. unfold n. lia.
    - discriminate.
    - rewrite forallb_app, Hd. now rewrite forallb_repeat. }
  (* exponential notation *)
  destruct ds as [| d [| c rest]]; [congruence | |]; cbv beta zeta iota.
  - change (d :: 101%N :: ?x) with ([d] ++ 101%N :: x).
    rewrite parseFloat_integer; try reflexivity; try assumption; try discriminate.
    rewrite read_exponent_written, V. f_equal. unfold n, k. simpl. lia.
  - change (d :: 46%N :: (c :: rest) ++ ?x) with ([d] ++ 46%N :: (c :: rest) ++ x).
    simpl in Hd. apply andb_prop in Hd as [Hd1 Hd2].
    rewrite parseFloat_fraction; try reflexivity; try assumption; try discriminate.
    + rewrite read_exponent_written. change ([d] ++ c :: rest) with (d :: c :: rest).
      rewrite V. f_equal. unfold n, k. cbn [length]. lia.
    + simpl. now rewrite Hd1.
Qed.

Lemma forallb_impl {A : Type} (p q : A -> bool) (l : list A) :
  (forall a, p a = true -> q a = true) -> forallb p l = true -> forallb q l = true.
Proof.
  intros H. induction l as [| a l IH]; simpl; [reflexivity |].
  intros E. apply andb_prop in E as [E1 E2]. now rewrite (H a E1), (IH E2).
Qed.

Lemma digit_nonspace (c : N) : isDigit c = true -> nonspace c = true.
Proof. intros H. unfold nonspace. now rewrite (digit_not_white c H). Qed.

Lemma digits_nonspace (ds : jsstring) :
  forallb isDigit ds = true -> forallb nonspace ds = true.
Proof. apply forallb_impl, digit_nonspace. Qed.

Lemma layout_nonspace (ds : jsstring) (n : Z) :
  forallb isDigit ds = true -> forallb nonspace (layout ds n) = true.
Proof.
  intros Hd. assert (Hn := digits_nonspace ds Hd). unfold layout.
  destruct (_ && _).
  { rewrite forallb_app, Hn. now apply forallb_repeat. }
  destruct (_ && _).
  { destruct (forallb_firstn_skipn nonspace (Z.to_nat n) ds Hn) as [Hf Hs].
    rewrite forallb_app, Hf. cbn [forallb]. now rewrite Hs. }
  destruct (_ && _).
  { cbn [forallb]. rewrite forallb_app, Hn, forallb_repeat by reflexivity. reflexivity. }
  cbv zeta.
  assert (He : forallb nonspace
                 (101%N :: (if n - 1 <? 0 then 45%N else 43%N) :: digits_of (Z.abs_N (n - 1)))
               = true).
  { cbn [forallb]. destruct (digits_of_spec (Z.abs_N (n - 1))) as (H & _ & _ & _).
    rewrite (digits_nonspace _ H). now destruct (n - 1 <? 0). }
  destruct ds as [| d [| c rest]]; [exact He | |].
  - simpl in Hn. apply andb_prop in Hn as [Hn _].
    change (forallb nonspace (d :: ?x)) with (nonspace d && forallb nonspace x).
    now rewrite Hn, He.
  - change (forallb nonspace (d :: 46%N :: ?x)) with (nonspace d && (true && forallb nonspace x)).
    cbn [forallb] in Hn. apply andb_prop in Hn as [Hn1 Hn2].
    rewrite Hn1, forallb_app, He. cbn [forallb]. now rewrite Hn2.
Qed.

Lemma minus_nonspace (neg : bool) (s : jsstring) :
  forallb nonspace s = true -> forallb nonspace (minus neg ++ s) = true.
Proof. intros H. destruct neg; simpl; [| exact H]. now rewrite H. Qed.

(** [parseFloat] reads what [String] writes: every Number but [-0],
    which is written ["0"]. *)
Lemma parseFloat_written (x : number) :
  Num.valid x = true -> x <> S754_zero true ->
  parseFloat (trim (Number_toString x)) = x.
Proof.
  intros Hv Hz.
  destruct x as [[|] | [|] | | neg m e];
    [congruence | reflexivity | reflexivity | reflexivity | reflexivity |].
  apply valid_finite in Hv as [Hc He].
  assert (R := shortest_decimal_reads_back m e Hc He).
  unfold Number_toString. fold (minus neg).
  destruct (shortest_decimal (S754_finite false m e) m e) as [s scale].
  cbn [fst snd] in R. cbv zeta.
  destruct (digits_of_spec (Npos s)) as (Hd & _ & _ & _).
  rewrite trim_nonspace by (apply minus_nonspace, layout_nonspace, Hd).
  change (if neg then [45%N] else []) with (minus neg).
  rewrite parseFloat_layout, of_decimal_sign, R. reflexivity.
Qed.

(** ** [parseInt] on a run of digits *)

Lemma no_hex_prefix (s : jsstring) :
  forallb isDigit s = true ->
  match after_prefix (js "0x") s with
  | Some r => Some r
  | None => after_prefix (js "0X") s
  end = None.
Proof.
  change (js "0x") with [48; 120]%N. change (js "0X") with [48; 88]%N.
  destruct s as [| d [| c s]]; [reflexivity | |].
  - intros _. cbn [after_prefix]. now destruct (48 =? d)%N.
  - cbn [forallb]. intros H. apply andb_prop in H as [_ H]. apply andb_prop in H as [H _].
    cbn [after_prefix]. digit_cases H; now destruct (48 =? d)%N.
Qed.

Lemma parseInt_digits (neg : bool) (ds : jsstring) :
  forallb isDigit ds = true -> ds <> [] ->
  parseInt (minus neg ++ ds) = parseFloat (minus neg ++ ds).
Proof.
  intros Hd Hne.
  rewrite <- (app_nil_r ds) at 2. rewrite parseFloat_integer; try exact I; try assumption.
  destruct ds as [| d ds]; [congruence |].
  assert (Hd1 : isDigit d = true) by (simpl in Hd; now apply andb_prop in Hd).
  unfold parseInt. rewrite (signed_digits_start neg d ds Hd1).
  rewrite (no_hex_prefix _ Hd). rewrite (span_all isDigit _ Hd). reflexivity.
Qed.

Lemma layout_head (ds : jsstring) (n : Z) :
  forallb isDigit ds = true -> ds <> [] ->
  exists d rest, layout ds n = d :: rest /\ isDigit d = true.
Proof.
  intros Hd Hne. destruct ds as [| d ds]; [congruence |].
  assert (Hd1 : isDigit d = true) by (simpl in Hd; now apply andb_prop in Hd).
  assert (Hlast : exists d' rest,
             (if (-6 <? n) && (n <=? 0)
              then 48%N :: 46%N :: repeat 48%N (Z.to_nat (- n)) ++ d :: ds
              else
                let e := n - 1 in
                let exponent :=
                  101%N :: (if e <? 0 then 45%N else 43%N) :: digits_of (Z.abs_N e) in
                match d :: ds with
                | [d] => d :: exponent
                | d :: rest => d :: 46%N :: rest ++ exponent
                | [] => exponent
                end) = d' :: rest /\ isDigit d' = true).
  { destruct ((-6 <? n) && (n <=? 0)).
    - eexists _, _. split; reflexivity.
    - cbv zeta. destruct ds; eauto. }
  unfold layout.
  destruct ((Z.of_nat (length (d :: ds)) <=? n) && (n <=? 21)).
  { now exists d, (ds ++ repeat 48%N (Z.to_nat (n - Z.of_nat (length (d :: ds))))). }
  destruct (Z.ltb_spec 0 n) as [Hpos | Hneg]; cbn [andb]; [| exact Hlast].
  destruct (n <=? 21); [| exact Hlast].
  destruct (Z.to_nat n) as [| j] eqn:E; [lia |]. cbn [firstn app]. eauto.
Qed.

(** [parseInt] reads what [String] writes when that is a run of digits. *)
Lemma parseInt_written (x : number) :
  Num.valid x = true -> x <> S754_zero true -> written_in_digits x = true ->
  parseInt (trim (Number_toString x)) = x.
Proof.
  intros Hv Hz Hw. rewrite <- (parseFloat_written x Hv Hz) at 2.
  destruct x as [[|] | [|] | | neg m e];
    [congruence | reflexivity | discriminate | discriminate | discriminate |].
  unfold written_in_digits in Hw. unfold Number_toString in *. fold (minus neg) in *.
  destruct (shortest_decimal (S754_finite false m e) m e) as [s scale].
  cbv zeta in *.
  destruct (digits_of_spec (Npos s)) as (Hd & Hne & _ & _).
  set (n := scale + Z.of_nat (length (digits_of (Npos s)))) in *.
  destruct (layout_head _ n Hd Hne) as (d & rest & El & Hd1).
  assert (Hl : forallb isDigit (layout (digits_of (Npos s)) n) = true).
  { rewrite El in *. destruct neg; cbn [minus app] in Hw.
    - exact Hw.
    - now rewrite (read_sign_digit d rest Hd1) in Hw. }
  rewrite trim_nonspace by (apply minus_nonspace, layout_nonspace, Hd).
  change (if neg then [45%N] else []) with (minus neg).
  apply parseInt_digits; [exact Hl |]. rewrite El. discriminate.
Qed.

(** ** Whole Numbers *)

Lemma fraction_nonneg_exponent (m : positive) (e : Z) :
  0 <= e -> snd (fraction m e) = 1.
Proof. destruct e; simpl; try reflexivity; lia. Qed.

Lemma finite_nonneg_exponent_integral (s : bool) (m : positive) (e : Z) :
  0 <= e -> integral (S754_finite s m e) = true.
Proof.
  intros He. unfold integral. assert (H := fraction_nonneg_exponent m e He).
  destruct (fraction m e) as [num den]. cbn [snd] in H. subst den.
  now rewrite Z.mod_1_r.
Qed.

Lemma pack_nonneg_exponent (s : bool) (m2 e1 : Z) :
  0 <= e1 -> whole_or_not_finite (pack s m2 e1) = true.
Proof.
  intros He. unfold pack, whole_or_not_finite.
  destruct (m2 =? 0); [reflexivity |].
  destruct (m2 <? 2 ^ 53).
  - destruct (e1 <=? 971); [| reflexivity].
    rewrite finite_nonneg_exponent_integral by lia. reflexivity.
  - destruct (e1 + 1 <=? 971); [| reflexivity].
    rewrite finite_nonneg_exponent_integral by lia. reflexivity.
Qed.

(** An integer reads as a whole Number, or as an infinity. *)
Lemma round_ratio_integral (neg : bool) (a : positive) :
  whole_or_not_finite (Num.round_ratio neg a 1) = true.
Proof.
  unfold Num.round_ratio. rewrite div_core_eq by lia.
  destruct (div_core_pre (Zpos a) 0 1 0) as [Hq Hpre]; try lia.
  cbv zeta in Hq, Hpre.
  assert (Ha := Zdigits2_bounds (Zpos a) ltac:(lia)).
  assert (Da := Zdigits2_pos (Zpos a) ltac:(lia)).
  change (Zdigits2 1) with 1 in *.
  replace (Zdigits2 (Zpos a) + 0 - (1 + 0)) with (Zdigits2 (Zpos a) - 1) in * by lia.
  replace (0 - 0) with 0 in * by lia.
  set (da := Zdigits2 (Zpos a)) in *.
  set (e' := Z.min (fexp53 (da - 1)) 0) in *.
  assert (He' : e' <= 0) by (unfold e'; lia).
  rewrite Z.div_1_r in *.
  assert (Dq : Zdigits2 (Zpos a * 2 ^ (0 - e')) = da + (0 - e'))
    by (apply Zdigits2_mul_pow2; lia).
  destruct (bra_spec neg (Zpos a * 2 ^ (0 - e')) e'
              (new_location 1 ((Zpos a * 2 ^ (0 - e')) mod 1)) Hq Hpre)
    as (m2 & _ & Hex & _ & _ & ->).
  rewrite Z.mod_1_r, new_location_zero in *.
  rewrite Dq in *. replace (da + (0 - e') + e') with da in * by lia.
  destruct (Z.le_gt_cases 53 da) as [Hbig | Hsmall].
  - apply pack_nonneg_exponent. unfold fexp53. lia.
  - assert (E1 : fexp53 da = da - 53) by (unfold fexp53; lia).
    assert (E' : e' = da - 54) by (unfold e', fexp53; lia).
    rewrite E1 in *. rewrite E' in *.
    replace (da - 53 - (da - 54)) with 1 in Hex by lia.
    replace (0 - (da - 54)) with (Z.succ (53 - da)) in Hex by lia.
    rewrite Z.pow_succ_r in Hex by lia.
    change (2 ^ 1) with 2 in Hex.
    replace (Zpos a * (2 * 2 ^ (53 - da))) with (Zpos a * 2 ^ (53 - da) * 2) in Hex by ring.
    rewrite Z.mod_mul, Z.div_mul in Hex by lia.
    rewrite (Hex eq_refl eq_refl).
    assert (P := pow2_pos (53 - da) ltac:(lia)).
    assert (Hlt : Zpos a * 2 ^ (53 - da) < 2 ^ 53).
    { replace 53 with (da + (53 - da)) at 2 by lia. rewrite Z.pow_add_r by lia.
      apply Z.mul_lt_mono_pos_r; lia. }
    unfold pack.
    destruct (Z.eqb_spec (Zpos a * 2 ^ (53 - da)) 0) as [| _]; [nia |].
    destruct (Z.ltb_spec (Zpos a * 2 ^ (53 - da)) (2 ^ 53)) as [_ |]; [| lia].
    destruct (Z.leb_spec (da - 53) 971) as [_ |]; [| lia].
    unfold whole_or_not_finite, integral. apply orb_true_iff. left.
    unfold fraction. rewrite Z2Pos.id by nia.
    destruct (da - 53) as [| p | p] eqn:Ed; try lia; cbv beta iota zeta.
    replace (53 - da) with (Zpos p) by lia. rewrite Z.mod_mul; [reflexivity |].
    assert (0 < 2 ^ Zpos p) by (apply pow2_pos; lia). lia.
Qed.

Lemma of_decimal_integral (neg : bool) (v : N) :
  whole_or_not_finite (Num.of_decimal neg v 0) = true.
Proof.
  unfold Num.of_decimal. destruct v as [| p]; [reflexivity |].
  destruct (strip10_value (Pos.to_nat (Pos.size p)) p 0) as [_ K].
  destruct (Num.strip10 _ p 0) as [p' k]. cbn [snd] in K.
  destruct k as [| k | k]; try lia; apply round_ratio_integral.
Qed.

Lemma parseInt_integral (s : jsstring) :
  whole_or_not_finite (parseInt s) = true.
Proof.
  unfold parseInt. destruct (read_sign (trimStart s)) as [neg r].
  destruct (match after_prefix (js "0x") r with Some r0 => Some r0 | None => after_prefix (js "0X") r end).
  - destruct (hex_value j 0 false) as [v [|]]; [apply of_decimal_integral | reflexivity].
  - destruct (span isDigit r) as [ds r']. destruct ds; [reflexivity | apply of_decimal_integral].
Qed.

(** ** The bound of the plain notation *)

Lemma n1e21_value : n1e21 = S754_finite false 7629394531250000 17.
Proof. vm_compute. reflexivity. Qed.

Lemma pos_le_of_Z (p : positive) (z : Z) :
  Zpos p <= z -> (p <= Z.to_pos z)%positive.
Proof. intros H. destruct z as [| q | q]; lia. Qed.

(** An integer from [10^21] on reads as a Number no less than [1e21]. *)
Lemma round_ratio_ge_1e21 (a : positive) :
  10 ^ 21 <= Zpos a -> Num.ltb (Num.round_ratio false a 1) n1e21 = false.
Proof.
  intros Hbig. apply leb_not_ltb. rewrite n1e21_value.
  set (mb := 7629394531250000%positive).
  assert (Emb : Zpos mb = 10 ^ 21 / 2 ^ 17) by (vm_compute; reflexivity).
  unfold Num.round_ratio. rewrite div_core_eq by lia.
  destruct (div_core_pre (Zpos a) 0 1 0) as [Hq Hpre]; try lia.
  cbv zeta in Hq, Hpre.
  assert (Ha := Zdigits2_bounds (Zpos a) ltac:(lia)).
  assert (Da : 70 <= Zdigits2 (Zpos a)).
  { apply (digits_ge_of_le_pow (Zpos a) 69); [| lia].
    eapply Z.le_trans; [| exact Hbig]. vm_compute. discriminate. }
  change (Zdigits2 1) with 1 in *.
  replace (Zdigits2 (Zpos a) + 0 - (1 + 0)) with (Zdigits2 (Zpos a) - 1) in * by lia.
  replace (0 - 0) with 0 in * by lia.
  set (da := Zdigits2 (Zpos a)) in *.
  assert (E' : Z.min (fexp53 (da - 1)) 0 = 0) by (unfold fexp53; lia).
  rewrite E' in *. replace (0 - 0) with 0 in * by lia.
  change (2 ^ 0) with 1 in *. rewrite Z.mul_1_r, Z.div_1_r in *.
  destruct (bra_spec false (Zpos a) 0 (new_location 1 (Zpos a mod 1)) Hq Hpre)
    as (m2 & [Hlo _] & _ & H53 & _ & ->).
  replace (Zdigits2 (Zpos a) + 0) with da in * by (unfold da; lia).
  assert (E1 : fexp53 da = da - 53) by (unfold fexp53; lia).
  rewrite E1 in *. replace (da - 53 - 0) with (da - 53) in Hlo by lia.
  assert (Hm1 : 2 ^ 52 <= Zpos a / 2 ^ (da - 53)).
  { destruct (div_pow2_bounds (Zpos a) da (da - 53)) as [L _]; try lia.
    replace (da - (da - 53) - 1) with 52 in L by lia. exact L. }
  assert (P52 : 0 < 2 ^ 52) by (apply pow2_pos; lia).
  assert (Hm17 : da = 70 -> Zpos mb <= m2).
  { intros E70. rewrite E70 in Hlo. change (70 - 53) with 17 in Hlo.
    rewrite Emb. eapply Z.le_trans; [| exact Hlo].
    apply Z.div_le_mono; [apply pow2_pos; lia | exact Hbig]. }
  clear Emb. unfold pack.
  destruct (Z.eqb_spec m2 0) as [| _]; [lia |].
  destruct (Z.ltb_spec m2 (2 ^ 53)) as [Hlt | Hge].
  - destruct (Z.leb_spec (da - 53) 971) as [_ | _]; [| reflexivity].
    apply leb_finite_pos.
    destruct (Z.eq_dec da 70) as [E70 | N70].
    + right. split; [lia |]. apply pos_le_of_Z. now apply Hm17.
    + left. lia.
  - destruct (Z.leb_spec (da - 53 + 1) 971) as [_ | _]; [| reflexivity].
    apply leb_finite_pos. left. lia.
Qed.

Lemma of_decimal_ge_1e21 (p : positive) (sc : Z) :
  0 <= sc -> 10 ^ 21 <= Zpos p * 10 ^ sc ->
  Num.ltb (Num.of_decimal false (Npos p) sc) n1e21 = false.
Proof.
  intros Hsc Hbig. unfold Num.of_decimal.
  destruct (strip10_value (Pos.to_nat (Pos.size p)) p sc) as [V K].
  destruct (Num.strip10 _ p sc) as [p' k]. cbn [fst snd] in V, K.
  assert (Hv : 10 ^ 21 <= Zpos p' * 10 ^ k).
  { eapply Z.le_trans; [exact Hbig |]. rewrite V.
    replace k with ((k - sc) + sc) at 2 by lia. rewrite Z.pow_add_r by lia. lia. }
  destruct k as [| k | k]; try lia.
  - apply round_ratio_ge_1e21. change (10 ^ 0) with 1 in Hv. lia.
  - apply round_ratio_ge_1e21. now rewrite Pos2Z.inj_mul, Pos2Z.inj_pow.
Qed.

(** ** The decimal of a whole Number *)

Lemma magnitude_up_spec (fuel : nat) (num den : Z) :
  forall n,
    n <= magnitude_up fuel num den n /\
    (n < magnitude_up fuel num den n ->
     den * 10 ^ (magnitude_up fuel num den n - 1) <= num).
Proof.
  induction fuel as [| fuel IH]; intros n; cbn [magnitude_up]; [lia |].
  destruct (Z.ltb_spec num (den * 10 ^ n)) as [Hlt | Hge]; [lia |].
  destruct (IH (n + 1)) as [H1 H2]. split; [lia |]. intros _.
  destruct (Z.eq_dec (magnitude_up fuel num den (n + 1)) (n + 1)) as [E | N].
  - rewrite E. now replace (n + 1 - 1) with n by lia.
  - apply H2. lia.
Qed.

Lemma magnitude_whole (num den : Z) :
  0 < den -> den <= num ->
  1 <= magnitude num den /\ (18 <= magnitude num den -> den * 10 ^ 17 <= num).
Proof.
  intros Hd Hn. unfold magnitude.
  destruct (Z.leb_spec den num) as [_ |]; [| lia].
  destruct (magnitude_up_spec (Z.to_nat (Z.log2 num) + 1) num den 1) as [H1 H2].
  set (r := magnitude_up _ num den 1) in *. clearbody r.
  split; [exact H1 |]. intros H18.
  eapply Z.le_trans; [| apply H2; lia].
  apply Z.mul_le_mono_nonneg_l; [lia |]. apply Z.pow_le_mono_r; lia.
Qed.

(** The fraction of a whole positive Number. *)
Lemma fraction_whole (m : positive) (e : Z) :
  integral (S754_finite false m e) = true ->
  let num := fst (fraction m e) in
  let den := snd (fraction m e) in
  0 < den /\ den <= num /\ num mod den = 0 /\
  (num / den) * 2 ^ Z.max (- e) 0 = Zpos m * 2 ^ Z.max e 0 /\
  (e < 0 -> num = Zpos m) /\ (0 <= e -> den = 1).
Proof.
  unfold integral, fraction. destruct e as [| p | p]; cbn [fst snd]; cbv zeta;
    rewrite Z.eqb_eq; intros H.
  - change (Z.max (- 0) 0) with 0. change (Z.max 0 0) with 0. change (2 ^ 0) with 1.
    rewrite Z.div_1_r. repeat split; lia.
  - change (Z.max (- Zpos p) 0) with 0. change (Z.max (Zpos p) 0) with (Zpos p).
    change (2 ^ 0) with 1. rewrite Z.div_1_r.
    assert (P := pow2_pos (Zpos p) ltac:(lia)). repeat split; try lia; nia.
  - change (Z.max (- Zneg p) 0) with (Zpos p). change (Z.max (Zneg p) 0) with 0.
    change (2 ^ 0) with 1.
    assert (P := pow2_pos (Zpos p) ltac:(lia)).
    assert (D := Z.div_mod (Zpos m) (2 ^ Zpos p) ltac:(lia)). rewrite H in D.
    set (t := 2 ^ Zpos p) in *. set (q := Zpos m / t) in *. clearbody t q.
    assert (Hq : 0 < q).
    { clear H. destruct (Z.lt_ge_cases 0 q) as [| Hle]; [assumption | exfalso].
      assert (t * q <= 0) by (apply Z.mul_nonneg_nonpos; lia). lia. }
    assert (Ht : t <= t * q).
    { clear H D. rewrite <- (Z.mul_1_r t) at 1. apply Z.mul_le_mono_nonneg_l; lia. }
    repeat split; try exact H; lia.
Qed.

Lemma candidate_at_zero (m : positive) (e : Z) :
  canonical m e -> e <= 971 -> integral (S754_finite false m e) = true ->
  candidate (S754_finite false m e) (fst (fraction m e)) (snd (fraction m e)) 0 <> None.
Proof.
  intros Hc He Hi. destruct (fraction_whole m e Hi) as (Hd & Hn & Hm & Hv & _).
  cbv zeta in *. set (num := fst (fraction m e)) in *. set (den := snd (fraction m e)) in *.
  clearbody num den.
  unfold candidate, scaled. change (0 <=? 0) with true. cbv iota beta.
  change (10 ^ 0) with 1. rewrite Z.mul_1_r.
  assert (Hlo : 0 < num / den) by (apply Z.div_str_pos; lia).
  assert (R : reads_back (S754_finite false m e) (num / den) 0 = true).
  { unfold reads_back. destruct (num / den) as [| p | p] eqn:E; try lia.
    change (Z.to_N (Zpos p)) with (Npos p).
    rewrite (of_decimal_exact p 0 m e Hc He).
    - simpl. now rewrite Pos.eqb_refl, Z.eqb_refl.
    - change (Z.max 0 0) with 0. change (Z.max (- 0) 0) with 0.
      change (10 ^ 0) with 1. rewrite !Z.mul_1_r. exact Hv. }
  destruct (Z.ltb_spec 0 (num / den)) as [_ |]; [| lia].
  rewrite R. cbn [andb].
  destruct (reads_back (S754_finite false m e) (num / den + 1) 0); discriminate.
Qed.

Lemma shortest_from_scale (x : number) (num den n : Z) (fuel : nat) :
  forall k,
    k <= n -> candidate x num den 0 <> None ->
    match shortest_from fuel x num den n k with
    | Some (_, sc) => 0 <= sc
    | None => Z.of_nat fuel <= n - k
    end.
Proof.
  induction fuel as [| fuel IH]; intros k Hk Hz; cbn [shortest_from]; [lia |].
  destruct (candidate x num den (n - k)) as [s |] eqn:E; [lia |].
  assert (Hne : n - k <> 0) by (intros E0; rewrite E0 in E; congruence).
  specialize (IH (k + 1) ltac:(lia) Hz).
  destruct (shortest_from fuel x num den n (k + 1)) as [[s sc] |]; lia.
Qed.

(** The decimal of a whole Number has no fraction digits. *)
Lemma shortest_decimal_scale (m : positive) (e : Z) :
  canonical m e -> e <= 971 -> integral (S754_finite false m e) = true ->
  0 <= snd (shortest_decimal (S754_finite false m e) m e).
Proof.
  intros Hc He Hi.
  assert (Cz := candidate_at_zero m e Hc He Hi).
  destruct (fraction_whole m e Hi) as (Hd & Hn & _ & _ & Hneg & Hpos).
  cbv zeta in *. unfold shortest_decimal.
  destruct (fraction m e) as [num den]. cbn [fst snd] in *.
  destruct (magnitude_whole num den Hd Hn) as [M1 M18].
  assert (S := shortest_from_scale (S754_finite false m e) num den (magnitude num den) 17 1 M1 Cz).
  assert (D : 0 <= snd (match shortest_from 17 (S754_finite false m e) num den (magnitude num den) 1 with
                        | Some d => d
                        | None => exact_decimal num den
                        end)).
  { destruct (shortest_from 17 (S754_finite false m e) num den (magnitude num den) 1)
      as [[s sc] |]; [exact S |].
    assert (Hbig : den * 10 ^ 17 <= num) by (apply M18; lia).
    assert (E0 : 0 <= e).
    { destruct (Z.lt_ge_cases e 0) as [Hlt | Hge]; [exfalso | assumption].
      rewrite (Hneg Hlt) in Hbig.
      assert (Zpos m < 2 ^ 53).
      { destruct (Zdigits2_bounds (Zpos m) ltac:(lia)) as [_ Hhi].
        eapply Z.lt_le_trans; [exact Hhi |].
        apply Z.pow_le_mono_r; [lia |]. now apply (canonical_digits m e). }
      assert (2 ^ 53 < 1 * 10 ^ 17) by (vm_compute; reflexivity).
      assert (1 * 10 ^ 17 <= den * 10 ^ 17) by (apply Z.mul_le_mono_nonneg_r; lia).
      lia. }
    rewrite (Hpos E0). unfold exact_decimal. cbn [snd]. change (Z.log2 1) with 0. lia. }
  destruct (match shortest_from 17 (S754_finite false m e) num den (magnitude num den) 1 with
            | Some d => d
            | None => exact_decimal num den
            end) as [s0 sc0].
  cbn [snd] in D.
  destruct (strip10_value (Z.to_nat (Z.log2 s0) + 1) (Z.to_pos s0) sc0) as [_ K]. lia.
Qed.

(** Below [1e21] the decimal of a whole Number has at most 21 digits. *)
Lemma shortest_decimal_length (m : positive) (e : Z) :
  canonical m e -> e <= 971 ->
  Num.ltb (S754_finite false m e) n1e21 = true ->
  0 <= snd (shortest_decimal (S754_finite false m e) m e) ->
  snd (shortest_decimal (S754_finite false m e) m e)
  + Z.of_nat (length (digits_of (Npos (fst (shortest_decimal (S754_finite false m e) m e)))))
  <= 21.
Proof.
  intros Hc He Hlt Hsc.
  assert (R := shortest_decimal_reads_back m e Hc He).
  destruct (shortest_decimal (S754_finite false m e) m e) as [s scale].
  cbn [fst snd] in *.
  destruct (digits_of_spec (Npos s)) as (_ & _ & _ & Hlen).
  specialize (Hlen ltac:(discriminate)).
  set (k := length (digits_of (Npos s))) in *. clearbody k.
  destruct (Z.le_gt_cases (scale + Z.of_nat k) 21) as [| Hgt]; [assumption | exfalso].
  assert (G : Num.ltb (Num.of_decimal false (Npos s) scale) n1e21 = false).
  { apply of_decimal_ge_1e21; [exact Hsc |].
    apply N2Z.inj_le in Hlen.
    rewrite N2Z.inj_pow, N2Z.inj_mul, nat_N_Z in Hlen.
    change (Z.of_N 10) with 10 in Hlen. change (Z.of_N (Npos s)) with (Zpos s) in Hlen.
    assert (P := pow10_pos scale Hsc).
    assert (L : 10 ^ 22 <= 10 ^ (Z.of_nat k + scale)) by (apply Z.pow_le_mono_r; lia).
    rewrite Z.pow_add_r in L by lia.
    assert (L2 : 10 ^ Z.of_nat k * 10 ^ scale <= 10 * Zpos s * 10 ^ scale)
      by (apply Z.mul_le_mono_nonneg_r; lia).
    change (10 ^ 22) with (10 * 10 ^ 21) in L.
    set (v := Zpos s * 10 ^ scale) in *.
    assert (10 * 10 ^ 21 <= 10 * v) by (unfold v; lia).
    lia. }
  rewrite R in G. congruence.
Qed.

(** [String] writes a whole Number of magnitude below [10^21] in digits,
    after a minus sign if it is negative. *)
Lemma whole_below_1e21_written (x : number) :
  Num.valid x = true -> whole_or_not_finite x = true ->
  Num.ltb (SFabs x) n1e21 = true ->
  written_in_digits x = true.
Proof.
  intros Hv Hw Hlt. destruct x as [s | s | | neg m e].
  - reflexivity.
  - destruct s; vm_compute in Hlt; discriminate Hlt.
  - vm_compute in Hlt. discriminate Hlt.
  - apply valid_finite in Hv as [Hc He].
    unfold whole_or_not_finite in Hw. cbn [Num.isFinite negb] in Hw.
    rewrite orb_false_r in Hw. change (integral (S754_finite false m e) = true) in Hw.
    cbn [SFabs] in Hlt.
    assert (Hsc := shortest_decimal_scale m e Hc He Hw).
    assert (Hlen := shortest_decimal_length m e Hc He Hlt Hsc).
    clear Hlt Hw Hc He.
    unfold written_in_digits, Number_toString. fold (minus neg).
    destruct (shortest_decimal (S754_finite false m e) m e) as [d scale].
    cbn [fst snd] in *. cbv zeta.
    destruct (digits_of_spec (Npos d)) as (Hd & Hne & _ & _).
    set (ds := digits_of (Npos d)) in *. clearbody ds.
    assert (El : layout ds (scale + Z.of_nat (length ds))
                 = ds ++ repeat 48%N (Z.to_nat (scale + Z.of_nat (length ds) - Z.of_nat (length ds)))).
    { unfold layout.
      destruct (Z.leb_spec (Z.of_nat (length ds)) (scale + Z.of_nat (length ds))); [| lia].
      destruct (Z.leb_spec (scale + Z.of_nat (length ds)) 21); [| lia].
      reflexivity. }
    rewrite El. destruct ds as [| c ds]; [congruence |].
    assert (Hc1 : isDigit c = true) by (simpl in Hd; now apply andb_prop in Hd).
    assert (Hall : forallb isDigit
                     ((c :: ds) ++ repeat 48%N
                        (Z.to_nat (scale + Z.of_nat (length (c :: ds)) - Z.of_nat (length (c :: ds)))))
                   = true).
    { rewrite forallb_app, Hd. now apply forallb_repeat. }
    destruct neg; cbn [minus app].
    + exact Hall.
    + rewrite <- app_comm_cons in *. rewrite (read_sign_digit c _ Hc1). exact Hall.
Qed.

(** ** The coercion on fields that hold Numbers *)

Lemma not_negative_zero (x : number) : negative_zero x = false -> x <> S754_zero true.
Proof. intros H ->. discriminate. Qed.

Lemma parseFloat_of_String (x : number) :
  Num.valid x = true ->
  parseFloat (trim (Number_toString x))
  = if negative_zero x then S754_zero false else x.
Proof.
  intros Hv. destruct (negative_zero x) eqn:E.
  - destruct x as [[|] | | |]; try discriminate. reflexivity.
  - apply parseFloat_written; [exact Hv | now apply not_negative_zero].
Qed.

(** X1.  A field that already holds a Number goes through the coercion
    [parseFloat(String(v).trim())] of [renderCard4] and [renderCard3]
    unchanged, whatever the Number (NaN and the infinities included);
    only [-0] comes back as [+0]. *)
Theorem coercion_returns_the_Number_it_is_given (x : number) :
  Num.valid x = true ->
  let kept := if negative_zero x then S754_zero false else x in
  (forall d : Card4.json_point,
     Card4.json_average_time_min d = VNumber x ->
     Card4.average_time_min (Card4.coerce d) = kept) /\
  (forall b : Card3.json_bin,
     Card3.json_frequency b = VNumber x ->
     Card3.frequency (Card3.coerce b) = kept).
Proof.
  intros Hv kept. split.
  - intros d E. unfold Card4.coerce. cbn [Card4.average_time_min]. rewrite E.
    now apply parseFloat_of_String.
  - intros b E. unfold Card3.coerce. cbn [Card3.frequency]. rewrite E.
    now apply parseFloat_of_String.
Qed.

(** The average time 10.5, held as a Number. *)
Lemma coercion_returns_the_Number_witness :
  Num.valid (Num.of_decimal false 105 (-1)) = true /\
  Card4.average_time_min
    (Card4.coerce {| Card4.json_day_of_year := VNumber (Num.of_Z 6);
                     Card4.json_Day_of_Week := js "Mon";
                     Card4.json_average_time_min := VNumber (Num.of_decimal false 105 (-1)) |})
  = Num.of_decimal false 105 (-1).
Proof.
  split; [reflexivity |].
  exact (proj1 (coercion_returns_the_Number_it_is_given
                  (Num.of_decimal false 105 (-1)) eq_refl)
           {| Card4.json_day_of_year := VNumber (Num.of_Z 6);
              Card4.json_Day_of_Week := js "Mon";
              Card4.json_average_time_min := VNumber (Num.of_decimal false 105 (-1)) |}
           eq_refl).
Defined.

(** X2.  After the coercion
    [d.day_of_year = parseInt(String(d.day_of_year).trim())] the day of
    the year is an integer, an infinity or NaN, whatever the field
    held: [parseInt] reads no fraction. *)
Theorem day_of_year_is_whole_after_the_coercion :
  forall d : Card4.json_point,
    whole_or_not_finite (Card4.day_of_year (Card4.coerce d)) = true.
Proof. intros d. apply parseInt_integral. Qed.

(** X3.  A day of the year that is held as a Number, an integer of
    magnitude below [10^21] other than [-0], goes through the coercion
    unchanged: [String] writes it in digits, and [parseInt] reads them
    back. *)
Theorem coercion_keeps_a_whole_day_of_year (x : number) :
  Num.valid x = true -> integral x = true ->
  Num.ltb (SFabs x) n1e21 = true -> negative_zero x = false ->
  forall d : Card4.json_point,
    Card4.json_day_of_year d = VNumber x ->
    Card4.day_of_year (Card4.coerce d) = x.
Proof.
  intros Hv Hi Hlt Hz d E. unfold Card4.coerce. cbn [Card4.day_of_year]. rewrite E.
  cbn [String_of]. apply parseInt_written; [exact Hv | now apply not_negative_zero |].
  apply whole_below_1e21_written; [exact Hv | | exact Hlt].
  unfold whole_or_not_finite. now rewrite Hi.
Qed.

(** Day 200 of the year. *)
Lemma coercion_keeps_a_whole_day_of_year_witness :
  Num.valid (Num.of_Z 200) = true /\ integral (Num.of_Z 200) = true /\
  Num.ltb (SFabs (Num.of_Z 200)) n1e21 = true /\ negative_zero (Num.of_Z 200) = false /\
  Card4.day_of_year
    (Card4.coerce {| Card4.json_day_of_year := VNumber (Num.of_Z 200);
                     Card4.json_Day_of_Week := js "Mon";
                     Card4.json_average_time_min := VNumber (Num.of_Z 7) |})
  = Num.of_Z 200.
Proof.
  split; [reflexivity |]. split; [reflexivity |]. split; [reflexivity |].
  split; [reflexivity |].
  exact (coercion_keeps_a_whole_day_of_year (Num.of_Z 200) eq_refl eq_refl eq_refl eq_refl
           {| Card4.json_day_of_year := VNumber (Num.of_Z 200);
              Card4.json_Day_of_Week := js "Mon";
              Card4.json_average_time_min := VNumber (Num.of_Z 7) |}
           eq_refl).
Defined.

(** ** The pass over the same array, twice *)

Lemma parseInt_of_NaN : parseInt (trim (Number_toString S754_nan)) = S754_nan.
Proof. reflexivity. Qed.

Lemma coerce_stored (j : Card4.json_point) (d : Card4.point) :
  Card4.day_of_year d = Card4.day_of_year (Card4.coerce j) ->
  Card4.Day_of_Week d = Card4.Day_of_Week (Card4.coerce j) ->
  Card4.average_time_min d = Card4.average_time_min (Card4.coerce j) ->
  repeatable (Card4.coerce j) = true ->
  Card4.coerce (Card4.stored d) = Card4.coerce j.
Proof.
  intros E1 E2 E3 R. unfold repeatable in R.
  apply andb_prop in R as [R Hd]. apply andb_prop in R as [Ha Hz].
  apply negb_true_iff, not_negative_zero in Ha, Hz.
  unfold Card4.coerce at 1. unfold Card4.stored.
  cbn [Card4.json_day_of_year Card4.json_Day_of_Week Card4.json_average_time_min String_of].
  rewrite E1, E2, E3.
  rewrite parseFloat_written; [| apply parseFloat_valid | exact Ha].
  assert (Ei : parseInt (trim (Number_toString (Card4.day_of_year (Card4.coerce j))))
               = Card4.day_of_year (Card4.coerce j)).
  { assert (V : Num.valid (Card4.day_of_year (Card4.coerce j)) = true) by apply parseInt_valid.
    assert (W : whole_or_not_finite (Card4.day_of_year (Card4.coerce j)) = true)
      by apply parseInt_integral.
    set (x := Card4.day_of_year (Card4.coerce j)) in *. clearbody x.
    apply orb_prop in Hd as [Hn | Hlt].
    - destruct x; try discriminate Hn. exact parseInt_of_NaN.
    - apply parseInt_written; [exact V | exact Hz |].
      now apply whole_below_1e21_written. }
  rewrite Ei. reflexivity.
Qed.

(** X4.  The coercion and normalisation pass of [renderCard4] is
    idempotent on the array it has worked on: for every artifact whose
    coerced values hold no [-0] and whose coerced days of the year are
    NaN or of magnitude below [10^21], a second pass over the same
    array leaves [day_of_year], [average_time_min] and
    [normalized_time] of every record as the first pass set them, and
    the biggest improver selected from it is the same. *)
Theorem renderCard4_second_pass_changes_nothing (json : list Card4.json_point) :
  (forall d, In d (map Card4.coerce json) -> repeatable d = true) ->
  let once := Card4.renderCard4_data json in
  let twice := Card4.renderCard4_data (map Card4.stored once) in
  twice = once /\ Card4.biggestImprover twice = Card4.biggestImprover once.
Proof.
  intros H once twice.
  assert (E : twice = once); [| now rewrite E].
  unfold twice, once, Card4.renderCard4_data. f_equal.
  unfold Card4.normalize. rewrite !map_map.
  apply map_ext_in. intros j Hj.
  apply coerce_stored; try reflexivity.
  apply H. now apply in_map.
Qed.

(** Two Mondays, one with its fields as strings. *)
Lemma renderCard4_second_pass_witness :
  let json :=
    [ {| Card4.json_day_of_year := VString (js " 6 ");
         Card4.json_Day_of_Week := js "Mon";
         Card4.json_average_time_min := VString (js "10.5") |};
      {| Card4.json_day_of_year := VNumber (Num.of_Z 300);
         Card4.json_Day_of_Week := js "Mon";
         Card4.json_average_time_min := VNumber (Num.of_Z 7) |} ] in
  (forall d, In d (map Card4.coerce json) -> repeatable d = true) /\
  Card4.renderCard4_data (map Card4.stored (Card4.renderCard4_data json))
  = Card4.renderCard4_data json.
Proof.
  cbv zeta.
  assert (H : forall d,
             In d (map Card4.coerce
                     [ {| Card4.json_day_of_year := VString (js " 6 ");
                          Card4.json_Day_of_Week := js "Mon";
                          Card4.json_average_time_min := VString (js "10.5") |};
                       {| Card4.json_day_of_year := VNumber (Num.of_Z 300);
                          Card4.json_Day_of_Week := js "Mon";
                          Card4.json_average_time_min := VNumber (Num.of_Z 7) |} ]) ->
             repeatable d = true).
  { intros d [<- | [<- | []]]; vm_compute; reflexivity. }
  split; [exact H |].
  exact (proj1 (renderCard4_second_pass_changes_nothing _ H)).
Defined.

(** The bound is sharp: the day of the year "1000000000000000000000"
    is coerced to [1e21], which [String] writes as "1e+21", and a
    second pass reads 1 from that. *)
Lemma renderCard4_second_pass_from_1e21 :
  let json := [ {| Card4.json_day_of_year := VString (js "1000000000000000000000");
                   Card4.json_Day_of_Week := js "Mon";
                   Card4.json_average_time_min := VNumber (Num.of_Z 5) |} ] in
  map Card4.day_of_year (Card4.renderCard4_data json) = [n1e21] /\
  map Card4.day_of_year
    (Card4.renderCard4_data (map Card4.stored (Card4.renderCard4_data json)))
  = [Num.one].
Proof. cbv zeta. split; vm_compute; reflexivity. Qed.

Lemma run_again_same (json : list Card4.json_point) :
  (forall d, In d (map Card4.coerce json) -> repeatable d = true) ->
  forall n, run_again n json = Card4.renderCard4_data json.
Proof.
  intros H. induction n as [| n IH]; [reflexivity |].
  cbn [run_again]. rewrite IH.
  unfold Card4.renderCard4_data. f_equal.
  unfold Card4.normalize. rewrite !map_map.
  apply map_ext_in. intros j Hj.
  apply coerce_stored; try reflexivity.
  apply H. now apply in_map.
Qed.

(** C7.  The coercion and normalisation pass of [renderCard4] is
    idempotent, and the selection of the biggest improver with it, on
    an array whose coerced values hold no [-0] and whose coerced days
    of the year are NaN or of magnitude below [10^21]: however often
    [renderCard4] runs on the same array, [day_of_year],
    [average_time_min] and [normalized_time] of every record are what
    the first run made them, and the weekday and the improvement
    selected are those of the first run. *)
Theorem renderCard4_runs_are_idempotent (json : list Card4.json_point) :
  (forall d, In d (map Card4.coerce json) -> repeatable d = true) ->
  forall n : nat,
    run_again n json = Card4.renderCard4_data json /\
    map Card4.day_of_year (run_again n json)
    = map Card4.day_of_year (Card4.renderCard4_data json) /\
    map Card4.average_time_min (run_again n json)
    = map Card4.average_time_min (Card4.renderCard4_data json) /\
    map Card4.normalized_time (run_again n json)
    = map Card4.normalized_time (Card4.renderCard4_data json) /\
    Card4.day (Card4.biggestImprover (run_again n json))
    = Card4.day (Card4.biggestImprover (Card4.renderCard4_data json)) /\
    Card4.improvement (Card4.biggestImprover (run_again n json))
    = Card4.improvement (Card4.biggestImprover (Card4.renderCard4_data json)).
Proof.
  intros H n. rewrite (run_again_same json H n). repeat split.
Qed.

(** A Monday with its fields as strings and one with Numbers, run four
    times. *)
Lemma renderCard4_runs_witness :
  let json :=
    [ {| Card4.json_day_of_year := VString (js "13");
         Card4.json_Day_of_Week := js "Mon";
         Card4.json_average_time_min := VString (js " 9.25 ") |};
      {| Card4.json_day_of_year := VNumber (Num.of_Z 328);
         Card4.json_Day_of_Week := js "Mon";
         Card4.json_average_time_min := VNumber (Num.of_Z 6) |} ] in
  (forall d, In d (map Card4.coerce json) -> repeatable d = true) /\
  run_again 3 json = Card4.renderCard4_data json /\
  Card4.day (Card4.biggestImprover (run_again 3 json)) = Some (js "Mon").
Proof.
  cbv zeta.
  set (json := [_; _]).
  assert (H : forall d, In d (map Card4.coerce json) -> repeatable d = true).
  { intros d [<- | [<- | []]]; vm_compute; reflexivity. }
  destruct (renderCard4_runs_are_idempotent json H 3) as (E & _ & _ & _ & Ed & _).
  split; [exact H |]. split; [exact E |].
  rewrite Ed. vm_compute. reflexivity.
Defined.

(** Three arrays a second run changes.  A day of the year of 22 digits
    is coerced to [1e21], which [String] writes as "1e+21", and the
    second run reads 1 from that.  An average written "-0" is coerced
    to [-0] and is the maximum of its weekday beside -3, so that the
    first run normalises -3 to +Infinity; [String] writes [-0] as "0",
    the second run reads [+0] and normalises -3 to -Infinity.  And a
    day of the year written "-0" is [-0] after one run and [+0] after
    two. *)
Lemma renderCard4_second_run_differs :
  let pt := fun (doy avg : value) =>
    {| Card4.json_day_of_year := doy;
       Card4.json_Day_of_Week := js "Mon";
       Card4.json_average_time_min := avg |} in
  let far := [pt (VString (js "1000000000000000000000")) (VNumber (Num.of_Z 5))] in
  let below := [ pt (VNumber (Num.of_Z 6)) (VNumber (Num.of_Z (-3)));
                 pt (VNumber (Num.of_Z 13)) (VString (js "-0")) ] in
  let zero := [pt (VString (js "-0")) (VNumber (Num.of_Z 5))] in
  (map Card4.day_of_year (run_again 0 far) = [n1e21] /\
   map Card4.day_of_year (run_again 1 far) = [Num.one]) /\
  (map Card4.normalized_time (run_again 0 below) = [Some Num.Infinity; Some Num.NaN] /\
   map Card4.normalized_time (run_again 1 below) = [Some Num.NegInfinity; Some Num.NaN]) /\
  (map Card4.day_of_year (run_again 0 zero) = [S754_zero true] /\
   map Card4.day_of_year (run_again 1 zero) = [S754_zero false]).
Proof. cbv zeta. repeat split; vm_compute; reflexivity. Qed.

Lemma toFixed0_NegInfinity : Number_toFixed0 Num.NegInfinity = js "-Infinity".
Proof. reflexivity. Qed.

(** ** Card 4: the lines and the trend summary *)

Lemma drawLineSequentially_from (groups : list (jsstring * list Card4.point))
    (bi : Card4.improver) (fuel : nat) :
  forall index,
    (7 - index < fuel)%nat ->
    Trend.drawLineSequentially fuel index groups bi
    = flat_map (one_day groups) (skipn index DAY_ORDER)
      ++ [Trend.Summary (Trend.trendText bi)].
Proof.
  induction fuel as [| fuel IH]; intros index Hf; [lia |].
  cbn [Trend.drawLineSequentially].
  destruct (nth_error DAY_ORDER index) as [day |] eqn:E.
  - assert (Hi : (index < length DAY_ORDER)%nat).
    { apply nth_error_Some. rewrite E. discriminate. }
    change (length DAY_ORDER) with 7%nat in Hi.
    assert (Es : skipn index DAY_ORDER = day :: skipn (S index) DAY_ORDER).
    { do 7 (destruct index as [| index];
            [cbn in E; injection E as <-; reflexivity |]). lia. }
    rewrite Es. cbn [flat_map]. rewrite (IH (S index)) by lia.
    unfold one_day.
    destruct (D3.get groups day) as [[| first rest] |]; try reflexivity.
    destruct (1 <? length (first :: rest))%nat; reflexivity.
  - apply nth_error_None in E. change (length DAY_ORDER) with 7%nat in E.
    rewrite skipn_all2 by exact E. reflexivity.
Qed.

Lemma lines_app (a b : list Trend.drawing) :
  Trend.lines (a ++ b) = Trend.lines a ++ Trend.lines b.
Proof. unfold Trend.lines. apply flat_map_app. Qed.

Lemma lines_one_day (chartData : list Card4.point) (day : jsstring) :
  Trend.lines (one_day (D3.group chartData Card4.Day_of_Week) day)
  = if (1 <? length (with_key Card4.Day_of_Week day chartData))%nat then [day] else [].
Proof.
  unfold one_day. rewrite get_group. unfold lookup_of.
  destruct (with_key Card4.Day_of_Week day chartData) as [| first rest]; [reflexivity |].
  destruct (1 <? length (first :: rest))%nat; reflexivity.
Qed.

Lemma lines_days (chartData : list Card4.point) (days : list jsstring) :
  Trend.lines (flat_map (one_day (D3.group chartData Card4.Day_of_Week)) days)
  = filter (fun day => (1 <? length (with_key Card4.Day_of_Week day chartData))%nat) days.
Proof.
  induction days as [| day days IH]; [reflexivity |].
  cbn [flat_map filter]. rewrite lines_app, lines_one_day, IH.
  destruct (1 <? length (with_key Card4.Day_of_Week day chartData))%nat; reflexivity.
Qed.

Lemma in_one_day (chartData : list Card4.point) (day : jsstring) (x : Trend.drawing) :
  In x (one_day (D3.group chartData Card4.Day_of_Week) day) ->
  (exists last, x = Trend.Line day (with_key Card4.Day_of_Week day chartData)
                \/ x = Trend.Marker day last).
Proof.
  unfold one_day. rewrite get_group. unfold lookup_of.
  destruct (with_key Card4.Day_of_Week day chartData) as [| first rest]; [intros [] |].
  destruct (1 <? length (first :: rest))%nat; [| intros []].
  intros [<- | [<- | []]]; exists (last rest first); auto.
Qed.

Lemma renderCard4_drawing_spec (json : list Card4.json_point) (fuel : nat) :
  (8 <= fuel)%nat ->
  Trend.drawLineSequentially fuel 0
    (D3.group (Card4.renderCard4_data json) Card4.Day_of_Week)
    (Card4.biggestImprover (Card4.renderCard4_data json))
  = flat_map (one_day (D3.group (Card4.renderCard4_data json) Card4.Day_of_Week)) DAY_ORDER
    ++ [Trend.Summary (Trend.trendText (Card4.biggestImprover (Card4.renderCard4_data json)))].
Proof. intros Hf. rewrite drawLineSequentially_from by lia. reflexivity. Qed.

Lemma renderCard4_drawing_nonempty (json : list Card4.json_point) :
  json <> [] ->
  Trend.renderCard4_drawing json
  = flat_map (one_day (D3.group (Card4.renderCard4_data json) Card4.Day_of_Week)) DAY_ORDER
    ++ [Trend.Summary (Trend.trendText (Card4.biggestImprover (Card4.renderCard4_data json)))].
Proof.
  intros Hne. destruct json as [| j json]; [congruence |].
  unfold Trend.renderCard4_drawing. cbv zeta. apply renderCard4_drawing_spec. lia.
Qed.

Lemma renderCard4_lines (json : list Card4.json_point) :
  Trend.lines (Trend.renderCard4_drawing json)
  = filter (fun day => (1 <? length (with_key Card4.Day_of_Week day
                                       (Card4.renderCard4_data json)))%nat)
      DAY_ORDER.
Proof.
  destruct json as [| j json]; [reflexivity |].
  rewrite renderCard4_drawing_nonempty by discriminate.
  rewrite lines_app, lines_days. cbn [Trend.lines flat_map]. apply app_nil_r.
Qed.

(** X5.  [drawLineSequentially], started by [renderCard4] at index 0,
    draws the lines in the order Monday to Sunday, one for each weekday
    of [DAY_ORDER] that has two points or more and for no other; the
    line of a weekday runs through all its points, in the order of the
    array.  For an artifact that is not empty the trend summary is
    revealed once, after the last line, with the texts of the biggest
    improver (the one selected from days of the year other than NaN,
    when such they are); eight calls do it, and more change nothing.
    For an empty artifact [renderCard4] returns before it starts the
    drawing: no line is drawn and no summary revealed. *)
Theorem drawLineSequentially_draws_Monday_to_Sunday :
  forall json : list Card4.json_point,
    let chartData := Card4.renderCard4_data json in
    let drawn := Trend.renderCard4_drawing json in
    Trend.lines drawn
    = filter (fun day => (1 <? length (with_key Card4.Day_of_Week day chartData))%nat)
        DAY_ORDER /\
    (forall day dayData, In (Trend.Line day dayData) drawn ->
       dayData = with_key Card4.Day_of_Week day chartData) /\
    (json = [] -> drawn = []) /\
    (json <> [] ->
     (exists before texts,
        drawn = before ++ [Trend.Summary texts] /\
        (forall texts', ~ In (Trend.Summary texts') before) /\
        (Forall dated chartData ->
         texts = Trend.trendText (Card4.biggestImprover chartData))) /\
     (forall fuel, (8 <= fuel)%nat ->
        Trend.drawLineSequentially fuel 0 (D3.group chartData Card4.Day_of_Week)
          (Card4.biggestImprover chartData) = drawn)).
Proof.
  intros json chartData drawn.
  assert (Ed : json <> [] ->
               drawn
               = flat_map (one_day (D3.group chartData Card4.Day_of_Week)) DAY_ORDER
                 ++ [Trend.Summary (Trend.trendText (Card4.biggestImprover chartData))]).
  { intros Hne. unfold drawn. now apply renderCard4_drawing_nonempty. }
  split; [| split; [| split]].
  - apply renderCard4_lines.
  - intros day dayData Hin. destruct json as [| j json]; [destruct Hin |].
    rewrite Ed in Hin by discriminate.
    apply in_app_or in Hin as [Hin | [Hin | []]]; [| discriminate].
    apply in_flat_map in Hin as (day' & _ & Hin).
    apply in_one_day in Hin as (l & [Hin | Hin]); [| discriminate].
    now injection Hin as -> ->.
  - intros E. unfold drawn. rewrite E. reflexivity.
  - intros Hne. split.
    + eexists. eexists. split; [exact (Ed Hne) |]. split; [| reflexivity].
      intros texts Hin. apply in_flat_map in Hin as (day' & _ & Hin).
      apply in_one_day in Hin as (l & [Hin | Hin]); discriminate.
    + intros fuel Hf. rewrite (Ed Hne). now apply renderCard4_drawing_spec.
Qed.

(** ** Card 4: the weekday the summary names *)

Lemma DAY_FULL_NAMES_of_DAY_ORDER (d : jsstring) :
  In d DAY_ORDER -> DAY_FULL_NAMES d <> None.
Proof.
  intros H. unfold DAY_ORDER in H. simpl in H.
  repeat (destruct H as [<- | H]; [discriminate |]). contradiction.
Qed.

Lemma normalized_outside_DAY_ORDER (chartData : list Card4.point) (p : Card4.point) :
  In p (Card4.normalize chartData) -> ~ In (Card4.Day_of_Week p) DAY_ORDER ->
  Card4.normalized_time p = Some Num.NaN.
Proof.
  intros Hin Hout. apply in_normalize in Hin as (d & _ & _ & El & _ & En & _).
  rewrite En. rewrite El in Hout.
  rewrite (proj2 (maxTime_spec chartData (Card4.Day_of_Week d)) Hout).
  cbn [Num.of_optional]. now destruct (Card4.average_time_min d).
Qed.

Lemma last_In {A : Type} (l : list A) (d : A) : In (last l d) (d :: l).
Proof.
  induction l as [| a l IH]; [now left |].
  destruct l as [| b l]; [right; now left |].
  change (last (a :: b :: l) d) with (last (b :: l) d).
  destruct IH as [<- | H]; [now left | right; right; exact H].
Qed.

Lemma improvement_of_NaN (data : list Card4.point) :
  data <> [] ->
  (forall p, In p data -> Card4.normalized_time p = Some Num.NaN) ->
  Card4.improvement_of data = Num.NaN.
Proof.
  intros Hne Hall.
  destruct (improvement_of_sorted data Hne) as (first & Hp & Hh & -> & _).
  assert (Hf : In first data).
  { apply (Permutation_in _ (Permutation_sym Hp)).
    destruct (array_sort Card4.by_day_of_year data); [discriminate |].
    injection Hh as ->. now left. }
  now rewrite (Hall first Hf).
Qed.

Lemma selected_day_in_DAY_ORDER (chartData : list Card4.point) (d : jsstring) :
  Card4.day (Card4.biggestImprover (Card4.normalize chartData)) = Some d ->
  In d DAY_ORDER /\
  (2 <= length (with_key Card4.Day_of_Week d (Card4.normalize chartData)))%nat /\
  Card4.dayName (Card4.biggestImprover (Card4.normalize chartData)) = DAY_FULL_NAMES d.
Proof.
  intros Hd.
  destruct (biggestImprover_selected (Card4.normalize chartData)) as (Hn & _ & Hsel).
  destruct Hsel as [[E _] | (d0 & data & Hin & Hl & Ed & Ei & En)]; [congruence |].
  assert (d0 = d) by congruence. subst d0.
  apply In_group in Hin as [-> Hne].
  split; [| split; assumption].
  destruct (in_dec (list_eq_dec N.eq_dec) d DAY_ORDER) as [Hday | Hout]; [exact Hday |].
  exfalso. rewrite Ei, improvement_of_NaN in Hn; [discriminate | exact Hne |].
  intros p Hp. apply in_with_key in Hp as [Hp Hk].
  apply (normalized_outside_DAY_ORDER chartData); [exact Hp | now rewrite Hk].
Qed.

(** X6.  The weekday [renderCard4] reports as the biggest improver is a
    key of [DAY_ORDER]: a weekday whose label the normalisation does
    not know gets NaN and is never selected.  So the summary names it
    in full ([dayName] is never [undefined] for a selected weekday),
    and its line is among the lines drawn. *)
Theorem biggestImprover_is_a_weekday_with_a_line :
  forall (json : list Card4.json_point) (d : jsstring),
    let chartData := Card4.renderCard4_data json in
    Card4.day (Card4.biggestImprover chartData) = Some d ->
    In d DAY_ORDER /\
    (exists dayName,
       Card4.dayName (Card4.biggestImprover chartData) = Some dayName /\
       DAY_FULL_NAMES d = Some dayName) /\
    In d (Trend.lines (Trend.renderCard4_drawing json)).
Proof.
  intros json d chartData Hd. unfold chartData, Card4.renderCard4_data in *.
  destruct (selected_day_in_DAY_ORDER _ d Hd) as (Hday & Hl & En).
  split; [exact Hday |]. split.
  - assert (Hf := DAY_FULL_NAMES_of_DAY_ORDER d Hday).
    destruct (DAY_FULL_NAMES d) as [full |]; [| congruence].
    exists full. split; [exact En | reflexivity].
  - rewrite renderCard4_lines.
    apply filter_In. split; [exact Hday |].
    apply Nat.ltb_lt. unfold Card4.renderCard4_data. lia.
Qed.

(** Monday got faster over the year. *)
Lemma biggestImprover_is_a_weekday_witness :
  let json :=
    [ {| Card4.json_day_of_year := VNumber (Num.of_Z 6);
         Card4.json_Day_of_Week := js "Mon";
         Card4.json_average_time_min := VString (js "10") |};
      {| Card4.json_day_of_year := VNumber (Num.of_Z 300);
         Card4.json_Day_of_Week := js "Mon";
         Card4.json_average_time_min := VNumber (Num.of_Z 8) |} ] in
  Card4.day (Card4.biggestImprover (Card4.renderCard4_data json)) = Some (js "Mon") /\
  Card4.dayName (Card4.biggestImprover (Card4.renderCard4_data json)) = Some (js "Monday") /\
  In (js "Mon") (Trend.lines (Trend.renderCard4_drawing json)).
Proof.
  cbv zeta.
  set (json := [_; _]).
  assert (Hd : Card4.day (Card4.biggestImprover (Card4.renderCard4_data json))
               = Some (js "Mon")) by (vm_compute; reflexivity).
  destruct (biggestImprover_is_a_weekday_with_a_line json (js "Mon") Hd)
    as (_ & (name & En & Ef) & Hl).
  split; [exact Hd |]. split; [| exact Hl].
  rewrite En. rewrite <- Ef. reflexivity.
Defined.

(** ** Card 4: the summary without an improver *)









(** ** Card 3: the peak of a histogram *)

Lemma eqb_rank (x y : number) :
  Num.eqb x y = true <->
  Num.isNaN x = false /\ Num.isNaN y = false /\ rank x = rank y.
Proof.
  unfold Num.eqb, SFeqb.
  destruct x as [sx | sx | | sx mx ex], y as [sy | sy | | sy my ey]; simpl;
    try (split; [discriminate | intros (? & ? & ?); discriminate]);
    repeat match goal with s : bool |- _ => destruct s end; simpl;
    try (split; [discriminate | intros (? & ? & ?); discriminate]);
    try (split; [intros _; repeat split | reflexivity]);
    repeat match goal with
           | |- context [Z.compare ?a ?b] => destruct (Z.compare_spec a b)
           | |- context [Pos.compare_cont Eq ?a ?b] =>
               change (Pos.compare_cont Eq a b) with (Pos.compare a b);
               destruct (Pos.compare_spec a b)
           end;
    (split; [try discriminate; intros _; repeat split; congruence
            | intros (_ & _ & E); try reflexivity; injection E; intros; lia]).
Qed.

Lemma eqb_same (x : number) : Num.isNaN x = false -> Num.eqb x x = true.
Proof. intros H. apply eqb_rank. auto. Qed.

Lemma ltb_leb_trans (x y z : number) :
  Num.ltb x y = true -> Num.leb y z = true -> Num.ltb x z = true.
Proof.
  intros H1 H2.
  destruct (ltb_not_NaN _ _ H1) as [Hx Hy].
  destruct (leb_not_NaN _ _ H2) as [_ Hz].
  apply (ltb_rank x y Hx Hy) in H1. apply (leb_rank y z Hy Hz) in H2.
  apply (ltb_rank x z Hx Hz). unfold rank_le, rank_lt in *.
  destruct (rank x) as [[a b] c], (rank y) as [[a' b'] c'], (rank z) as [[a'' b''] c''].
  lia.
Qed.

Lemma ltb_of_eqb (x y z : number) :
  Num.eqb x y = true -> Num.ltb x z = Num.ltb y z.
Proof.
  intros E. apply eqb_rank in E as (Hx & Hy & Er).
  destruct (Num.isNaN z) eqn:Hz.
  - destruct z; try discriminate. unfold Num.ltb, SFltb.
    destruct x, y; reflexivity.
  - destruct (Num.ltb x z) eqn:L1, (Num.ltb y z) eqn:L2; try reflexivity.
    + apply (ltb_rank x z Hx Hz) in L1. rewrite Er in L1.
      apply (ltb_rank y z Hy Hz) in L1. congruence.
    + apply (ltb_rank y z Hy Hz) in L2. rewrite <- Er in L2.
      apply (ltb_rank x z Hx Hz) in L2. congruence.
Qed.

Lemma peak_spec (containerId : jsstring) (chartData : list Card3.bin)
    (maxFrequency : option number) :
  let c := Card3.renderDayHistogram containerId chartData maxFrequency in
  (forall d, Histogram.peak c d = true ->
     Num.ltb Num.zero (Card3.frequency d) = true /\
     forall d', In d' chartData ->
       Num.ltb (Card3.frequency d) (Card3.frequency d') = false) /\
  ((exists d, In d chartData /\ Num.ltb Num.zero (Card3.frequency d) = true) ->
   exists d, In d chartData /\ Histogram.peak c d = true).
Proof.
  intros c. unfold Histogram.peak, c, Card3.renderDayHistogram. cbn [Card3.maxVal].
  assert (S := d3_max_spec (map Card3.frequency chartData)).
  destruct (D3.max (map Card3.frequency chartData)) as [m |].
  - destruct S as (Hin & Hm & Hmax). split.
    + intros d H. apply andb_prop in H as [He Hg]. split; [exact Hg |].
      intros d' Hd'. rewrite (ltb_of_eqb _ _ _ He). apply Hmax. now apply in_map.
    + intros (d & Hd & Hpos).
      apply in_map_iff in Hin as (dm & Em & Hdm).
      exists dm. split; [exact Hdm |]. rewrite Em.
      rewrite (eqb_same m Hm). cbn [andb]. unfold Num.gtb.
      change (Num.ltb Num.zero m = true).
      apply (ltb_leb_trans _ _ _ Hpos).
      apply not_ltb_leb; [exact Hm | | apply Hmax; now apply in_map].
      now destruct (ltb_not_NaN _ _ Hpos).
  - split; [discriminate |].
    intros (d & Hd & Hpos). exfalso.
    destruct (ltb_not_NaN _ _ Hpos) as [_ Hn].
    rewrite (S _ (in_map Card3.frequency _ _ Hd)) in Hn. discriminate.
Qed.

(** X8.  In every histogram [renderDayHistogram] draws, the bars styled
    as peaks are bars of the greatest frequency of that chart (its own
    maximum, not the shared scale's), and only bars with a frequency
    above zero; a chart with a frequency above zero has a peak; the
    frequency labels go to the bars above zero, so every peak has one. *)
Theorem histogram_peaks_are_the_highest_bars :
  forall (containerId : jsstring) (chartData : list Card3.bin)
         (maxFrequency : option number),
    let c := Card3.renderDayHistogram containerId chartData maxFrequency in
    (forall d, In d chartData -> Histogram.peak c d = true ->
       Num.gtb (Card3.frequency d) Num.zero = true /\
       In d (Histogram.labelled c) /\
       forall d', In d' chartData ->
         Num.gtb (Card3.frequency d') (Card3.frequency d) = false) /\
    ((exists d, In d chartData /\ Num.gtb (Card3.frequency d) Num.zero = true) ->
     exists d, In d chartData /\ Histogram.peak c d = true) /\
    (forall d, In d (Histogram.labelled c) <->
       In d chartData /\ Num.gtb (Card3.frequency d) Num.zero = true).
Proof.
  intros containerId chartData maxFrequency c.
  destruct (peak_spec containerId chartData maxFrequency) as [P1 P2]. fold c in P1, P2.
  assert (L : forall d, In d (Histogram.labelled c) <->
                In d chartData /\ Num.gtb (Card3.frequency d) Num.zero = true).
  { intros d. unfold Histogram.labelled. rewrite filter_In. reflexivity. }
  split; [| split; [exact P2 | exact L]].
  intros d Hd Hp. destruct (P1 d Hp) as [Hpos Hmax].
  split; [exact Hpos |]. split; [apply L; split; assumption |].
  exact Hmax.
Qed.

(** ** Card 3: the weekday of a histogram *)

Lemma dayName_of_histogram (day : jsstring) :
  In day Card3.dayOrder -> Histogram.dayName (js "histogram-" ++ day) = day.
Proof.
  intros H. unfold Card3.dayOrder, DAY_ORDER in H. simpl in H.
  repeat (destruct H as [<- | H]; [reflexivity |]). contradiction.
Qed.

Lemma NoDup_DAY_ORDER : NoDup DAY_ORDER.
Proof.
  unfold DAY_ORDER. repeat constructor; simpl; intuition discriminate.
Qed.

Lemma NoDup_filter {A : Type} (f : A -> bool) (l : list A) :
  NoDup l -> NoDup (filter f l).
Proof.
  induction 1 as [| x l Hx Hl IH]; simpl; [constructor |].
  destruct (f x); [| exact IH]. constructor; [| exact IH].
  intros Hin. apply filter_In in Hin as [Hin _]. contradiction.
Qed.

Lemma renderCard3_containers (json : list Card3.json_bin) :
  map Card3.containerId (Card3.renderCard3 json)
  = map (fun day => js "histogram-" ++ day)
      (filter (fun day =>
                 match with_key Card3.Day_of_Week day (map Card3.coerce json) with
                 | [] => false
                 | _ :: _ => true
                 end) Card3.dayOrder).
Proof.
  unfold Card3.renderCard3. cbv zeta.
  induction Card3.dayOrder as [| day days IH]; [reflexivity |].
  cbn [flat_map filter]. rewrite map_app, IH. rewrite get_group. unfold lookup_of.
  destruct (with_key Card3.Day_of_Week day (map Card3.coerce json)); reflexivity.
Qed.

(** X9.  Each histogram of [renderCard3] is coloured for its own
    weekday: the [dayName] that [renderDayHistogram] reads back from
    the container id is the weekday of [dayOrder] the chart was made
    for, which is the [Day_of_Week] of every one of its bars; and no
    two charts of the card define a gradient of the same id. *)
Theorem histogram_is_coloured_for_its_weekday :
  forall json : list Card3.json_bin,
    (forall c, In c (Card3.renderCard3 json) ->
       In (Histogram.dayName (Card3.containerId c)) Card3.dayOrder /\
       Card3.containerId c = js "histogram-" ++ Histogram.dayName (Card3.containerId c) /\
       forall d, In d (Card3.bars c) ->
         Card3.Day_of_Week d = Histogram.dayName (Card3.containerId c)) /\
    NoDup (map (fun c => Histogram.gradId (Card3.containerId c)) (Card3.renderCard3 json)).
Proof.
  intros json. split.
  - intros c Hc. apply in_flat_map_day in Hc as (day & b & dayData & Hday & E & ->).
    cbn [Card3.containerId Card3.renderDayHistogram Card3.bars].
    rewrite (dayName_of_histogram day Hday).
    split; [exact Hday |]. split; [reflexivity |].
    intros d Hd. apply get_In, In_group in E as [E _]. rewrite E in Hd.
    now apply in_with_key in Hd.
  - rewrite <- (map_map Card3.containerId Histogram.gradId), renderCard3_containers.
    rewrite map_map.
    set (days := filter _ Card3.dayOrder).
    assert (Hsub : forall day, In day days -> In day Card3.dayOrder)
      by (intros day H; now apply filter_In in H).
    assert (Hnd : NoDup days) by (apply NoDup_filter, NoDup_DAY_ORDER).
    clearbody days. induction Hnd as [| day days Hnot Hnd IH]; [constructor |].
    cbn [map]. constructor.
    + intros Hin. apply in_map_iff in Hin as (day' & E & Hin'). apply Hnot.
      unfold Histogram.gradId in E.
      rewrite (dayName_of_histogram day' (Hsub _ (or_intror Hin'))) in E.
      rewrite (dayName_of_histogram day (Hsub _ (or_introl eq_refl))) in E.
      apply app_inv_head in E. now subst.
    + apply IH. intros d Hd. apply Hsub. now right.
Qed.

(** ** Card 7: the completion curve *)

Lemma of_Z_exact (k : Z) :
  0 < k < 2 ^ 53 ->
  Num.of_Z k
  = S754_finite false (Z.to_pos (k * 2 ^ (53 - Zdigits2 k))) (Zdigits2 k - 53).
Proof.
  intros [Hk Hlt]. destruct k as [| p | p]; try lia.
  unfold Num.of_Z. change (Zpos p <? 0) with false. change (Z.abs_N (Zpos p)) with (Npos p).
  assert (Hd := Zdigits2_pos (Zpos p) Hk).
  assert (Hd53 : Zdigits2 (Zpos p) <= 53) by (apply digits_le_of_lt_pow; lia).
  set (d := Zdigits2 (Zpos p)) in *.
  assert (P := pow2_pos (53 - d) ltac:(lia)).
  assert (Hm : 0 < Zpos p * 2 ^ (53 - d)) by nia.
  apply of_decimal_exact.
  - unfold canonical. rewrite Z2Pos.id by exact Hm.
    rewrite Zdigits2_mul_pow2 by lia. fold d. unfold fexp53. lia.
  - lia.
  - rewrite Z2Pos.id by exact Hm.
    rewrite (Z.max_l 0 0), (Z.max_l (- (d - 53)) 0), (Z.max_r (d - 53) 0) by lia.
    change (Z.max (- 0) 0) with 0.
    change (10 ^ 0) with 1. change (2 ^ 0) with 1.
    replace (- (d - 53)) with (53 - d) by lia. ring.
Qed.

Lemma of_Z_valid (k : Z) : Num.valid (Num.of_Z k) = true.
Proof. apply of_decimal_valid. Qed.

Lemma of_Z_le (i n : Z) :
  0 < i -> i <= n -> n < 2 ^ 53 -> Num.leb (Num.of_Z i) (Num.of_Z n) = true.
Proof.
  intros Hi Hin Hn. rewrite (of_Z_exact i), (of_Z_exact n) by lia.
  apply leb_finite_pos.
  assert (Di := Zdigits2_pos i Hi). assert (Dn := Zdigits2_pos n ltac:(lia)).
  assert (Bn := Zdigits2_bounds n ltac:(lia)).
  assert (Dn53 : Zdigits2 n <= 53) by (apply digits_le_of_lt_pow; lia).
  assert (Dle : Zdigits2 i <= Zdigits2 n) by (apply digits_le_of_lt_pow; lia).
  destruct (Z.eq_dec (Zdigits2 i) (Zdigits2 n)) as [E | N]; [right | left; lia].
  split; [lia |]. rewrite E.
  assert (P := pow2_pos (53 - Zdigits2 n) ltac:(lia)).
  set (t := 2 ^ (53 - Zdigits2 n)) in *.
  assert (A : 0 < i * t) by nia. assert (B : i * t <= n * t) by nia.
  set (a := i * t) in *. set (b := n * t) in *. clearbody a b. lia.
Qed.

Lemma percent_in_range (i n : Z) :
  0 < i -> i <= n -> n < 2 ^ 53 ->
  let p := Num.mul (Num.div (Num.of_Z i) (Num.of_Z n)) Num.n100 in
  Num.leb Num.zero p = true /\ Num.leb p Num.n100 = true /\ (i = n -> p = Num.n100).
Proof.
  intros Hi Hin Hn p. subst p.
  assert (L := of_Z_le i n Hi Hin Hn).
  assert (Vi := of_Z_valid i). assert (Vn := of_Z_valid n).
  rewrite (of_Z_exact i), (of_Z_exact n) in * by lia.
  destruct (div_le_one _ _ _ _ Vi Vn L) as (Vq & Q0 & Q1).
  destruct (mul_100_le _ Vq Q0 Q1) as (_ & R0 & R1).
  split; [exact R0 |]. split; [exact R1 |].
  intros ->. rewrite div_self. apply mul_one_100.
Qed.

Lemma samples_spec (total : Z) (fills : list Replay.cell) :
  forall cumulative,
    0 <= cumulative -> cumulative + Z.of_nat (length fills) <= total -> total < 2 ^ 53 ->
    length (Replay.samples cumulative total fills) = length fills /\
    map Replay.time (Replay.samples cumulative total fills) = map Replay.timestamp fills /\
    (forall s, In s (Replay.samples cumulative total fills) ->
       Num.leb Num.zero (Replay.percent s) = true /\
       Num.leb (Replay.percent s) Num.n100 = true) /\
    (fills <> [] -> cumulative + Z.of_nat (length fills) = total ->
     forall d, Replay.percent (last (Replay.samples cumulative total fills) d) = Num.n100).
Proof.
  induction fills as [| c fills IH]; intros cumulative H0 Hle Hn.
  - split; [reflexivity |]. split; [reflexivity |]. split; [intros x [] | congruence].
  - cbn [length] in Hle. rewrite Nat2Z.inj_succ in Hle.
    destruct (IH (cumulative + 1) ltac:(lia) ltac:(lia) Hn) as (Hl & Ht & Hr & Hlast).
    destruct (percent_in_range (cumulative + 1) total ltac:(lia) ltac:(lia) Hn)
      as (R0 & R1 & Re).
    cbn [Replay.samples]. split; [cbn [length]; now rewrite Hl |].
    split; [cbn [map Replay.time]; now rewrite Ht |]. split.
    + intros s [<- | Hs]; [split; assumption | now apply Hr].
    + intros _ Et d. cbn [length] in Et. rewrite Nat2Z.inj_succ in Et.
      destruct fills as [| c' fills'].
      * cbn [Replay.samples last Replay.percent]. apply Re. cbn [length] in Et. lia.
      * specialize (Hlast ltac:(discriminate) ltac:(lia) d).
        cbn [Replay.samples] in *. exact Hlast.
Qed.

Lemma filled_stamp (c : Replay.cell) :
  Replay.filled c = true -> stamped c ->
  Num.valid (Num.of_optional (Replay.timestamp c)) = true /\
  Num.isNaN (Num.of_optional (Replay.timestamp c)) = false.
Proof.
  unfold Replay.filled, stamped. intros H Hs. apply andb_prop in H as [_ H].
  destruct (Replay.timestamp c) as [t |]; [| discriminate]. exact (Hs t eq_refl).
Qed.

Lemma by_timestamp_gt (x y : Replay.cell) :
  (Replay.filled x = true /\ stamped x) -> (Replay.filled y = true /\ stamped y) ->
  Replay.by_timestamp x y > 0 -> filled_no_later y x.
Proof.
  intros [Fx Sx] [Fy Sy].
  destruct (filled_stamp x Fx Sx) as [Vx Nx]. destruct (filled_stamp y Fy Sy) as [Vy Ny].
  unfold Replay.by_timestamp, Card4.sign, filled_no_later.
  destruct (sub_sign _ _ Vx Vy Nx Ny) as [-> ->].
  destruct (Num.ltb (Num.of_optional (Replay.timestamp x))
                    (Num.of_optional (Replay.timestamp y))); [lia |].
  destruct (Num.ltb (Num.of_optional (Replay.timestamp y))
                    (Num.of_optional (Replay.timestamp x))) eqn:L; [| lia].
  intros _. now apply ltb_leb.
Qed.

Lemma by_timestamp_le (x y : Replay.cell) :
  (Replay.filled x = true /\ stamped x) -> (Replay.filled y = true /\ stamped y) ->
  ~ Replay.by_timestamp x y > 0 -> filled_no_later x y.
Proof.
  intros [Fx Sx] [Fy Sy].
  destruct (filled_stamp x Fx Sx) as [Vx Nx]. destruct (filled_stamp y Fy Sy) as [Vy Ny].
  unfold Replay.by_timestamp, Card4.sign, filled_no_later.
  destruct (sub_sign _ _ Vx Vy Nx Ny) as [-> ->].
  destruct (Num.ltb (Num.of_optional (Replay.timestamp x))
                    (Num.of_optional (Replay.timestamp y))) eqn:L1;
    [intros _; now apply ltb_leb |].
  destruct (Num.ltb (Num.of_optional (Replay.timestamp y))
                    (Num.of_optional (Replay.timestamp x))) eqn:L2; [lia |].
  intros _. now apply not_ltb_leb.
Qed.

Lemma sortedFills_sorted (cells : list Replay.cell) :
  (forall c, In c cells -> stamped c) ->
  StronglySorted filled_no_later (Replay.sortedFills cells).
Proof.
  intros Hs. unfold Replay.sortedFills.
  apply (array_sort_sorted_by Replay.by_timestamp filled_no_later
           (fun c => Replay.filled c = true /\ stamped c)).
  - intros x y z _ _ _. apply leb_trans.
  - apply by_timestamp_gt.
  - apply by_timestamp_le.
  - apply Forall_forall. intros c Hc. apply filter_In in Hc as [Hc Hf]. auto.
Qed.

Lemma d3_min_keeps (vs : list number) (m : number) :
  (forall v, In v vs -> Num.leb m v = true) ->
  fold_left
    (fun (min : option number) (value : number) =>
       match min with
       | Some m => if Num.gtb m value then Some value else min
       | None => if Num.geb value value then Some value else None
       end)
    vs (Some m) = Some m.
Proof.
  induction vs as [| v vs IH]; intros H; [reflexivity |].
  cbn [fold_left]. unfold Num.gtb. fold (Num.ltb v m).
  rewrite (leb_not_ltb v m) by (apply H; now left).
  apply IH. intros x Hx. apply H. now right.
Qed.

Lemma d3_min_of_sorted (first : Replay.cell) (rest : list Replay.cell) :
  Num.isNaN (Num.of_optional (Replay.timestamp first)) = false ->
  Forall (filled_no_later first) rest ->
  Replay.d3_min (map (fun d => Num.of_optional (Replay.timestamp d)) (first :: rest))
  = Some (Num.of_optional (Replay.timestamp first)).
Proof.
  intros Hn Hall. unfold Replay.d3_min. cbn [map fold_left].
  rewrite geb_self, Hn. cbn [negb]. apply d3_min_keeps.
  intros v Hv. apply in_map_iff in Hv as (c & <- & Hc).
  rewrite Forall_forall in Hall. now apply Hall.
Qed.

(** X10.  The completion curve [renderCard7] hands to the chart, for a
    board whose time stamps are JSON numbers: it has one point for
    every cell that is not blank and has a time stamp, in the order of
    their time stamps, after a first point at 0 percent whose time is
    that of the first fill; every percentage lies between 0 and 100,
    and the last one is exactly 100. *)
Theorem completion_curve_runs_from_0_to_100 (cells : list Replay.cell) :
  Z.of_nat (length cells) < 2 ^ 32 ->
  (forall c, In c cells -> stamped c) ->
  let fills := Replay.sortedFills cells in
  let chart := Replay.chartData cells in
  Permutation (filter Replay.filled cells) fills /\
  StronglySorted filled_no_later fills /\
  map Replay.time (tl chart) = map Replay.timestamp fills /\
  (exists start, hd_error chart = Some start /\
     Replay.percent start = Num.zero /\
     forall c, hd_error fills = Some c -> Replay.time start = Replay.timestamp c) /\
  (forall s, In s chart ->
     Num.leb Num.zero (Replay.percent s) = true /\
     Num.leb (Replay.percent s) Num.n100 = true) /\
  (fills <> [] -> forall d, Replay.percent (last chart d) = Num.n100).
Proof.
  intros Hlen Hs fills chart.
  assert (Hp : Permutation (filter Replay.filled cells) fills)
    by apply array_sort_perm.
  assert (Hsorted := sortedFills_sorted cells Hs). fold fills in Hsorted.
  assert (Hn : Z.of_nat (length fills) < 2 ^ 53).
  { rewrite <- (Permutation_length Hp).
    assert (L := filter_length_le Replay.filled cells).
    assert (2 ^ 32 < 2 ^ 53) by reflexivity. lia. }
  destruct (samples_spec (Z.of_nat (length fills)) fills 0 ltac:(lia) ltac:(lia) Hn)
    as (Hl & Ht & Hr & Hlast).
  unfold chart, Replay.chartData. cbv zeta. fold fills.
  split; [exact Hp |]. split; [exact Hsorted |]. split; [exact Ht |]. split; [| split].
  - eexists. split; [reflexivity |]. split; [reflexivity |].
    intros c Hc. cbn [Replay.time].
    destruct fills as [| first rest] eqn:E; [discriminate |]. injection Hc as <-.
    inversion Hsorted as [| ? ? _ Hall]; subst.
    assert (Hf : In first (filter Replay.filled cells)).
    { apply (Permutation_in _ (Permutation_sym Hp)). now left. }
    apply filter_In in Hf as [Hin Hf].
    destruct (filled_stamp first Hf (Hs first Hin)) as [_ Nf].
    rewrite (d3_min_of_sorted first rest Nf Hall).
    unfold Replay.filled in Hf. apply andb_prop in Hf as [_ Hf].
    now destruct (Replay.timestamp first).
  - intros s [<- | Hin]; [split; reflexivity | now apply Hr].
  - intros Hne d.
    destruct (Replay.samples 0 (Z.of_nat (length fills)) fills) as [| s0 ss] eqn:E.
    + destruct fills; [contradiction | discriminate].
    + change (last ({| Replay.time := Replay.d3_min _; Replay.percent := Num.zero |} :: s0 :: ss) d)
        with (last (s0 :: ss) d).
      apply (Hlast Hne). lia.
Qed.

(** A blank cell and two letters, the second filled first. *)
Lemma completion_curve_witness :
  let cells :=
    [ {| Replay.blank := VBool true; Replay.timestamp := None; Replay.guess := VNull |};
      {| Replay.blank := VBool false; Replay.timestamp := Some (Num.of_Z 5);
         Replay.guess := VString (js "A") |};
      {| Replay.blank := VUndefined; Replay.timestamp := Some (Num.of_Z 3);
         Replay.guess := VString (js "B") |} ] in
  Z.of_nat (length cells) < 2 ^ 32 /\
  (forall c, In c cells -> stamped c) /\
  map Replay.time (Replay.chartData cells)
  = [Some (Num.of_Z 3); Some (Num.of_Z 3); Some (Num.of_Z 5)] /\
  forall d, Replay.percent (last (Replay.chartData cells) d) = Num.n100.
Proof.
  cbv zeta.
  set (cells := [_; _; _]).
  assert (Hl : Z.of_nat (length cells) < 2 ^ 32) by reflexivity.
  assert (Hs : forall c, In c cells -> stamped c).
  { intros c [<- | [<- | [<- | []]]] t E; try discriminate E;
      injection E as <-; split; reflexivity. }
  split; [exact Hl |]. split; [exact Hs |]. split; [vm_compute; reflexivity |].
  destruct (completion_curve_runs_from_0_to_100 cells Hl Hs) as (_ & _ & _ & _ & _ & H).
  apply H. discriminate.
Defined.

(** ** [formatTimeToMMSS], applied to its own result *)

Lemma matches_has_m (s : jsstring) : matches s -> In 109%N s.
Proof.
  intros (pre & minutes & seconds & t & -> & (w1 & w2 & w3 & post & -> & _)).
  apply in_or_app. right. apply in_or_app. right. apply in_or_app. right. now left.
Qed.

Lemma clock_chars_no_match (s : jsstring) :
  forallb clock_char s = true -> ~ matches s.
Proof.
  intros H Hm. apply matches_has_m in Hm.
  rewrite forallb_forall in H. specialize (H _ Hm). discriminate.
Qed.

Lemma unmatched_comes_back (s : jsstring) :
  s <> [] -> ~ matches s -> formatTimeToMMSS (VString s) = Returns (VString s).
Proof.
  intros Hs Hn. unfold formatTimeToMMSS. rewrite (truthy_string s Hs). cbn [negb].
  destruct (regex_match s) as [[m sec] |] eqn:E; [| reflexivity].
  exfalso. apply Hn. eapply leftmost_match_matches, regex_match_sound, E.
Qed.

Lemma digits_clock (d : jsstring) : forallb isDigit d = true -> forallb clock_char d = true.
Proof.
  intros H. rewrite forallb_forall in *. intros c Hc. unfold clock_char.
  now rewrite (H c Hc).
Qed.

Lemma without_one_leading_zero_digits (d : jsstring) :
  forallb isDigit d = true -> forallb isDigit (without_one_leading_zero d) = true.
Proof.
  intros H. destruct d as [| a [| b d]]; [exact H | |].
  - unfold without_one_leading_zero.
    destruct a as [| p]; [exact H |].
    do 7 (destruct p as [p | p |]; try exact H).
  - unfold without_one_leading_zero.
    destruct a as [| p]; [exact H |].
    do 7 (destruct p as [p | p |]; try exact H).
Qed.

Lemma padded_to_two_digits (d : jsstring) :
  forallb isDigit d = true -> forallb isDigit (padded_to_two d) = true.
Proof.
  intros H. unfold padded_to_two. rewrite forallb_app, H, andb_true_r.
  induction (2 - length d)%nat as [| n IH]; [reflexivity | exact IH].
Qed.

Lemma formatted_time_shape (s : jsstring) :
  (exists r, formatTimeToMMSS (VString s) = Returns (VString r)) /\
  forall r, formatTimeToMMSS (VString s) = Returns (VString r) ->
    r = js "00:00" \/ r = s /\ s <> [] /\ ~ matches s \/
    exists minutes seconds,
      leftmost_match minutes seconds s /\
      r = without_one_leading_zero minutes ++ js ":" ++ padded_to_two seconds /\
      forallb isDigit (without_one_leading_zero minutes) = true /\
      forallb isDigit (padded_to_two seconds) = true.
Proof.
  unfold formatTimeToMMSS. destruct s as [| c s].
  - split; [eexists; reflexivity |]. intros r [= <-]. now left.
  - rewrite (truthy_string (c :: s)) by discriminate. cbn [negb].
    destruct (regex_match (c :: s)) as [[m sec] |] eqn:E.
    + assert (L := regex_match_sound _ _ _ E).
      rewrite (padStart_two sec (leftmost_match_seconds _ _ _ L)), minutes_without_zero.
      split; [eexists; reflexivity |]. intros r [= <-]. right. right.
      exists m, sec. split; [exact L |]. split; [reflexivity |].
      destruct L as (pre & t & _ & (w1 & w2 & w3 & post & _ & _ & _ & Dm & Ds & _) & _).
      split; [now apply without_one_leading_zero_digits | now apply padded_to_two_digits].
    + split; [eexists; reflexivity |]. intros r [= <-]. right. left.
      split; [reflexivity |]. split; [discriminate |].
      intros Hm. destruct (regex_match_complete _ Hm) as (m' & sec' & E'). congruence.
Qed.

(** X11.  [formatTimeToMMSS] is idempotent: on a falsy argument and on
    every string it returns a string that it returns unchanged when it
    is formatted again.  (A formatted time is digits, a colon, digits
    and holds no [m] for the pattern to match.) *)
Theorem formatTimeToMMSS_is_idempotent :
  forall v, truthy v = false \/ (exists s, v = VString s) ->
    exists r,
      formatTimeToMMSS v = Returns (VString r) /\
      formatTimeToMMSS (VString r) = Returns (VString r).
Proof.
  assert (Zero : formatTimeToMMSS (VString (js "00:00")) = Returns (VString (js "00:00")))
    by reflexivity.
  intros v [Hv | (s & ->)].
  - exists (js "00:00"). split; [| exact Zero].
    unfold formatTimeToMMSS. now rewrite Hv.
  - destruct (formatted_time_shape s) as [(r & Er) Hshape].
    exists r. split; [exact Er |].
    destruct (Hshape r Er) as [-> | [(-> & Hne & Hn) | (m & sec & _ & -> & Dm & Ds)]].
    + exact Zero.
    + now apply unmatched_comes_back.
    + apply unmatched_comes_back.
      * destruct (without_one_leading_zero m); discriminate.
      * apply clock_chars_no_match.
        rewrite forallb_app, (digits_clock _ Dm). cbn [andb].
        change (js ":" ++ padded_to_two sec) with (58%N :: padded_to_two sec).
        cbn [forallb]. now rewrite (digits_clock _ Ds).
Qed.

(** A time of the weekly summary. *)
Lemma formatTimeToMMSS_is_idempotent_witness :
  formatTimeToMMSS (VString (js "05m 46s")) = Returns (VString (js "5:46")) /\
  formatTimeToMMSS (VString (js "5:46")) = Returns (VString (js "5:46")).
Proof.
  destruct (formatTimeToMMSS_is_idempotent (VString (js "05m 46s")))
    as (r & E1 & E2); [right; eexists; reflexivity |].
  vm_compute in E1. injection E1 as <-. split; [reflexivity | exact E2].
Defined.

(** ** Rounding to nearest, ties to even *)

Lemma new_location_located (mx D r : Z) :
  0 < D -> 0 <= r < D ->
  located (shr_record_of_loc mx (new_location D r)) (mx * D + r) D.
Proof.
  intros HD Hr.
  assert (Eq : (mx * D + r) / D = mx).
  { symmetry. apply (Z.div_unique _ _ _ r); [lia | ring]. }
  assert (Er : (mx * D + r) mod D = r).
  { symmetry. apply (Z.mod_unique _ _ mx); [lia | ring]. }
  unfold located. rewrite Eq, Er.
  unfold new_location, new_location_even, new_location_odd.
  destruct (Z.even D) eqn:Ev.
  - destruct (Z.eqb_spec r 0) as [-> | Hnz]; cbn [shr_record_of_loc shr_m shr_r shr_s].
    + repeat split; intros; try discriminate; try lia; exfalso; lia.
    + destruct (Z.compare_spec (2 * r) D) as [E | L | G]; cbn [shr_record_of_loc shr_m shr_r shr_s];
        repeat split; intros; try discriminate; try reflexivity; try lia; exfalso; lia.
  - assert (Ho : Z.odd D = true) by (rewrite <- Z.negb_even, Ev; reflexivity).
    apply Z.odd_spec in Ho. destruct Ho as [k Hk].
    destruct (Z.eqb_spec r 0) as [-> | Hnz]; cbn [shr_record_of_loc shr_m shr_r shr_s].
    + repeat split; intros; try discriminate; try lia; exfalso; lia.
    + destruct (Z.compare_spec (2 * r + 1) D) as [E | L | G]; cbn [shr_record_of_loc shr_m shr_r shr_s];
        repeat split; intros; try discriminate; try reflexivity; try lia; exfalso; lia.
Qed.

Lemma located_shr_1 (mrs : shr_record) (W Dn : Z) :
  0 <= W -> 0 < Dn -> located mrs W Dn -> located (shr_1 mrs) W (2 * Dn).
Proof.
  intros HW HD (Hm & Hr & Hs).
  assert (HR : 0 <= W mod Dn < Dn) by (apply Z.mod_pos_bound; lia).
  assert (EW : W = Dn * (W / Dn) + W mod Dn) by (apply Z.div_mod; lia).
  assert (Hq : 0 <= W / Dn) by (apply Z.div_pos; lia).
  set (q := W / Dn) in *. set (R := W mod Dn) in *.
  assert (Eq2 : q = 2 * (q / 2) + q mod 2) by (apply Z.div_mod; lia).
  assert (Hb : 0 <= q mod 2 < 2) by (apply Z.mod_pos_bound; lia).
  assert (Ediv : W / (2 * Dn) = q / 2).
  { symmetry. apply (Z.div_unique _ _ _ ((q mod 2) * Dn + R)); [nia |].
    rewrite EW at 1. rewrite Eq2 at 1. ring. }
  assert (Emod : W mod (2 * Dn) = (q mod 2) * Dn + R).
  { symmetry. apply (Z.mod_unique _ _ (q / 2)); [nia |].
    rewrite EW at 1. rewrite Eq2 at 1. ring. }
  unfold located. rewrite Ediv, Emod.
  destruct mrs as [m r s]. cbn [shr_m shr_r shr_s] in *. subst m.
  assert (Hrs : (r || s = true) <-> 0 < R).
  { destruct r; cbn.
    - split; [intros _ | reflexivity]. destruct Hr as [Hr _]. specialize (Hr eq_refl). lia.
    - rewrite Hs. reflexivity. }
  clearbody q R. clear EW Ediv Emod Hs Hr.
  destruct q as [| [p | p |] | p]; try (exfalso; lia); cbn [shr_1 shr_m shr_r shr_s].
  - change (0 mod 2) with 0. change (0 / 2) with 0.
    split; [reflexivity |]. split; [split; [discriminate | lia] |].
    rewrite Hrs. lia.
  - assert (E1 : Z.pos p~1 mod 2 = 1).
    { symmetry. apply (Z.mod_unique _ _ (Zpos p)); lia. }
    assert (E2 : Z.pos p~1 / 2 = Zpos p).
    { symmetry. apply (Z.div_unique _ _ _ 1); lia. }
    rewrite E1, E2. split; [reflexivity |]. split; [split; [lia | reflexivity] |].
    rewrite Hrs. lia.
  - assert (E1 : Z.pos p~0 mod 2 = 0).
    { symmetry. apply (Z.mod_unique _ _ (Zpos p)); lia. }
    assert (E2 : Z.pos p~0 / 2 = Zpos p).
    { symmetry. apply (Z.div_unique _ _ _ 0); lia. }
    rewrite E1, E2. split; [reflexivity |]. split; [split; [discriminate | lia] |].
    rewrite Hrs. lia.
  - change (1 mod 2) with 1. change (1 / 2) with 0.
    split; [reflexivity |]. split; [split; [lia | reflexivity] |].
    rewrite Hrs. lia.
Qed.

Lemma located_iter (n : nat) (mrs : shr_record) (W Dn : Z) :
  0 <= W -> 0 < Dn -> located mrs W Dn ->
  located (Nat.iter n shr_1 mrs) W (Dn * 2 ^ Z.of_nat n).
Proof.
  intros HW HD HL. induction n as [| n IH].
  - cbn [Nat.iter]. change (2 ^ Z.of_nat 0) with 1. rewrite Z.mul_1_r. exact HL.
  - cbn [Nat.iter]. rewrite Nat2Z.inj_succ, Z.pow_succ_r by lia.
    replace (Dn * (2 * 2 ^ Z.of_nat n)) with (2 * (Dn * 2 ^ Z.of_nat n)) by ring.
    apply located_shr_1; [exact HW | | exact IH].
    assert (P := pow2_pos (Z.of_nat n) ltac:(lia)). nia.
Qed.

Lemma located_shr (mrs : shr_record) (W Dn e n : Z) :
  0 <= W -> 0 < Dn -> 0 <= n -> located mrs W Dn ->
  located (fst (shr mrs e n)) W (Dn * 2 ^ n).
Proof.
  intros HW HD Hn HL. destruct n as [| p | p]; try lia; cbn [shr fst].
  - change (2 ^ 0) with 1. rewrite Z.mul_1_r. exact HL.
  - rewrite iter_pos_nat. rewrite <- (positive_nat_Z p).
    now apply located_iter.
Qed.

Lemma located_round (mrs : shr_record) (W Dn : Z) :
  0 <= W -> 0 < Dn -> located mrs W Dn ->
  nearest_even W Dn (round_nearest_even (shr_m mrs) (loc_of_shr_record mrs)).
Proof.
  intros HW HD (Hm & Hr & Hs).
  assert (HR : 0 <= W mod Dn < Dn) by (apply Z.mod_pos_bound; lia).
  assert (EW : W = Dn * (W / Dn) + W mod Dn) by (apply Z.div_mod; lia).
  destruct mrs as [m r s]. cbn [shr_m shr_r shr_s] in *. subst m.
  set (q := W / Dn) in *. set (R := W mod Dn) in *. clearbody q R.
  unfold nearest_even.
  destruct r, s; cbn [loc_of_shr_record round_nearest_even].
  - assert (Dn < 2 * R) by (apply Hs; reflexivity). split; [nia |]. intros [E | E]; nia.
  - assert (Dn <= 2 * R) by (apply Hr; reflexivity).
    assert (~ Dn < 2 * R) by (intros C; apply Hs in C; discriminate).
    destruct (Z.even q) eqn:Ev.
    + split; [nia |]. intros _. exact Ev.
    + split; [nia |]. intros _. rewrite Z.even_add, Ev. reflexivity.
  - assert (0 < R) by (apply Hs; reflexivity).
    assert (~ Dn <= 2 * R) by (intros C; apply Hr in C; discriminate).
    split; [nia |]. intros [E | E]; nia.
  - assert (~ 0 < R) by (intros C; apply Hs in C; discriminate).
    split; [nia |]. intros [E | E]; nia.
Qed.

Lemma nearest_even_scale (W Dn m2 F : Z) :
  0 < F -> nearest_even W Dn m2 -> nearest_even (W * F) (Dn * F) m2.
Proof.
  intros HF [Hb He]. unfold nearest_even.
  replace (2 * (W * F) - 2 * (m2 * (Dn * F))) with ((2 * W - 2 * (m2 * Dn)) * F) by ring.
  set (T := 2 * W - 2 * (m2 * Dn)) in *. clearbody T.
  split; [nia |]. intros [E | E]; apply He; [left | right]; nia.
Qed.

(** What [binary_round_aux] returns for the value
    [(mx + r / D) * 2^ex]: the multiple [m2] of the last place nearest
    to it, packed. *)
Lemma bra_nearest (s : bool) (mx ex D r c : Z) :
  0 <= mx -> ex <= fexp53 (Zdigits2 mx + ex) -> 0 < D -> 0 <= r < D -> c <= ex ->
  exists m2,
    binary_round_aux Num.prec Num.emax s mx ex (new_location D r)
    = pack s m2 (fexp53 (Zdigits2 mx + ex)) /\
    0 <= m2 <= 2 ^ 53 /\
    (0 < m2 < 2 ^ 53 ->
     fexp53 (Zdigits2 m2 + fexp53 (Zdigits2 mx + ex)) = fexp53 (Zdigits2 mx + ex)) /\
    (-1074 < fexp53 (Zdigits2 mx + ex) -> 2 ^ 52 <= m2) /\
    nearest_even ((mx * D + r) * 2 ^ (ex - c))
                 (D * 2 ^ (fexp53 (Zdigits2 mx + ex) - c)) m2.
Proof.
  intros Hmx Hex HD Hr Hc.
  set (lx := new_location D r).
  set (e1 := fexp53 (Zdigits2 mx + ex)) in *.
  set (n := e1 - ex). assert (Hn : 0 <= n) by (unfold n; lia).
  set (m1 := mx / 2 ^ n).
  assert (P := pow2_pos n Hn).
  assert (Hm1 : 0 <= m1) by (apply Z.div_pos; lia).
  assert (He1 := fexp53_ge (Zdigits2 mx + ex)). fold e1 in He1.
  assert (Hm1hi : m1 < 2 ^ 53).
  { destruct (Z.eq_dec mx 0) as [-> | Hnz].
    - unfold m1. rewrite Z.div_0_l by lia. reflexivity.
    - assert (Hpos : 0 < mx) by lia.
      destruct (Zdigits2_bounds mx Hpos) as [_ Hhi].
      assert (Hd := Zdigits2_pos mx Hpos).
      apply Z.div_lt_upper_bound; [lia |].
      rewrite <- Z.pow_add_r by lia.
      eapply Z.lt_le_trans; [exact Hhi |]. apply Z.pow_le_mono_r; lia. }
  assert (Hnormal : -1074 < e1 -> 2 ^ 52 <= m1).
  { intros Hgt. assert (E : e1 = Zdigits2 mx + ex - 53) by (unfold e1, fexp53 in *; lia).
    assert (Hpos : 0 < mx).
    { destruct (Z.eq_dec mx 0) as [-> | ]; [| lia]. simpl in E. lia. }
    destruct (Zdigits2_bounds mx Hpos) as [Hlo _].
    apply Z.div_le_lower_bound; [lia |].
    rewrite <- Z.pow_add_r by lia.
    replace (n + 52) with (Zdigits2 mx - 1) by (unfold n; lia). exact Hlo. }
  assert (HW : 0 <= mx * D + r) by nia.
  assert (L := located_shr (shr_record_of_loc mx lx) (mx * D + r) D ex n HW HD Hn
                 (new_location_located mx D r HD Hr)).
  unfold binary_round_aux, shr_fexp.
  change (fexp Num.prec Num.emax (Zdigits2 mx + ex)) with e1. fold n.
  pose proof (shr_spec (shr_record_of_loc mx lx) ex n) as S1.
  rewrite shr_record_of_loc_m in S1.
  specialize (S1 Hmx Hn).
  destruct (shr (shr_record_of_loc mx lx) ex n) as [mrs' e'].
  cbn [fst snd] in S1, L. destruct S1 as (Ee & _ & Em & _).
  assert (Ee' : e' = e1) by (unfold n in Ee; lia). clear Ee. subst e'.
  fold m1 in Em.
  destruct (round_nearest_even_bounds mrs') as [Hb _].
  assert (HDn : 0 < D * 2 ^ n) by (apply Z.mul_pos_pos; lia).
  assert (N := located_round mrs' _ _ HW HDn L).
  set (m2 := round_nearest_even (shr_m mrs') (loc_of_shr_record mrs')) in *.
  rewrite Em in Hb.
  exists m2.
  assert (Hcanon : 0 < m2 < 2 ^ 53 -> fexp53 (Zdigits2 m2 + e1) = e1).
  { intros [H0 H53].
    assert (Hd := digits_le_of_lt_pow m2 53 H0 H53 ltac:(lia)).
    destruct (Z.eq_dec e1 (-1074)) as [E | Hne].
    - unfold fexp53. lia.
    - assert (2 ^ 52 <= m2) by (specialize (Hnormal ltac:(lia)); lia).
      assert (Hd' := digits_ge_of_le_pow m2 52 H ltac:(lia)).
      unfold fexp53. lia. }
  split.
  { change (fexp Num.prec Num.emax (Zdigits2 m2 + e1)) with (fexp53 (Zdigits2 m2 + e1)).
    unfold pack.
    destruct (Z.eqb_spec m2 0) as [E0 | Hnz].
    - rewrite E0. simpl Zdigits2. rewrite shr_nonpos by (unfold fexp53; lia).
      reflexivity.
    - assert (H0 : 0 < m2) by lia.
      destruct (Z.ltb_spec m2 (2 ^ 53)) as [Hlt | Hge].
      + rewrite (Hcanon (conj H0 Hlt)), Z.sub_diag. simpl shr.
        destruct m2 as [| p | p]; try lia. simpl. reflexivity.
      + assert (E53 : m2 = 2 ^ 53) by lia.
        rewrite E53.
        replace (fexp53 (Zdigits2 (2 ^ 53) + e1) - e1) with 1
          by (change (Zdigits2 (2 ^ 53)) with 54; unfold fexp53; lia).
        simpl. reflexivity. }
  split; [lia |]. split; [exact Hcanon |].
  split; [intros Hgt; specialize (Hnormal Hgt); lia |].
  replace (D * 2 ^ (e1 - c)) with (D * 2 ^ n * 2 ^ (ex - c)).
  - apply nearest_even_scale; [apply pow2_pos; lia | exact N].
  - rewrite <- Z.mul_assoc, <- Z.pow_add_r by lia. do 2 f_equal. unfold n. lia.
Qed.

Lemma pack_not_NaN (s : bool) (m2 e1 : Z) : Num.isNaN (pack s m2 e1) = false.
Proof.
  unfold pack. destruct (m2 =? 0); [reflexivity |].
  destruct (m2 <? 2 ^ 53); [destruct (e1 <=? 971) | destruct (e1 + 1 <=? 971)]; reflexivity.
Qed.

Lemma pack_nonneg (m2 e1 : Z) : Num.leb Num.zero (pack false m2 e1) = true.
Proof.
  unfold pack. destruct (m2 =? 0); [reflexivity |].
  destruct (m2 <? 2 ^ 53); [destruct (e1 <=? 971) | destruct (e1 + 1 <=? 971)]; reflexivity.
Qed.

Lemma pack_le (m2 m2' e1 : Z) :
  0 <= m2 -> m2 <= m2' -> m2' <= 2 ^ 53 ->
  Num.leb (pack false m2 e1) (pack false m2' e1) = true.
Proof.
  intros H0 Hle H53.
  destruct (Z.eq_dec m2 0) as [-> | Hnz]; [apply pack_nonneg |].
  unfold pack.
  destruct (Z.eqb_spec m2 0) as [| _]; [contradiction |].
  destruct (Z.eqb_spec m2' 0) as [| _]; [lia |].
  destruct (Z.ltb_spec m2 (2 ^ 53)) as [Hlt | Hge];
    destruct (Z.ltb_spec m2' (2 ^ 53)) as [Hlt' | Hge']; try lia.
  - destruct (Z.leb_spec e1 971); [| reflexivity].
    apply leb_finite_pos. right. split; [reflexivity |]. lia.
  - destruct (Z.leb_spec e1 971) as [L | L];
      destruct (Z.leb_spec (e1 + 1) 971) as [L' | L']; try reflexivity; try lia.
    apply leb_finite_pos. left. lia.
  - assert (m2 = m2') by lia. subst m2'.
    destruct (Z.leb_spec (e1 + 1) 971); [| reflexivity].
    apply leb_finite_pos. right. split; [reflexivity |]. lia.
Qed.

(** A Number no greater than the value rounded is no greater than the
    Number the value rounds to. *)
Lemma bra_lower (mx ex : Z) (lx : location) (mb : positive) (eb c : Z) :
  0 <= mx -> ex <= fexp53 (Zdigits2 mx + ex) ->
  canonical mb eb -> eb <= 971 -> c <= ex -> c <= eb ->
  Zpos mb * 2 ^ (eb - c) <= mx * 2 ^ (ex - c) ->
  Num.leb (S754_finite false mb eb)
          (binary_round_aux Num.prec Num.emax false mx ex lx) = true.
Proof.
  intros Hmx Hex Cb Hb Hc Hcb Hle.
  destruct (bra_spec false mx ex lx Hmx Hex) as (m2 & Hm2 & _ & H53 & Hcanon & ->).
  set (e1 := fexp53 (Zdigits2 mx + ex)) in *.
  set (n := e1 - ex) in *. assert (Hn : 0 <= n) by (unfold n; lia).
  assert (Pn := pow2_pos n Hn).
  assert (Pb := pow2_pos (eb - c) ltac:(lia)).
  assert (Px := pow2_pos (ex - c) ltac:(lia)).
  assert (Hpos : 0 < mx) by nia.
  assert (Hd := Zdigits2_pos mx Hpos).
  destruct (Zdigits2_bounds mx Hpos) as [Hlo Hhi].
  assert (He1 := fexp53_ge (Zdigits2 mx + ex)). fold e1 in He1.
  assert (Heb : -1074 <= eb) by (unfold canonical, fexp53 in Cb; lia).
  destruct (scaled_bounds mb (eb - c)) as [Blo Bhi]; [lia |].
  (* the magnitudes *)
  assert (Hmag : Zdigits2 (Zpos mb) + eb <= Zdigits2 mx + ex).
  { destruct (Z.le_gt_cases (Zdigits2 (Zpos mb) + eb) (Zdigits2 mx + ex)) as [| Hgt];
      [assumption |]. exfalso.
    assert (mx * 2 ^ (ex - c) < 2 ^ (Zdigits2 mx + (ex - c))).
    { rewrite Z.pow_add_r by lia. apply Z.mul_lt_mono_pos_r; lia. }
    assert (2 ^ (Zdigits2 mx + (ex - c)) <= 2 ^ (Zdigits2 (Zpos mb) - 1 + (eb - c)))
      by (apply Z.pow_le_mono_r; lia).
    lia. }
  assert (Hee : eb <= e1).
  { unfold canonical in Cb. rewrite <- Cb. unfold e1. apply fexp53_mono. exact Hmag. }
  assert (Hm1 : 0 <= mx / 2 ^ n) by (apply Z.div_pos; lia).
  assert (Hlow : e1 = eb /\ Zpos mb <= m2 \/ eb < e1 /\ 2 ^ 52 <= m2).
  { destruct (Z.eq_dec e1 eb) as [E | Hne].
    - left. split; [exact E |].
      assert (Zpos mb <= mx / 2 ^ n); [| lia].
      apply Z.div_le_lower_bound; [lia |].
      assert (EK : mx * 2 ^ (ex - c) = mx * 2 ^ (ex - c) ) by reflexivity.
      assert (E2 : 2 ^ (eb - c) = 2 ^ n * 2 ^ (ex - c)).
      { rewrite <- Z.pow_add_r by lia. f_equal. unfold n. lia. }
      rewrite E2 in Hle. nia.
    - right. split; [lia |].
      assert (E : e1 = Zdigits2 mx + ex - 53) by (unfold e1, fexp53 in *; lia).
      assert (2 ^ 52 <= mx / 2 ^ n); [| lia].
      apply Z.div_le_lower_bound; [lia |].
      rewrite <- Z.pow_add_r by lia.
      replace (n + 52) with (Zdigits2 mx - 1) by (unfold n; lia). exact Hlo. }
  assert (H0 : 0 < m2) by (destruct Hlow as [[_ H] | [_ H]]; lia).
  unfold pack.
  destruct (Z.eqb_spec m2 0) as [| _]; [lia |].
  destruct (Z.ltb_spec m2 (2 ^ 53)) as [Hlt | Hge].
  - destruct (Z.leb_spec e1 971); [| reflexivity].
    apply leb_finite_pos.
    destruct Hlow as [[E Hm] | [L _]]; [right | left; exact L].
    split; [now symmetry |]. lia.
  - destruct (Z.leb_spec (e1 + 1) 971); [| reflexivity].
    apply leb_finite_pos. left. lia.
Qed.

Lemma value_below_magnitude (mx D r : Z) :
  0 <= mx -> 0 < D -> 0 <= r < D -> mx * D + r < 2 ^ Zdigits2 mx * D.
Proof.
  intros Hmx HD Hr.
  destruct (Z.eq_dec mx 0) as [-> | Hnz];
    [change (Zdigits2 0) with 0; change (2 ^ 0) with 1; lia |].
  destruct (Zdigits2_bounds mx ltac:(lia)) as [_ Hhi]. nia.
Qed.

(** Rounding is monotone: of two values [(mx + r / D) * 2^ex], the
    smaller one rounds to the smaller Number or to the same. *)
Lemma bra_mono (D mx r ex mx' r' ex' c : Z) :
  0 < D -> 0 <= r < D -> 0 <= r' < D -> 0 <= mx -> 0 <= mx' ->
  ex <= fexp53 (Zdigits2 mx + ex) -> ex' <= fexp53 (Zdigits2 mx' + ex') ->
  c <= ex -> c <= ex' ->
  (mx * D + r) * 2 ^ (ex - c) <= (mx' * D + r') * 2 ^ (ex' - c) ->
  Num.leb (binary_round_aux Num.prec Num.emax false mx ex (new_location D r))
          (binary_round_aux Num.prec Num.emax false mx' ex' (new_location D r')) = true.
Proof.
  intros HD Hr Hr' Hmx Hmx' Hex Hex' Hc Hc' Hle.
  assert (Px := pow2_pos (ex - c) ltac:(lia)).
  assert (Px' := pow2_pos (ex' - c) ltac:(lia)).
  assert (He1 := fexp53_ge (Zdigits2 mx + ex)).
  assert (He1' := fexp53_ge (Zdigits2 mx' + ex')).
  assert (Hd0 := Zdigits2_nonneg mx). assert (Hd0' := Zdigits2_nonneg mx').
  (* the magnitudes are in order *)
  assert (Hmag : 0 < mx -> Zdigits2 mx + ex <= Zdigits2 mx' + ex').
  { intros Hpos.
    destruct (Zdigits2_bounds mx Hpos) as [Hlo _].
    assert (Hd := Zdigits2_pos mx Hpos).
    assert (B' := value_below_magnitude mx' D r' Hmx' HD Hr').
    destruct (Z.le_gt_cases (Zdigits2 mx + ex) (Zdigits2 mx' + ex')) as [| Hgt];
      [assumption |]. exfalso.
    assert (L1 : 2 ^ (Zdigits2 mx - 1 + (ex - c)) * D <= (mx * D + r) * 2 ^ (ex - c)).
    { rewrite Z.pow_add_r by lia. nia. }
    assert (L2 : (mx' * D + r') * 2 ^ (ex' - c) < 2 ^ (Zdigits2 mx' + (ex' - c)) * D).
    { rewrite Z.pow_add_r by lia. nia. }
    assert (L3 : 2 ^ (Zdigits2 mx' + (ex' - c)) <= 2 ^ (Zdigits2 mx - 1 + (ex - c)))
      by (apply Z.pow_le_mono_r; lia).
    nia. }
  assert (Hee : fexp53 (Zdigits2 mx + ex) <= fexp53 (Zdigits2 mx' + ex')).
  { destruct (Z.eq_dec mx 0) as [-> | Hnz].
    - simpl Zdigits2 in *. unfold fexp53 in *. lia.
    - apply fexp53_mono, Hmag. lia. }
  destruct (Z.eq_dec (fexp53 (Zdigits2 mx + ex)) (fexp53 (Zdigits2 mx' + ex'))) as [E | Hne].
  - (* the same last place *)
    destruct (bra_nearest false mx ex D r c Hmx Hex HD Hr Hc)
      as (m2 & -> & Hb & _ & _ & [N1 N2]).
    destruct (bra_nearest false mx' ex' D r' c Hmx' Hex' HD Hr' Hc')
      as (m2' & -> & Hb' & _ & _ & [N1' N2']).
    rewrite <- E in *.
    apply pack_le; [lia | | lia].
    set (U := D * 2 ^ (fexp53 (Zdigits2 mx + ex) - c)) in *.
    assert (HU : 0 < U).
    { unfold U. apply Z.mul_pos_pos; [lia | apply pow2_pos; lia]. }
    set (V := (mx * D + r) * 2 ^ (ex - c)) in *.
    set (V' := (mx' * D + r') * 2 ^ (ex' - c)) in *.
    clearbody U V V'.
    destruct (Z.le_gt_cases m2 m2') as [| Hgt]; [assumption |]. exfalso.
    assert (HA : m2' * U + U <= m2 * U) by nia.
    assert (T1 : 2 * V - 2 * (m2 * U) = - U) by lia.
    assert (T2 : 2 * V' - 2 * (m2' * U) = U) by lia.
    assert (Ev := N2 (or_intror T1)). assert (Ev' := N2' (or_introl T2)).
    assert (Em : m2 = m2' + 1) by nia.
    rewrite Em, Z.even_add, Ev' in Ev. discriminate Ev.
  - (* a power of two lies between the values *)
    assert (Hlt : fexp53 (Zdigits2 mx + ex) < fexp53 (Zdigits2 mx' + ex')) by lia.
    set (e1' := fexp53 (Zdigits2 mx' + ex')) in *.
    assert (Ee' : e1' = Zdigits2 mx' + ex' - 53) by (unfold e1', fexp53 in *; lia).
    assert (Hpos' : 0 < mx').
    { destruct (Z.eq_dec mx' 0) as [E0 | ]; [| lia]. rewrite E0 in *. simpl in *.
      unfold fexp53 in *. lia. }
    destruct (Zdigits2_bounds mx' Hpos') as [Hlo' _].
    assert (Hd' := Zdigits2_pos mx' Hpos').
    assert (Hdd : Zdigits2 mx + ex < Zdigits2 mx' + ex').
    { destruct (Z.lt_ge_cases (Zdigits2 mx + ex) (Zdigits2 mx' + ex')) as [| Hge];
        [assumption |]. apply fexp53_mono in Hge. fold e1' in Hge. lia. }
    destruct (Z.le_gt_cases e1' 971) as [Hfin | Hov].
    + set (mb := Z.to_pos (2 ^ 52)).
      assert (Cb : canonical mb e1').
      { unfold canonical, mb. change (Zdigits2 (Zpos (Z.to_pos (2 ^ 52)))) with 53.
        unfold fexp53. lia. }
      assert (Emb : Zpos mb = 2 ^ 52) by reflexivity.
      apply (leb_trans _ (S754_finite false mb e1')).
      * apply (bra_upper mx ex _ mb e1' Hmx Hex Cb Hfin ltac:(lia)).
        left. rewrite Emb, <- Z.pow_add_r by lia.
        destruct (Z.eq_dec mx 0) as [-> | Hnz]; [apply pow2_pos; lia |].
        destruct (Zdigits2_bounds mx ltac:(lia)) as [_ Hhi].
        eapply Z.lt_le_trans; [exact Hhi |]. apply Z.pow_le_mono_r; lia.
      * apply (bra_lower mx' ex' _ mb e1' c Hmx' Hex' Cb Hfin Hc' ltac:(lia)).
        rewrite Emb, <- Z.pow_add_r by lia.
        replace (52 + (e1' - c)) with (Zdigits2 mx' - 1 + (ex' - c)) by lia.
        rewrite Z.pow_add_r by lia. nia.
    + destruct (bra_nearest false mx ex D r c Hmx Hex HD Hr Hc)
        as (m2 & -> & _ & _ & _ & _).
      destruct (bra_nearest false mx' ex' D r' c Hmx' Hex' HD Hr' Hc')
        as (m2' & -> & Hb' & _ & Hn' & _).
      fold e1' in Hn'. specialize (Hn' ltac:(lia)).
      assert (Einf : pack false m2' e1' = S754_infinity false).
      { unfold pack. destruct (Z.eqb_spec m2' 0) as [| _]; [lia |].
        destruct (Z.ltb_spec m2' (2 ^ 53));
          [destruct (Z.leb_spec e1' 971) | destruct (Z.leb_spec (e1' + 1) 971)];
          try reflexivity; lia. }
      fold e1'. rewrite Einf.
      assert (Nn := pack_not_NaN false m2 (fexp53 (Zdigits2 mx + ex))).
      destruct (pack false m2 (fexp53 (Zdigits2 mx + ex))) as [[|] | [|] | | [|] ? ?];
        try reflexivity; discriminate Nn.
Qed.


(** ** Amounts and their values *)

Lemma amount_cases (x : number) :
  amount x = true ->
  (exists s, x = S754_zero s) \/
  (exists m e, x = S754_finite false m e /\ canonical m e /\ e <= 971).
Proof.
  unfold amount. intros H. apply andb_prop in H as [H H0]. apply andb_prop in H as [Hv Hf].
  destruct x as [s | s | | [|] m e]; try discriminate.
  - left. now exists s.
  - right. exists m, e. split; [reflexivity |]. apply (valid_finite false m e). exact Hv.
Qed.

Lemma amount_finite (m : positive) (e : Z) :
  canonical m e -> e <= 971 -> amount (S754_finite false m e) = true.
Proof.
  intros C H. unfold amount.
  rewrite (proj2 (valid_finite false m e) (conj C H)). reflexivity.
Qed.

Lemma amount_zero (s : bool) : amount (S754_zero s) = true.
Proof. destruct s; reflexivity. Qed.

Lemma amount_valid (x : number) : amount x = true -> Num.valid x = true.
Proof. unfold amount. intros H. apply andb_prop in H as [H _]. now apply andb_prop in H as [H _]. Qed.

Lemma amount_nonneg (x : number) : amount x = true -> Num.leb Num.zero x = true.
Proof. unfold amount. intros H. now apply andb_prop in H as [_ H]. Qed.

Lemma amount_not_NaN (x : number) : amount x = true -> Num.isNaN x = false.
Proof. intros H. apply amount_nonneg, leb_not_NaN in H. tauto. Qed.

(** A valid Number between zero and an amount is an amount. *)
Lemma amount_below (x y : number) :
  Num.valid x = true -> Num.leb Num.zero x = true -> Num.leb x y = true ->
  amount y = true -> amount x = true.
Proof.
  intros Hv H0 Hxy Hy. unfold amount. rewrite Hv, H0, andb_true_r. cbn [andb].
  destruct (amount_cases y Hy) as [[s ->] | (m & e & -> & _)];
    destruct x as [sx | [|] | | sx mx ex]; try reflexivity; try discriminate.
Qed.

Lemma val_nonneg (c : Z) (x : number) : amount x = true -> fits c x -> 0 <= val c x.
Proof.
  intros H F. destruct (amount_cases x H) as [[s ->] | (m & e & -> & _)];
    cbn [val fits scaled_value cond_Zopp] in *; [lia |].
  assert (P := pow2_pos (e - c) ltac:(lia)). nia.
Qed.

Lemma leb_val (c : Z) (x y : number) :
  amount x = true -> amount y = true -> fits c x -> fits c y ->
  (Num.leb x y = true <-> val c x <= val c y).
Proof.
  intros Hx Hy Fx Fy.
  destruct (amount_cases x Hx) as [[s ->] | (m & e & -> & C & _)];
    destruct (amount_cases y Hy) as [[s' ->] | (m' & e' & -> & C' & _)]; cbn in Fx, Fy.
  - cbn. split; [lia | reflexivity].
  - cbn [val scaled_value cond_Zopp]. assert (P := pow2_pos (e' - c) ltac:(lia)).
    split; [nia | reflexivity].
  - cbn [val scaled_value cond_Zopp]. assert (P := pow2_pos (e - c) ltac:(lia)).
    split; [discriminate | nia].
  - cbn [val scaled_value cond_Zopp]. rewrite leb_finite_pos.
    symmetry. apply canonical_le; assumption.
Qed.

Lemma fits_le (c c' : Z) (x : number) : c' <= c -> fits c x -> fits c' x.
Proof. destruct x; cbn; intros; try assumption; lia. Qed.

Lemma val_scale (c c' : Z) (x : number) :
  c' <= c -> fits c x -> val c' x = val c x * 2 ^ (c - c').
Proof.
  intros H F. destruct x as [| | | s m e]; try reflexivity. cbn [val fits] in *.
  unfold scaled_value. replace (e - c') with ((e - c) + (c - c')) by lia.
  rewrite Z.pow_add_r by lia. destruct s; cbn [cond_Zopp]; ring.
Qed.


(** ** Rounding an integer multiple of a power of two *)

Lemma binary_round_bra (s : bool) (p : positive) (ez : Z) :
  exists mz ez',
    binary_round Num.prec Num.emax s p ez
    = binary_round_aux Num.prec Num.emax s (Zpos mz) ez' loc_Exact /\
    ez' <= fexp53 (Zdigits2 (Zpos mz) + ez') /\ ez' <= ez /\
    Zpos mz = Zpos p * 2 ^ (ez - ez').
Proof.
  unfold binary_round.
  change (fexp Num.prec Num.emax) with fexp53.
  change (Zpos (digits2_pos p)) with (Zdigits2 (Zpos p)).
  set (ex' := fexp53 (Zdigits2 (Zpos p) + ez)).
  destruct (Z.le_gt_cases ez ex') as [Hle | Hgt].
  - exists p, ez. rewrite shl_align_keep by exact Hle.
    split; [reflexivity |]. split; [exact Hle |]. split; [lia |].
    rewrite Z.sub_diag. change (2 ^ 0) with 1. lia.
  - destruct (shl_align_spec p ez ex' ltac:(lia)) as [Hm He].
    destruct (shl_align p ez ex') as [mz ez']. cbn [fst snd] in Hm, He. subst ez'.
    exists mz, ex'. split; [reflexivity |].
    assert (Hd : Zdigits2 (Zpos mz) = Zdigits2 (Zpos p) + (ez - ex'))
      by (rewrite Hm; apply Zdigits2_mul_pow2; lia).
    split; [| split; [lia | exact Hm]].
    rewrite Hd. replace (Zdigits2 (Zpos p) + (ez - ex') + ex')
      with (Zdigits2 (Zpos p) + ez) by lia. fold ex'. lia.
Qed.

Lemma loc_Exact_new_location : loc_Exact = new_location 1 0.
Proof. reflexivity. Qed.

Lemma binary_round_mono (p p' : positive) (ez ez' c : Z) :
  c <= ez -> c <= ez' ->
  Zpos p * 2 ^ (ez - c) <= Zpos p' * 2 ^ (ez' - c) ->
  Num.leb (binary_round Num.prec Num.emax false p ez)
          (binary_round Num.prec Num.emax false p' ez') = true.
Proof.
  intros Hc Hc' Hle.
  destruct (binary_round_bra false p ez) as (mz & e1 & -> & Hpre & He & Hm).
  destruct (binary_round_bra false p' ez') as (mz' & e1' & -> & Hpre' & He' & Hm').
  rewrite loc_Exact_new_location.
  set (c0 := Z.min c (Z.min e1 e1')).
  apply (bra_mono 1 (Zpos mz) 0 e1 (Zpos mz') 0 e1' c0); try lia.
  rewrite !Z.mul_1_r, !Z.add_0_r, Hm, Hm'.
  rewrite <- !Z.mul_assoc, <- !Z.pow_add_r by lia.
  replace (ez - e1 + (e1 - c0)) with ((ez - c) + (c - c0)) by lia.
  replace (ez' - e1' + (e1' - c0)) with ((ez' - c) + (c - c0)) by lia.
  rewrite !Z.pow_add_r by lia.
  assert (P := pow2_pos (c - c0) ltac:(lia)). nia.
Qed.

Lemma binary_round_valid (s : bool) (p : positive) (ez : Z) :
  Num.valid (binary_round Num.prec Num.emax s p ez) = true.
Proof.
  destruct (binary_round_bra s p ez) as (mz & e1 & -> & Hpre & _ & _).
  apply bra_valid; [lia | exact Hpre].
Qed.

Lemma binary_round_nonneg (p : positive) (ez : Z) :
  Num.leb Num.zero (binary_round Num.prec Num.emax false p ez) = true.
Proof.
  destruct (binary_round_bra false p ez) as (mz & e1 & -> & Hpre & _ & _).
  destruct (bra_spec false (Zpos mz) e1 loc_Exact ltac:(lia) Hpre) as (m2 & _ & _ & _ & _ & ->).
  apply pack_nonneg.
Qed.

Lemma rnd_valid (V c : Z) : Num.valid (rnd V c) = true.
Proof. destruct V; [reflexivity | apply binary_round_valid ..]. Qed.

Lemma rnd_nonneg (V c : Z) : 0 <= V -> Num.leb Num.zero (rnd V c) = true.
Proof. destruct V; intros H; [reflexivity | apply binary_round_nonneg | lia]. Qed.

Lemma rnd_mono (V V' c c' c0 : Z) :
  0 <= V -> c0 <= c -> c0 <= c' ->
  V * 2 ^ (c - c0) <= V' * 2 ^ (c' - c0) ->
  Num.leb (rnd V c) (rnd V' c') = true.
Proof.
  intros H0 Hc Hc' Hle.
  assert (P := pow2_pos (c - c0) ltac:(lia)). assert (P' := pow2_pos (c' - c0) ltac:(lia)).
  destruct V as [| p | p]; [| | lia].
  - apply rnd_nonneg. nia.
  - destruct V' as [| p' | p']; [nia | | nia].
    unfold rnd, binary_normalize.
    set (c1 := c0) in *.
    apply (binary_round_mono p p' c c' c0 Hc Hc' Hle).
Qed.

(** An amount is the rounding of its own value. *)
Lemma rnd_exact (x : number) (c : Z) :
  amount x = true -> fits c x ->
  rnd (val c x) c = match x with S754_zero _ => Num.zero | _ => x end.
Proof.
  intros H F. destruct (amount_cases x H) as [[s ->] | (m & e & -> & C & He)];
    [reflexivity |].
  cbn [val fits scaled_value cond_Zopp] in *.
  assert (P := pow2_pos (e - c) ltac:(lia)).
  assert (exists p, Zpos m * 2 ^ (e - c) = Zpos p) as [p Ep].
  { exists (Z.to_pos (Zpos m * 2 ^ (e - c))). rewrite Z2Pos.id; [reflexivity | nia]. }
  rewrite Ep. unfold rnd, binary_normalize, binary_round.
  change (fexp Num.prec Num.emax) with fexp53.
  change (Zpos (digits2_pos p)) with (Zdigits2 (Zpos p)).
  assert (Hd : Zdigits2 (Zpos p) = Zdigits2 (Zpos m) + (e - c))
    by (rewrite <- Ep; apply Zdigits2_mul_pow2; lia).
  assert (Ee : fexp53 (Zdigits2 (Zpos p) + c) = e).
  { rewrite Hd. replace (Zdigits2 (Zpos m) + (e - c) + c) with (Zdigits2 (Zpos m) + e) by lia.
    exact C. }
  rewrite Ee, shl_align_keep by lia.
  destruct (bra_spec false (Zpos p) c loc_Exact ltac:(lia) ltac:(lia))
    as (m2 & _ & Hex & _ & _ & ->).
  rewrite Ee in *.
  assert (Em : m2 = Zpos m).
  { rewrite Hex; [| reflexivity |].
    - rewrite <- Ep. apply Z.div_mul. lia.
    - rewrite <- Ep. apply Z.mod_mul. lia. }
  rewrite Em. unfold pack.
  assert (Hm : Zpos m < 2 ^ 53).
  { destruct (Zdigits2_bounds (Zpos m) ltac:(lia)) as [_ Hhi].
    eapply Z.lt_le_trans; [exact Hhi |]. apply Z.pow_le_mono_r; [lia |].
    unfold canonical, fexp53 in C. lia. }
  destruct (Z.eqb_spec (Zpos m) 0) as [| _]; [lia |].
  destruct (Z.ltb_spec (Zpos m) (2 ^ 53)) as [_ |]; [| lia].
  destruct (Z.leb_spec e 971) as [_ |]; [| lia]. reflexivity.
Qed.

Lemma leb_zero_sign (s : bool) (x : number) :
  Num.leb (S754_zero s) x = Num.leb Num.zero x.
Proof. destruct x; reflexivity. Qed.

Lemma leb_sign_zero (s : bool) (x : number) :
  Num.leb x (S754_zero s) = Num.leb x Num.zero.
Proof. destruct x as [| | | ? ? ?]; reflexivity. Qed.

Lemma leb_refl_amount (x : number) : amount x = true -> Num.leb x x = true.
Proof.
  intros H. change (Num.leb x x) with (Num.geb x x).
  rewrite geb_self, (amount_not_NaN x H). reflexivity.
Qed.

Lemma rnd_upper (V c : Z) (y : number) :
  0 <= V -> amount y = true -> fits c y -> V <= val c y ->
  Num.leb (rnd V c) y = true.
Proof.
  intros H0 Hy F Hle.
  assert (M : Num.leb (rnd V c) (rnd (val c y) c) = true).
  { apply (rnd_mono V (val c y) c c c); try lia.
    rewrite Z.sub_diag. change (2 ^ 0) with 1. lia. }
  rewrite (rnd_exact y c Hy F) in M.
  destruct y; try exact M; now rewrite leb_sign_zero.
Qed.

Lemma rnd_lower (V c : Z) (y : number) :
  amount y = true -> fits c y -> val c y <= V ->
  Num.leb y (rnd V c) = true.
Proof.
  intros Hy F Hle.
  assert (M : Num.leb (rnd (val c y) c) (rnd V c) = true).
  { apply (rnd_mono (val c y) V c c c); try lia.
    - now apply val_nonneg.
    - rewrite Z.sub_diag. change (2 ^ 0) with 1. lia. }
  rewrite (rnd_exact y c Hy F) in M.
  destruct y; try exact M; now rewrite leb_zero_sign.
Qed.

(** ** Differences, sums, products and quotients of amounts *)

Lemma sub_finite_rnd (sa sb : bool) (ma mb : positive) (ea eb : Z) :
  Num.sub (S754_finite sa ma ea) (S754_finite sb mb eb)
  = rnd (val (Z.min ea eb) (S754_finite sa ma ea) - val (Z.min ea eb) (S754_finite sb mb eb))
        (Z.min ea eb).
Proof.
  unfold Num.sub, SFsub, rnd. set (ez := Z.min ea eb).
  destruct (shl_align_spec ma ea ez ltac:(unfold ez; lia)) as [-> _].
  destruct (shl_align_spec mb eb ez ltac:(unfold ez; lia)) as [-> _].
  reflexivity.
Qed.

Lemma add_finite_rnd (sa sb : bool) (ma mb : positive) (ea eb : Z) :
  Num_add (S754_finite sa ma ea) (S754_finite sb mb eb)
  = rnd (val (Z.min ea eb) (S754_finite sa ma ea) + val (Z.min ea eb) (S754_finite sb mb eb))
        (Z.min ea eb).
Proof.
  unfold Num_add, SFadd, rnd. set (ez := Z.min ea eb).
  destruct (shl_align_spec ma ea ez ltac:(unfold ez; lia)) as [-> _].
  destruct (shl_align_spec mb eb ez ltac:(unfold ez; lia)) as [-> _].
  reflexivity.
Qed.

(** A difference [a - b] of a finite amount [a] and an amount [b]. *)
Lemma sub_rnd (m : positive) (e : Z) (b : number) :
  amount (S754_finite false m e) = true -> amount b = true ->
  exists c, c <= e /\ fits c b /\
    Num.sub (S754_finite false m e) b
    = rnd (val c (S754_finite false m e) - val c b) c.
Proof.
  intros Ha Hb.
  destruct (amount_cases b Hb) as [[s ->] | (mb & eb & -> & Cb & Hbe)].
  - exists e. split; [lia |]. split; [exact I |].
    change (val e (S754_zero s)) with 0.
    rewrite Z.sub_0_r, (rnd_exact _ e Ha); [reflexivity | cbn; lia].
  - exists (Z.min e eb). split; [lia |]. split; [cbn; lia |]. apply sub_finite_rnd.
Qed.

Lemma add_rnd (m : positive) (e : Z) (b : number) :
  amount (S754_finite false m e) = true -> amount b = true ->
  exists c, c <= e /\ fits c b /\
    Num_add (S754_finite false m e) b
    = rnd (val c (S754_finite false m e) + val c b) c.
Proof.
  intros Ha Hb.
  destruct (amount_cases b Hb) as [[s ->] | (mb & eb & -> & Cb & Hbe)].
  - exists e. split; [lia |]. split; [exact I |].
    change (val e (S754_zero s)) with 0.
    rewrite Z.add_0_r, (rnd_exact _ e Ha); [reflexivity | cbn; lia].
  - exists (Z.min e eb). split; [lia |]. split; [cbn; lia |]. apply add_finite_rnd.
Qed.

(** [a - b] for amounts [b <= a]: an amount no greater than [a]. *)
Lemma sub_amount (a b : number) :
  amount a = true -> amount b = true -> Num.leb b a = true ->
  amount (Num.sub a b) = true /\ Num.leb (Num.sub a b) a = true.
Proof.
  intros Ha Hb Hle.
  destruct (amount_cases a Ha) as [[s ->] | (m & e & -> & C & He)].
  - destruct (amount_cases b Hb) as [[s' ->] | (mb & eb & -> & _)]; [| discriminate Hle].
    destruct s, s'; split; reflexivity.
  - destruct (sub_rnd m e b Ha Hb) as (c & Hc & Fb & ->).
    assert (Fa : fits c (S754_finite false m e)) by (cbn; lia).
    assert (L := proj1 (leb_val c b _ Hb Ha Fb Fa) Hle).
    assert (N := val_nonneg c b Hb Fb).
    assert (U : Num.leb (rnd (val c (S754_finite false m e) - val c b) c)
                        (S754_finite false m e) = true)
      by (apply rnd_upper; [lia | exact Ha | exact Fa | lia]).
    split; [| exact U].
    apply (amount_below _ (S754_finite false m e));
      [apply rnd_valid | apply rnd_nonneg; lia | exact U | exact Ha].
Qed.

(** The difference grows with the minuend. *)
Lemma sub_mono_l (a a' b : number) :
  amount a = true -> amount a' = true -> amount b = true ->
  Num.leb b a = true -> Num.leb a a' = true ->
  Num.leb (Num.sub a b) (Num.sub a' b) = true.
Proof.
  intros Ha Ha' Hb Hba Haa'.
  assert (Hba' := leb_trans _ _ _ Hba Haa').
  destruct (sub_amount a' b Ha' Hb Hba') as [A' _].
  destruct (amount_cases a Ha) as [[s ->] | (m & e & -> & C & He)].
  - destruct (amount_cases b Hb) as [[s' ->] | (mb & eb & -> & _)]; [| discriminate Hba].
    assert (E : exists s0, Num.sub (S754_zero s) (S754_zero s') = S754_zero s0)
      by (destruct s, s'; eexists; reflexivity).
    destruct E as [s0 ->]. rewrite leb_zero_sign. now apply amount_nonneg.
  - destruct (amount_cases a' Ha') as [[s' ->] | (m' & e' & -> & C' & He')];
      [discriminate Haa' |].
    destruct (sub_rnd m e b Ha Hb) as (c & Hc & Fb & ->).
    destruct (sub_rnd m' e' b Ha' Hb) as (c' & Hc' & Fb' & ->).
    set (c0 := Z.min c c').
    assert (F0 : fits c0 b) by (apply (fits_le c); [unfold c0; lia | exact Fb]).
    assert (Fa0 : fits c0 (S754_finite false m e)) by (cbn; unfold c0; lia).
    assert (Fa0' : fits c0 (S754_finite false m' e')) by (cbn; unfold c0; lia).
    assert (Fa : fits c (S754_finite false m e)) by (cbn; lia).
    assert (Fa' : fits c' (S754_finite false m' e')) by (cbn; lia).
    apply (rnd_mono _ _ c c' c0); try (unfold c0; lia).
    + assert (L := proj1 (leb_val c b _ Hb Ha Fb Fa) Hba). lia.
    + rewrite !Z.mul_sub_distr_r.
      rewrite <- (val_scale c c0 _ ltac:(unfold c0; lia) Fa).
      rewrite <- (val_scale c c0 _ ltac:(unfold c0; lia) Fb).
      rewrite <- (val_scale c' c0 _ ltac:(unfold c0; lia) Fa').
      rewrite <- (val_scale c' c0 _ ltac:(unfold c0; lia) Fb').
      assert (L := proj1 (leb_val c0 _ _ Ha Ha' Fa0 Fa0') Haa'). lia.
Qed.

(** The sum grows with the second summand. *)
Lemma add_mono_r (k a a' : number) :
  amount k = true -> amount a = true -> amount a' = true ->
  Num.leb a a' = true ->
  Num.valid (Num_add k a) = true /\
  Num.leb Num.zero (Num_add k a) = true /\
  Num.leb (Num_add k a) (Num_add k a') = true.
Proof.
  intros Hk Ha Ha' Hle.
  destruct (amount_cases k Hk) as [[s ->] | (m & e & -> & C & He)].
  - (* zero added *)
    assert (Z0 : forall x, amount x = true ->
              (exists s0, Num_add (S754_zero s) x = S754_zero s0 /\ exists s1, x = S754_zero s1) \/
              (Num_add (S754_zero s) x = x /\ exists mx ex, x = S754_finite false mx ex)).
    { intros x Hx. destruct (amount_cases x Hx) as [[s' ->] | (mx & ex & -> & _)].
      - left. destruct s, s'; eexists; (split; [reflexivity | eexists; reflexivity]).
      - right. split; [reflexivity | eauto]. }
    destruct (Z0 a Ha) as [(s0 & -> & s1 & ->) | (-> & mx & ex & ->)];
      destruct (Z0 a' Ha') as [(s0' & -> & s1' & ->) | (-> & mx' & ex' & ->)].
    + destruct s0, s0'; repeat split; reflexivity.
    + destruct s0; repeat split; try reflexivity; now apply amount_valid.
    + discriminate Hle.
    + split; [now apply amount_valid |]. split; [reflexivity | exact Hle].
  - destruct (add_rnd m e a Hk Ha) as (c & Hc & Fa & ->).
    destruct (add_rnd m e a' Hk Ha') as (c' & Hc' & Fa' & ->).
    assert (Fk : fits c (S754_finite false m e)) by (cbn; lia).
    assert (Fk' : fits c' (S754_finite false m e)) by (cbn; lia).
    assert (Nk := val_nonneg c _ Hk Fk). assert (Na := val_nonneg c a Ha Fa).
    split; [apply rnd_valid |]. split; [apply rnd_nonneg; lia |].
    set (c0 := Z.min c c').
    assert (F0 : fits c0 a) by (apply (fits_le c); [unfold c0; lia | exact Fa]).
    assert (F0' : fits c0 a') by (apply (fits_le c'); [unfold c0; lia | exact Fa']).
    apply (rnd_mono _ _ c c' c0); try (unfold c0; lia).
    rewrite !Z.mul_add_distr_r.
    rewrite <- (val_scale c c0 _ ltac:(unfold c0; lia) Fk).
    rewrite <- (val_scale c c0 _ ltac:(unfold c0; lia) Fa).
    rewrite <- (val_scale c' c0 _ ltac:(unfold c0; lia) Fk').
    rewrite <- (val_scale c' c0 _ ltac:(unfold c0; lia) Fa').
    assert (L := proj1 (leb_val c0 _ _ Ha Ha' F0 F0') Hle). lia.
Qed.

Lemma mul_pre (ma mk : positive) (ea ek : Z) :
  canonical ma ea -> canonical mk ek ->
  ea + ek <= fexp53 (Zdigits2 (Zpos (ma * mk)) + (ea + ek)).
Proof.
  unfold canonical. intros Ca Ck. rewrite Pos2Z.inj_mul.
  assert (Da := Zdigits2_pos (Zpos ma) ltac:(lia)).
  assert (Dk := Zdigits2_pos (Zpos mk) ltac:(lia)).
  destruct (Zdigits2_bounds (Zpos ma) ltac:(lia)) as [La _].
  destruct (Zdigits2_bounds (Zpos mk) ltac:(lia)) as [Lk _].
  assert (L : 2 ^ (Zdigits2 (Zpos ma) + Zdigits2 (Zpos mk) - 2) <= Zpos ma * Zpos mk).
  { replace (Zdigits2 (Zpos ma) + Zdigits2 (Zpos mk) - 2)
      with ((Zdigits2 (Zpos ma) - 1) + (Zdigits2 (Zpos mk) - 1)) by lia.
    rewrite Z.pow_add_r by lia.
    assert (0 < 2 ^ (Zdigits2 (Zpos ma) - 1)) by (apply pow2_pos; lia).
    assert (0 < 2 ^ (Zdigits2 (Zpos mk) - 1)) by (apply pow2_pos; lia).
    nia. }
  assert (Hd := digits_ge_of_le_pow _ _ L ltac:(lia)).
  set (d := Zdigits2 (Zpos ma * Zpos mk)) in *. clearbody d.
  unfold fexp53 in *. lia.
Qed.

Lemma mul_finite_rnd (ma mk : positive) (ea ek : Z) :
  canonical ma ea -> canonical mk ek ->
  Num.mul (S754_finite false ma ea) (S754_finite false mk ek)
  = rnd (Zpos ma * Zpos mk) (ea + ek).
Proof.
  intros Ca Ck. unfold Num.mul, SFmul, rnd. cbn [xorb].
  change (Zpos ma * Zpos mk) with (Zpos (ma * mk)).
  unfold binary_normalize, binary_round.
  change (fexp Num.prec Num.emax) with fexp53.
  change (Zpos (digits2_pos (ma * mk))) with (Zdigits2 (Zpos (ma * mk))).
  rewrite shl_align_keep by (apply mul_pre; assumption). reflexivity.
Qed.

(** The product grows with the first factor. *)
Lemma mul_mono_l (a a' k : number) :
  amount a = true -> amount a' = true -> amount k = true ->
  Num.leb a a' = true ->
  Num.valid (Num.mul a k) = true /\
  Num.leb Num.zero (Num.mul a k) = true /\
  Num.leb (Num.mul a k) (Num.mul a' k) = true.
Proof.
  intros Ha Ha' Hk Hle.
  destruct (amount_cases k Hk) as [[sk ->] | (mk & ek & -> & Ck & Hek)].
  - destruct (amount_cases a Ha) as [[s ->] | (m & e & -> & _)];
      destruct (amount_cases a' Ha') as [[s' ->] | (m' & e' & -> & _)];
      repeat split; try reflexivity;
      repeat match goal with |- context [xorb ?x ?y] => destruct x, y end;
      try reflexivity;
      repeat match goal with s0 : bool |- _ => destruct s0 end; reflexivity.
  - destruct (amount_cases a Ha) as [[s ->] | (m & e & -> & C & He)].
    + destruct (amount_cases a' Ha') as [[s' ->] | (m' & e' & -> & C' & He')].
      * destruct s, s'; repeat split; reflexivity.
      * rewrite (mul_finite_rnd m' mk e' ek C' Ck).
        change (Num.mul (S754_zero s) (S754_finite false mk ek)) with (S754_zero (xorb s false)).
        rewrite leb_zero_sign. split; [destruct s; reflexivity |].
        split; [destruct s; reflexivity |]. apply rnd_nonneg. lia.
    + destruct (amount_cases a' Ha') as [[s' ->] | (m' & e' & -> & C' & He')];
        [discriminate Hle |].
      rewrite (mul_finite_rnd m mk e ek C Ck), (mul_finite_rnd m' mk e' ek C' Ck).
      split; [apply rnd_valid |]. split; [apply rnd_nonneg; lia |].
      set (cm := Z.min e e').
      assert (L := proj1 (leb_val cm _ _ Ha Ha' ltac:(cbn; unfold cm; lia)
                            ltac:(cbn; unfold cm; lia)) Hle).
      cbn [val scaled_value cond_Zopp] in L.
      apply (rnd_mono _ _ (e + ek) (e' + ek) (cm + ek)); try (unfold cm; lia).
      replace (e + ek - (cm + ek)) with (e - cm) by lia.
      replace (e' + ek - (cm + ek)) with (e' - cm) by lia.
      nia.
Qed.

Lemma mul_one_l (k : number) : amount k = true -> Num.mul Num.one k = k.
Proof.
  intros Hk. destruct (amount_cases k Hk) as [[s ->] | (m & e & -> & C & He)];
    [destruct s; reflexivity |].
  rewrite one_value, (mul_finite_rnd _ m _ e one_canonical C).
  assert (E : Zpos 4503599627370496 * Zpos m = val (-52 + e) (S754_finite false m e)).
  { cbn [val scaled_value cond_Zopp]. replace (e - (-52 + e)) with 52 by lia.
    change (2 ^ 52) with (Zpos 4503599627370496). ring. }
  rewrite E. apply (rnd_exact _ _ Hk). cbn [fits]. lia.
Qed.

Lemma mul_one_r (k : number) : amount k = true -> Num.mul k Num.one = k.
Proof.
  intros Hk. destruct (amount_cases k Hk) as [[s ->] | (m & e & -> & C & He)];
    [destruct s; reflexivity |].
  rewrite one_value, (mul_finite_rnd m _ e _ C one_canonical).
  assert (E : Zpos m * Zpos 4503599627370496 = val (e + -52) (S754_finite false m e)).
  { cbn [val scaled_value cond_Zopp]. replace (e - (e + -52)) with 52 by lia.
    change (2 ^ 52) with (Zpos 4503599627370496). ring. }
  rewrite E. apply (rnd_exact _ _ Hk). cbn [fits]. lia.
Qed.

(** The quotient of two finite Numbers above zero, as the rounding of
    the integer quotient and of its remainder. *)
Lemma div_finite_bra (ma md : positive) (ea ed : Z) :
  exists q e' r,
    Num.div (S754_finite false ma ea) (S754_finite false md ed)
    = binary_round_aux Num.prec Num.emax false q e' (new_location (Zpos md) r) /\
    0 <= q /\ e' <= fexp53 (Zdigits2 q + e') /\ 0 <= r < Zpos md /\
    e' <= ea - ed /\
    q * Zpos md + r = Zpos ma * 2 ^ (ea - ed - e').
Proof.
  unfold Num.div, SFdiv. rewrite div_core_eq by lia. cbn [xorb].
  destruct (div_core_pre (Zpos ma) ea (Zpos md) ed ltac:(lia) ltac:(lia)) as [Hq Hpre].
  set (e' := Z.min (fexp53 (Zdigits2 (Zpos ma) + ea - (Zdigits2 (Zpos md) + ed))) (ea - ed)) in *.
  set (N := Zpos ma * 2 ^ (ea - ed - e')) in *.
  exists (N / Zpos md), e', (N mod Zpos md).
  split; [reflexivity |]. split; [exact Hq |]. split; [exact Hpre |].
  split; [apply Z.mod_pos_bound; lia |]. split; [unfold e'; lia |].
  rewrite Z.mul_comm. symmetry. apply Z.div_mod. lia.
Qed.

(** The quotient grows with the dividend. *)
Lemma div_mono_l (a a' : number) (md : positive) (ed : Z) :
  amount a = true -> amount a' = true ->
  Num.leb a a' = true ->
  Num.valid (Num.div a (S754_finite false md ed)) = true /\
  Num.leb Num.zero (Num.div a (S754_finite false md ed)) = true /\
  Num.leb (Num.div a (S754_finite false md ed)) (Num.div a' (S754_finite false md ed)) = true.
Proof.
  intros Ha Ha' Hle.
  assert (Nonneg : forall m e,
            Num.valid (Num.div (S754_finite false m e) (S754_finite false md ed)) = true /\
            Num.leb Num.zero (Num.div (S754_finite false m e) (S754_finite false md ed)) = true).
  { intros m e. destruct (div_finite_bra m md e ed) as (q & e' & r & -> & Hq & Hpre & _).
    split; [now apply bra_valid |].
    destruct (bra_spec false q e' (new_location (Zpos md) r) Hq Hpre)
      as (m2 & _ & _ & _ & _ & ->). apply pack_nonneg. }
  destruct (amount_cases a Ha) as [[s ->] | (m & e & -> & C & He)].
  - change (Num.div (S754_zero s) (S754_finite false md ed)) with (S754_zero (xorb s false)).
    rewrite leb_zero_sign. split; [destruct s; reflexivity |]. split; [destruct s; reflexivity |].
    destruct (amount_cases a' Ha') as [[s' ->] | (m' & e' & -> & _)].
    + destruct s'; reflexivity.
    + apply Nonneg.
  - destruct (amount_cases a' Ha') as [[s' ->] | (m' & e' & -> & C' & He')];
      [discriminate Hle |].
    destruct (Nonneg m e) as [V N]. split; [exact V |]. split; [exact N |].
    destruct (div_finite_bra m md e ed) as (q & e1 & r & -> & Hq & Hpre & Hr & Hee & Eq).
    destruct (div_finite_bra m' md e' ed) as (q' & e1' & r' & -> & Hq' & Hpre' & Hr' & Hee' & Eq').
    set (c := Z.min e1 e1').
    apply (bra_mono (Zpos md) q r e1 q' r' e1' c); try lia; try (unfold c; lia).
    rewrite Eq, Eq'.
    rewrite <- !Z.mul_assoc, <- !Z.pow_add_r by (unfold c; lia).
    assert (L := proj1 (leb_val (ed + c) _ _ Ha Ha' ltac:(cbn; unfold c; lia)
                          ltac:(cbn; unfold c; lia)) Hle).
    cbn [val scaled_value cond_Zopp] in L.
    replace (e - ed - e1 + (e1 - c)) with (e - (ed + c)) by lia.
    replace (e' - ed - e1' + (e1' - c)) with (e' - (ed + c)) by lia.
    exact L.
Qed.

(** A quotient of an amount by one no smaller lies between 0 and 1. *)
Lemma div_amount (a : number) (md : positive) (ed : Z) :
  amount a = true -> amount (S754_finite false md ed) = true ->
  Num.leb a (S754_finite false md ed) = true ->
  amount (Num.div a (S754_finite false md ed)) = true /\
  Num.leb (Num.div a (S754_finite false md ed)) Num.one = true.
Proof.
  intros Ha Hd Hle.
  destruct (div_mono_l a _ md ed Ha Hd Hle) as (V & N & L).
  rewrite div_self in L. split; [| exact L].
  apply (amount_below _ Num.one V N L). reflexivity.
Qed.

(** A product of an amount no greater than 1 and an amount [k] lies
    between 0 and [k]. *)
Lemma mul_amount (q k : number) :
  amount q = true -> amount k = true -> Num.leb q Num.one = true ->
  amount (Num.mul q k) = true /\ Num.leb (Num.mul q k) k = true.
Proof.
  intros Hq Hk Hle.
  destruct (mul_mono_l q Num.one k Hq eq_refl Hk Hle) as (V & N & L).
  rewrite (mul_one_l k Hk) in L. split; [| exact L].
  apply (amount_below _ k V N L Hk).
Qed.

Lemma leb_antisym_amount (x y : number) :
  amount x = true -> amount y = true ->
  Num.leb x y = true -> Num.leb y x = true ->
  x = y \/ ((exists s, x = S754_zero s) /\ (exists s, y = S754_zero s)).
Proof.
  intros Hx Hy L1 L2.
  destruct (amount_cases x Hx) as [[s ->] | (m & e & -> & _)];
    destruct (amount_cases y Hy) as [[s' ->] | (m' & e' & -> & _)];
    try discriminate.
  - right. eauto.
  - left. apply leb_finite_pos in L1, L2.
    assert (e = e') by lia. subst e'. assert (m = m') by lia. now subst m'.
Qed.

Lemma sub_self_amount (x : number) :
  amount x = true -> exists s, Num.sub x x = S754_zero s.
Proof.
  intros H. destruct (amount_cases x H) as [[s ->] | (m & e & -> & _)].
  - destruct s; eexists; reflexivity.
  - rewrite sub_finite_rnd, Z.sub_diag. exists false. reflexivity.
Qed.

(** Quotients and products of binary64 Numbers are binary64 Numbers. *)
Lemma div_valid (x y : number) :
  Num.valid x = true -> Num.valid y = true -> Num.valid (Num.div x y) = true.
Proof.
  intros Vx Vy.
  destruct x as [sx | sx | | sx mx ex], y as [sy | sy | | sy my ey];
    try (destruct sx; try destruct sy; reflexivity); try (destruct sy; reflexivity);
    try reflexivity.
  unfold Num.div, SFdiv. rewrite div_core_eq by lia.
  destruct (div_core_pre (Zpos mx) ex (Zpos my) ey ltac:(lia) ltac:(lia)) as [Hq Hpre].
  now apply bra_valid.
Qed.

Lemma mul_valid (x y : number) :
  Num.valid x = true -> Num.valid y = true -> Num.valid (Num.mul x y) = true.
Proof.
  intros Vx Vy.
  destruct x as [sx | sx | | sx mx ex], y as [sy | sy | | sy my ey];
    try (destruct sx; try destruct sy; reflexivity); try (destruct sy; reflexivity);
    try reflexivity.
  apply valid_finite in Vx as [Cx _]. apply valid_finite in Vy as [Cy _].
  unfold Num.mul, SFmul. apply bra_valid; [lia | now apply mul_pre].
Qed.

Lemma mul_comm (x y : number) : Num.mul x y = Num.mul y x.
Proof.
  destruct x as [sx | sx | | sx mx ex], y as [sy | sy | | sy my ey];
    try reflexivity; cbn; try (now rewrite xorb_comm).
  unfold Num.mul, SFmul. now rewrite xorb_comm, Pos.mul_comm, Z.add_comm.
Qed.

(** The product grows with the second factor. *)
Lemma mul_mono_r (k a a' : number) :
  amount a = true -> amount a' = true -> amount k = true ->
  Num.leb a a' = true ->
  Num.valid (Num.mul k a) = true /\
  Num.leb Num.zero (Num.mul k a) = true /\
  Num.leb (Num.mul k a) (Num.mul k a') = true.
Proof.
  intros Ha Ha' Hk Hle. rewrite (mul_comm k a), (mul_comm k a').
  now apply mul_mono_l.
Qed.

(** ** Card 7: when the letters are revealed *)

Lemma clocked_stamp (c : Replay.cell) :
  clocked c -> Replay.filled c = true -> amount (stamp c) = true.
Proof.
  unfold clocked, Replay.filled, stamp. intros Hc H. apply andb_prop in H as [_ H].
  destruct (Replay.timestamp c) as [t |]; [| discriminate]. now apply Hc.
Qed.

Lemma clocked_stamped (c : Replay.cell) : clocked c -> stamped c.
Proof.
  intros Hc t Ht. specialize (Hc t Ht). split; [now apply amount_valid | now apply amount_not_NaN].
Qed.

Lemma in_sortedFills (cells : list Replay.cell) (c : Replay.cell) :
  In c (Replay.sortedFills cells) <-> In c cells /\ Replay.filled c = true.
Proof.
  unfold Replay.sortedFills. rewrite <- filter_In. split; intros H.
  - eapply Permutation_in; [| exact H]. apply Permutation_sym, array_sort_perm.
  - eapply Permutation_in; [| exact H]. apply array_sort_perm.
Qed.

(** [minTS] and [maxTS] are the least and the greatest time stamp of a
    fill. *)
Lemma minTS_maxTS (cells : list Replay.cell) (c0 : Replay.cell) :
  (forall c, In c cells -> clocked c) ->
  In c0 cells -> Replay.filled c0 = true ->
  exists mn mx,
    Reveal.minTS cells = Some mn /\ Reveal.maxTS cells = Some mx /\
    amount mn = true /\ amount mx = true /\
    (exists c, In c cells /\ Replay.filled c = true /\ stamp c = mn) /\
    (exists c, In c cells /\ Replay.filled c = true /\ stamp c = mx) /\
    forall c, In c cells -> Replay.filled c = true ->
      Num.leb mn (stamp c) = true /\ Num.leb (stamp c) mx = true.
Proof.
  intros Hcl H0 F0.
  assert (Hs : forall c, In c cells -> stamped c) by (intros c Hc; apply clocked_stamped; auto).
  assert (Sorted := sortedFills_sorted cells Hs).
  assert (I0 := proj2 (in_sortedFills cells c0) (conj H0 F0)).
  unfold Reveal.minTS, Reveal.maxTS.
  assert (Am : forall c, In c (Replay.sortedFills cells) -> amount (stamp c) = true).
  { intros c Hc. apply in_sortedFills in Hc as [Hc Hf]. apply clocked_stamp; auto. }
  assert (Mx := d3_max_spec (map (fun d => Num.of_optional (Replay.timestamp d))
                                 (Replay.sortedFills cells))).
  destruct (Replay.sortedFills cells) as [| first rest] eqn:Es; [destruct I0 |].
  assert (A1 : amount (stamp first) = true) by (apply Am; now left).
  rewrite (d3_min_of_sorted first rest (amount_not_NaN _ A1)
             ltac:(now inversion Sorted)).
  destruct (D3.max _) as [mx |].
  2:{ exfalso. specialize (Mx (stamp first) ltac:(now left)).
      rewrite (amount_not_NaN _ A1) in Mx. discriminate. }
  destruct Mx as (Imx & Nmx & Gmx).
  apply in_map_iff in Imx as (cm & Ecm & Icm).
  exists (stamp first), mx. split; [reflexivity |]. split; [reflexivity |].
  split; [exact A1 |]. split; [rewrite <- Ecm; now apply Am |].
  assert (Back : forall c, In c (first :: rest) -> In c cells /\ Replay.filled c = true).
  { intros c Hc. apply in_sortedFills. now rewrite Es. }
  split; [exists first; destruct (Back first ltac:(now left)); auto |].
  split; [exists cm; destruct (Back cm Icm); auto |].
  intros c Hc Hf.
  assert (Ic : In c (first :: rest)) by (rewrite <- Es; now apply in_sortedFills).
  split.
  - destruct Ic as [<- | Ic]; [now apply leb_refl_amount |].
    inversion Sorted as [| ? ? _ Hall]; subst. rewrite Forall_forall in Hall. now apply Hall.
  - apply not_ltb_leb; [exact Nmx | apply amount_not_NaN, Am; exact Ic |].
    apply Gmx. apply in_map_iff. exists c. split; [reflexivity | exact Ic].
Qed.

Lemma startDelay_amount : amount Reveal.startDelay = true.
Proof. vm_compute. reflexivity. Qed.

Lemma totalSolveDuration_amount : amount Reveal.totalSolveDuration = true.
Proof. vm_compute. reflexivity. Qed.

Lemma add_startDelay_zero (s : bool) : Num_add Reveal.startDelay (S754_zero s) = Reveal.startDelay.
Proof. destruct s; vm_compute; reflexivity. Qed.

Lemma add_startDelay_total : Num_add Reveal.startDelay Reveal.totalSolveDuration = endDelay.
Proof. vm_compute. reflexivity. Qed.

(** The span [maxTS - minTS] of a replay whose fills are not all at one
    time is a finite Number above zero. *)
Lemma span_positive (mn mx : number) :
  amount mn = true -> amount mx = true -> Num.ltb mn mx = true ->
  exists md ed, Num.sub mx mn = S754_finite false md ed /\
                amount (S754_finite false md ed) = true.
Proof.
  intros Hmn Hmx Hlt.
  destruct (sub_amount mx mn Hmx Hmn (ltb_leb _ _ Hlt)) as [A _].
  destruct (sub_sign mx mn (amount_valid _ Hmx) (amount_valid _ Hmn)
              (amount_not_NaN _ Hmx) (amount_not_NaN _ Hmn)) as [G _].
  rewrite Hlt in G.
  destruct (amount_cases _ A) as [[s E] | (md & ed & E & _)].
  - rewrite E in G. destruct s; discriminate G.
  - exists md, ed. split; [exact E |]. now rewrite <- E.
Qed.

(** The delay of a letter as a function of its time stamp. *)
Lemma delay_in_range (mn mx ts : number) :
  amount mn = true -> amount mx = true -> Num.ltb mn mx = true ->
  amount ts = true -> Num.leb mn ts = true -> Num.leb ts mx = true ->
  let p := Num.mul (Num.div (Num.sub ts mn) (Num.sub mx mn)) Reveal.totalSolveDuration in
  amount p = true /\
  Num.leb Reveal.startDelay (Num_add Reveal.startDelay p) = true /\
  Num.leb (Num_add Reveal.startDelay p) endDelay = true.
Proof.
  intros Hmn Hmx Hlt Hts L1 L2 p. subst p.
  destruct (span_positive mn mx Hmn Hmx Hlt) as (md & ed & ED & AD).
  destruct (sub_amount ts mn Hts Hmn L1) as [Ad _].
  assert (LdD := sub_mono_l ts mx mn Hts Hmx Hmn L1 L2).
  rewrite ED in *.
  destruct (div_amount _ md ed Ad AD LdD) as [Aq Lq].
  destruct (mul_amount _ _ Aq totalSolveDuration_amount Lq) as [Ap Lp].
  split; [exact Ap |].
  destruct (add_mono_r Reveal.startDelay Num.zero _ startDelay_amount eq_refl Ap
              (amount_nonneg _ Ap)) as (_ & _ & Lo).
  unfold Num.zero in Lo. rewrite (add_startDelay_zero false) in Lo.
  destruct (add_mono_r Reveal.startDelay _ _ startDelay_amount Ap totalSolveDuration_amount Lp)
    as (_ & _ & Hi).
  rewrite add_startDelay_total in Hi. split; assumption.
Qed.

Lemma delay_mono (mn mx ts ts' : number) :
  amount mn = true -> amount mx = true -> Num.ltb mn mx = true ->
  amount ts = true -> amount ts' = true ->
  Num.leb mn ts = true -> Num.leb ts ts' = true -> Num.leb ts' mx = true ->
  Num.leb
    (Num_add Reveal.startDelay
       (Num.mul (Num.div (Num.sub ts mn) (Num.sub mx mn)) Reveal.totalSolveDuration))
    (Num_add Reveal.startDelay
       (Num.mul (Num.div (Num.sub ts' mn) (Num.sub mx mn)) Reveal.totalSolveDuration)) = true.
Proof.
  intros Hmn Hmx Hlt Hts Hts' L1 L2 L3.
  assert (L1' := leb_trans _ _ _ L1 L2). assert (L2' := leb_trans _ _ _ L2 L3).
  destruct (delay_in_range mn mx ts Hmn Hmx Hlt Hts L1 L2') as (Ap & _).
  destruct (delay_in_range mn mx ts' Hmn Hmx Hlt Hts' L1' L3) as (Ap' & _).
  cbv zeta in Ap, Ap'.
  destruct (span_positive mn mx Hmn Hmx Hlt) as (md & ed & ED & AD).
  destruct (sub_amount ts mn Hts Hmn L1) as [Ad _].
  destruct (sub_amount ts' mn Hts' Hmn L1') as [Ad' _].
  assert (Ld := sub_mono_l ts ts' mn Hts Hts' Hmn L1 L2).
  assert (LdD := sub_mono_l ts mx mn Hts Hmx Hmn L1 L2').
  assert (LdD' := sub_mono_l ts' mx mn Hts' Hmx Hmn L1' L3).
  rewrite ED in *.
  destruct (div_amount _ md ed Ad AD LdD) as [Aq _].
  destruct (div_amount _ md ed Ad' AD LdD') as [Aq' _].
  destruct (div_mono_l _ _ md ed Ad Ad' Ld) as (_ & _ & Lq).
  destruct (mul_mono_l _ _ _ Aq Aq' totalSolveDuration_amount Lq) as (_ & _ & Lp).
  destruct (add_mono_r Reveal.startDelay _ _ startDelay_amount Ap Ap' Lp) as (_ & _ & L).
  exact L.
Qed.

Lemma delay_of_first (mn mx ts : number) :
  amount mn = true -> amount mx = true -> Num.ltb mn mx = true ->
  amount ts = true -> Num.leb mn ts = true -> Num.leb ts mn = true ->
  Num_add Reveal.startDelay
    (Num.mul (Num.div (Num.sub ts mn) (Num.sub mx mn)) Reveal.totalSolveDuration)
  = Reveal.startDelay.
Proof.
  intros Hmn Hmx Hlt Hts L1 L2.
  destruct (span_positive mn mx Hmn Hmx Hlt) as (md & ed & -> & AD).
  assert (E : exists s, Num.sub ts mn = S754_zero s).
  { destruct (leb_antisym_amount ts mn Hts Hmn L2 L1) as [-> | [[s ->] [s' ->]]].
    - now apply sub_self_amount.
    - destruct s, s'; eexists; reflexivity. }
  destruct E as [s ->].
  change (Num.div (S754_zero s) (S754_finite false md ed)) with (S754_zero (xorb s false)).
  destruct s; vm_compute; reflexivity.
Qed.

Lemma delay_of_last (mn mx ts : number) :
  amount mn = true -> amount mx = true -> Num.ltb mn mx = true ->
  amount ts = true -> Num.leb mx ts = true -> Num.leb ts mx = true ->
  Num_add Reveal.startDelay
    (Num.mul (Num.div (Num.sub ts mn) (Num.sub mx mn)) Reveal.totalSolveDuration)
  = endDelay.
Proof.
  intros Hmn Hmx Hlt Hts L1 L2.
  destruct (span_positive mn mx Hmn Hmx Hlt) as (md & ed & ED & AD).
  assert (E : ts = mx).
  { destruct (leb_antisym_amount ts mx Hts Hmx L2 L1) as [-> | [_ [s' E']]]; [reflexivity |].
    exfalso. subst mx.
    assert (N := amount_nonneg _ Hmn). rewrite <- (leb_zero_sign s') in N.
    apply leb_not_ltb in N. congruence. }
  subst ts. rewrite ED, div_self, (mul_one_l _ totalSolveDuration_amount).
  apply add_startDelay_total.
Qed.

Lemma in_letters (cells : list Replay.cell) (c : Replay.cell) :
  In c cells -> Replay.filled c = true ->
  In (c, Reveal.normalizedDelay cells c) (Reveal.letters cells).
Proof.
  intros Hc Hf. unfold Reveal.letters. apply in_map_iff. exists c. split; [reflexivity |].
  apply filter_In. split; [exact Hc |].
  unfold Replay.filled in Hf. now apply andb_prop in Hf as [Hf _].
Qed.

(** X12.  The replay of [renderCard7] reveals the letters in the order
    in which they were filled in, from 2 seconds to 22 seconds after
    the card is shown: for a board whose time stamps are finite Numbers
    that are not negative, with two fills at different times, the
    delay of every filled cell lies between [startDelay] = 2000 and
    [startDelay + totalSolveDuration] = 22000, a cell filled no later
    than another has a delay that is no longer, the earliest fill has
    the delay 2000 exactly and the latest 22000 exactly. *)
Theorem letters_are_revealed_in_the_order_of_the_fills (cells : list Replay.cell) :
  (forall c, In c cells -> clocked c) ->
  (exists c1 c2, In c1 cells /\ In c2 cells /\
     Replay.filled c1 = true /\ Replay.filled c2 = true /\
     Num.ltb (stamp c1) (stamp c2) = true) ->
  (forall c, In c cells -> Replay.filled c = true ->
     In (c, Reveal.normalizedDelay cells c) (Reveal.letters cells) /\
     Num.leb Reveal.startDelay (Reveal.normalizedDelay cells c) = true /\
     Num.leb (Reveal.normalizedDelay cells c) endDelay = true) /\
  (forall c c', In c cells -> In c' cells ->
     Replay.filled c = true -> Replay.filled c' = true ->
     Num.leb (stamp c) (stamp c') = true ->
     Num.leb (Reveal.normalizedDelay cells c) (Reveal.normalizedDelay cells c') = true) /\
  (forall c, In c cells -> Replay.filled c = true ->
     (forall c', In c' cells -> Replay.filled c' = true ->
        Num.leb (stamp c) (stamp c') = true) ->
     Reveal.normalizedDelay cells c = Reveal.startDelay) /\
  (forall c, In c cells -> Replay.filled c = true ->
     (forall c', In c' cells -> Replay.filled c' = true ->
        Num.leb (stamp c') (stamp c) = true) ->
     Reveal.normalizedDelay cells c = endDelay).
Proof.
  intros Hcl (c1 & c2 & I1 & I2 & F1 & F2 & Hlt).
  destruct (minTS_maxTS cells c1 Hcl I1 F1)
    as (mn & mx & Emn & Emx & Amn & Amx & (cn & In_ & Fn & En) & (cx & Ix & Fx & Ex) & Hall).
  assert (Hspan : Num.ltb mn mx = true).
  { destruct (Hall c1 I1 F1) as [L1 _]. destruct (Hall c2 I2 F2) as [_ L2].
    apply (leb_ltb_trans _ _ _ L1). destruct (Num.ltb (stamp c1) mx) eqn:E; [reflexivity |].
    exfalso. apply not_ltb_leb in E;
      [| apply amount_not_NaN, clocked_stamp; auto | now apply amount_not_NaN].
    assert (L := leb_trans _ _ _ L2 E). apply leb_not_ltb in L. congruence. }
  assert (A : forall c, In c cells -> Replay.filled c = true -> amount (stamp c) = true)
    by (intros c Hc Hf; apply clocked_stamp; auto).
  unfold Reveal.normalizedDelay. rewrite Emn, Emx. cbn [Num.of_optional].
  split; [| split; [| split]].
  - intros c Hc Hf. destruct (Hall c Hc Hf) as [L1 L2].
    split.
    + generalize (in_letters cells c Hc Hf). unfold Reveal.normalizedDelay.
      rewrite Emn, Emx. cbn [Num.of_optional]. exact (fun H => H).
    + destruct (delay_in_range mn mx (stamp c) Amn Amx Hspan (A c Hc Hf) L1 L2) as (_ & Lo & Hi).
      split; assumption.
  - intros c c' Hc Hc' Hf Hf' L.
    destruct (Hall c Hc Hf) as [L1 _]. destruct (Hall c' Hc' Hf') as [_ L2].
    exact (delay_mono mn mx (stamp c) (stamp c') Amn Amx Hspan (A c Hc Hf) (A c' Hc' Hf')
             L1 L L2).
  - intros c Hc Hf Hleast. destruct (Hall c Hc Hf) as [L1 _].
    apply (delay_of_first mn mx (stamp c) Amn Amx Hspan (A c Hc Hf) L1).
    rewrite <- En. now apply Hleast.
  - intros c Hc Hf Hmost. destruct (Hall c Hc Hf) as [_ L2].
    refine (delay_of_last mn mx (stamp c) Amn Amx Hspan (A c Hc Hf) _ L2).
    rewrite <- Ex. now apply Hmost.
Qed.

(** Two letters, filled in at 10 and at 30 seconds. *)
Lemma letters_are_revealed_witness :
  Reveal.normalizedDelay [last_fill; first_fill] first_fill = Reveal.startDelay /\
  Reveal.normalizedDelay [last_fill; first_fill] last_fill = endDelay.
Proof.
  assert (Hcl : forall c, In c [last_fill; first_fill] -> clocked c).
  { intros c [<- | [<- | []]] t Ht; injection Ht as <-; vm_compute; reflexivity. }
  assert (Hex : exists c1 c2, In c1 [last_fill; first_fill] /\ In c2 [last_fill; first_fill] /\
            Replay.filled c1 = true /\ Replay.filled c2 = true /\
            Num.ltb (stamp c1) (stamp c2) = true).
  { exists first_fill, last_fill. repeat split; try (vm_compute; reflexivity); cbn; auto. }
  destruct (letters_are_revealed_in_the_order_of_the_fills [last_fill; first_fill] Hcl Hex)
    as (_ & _ & Hfirst & Hlast).
  split.
  - apply Hfirst; [cbn; auto | reflexivity |].
    intros c' [<- | [<- | []]] _; vm_compute; reflexivity.
  - apply Hlast; [cbn; auto | reflexivity |].
    intros c' [<- | [<- | []]] _; vm_compute; reflexivity.
Defined.

Lemma sub_self_zero_or_NaN (x : number) :
  Num.sub x x = S754_nan \/ exists s, Num.sub x x = S754_zero s.
Proof.
  destruct x as [s | s | | s m e].
  - right. destruct s; eexists; reflexivity.
  - left. destruct s; reflexivity.
  - left. reflexivity.
  - right. rewrite sub_finite_rnd, Z.sub_diag. exists false. reflexivity.
Qed.

Lemma d3_min_constant (t : number) (vs : list number) :
  (forall v, In v vs -> v = t) ->
  Replay.d3_min vs = match vs with
                     | [] => None
                     | _ => if Num.isNaN t then None else Some t
                     end.
Proof.
  intros Hall. unfold Replay.d3_min.
  assert (K : forall l, (forall v, In v l -> v = t) ->
            fold_left
              (fun (min : option number) (value : number) =>
                 match min with
                 | Some m => if Num.gtb m value then Some value else min
                 | None => if Num.geb value value then Some value else None
                 end) l (if Num.isNaN t then None else Some t)
            = if Num.isNaN t then None else Some t).
  { induction l as [| v l IH]; intros H; [reflexivity |].
    cbn [fold_left]. rewrite (H v (or_introl eq_refl)).
    destruct (Num.isNaN t) eqn:N.
    - rewrite geb_self, N. cbn [negb].
      specialize (IH (fun v' Hv' => H v' (or_intror Hv'))). try rewrite N in IH. exact IH.
    - unfold Num.gtb. fold (Num.ltb t t). rewrite ltb_irrefl.
      specialize (IH (fun v' Hv' => H v' (or_intror Hv'))). try rewrite N in IH. exact IH. }
  destruct vs as [| v vs]; [reflexivity |].
  cbn [fold_left]. rewrite (Hall v (or_introl eq_refl)), geb_self.
  destruct (Num.isNaN t) eqn:N; cbn [negb].
  - specialize (K vs (fun v' Hv' => Hall v' (or_intror Hv'))). try rewrite N in K. exact K.
  - specialize (K vs (fun v' Hv' => Hall v' (or_intror Hv'))). try rewrite N in K. exact K.
Qed.

Lemma d3_max_constant (t : number) (vs : list number) :
  (forall v, In v vs -> v = t) ->
  D3.max vs = match vs with
              | [] => None
              | _ => if Num.isNaN t then None else Some t
              end.
Proof.
  intros Hall. unfold D3.max.
  assert (K : forall l, (forall v, In v l -> v = t) ->
            fold_left
              (fun (max : option number) (value : number) =>
                 match max with
                 | Some m => if Num.ltb m value then Some value else max
                 | None => if Num.geb value value then Some value else None
                 end) l (if Num.isNaN t then None else Some t)
            = if Num.isNaN t then None else Some t).
  { induction l as [| v l IH]; intros H; [reflexivity |].
    cbn [fold_left]. rewrite (H v (or_introl eq_refl)).
    destruct (Num.isNaN t) eqn:N.
    - rewrite geb_self, N. cbn [negb].
      specialize (IH (fun v' Hv' => H v' (or_intror Hv'))). try rewrite N in IH. exact IH.
    - rewrite ltb_irrefl.
      specialize (IH (fun v' Hv' => H v' (or_intror Hv'))). try rewrite N in IH. exact IH. }
  destruct vs as [| v vs]; [reflexivity |].
  cbn [fold_left]. rewrite (Hall v (or_introl eq_refl)), geb_self.
  destruct (Num.isNaN t) eqn:N; cbn [negb].
  - specialize (K vs (fun v' Hv' => Hall v' (or_intror Hv'))). try rewrite N in K. exact K.
  - specialize (K vs (fun v' Hv' => Hall v' (or_intror Hv'))). try rewrite N in K. exact K.
Qed.

Lemma delay_of_NaN_ratio (q : number) :
  Num.isNaN q = true ->
  Num.isNaN (Num_add Reveal.startDelay (Num.mul q Reveal.totalSolveDuration)) = true.
Proof. destruct q; try discriminate. intros _. vm_compute. reflexivity. Qed.

Lemma div_by_zero_of_NaN_or_zero (n : number) (s : bool) :
  n = S754_nan \/ (exists s', n = S754_zero s') ->
  Num.isNaN (Num.div n (S754_zero s)) = true.
Proof. intros [-> | [s' ->]]; reflexivity. Qed.

(** X13.  The delay is NaN, so that the timer of the letter has no
    delay to wait for, for every cell without a time stamp, and for
    every letter of a board whose fills all have the same time stamp
    (one fill only, or none at all, among them): [maxTS - minTS] is
    zero or NaN then, and divides zero or NaN. *)
Theorem letters_without_a_time_or_a_span_have_no_delay :
  forall cells : list Replay.cell,
    (forall c, Replay.timestamp c = None ->
       Num.isNaN (Reveal.normalizedDelay cells c) = true) /\
    ((forall c c', In c cells -> In c' cells ->
        Replay.filled c = true -> Replay.filled c' = true -> stamp c = stamp c') ->
     forall c delay, In (c, delay) (Reveal.letters cells) -> Num.isNaN delay = true).
Proof.
  intros cells. split.
  - intros c Hc. unfold Reveal.normalizedDelay. rewrite Hc. cbn [Num.of_optional].
    apply delay_of_NaN_ratio. reflexivity.
  - intros Hsame c delay Hin.
    unfold Reveal.letters in Hin. apply in_map_iff in Hin as (c0 & E & Hin).
    injection E as -> <-. apply filter_In in Hin as [Hc Hb].
    unfold Reveal.normalizedDelay. apply delay_of_NaN_ratio.
    (* the time stamps of the fills *)
    assert (Hvs : exists t, forall v,
              In v (map (fun d => Num.of_optional (Replay.timestamp d)) (Replay.sortedFills cells))
              -> v = t).
    { destruct (Replay.sortedFills cells) as [| f fs] eqn:Es.
      - exists Num.NaN. intros v [].
      - exists (stamp f). intros v Hv. apply in_map_iff in Hv as (d & <- & Hd).
        assert (If : In f (Replay.sortedFills cells)) by (rewrite Es; now left).
        assert (Id : In d (Replay.sortedFills cells)) by (rewrite Es; exact Hd).
        apply in_sortedFills in If as [If Ff]. apply in_sortedFills in Id as [Id Fd].
        exact (Hsame d f Id If Fd Ff). }
    destruct Hvs as [t Ht].
    assert (Hmem : forall c', In c' cells -> Replay.filled c' = true -> stamp c' = t).
    { intros c' Hc' Hf'. apply Ht. apply in_map_iff. exists c'. split; [reflexivity |].
      apply in_sortedFills. auto. }
    unfold Reveal.minTS, Reveal.maxTS.
    rewrite (d3_min_constant t _ Ht), (d3_max_constant t _ Ht).
    destruct (map (fun d => Num.of_optional (Replay.timestamp d)) (Replay.sortedFills cells))
      as [| v vs] eqn:Em.
    + cbn [Num.of_optional]. destruct (Num.sub _ Num.NaN); reflexivity.
    + destruct (Num.isNaN t) eqn:N.
      * cbn [Num.of_optional]. destruct (Num.sub _ Num.NaN); reflexivity.
      * cbn [Num.of_optional].
        destruct (sub_self_zero_or_NaN t) as [-> | [s ->]].
        -- destruct (Num.sub _ t); reflexivity.
        -- apply div_by_zero_of_NaN_or_zero.
           destruct (Replay.timestamp c) as [tc |] eqn:Etc; [| left; reflexivity].
           assert (Fc : Replay.filled c = true)
             by (unfold Replay.filled; rewrite Hb, Etc; reflexivity).
           assert (Et : stamp c = t) by (apply Hmem; assumption).
           unfold stamp in Et. rewrite Etc in Et. cbn [Num.of_optional] in *. subst tc.
           destruct (sub_self_zero_or_NaN t) as [E | E]; [left | right]; exact E.
Qed.

(** ** [Math.min] and [Math.max] *)

Lemma Math_min_fold (vs : list number) :
  forall (seen : list number) (lowest : number),
    existsb Num.isNaN vs = false ->
    Num.isNaN lowest = false ->
    (forall v, In v seen -> Num.leb lowest v = true) ->
    (lowest = Num.Infinity \/ In lowest seen) ->
    let r := fold_left
               (fun (lowest : number) (n : number) =>
                  match n, lowest with
                  | S754_zero true, S754_zero false => n
                  | _, _ => if Num.ltb n lowest then n else lowest
                  end) vs lowest in
    Num.isNaN r = false /\
    (forall v, In v (seen ++ vs) -> Num.leb r v = true) /\
    (r = Num.Infinity \/ In r (seen ++ vs)).
Proof.
  induction vs as [| n vs IH]; intros seen lowest Hn Hl Hle Hin.
  - cbn [fold_left]. rewrite app_nil_r. auto.
  - cbn [existsb] in Hn. apply orb_false_elim in Hn as [Nn Hn].
    cbn [fold_left].
    set (next := match n, lowest with
                 | S754_zero true, S754_zero false => n
                 | _, _ => if Num.ltb n lowest then n else lowest
                 end).
    assert (Hnext : Num.isNaN next = false /\
                    (forall v, In v (seen ++ [n]) -> Num.leb next v = true) /\
                    (next = Num.Infinity \/ In next (seen ++ [n]))).
    { assert (Cases : (next = n /\ Num.leb n lowest = true) \/
                      (next = lowest /\ Num.leb lowest n = true)).
      { unfold next.
        destruct (Num.ltb n lowest) eqn:L.
        - left. split; [| now apply ltb_leb].
          destruct n as [[|] | | |]; try reflexivity. destruct lowest as [[|] | | |]; reflexivity.
        - assert (Num.leb lowest n = true) by (apply not_ltb_leb; assumption).
          destruct n as [[|] | | |]; try (right; split; [reflexivity | assumption]).
          destruct lowest as [[|] | | |]; try (right; split; [reflexivity | assumption]).
          left. split; reflexivity. }
      destruct Cases as [[-> L] | [-> L]].
      - split; [exact Nn |]. split.
        + intros v Hv. apply in_app_iff in Hv as [Hv | [<- | []]].
          * exact (leb_trans _ _ _ L (Hle v Hv)).
          * change (Num.leb n n) with (Num.geb n n). rewrite geb_self, Nn. reflexivity.
        + right. apply in_app_iff. right. now left.
      - split; [exact Hl |]. split.
        + intros v Hv. apply in_app_iff in Hv as [Hv | [<- | []]]; [now apply Hle | exact L].
        + destruct Hin as [E | Hin]; [now left | right; apply in_app_iff; now left]. }
    destruct Hnext as (N1 & N2 & N3).
    specialize (IH (seen ++ [n]) next Hn N1 N2 N3).
    rewrite <- app_assoc in IH. exact IH.
Qed.

(** [Math.min] of values that are not NaN: one of them, or
    [+Infinity] for none, and none of them is smaller. *)
Lemma Math_min_spec (vs : list number) :
  existsb Num.isNaN vs = false ->
  Num.isNaN (Math_min vs) = false /\
  (forall v, In v vs -> Num.leb (Math_min vs) v = true) /\
  (Math_min vs = Num.Infinity \/ In (Math_min vs) vs).
Proof.
  intros Hn. unfold Math_min. rewrite Hn.
  apply (Math_min_fold vs [] Num.Infinity Hn eq_refl); [intros v [] | now left].
Qed.

Lemma Math_min_NaN (vs : list number) :
  existsb Num.isNaN vs = true -> Math_min vs = Num.NaN.
Proof. intros H. unfold Math_min. now rewrite H. Qed.

Lemma Math_max_fold (vs : list number) :
  forall (seen : list number) (highest : number),
    existsb Num.isNaN vs = false ->
    Num.isNaN highest = false ->
    (forall v, In v seen -> Num.leb v highest = true) ->
    (highest = Num.NegInfinity \/ In highest seen) ->
    let r := fold_left
               (fun (highest : number) (n : number) =>
                  match n, highest with
                  | S754_zero false, S754_zero true => n
                  | _, _ => if Num.gtb n highest then n else highest
                  end) vs highest in
    Num.isNaN r = false /\
    (forall v, In v (seen ++ vs) -> Num.leb v r = true) /\
    (r = Num.NegInfinity \/ In r (seen ++ vs)).
Proof.
  induction vs as [| n vs IH]; intros seen highest Hn Hl Hle Hin.
  - cbn [fold_left]. rewrite app_nil_r. auto.
  - cbn [existsb] in Hn. apply orb_false_elim in Hn as [Nn Hn].
    cbn [fold_left].
    set (next := match n, highest with
                 | S754_zero false, S754_zero true => n
                 | _, _ => if Num.gtb n highest then n else highest
                 end).
    assert (Hnext : Num.isNaN next = false /\
                    (forall v, In v (seen ++ [n]) -> Num.leb v next = true) /\
                    (next = Num.NegInfinity \/ In next (seen ++ [n]))).
    { assert (Cases : (next = n /\ Num.leb highest n = true) \/
                      (next = highest /\ Num.leb n highest = true)).
      { unfold next, Num.gtb. fold (Num.ltb highest n).
        destruct (Num.ltb highest n) eqn:L.
        - left. split; [| now apply ltb_leb].
          destruct n as [[|] | | |]; try reflexivity. destruct highest as [[|] | | |]; reflexivity.
        - assert (Num.leb n highest = true) by (apply not_ltb_leb; assumption).
          destruct n as [[|] | | |]; try (right; split; [reflexivity | assumption]).
          destruct highest as [[|] | | |]; try (right; split; [reflexivity | assumption]).
          left. split; reflexivity. }
      destruct Cases as [[-> L] | [-> L]].
      - split; [exact Nn |]. split.
        + intros v Hv. apply in_app_iff in Hv as [Hv | [<- | []]].
          * exact (leb_trans _ _ _ (Hle v Hv) L).
          * change (Num.leb n n) with (Num.geb n n). rewrite geb_self, Nn. reflexivity.
        + right. apply in_app_iff. right. now left.
      - split; [exact Hl |]. split.
        + intros v Hv. apply in_app_iff in Hv as [Hv | [<- | []]]; [now apply Hle | exact L].
        + destruct Hin as [E | Hin]; [now left | right; apply in_app_iff; now left]. }
    destruct Hnext as (N1 & N2 & N3).
    specialize (IH (seen ++ [n]) next Hn N1 N2 N3).
    rewrite <- app_assoc in IH. exact IH.
Qed.

Lemma Math_max_spec (vs : list number) :
  existsb Num.isNaN vs = false ->
  Num.isNaN (Math_max vs) = false /\
  (forall v, In v vs -> Num.leb v (Math_max vs) = true) /\
  (Math_max vs = Num.NegInfinity \/ In (Math_max vs) vs).
Proof.
  intros Hn. unfold Math_max. rewrite Hn.
  apply (Math_max_fold vs [] Num.NegInfinity Hn eq_refl); [intros v [] | now left].
Qed.

Lemma Math_max_NaN (vs : list number) :
  existsb Num.isNaN vs = true -> Math_max vs = Num.NaN.
Proof. intros H. unfold Math_max. now rewrite H. Qed.

(** ** The frame of the app never grows *)

Lemma ltb_leb_pred (x : number) (m : positive) (e : Z) :
  amount x = true -> (1 < m)%positive ->
  Num.ltb x (S754_finite false m e) = true ->
  Num.leb x (S754_finite false (Pos.pred m) e) = true.
Proof.
  intros Hx Hm Hlt.
  destruct (amount_cases x Hx) as [[s ->] | (mx & ex & -> & _)]; [reflexivity |].
  apply (ltb_rank (S754_finite false mx ex) (S754_finite false m e) eq_refl eq_refl) in Hlt.
  cbn [rank rank_lt] in Hlt.
  apply leb_finite_pos. lia.
Qed.

(** A quotient of an amount by one that is greater is below 1, when
    that holds for the Number next below the divisor. *)
Lemma div_below_one (x : number) (m : positive) (e : Z) :
  amount x = true -> (1 < m)%positive ->
  amount (S754_finite false (Pos.pred m) e) = true ->
  Num.ltb (Num.div (S754_finite false (Pos.pred m) e) (S754_finite false m e)) Num.one = true ->
  Num.ltb x (S754_finite false m e) = true ->
  Num.ltb (Num.div x (S754_finite false m e)) Num.one = true.
Proof.
  intros Hx Hm Hp Hc Hlt.
  assert (L := ltb_leb_pred x m e Hx Hm Hlt).
  destruct (div_mono_l x _ m e Hx Hp L) as (_ & _ & L').
  exact (leb_ltb_trans _ _ _ L' Hc).
Qed.

(** A quotient of an amount by one no greater is 1 at least. *)
Lemma div_above_one (x : number) (m : positive) (e : Z) :
  amount x = true -> amount (S754_finite false m e) = true ->
  Num.leb (S754_finite false m e) x = true ->
  Num.leb Num.one (Num.div x (S754_finite false m e)) = true.
Proof.
  intros Hx Hd Hle.
  destruct (div_mono_l _ x m e Hd Hx Hle) as (_ & _ & L).
  now rewrite div_self in L.
Qed.

Lemma n540_value : Num.of_Z 540 = S754_finite false 4749890231992320 (-43).
Proof. vm_compute. reflexivity. Qed.

Lemma n960_value : Num.of_Z 960 = S754_finite false 8444249301319680 (-43).
Proof. vm_compute. reflexivity. Qed.

Lemma leb_one_antisym (x : number) :
  Num.valid x = true -> Num.leb x Num.one = true -> Num.leb Num.one x = true -> x = Num.one.
Proof.
  intros V L1 L2.
  assert (A : amount x = true).
  { apply (amount_below x Num.one V); [| exact L1 | reflexivity].
    exact (leb_trans _ _ _ (eq_refl : Num.leb Num.zero Num.one = true) L2). }
  destruct (leb_antisym_amount x Num.one A eq_refl L1 L2) as [E | [_ [s E]]]; [exact E |].
  rewrite one_value in E. discriminate E.
Qed.

(** X14.  [fitAppFrame] never scales the frame up: for a window whose
    inner width and height are amounts, the scale lies between 0 and 1;
    it is 1, and the transform [scale(1)], exactly when the window is
    540 wide and 960 high at least, and below 1 otherwise. *)
Theorem fitAppFrame_scales_down_only (vw vh : number) :
  amount vw = true -> amount vh = true ->
  Num.leb Num.zero (Frame.scale vw vh) = true /\
  Num.leb (Frame.scale vw vh) Num.one = true /\
  (Frame.scale vw vh = Num.one <->
   Num.leb (Num.of_Z 540) vw = true /\ Num.leb (Num.of_Z 960) vh = true) /\
  (Num.leb (Num.of_Z 540) vw = true -> Num.leb (Num.of_Z 960) vh = true ->
   Frame.fitAppFrame true vw vh = Some (js "scale(1)")).
Proof.
  intros Hw Hh. unfold Frame.fitAppFrame, Frame.scale. rewrite n540_value, n960_value.
  set (a := Num.div vw (S754_finite false 4749890231992320 (-43))).
  set (b := Num.div vh (S754_finite false 8444249301319680 (-43))).
  destruct (div_mono_l vw vw 4749890231992320 (-43) Hw Hw (leb_refl_amount _ Hw))
    as (Va & Na & _).
  destruct (div_mono_l vh vh 8444249301319680 (-43) Hh Hh (leb_refl_amount _ Hh))
    as (Vb & Nb & _).
  fold a in Va, Na. fold b in Vb, Nb.
  assert (NaN_ : existsb Num.isNaN [a; b; Num.one] = false).
  { cbn [existsb]. destruct (leb_not_NaN _ _ Na) as [_ ->].
    destruct (leb_not_NaN _ _ Nb) as [_ ->]. reflexivity. }
  destruct (Math_min_spec [a; b; Num.one] NaN_) as (Nr & Hle & Hin).
  set (r := Math_min [a; b; Num.one]) in *.
  assert (L1 : Num.leb r Num.one = true) by (apply Hle; cbn; auto).
  assert (Hr : r = a \/ r = b \/ r = Num.one).
  { destruct Hin as [E | [E | [E | [E | []]]]]; auto.
    rewrite E in L1. discriminate L1. }
  assert (N0 : Num.leb Num.zero r = true).
  { destruct Hr as [-> | [-> | ->]]; [exact Na | exact Nb | reflexivity]. }
  assert (Vr : Num.valid r = true).
  { destruct Hr as [-> | [-> | ->]]; [exact Va | exact Vb | reflexivity]. }
  assert (Big : Num.leb (S754_finite false 4749890231992320 (-43)) vw = true ->
                Num.leb (S754_finite false 8444249301319680 (-43)) vh = true ->
                r = Num.one).
  { intros Bw Bh.
    assert (A1 := div_above_one vw 4749890231992320 (-43) Hw eq_refl Bw). fold a in A1.
    assert (B1 := div_above_one vh 8444249301319680 (-43) Hh eq_refl Bh). fold b in B1.
    apply (leb_one_antisym r Vr L1).
    destruct Hr as [-> | [-> | ->]]; [exact A1 | exact B1 | reflexivity]. }
  split; [exact N0 |]. split; [exact L1 |]. split.
  - split.
    + intros E.
      assert (Sw : Num.ltb vw (S754_finite false 4749890231992320 (-43)) = true ->
                   Num.ltb a Num.one = true).
      { apply div_below_one; [exact Hw | reflexivity | reflexivity |].
        vm_compute. reflexivity. }
      assert (Sh : Num.ltb vh (S754_finite false 8444249301319680 (-43)) = true ->
                   Num.ltb b Num.one = true).
      { apply div_below_one; [exact Hh | reflexivity | reflexivity |].
        vm_compute. reflexivity. }
      split.
      * apply not_ltb_leb; [now apply amount_not_NaN | reflexivity |].
        destruct (Num.ltb vw _) eqn:Lw; [| reflexivity]. exfalso.
        assert (La : Num.leb r a = true) by (apply Hle; cbn; auto).
        assert (C := leb_ltb_trans _ _ _ La (Sw eq_refl)).
        rewrite E in C. vm_compute in C. discriminate C.
      * apply not_ltb_leb; [now apply amount_not_NaN | reflexivity |].
        destruct (Num.ltb vh _) eqn:Lh; [| reflexivity]. exfalso.
        assert (Lb : Num.leb r b = true) by (apply Hle; cbn; auto).
        assert (C := leb_ltb_trans _ _ _ Lb (Sh eq_refl)).
        rewrite E in C. vm_compute in C. discriminate C.
    + intros [Bw Bh]. now apply Big.
  - intros Bw Bh. rewrite (Big Bw Bh). vm_compute. reflexivity.
Qed.

(** A window of 1280 by 1024. *)
Lemma fitAppFrame_witness :
  Frame.fitAppFrame true (Num.of_Z 1280) (Num.of_Z 1024) = Some (js "scale(1)").
Proof.
  apply (fitAppFrame_scales_down_only (Num.of_Z 1280) (Num.of_Z 1024));
    vm_compute; reflexivity.
Defined.

(** ** Card 1: the arcs end at the final rates *)

(** A finite Number is the rounding of its own mantissa at its own
    exponent, shifted or not. *)
Lemma bra_exact (s : bool) (m : positive) (e k : Z) :
  canonical m e -> e <= 971 -> 0 <= k ->
  binary_round_aux Num.prec Num.emax s (Zpos m * 2 ^ k) (e - k) loc_Exact
  = S754_finite s m e.
Proof.
  intros C He Hk.
  assert (P := pow2_pos k Hk).
  assert (Hd : Zdigits2 (Zpos m * 2 ^ k) = Zdigits2 (Zpos m) + k)
    by (apply Zdigits2_mul_pow2; exact Hk).
  assert (Ee : fexp53 (Zdigits2 (Zpos m * 2 ^ k) + (e - k)) = e).
  { rewrite Hd. replace (Zdigits2 (Zpos m) + k + (e - k)) with (Zdigits2 (Zpos m) + e) by lia.
    exact C. }
  destruct (bra_spec s (Zpos m * 2 ^ k) (e - k) loc_Exact ltac:(nia) ltac:(lia))
    as (m2 & _ & Hex & _ & _ & ->).
  rewrite Ee in *. replace (e - (e - k)) with k in Hex by lia.
  assert (Em : m2 = Zpos m).
  { rewrite Hex; [| reflexivity |]; [apply Z.div_mul | apply Z.mod_mul]; lia. }
  rewrite Em. unfold pack.
  assert (Hm : Zpos m < 2 ^ 53).
  { destruct (Zdigits2_bounds (Zpos m) ltac:(lia)) as [_ Hhi].
    eapply Z.lt_le_trans; [exact Hhi |]. apply Z.pow_le_mono_r; [lia |].
    unfold canonical, fexp53 in C. lia. }
  destruct (Z.eqb_spec (Zpos m) 0) as [| _]; [lia |].
  destruct (Z.ltb_spec (Zpos m) (2 ^ 53)) as [_ |]; [| lia].
  destruct (Z.leb_spec e 971) as [_ |]; [| lia]. reflexivity.
Qed.

(** [x * 1] is [x] for every binary64 Number. *)
Lemma mul_one_valid (x : number) : Num.valid x = true -> Num.mul x Num.one = x.
Proof.
  intros V. destruct x as [s | s | | s m e]; try (destruct s; reflexivity); [reflexivity |].
  apply valid_finite in V as [C He].
  rewrite one_value. unfold Num.mul, SFmul. rewrite xorb_false_r.
  rewrite Pos2Z.inj_mul. change (Zpos 4503599627370496) with (2 ^ 52).
  replace (e + -52) with (e - 52) by lia.
  apply bra_exact; [exact C | exact He | lia].
Qed.

Lemma Math_min_one (q : number) :
  Num.isNaN q = false ->
  Math_min [Num.one; q] = if Num.ltb q Num.one then q else Num.one.
Proof.
  intros N. unfold Math_min. cbn [existsb]. rewrite N, one_value. cbn [Num.isNaN orb fold_left].
  change (Num.ltb (S754_finite false 4503599627370496 (-52)) Num.Infinity) with true.
  cbn iota. destruct q as [[|] | | |]; reflexivity.
Qed.

Lemma Math_max_zero (x : number) :
  Num.isNaN x = false ->
  Math_max [Num.zero; x] = if Num.gtb x Num.zero then x else Num.zero.
Proof.
  intros N. unfold Math_max. cbn [existsb]. rewrite N. cbn [Num.isNaN Num.zero orb fold_left].
  change (Num.gtb (S754_zero false) Num.NegInfinity) with true.
  cbn iota. destruct x as [[|] | | |]; reflexivity.
Qed.

Lemma duration_value : Arc.duration = S754_finite false 5497558138880000 (-41).
Proof. vm_compute. reflexivity. Qed.

Lemma goldArcDelay_value : Arc.goldArcDelay = S754_finite false 7036874417766400 (-44).
Proof. vm_compute. reflexivity. Qed.

Lemma gold_span_value :
  Num.sub Arc.duration Arc.goldArcDelay = S754_finite false 4617948836659200 (-41).
Proof. vm_compute. reflexivity. Qed.

(** The share of a span that has elapsed: [Math.min(1, elapsed / span)]
    for an amount [elapsed] and a span above zero. *)
Lemma progress_spec (elapsed : number) (m : positive) (e : Z) :
  amount elapsed = true -> amount (S754_finite false m e) = true ->
  (1 < m)%positive ->
  amount (S754_finite false (Pos.pred m) e) = true ->
  Num.ltb (Num.div (S754_finite false (Pos.pred m) e) (S754_finite false m e)) Num.one = true ->
  let p := Math_min [Num.one; Num.div elapsed (S754_finite false m e)] in
  amount p = true /\ Num.leb p Num.one = true /\
  Num.ltb p Num.one = Num.ltb elapsed (S754_finite false m e) /\
  (Num.ltb elapsed (S754_finite false m e) = false -> p = Num.one) /\
  (Num.ltb elapsed (S754_finite false m e) = true ->
   p = Num.div elapsed (S754_finite false m e)).
Proof.
  intros He Hd Hm Hp Hc p.
  destruct (div_mono_l elapsed elapsed m e He He (leb_refl_amount _ He)) as (Vq & Nq & _).
  assert (Nn : Num.isNaN (Num.div elapsed (S754_finite false m e)) = false)
    by (apply leb_not_NaN in Nq; tauto).
  unfold p. rewrite (Math_min_one _ Nn).
  destruct (Num.ltb elapsed (S754_finite false m e)) eqn:L.
  - rewrite (div_below_one elapsed m e He Hm Hp Hc L).
    assert (Lq := div_below_one elapsed m e He Hm Hp Hc L).
    split; [| split; [now apply ltb_leb | split; [exact Lq | split; [discriminate | reflexivity]]]].
    apply (amount_below _ Num.one Vq Nq (ltb_leb _ _ Lq)). reflexivity.
  - assert (G : Num.leb (S754_finite false m e) elapsed = true)
      by (apply not_ltb_leb; [now apply amount_not_NaN | reflexivity | exact L]).
    assert (G1 := div_above_one elapsed m e He Hd G).
    rewrite (leb_not_ltb _ _ G1).
    split; [reflexivity |]. split; [reflexivity |]. split; [reflexivity |].
    split; [reflexivity | discriminate].
Qed.

Lemma sub_amounts_not_NaN (a b : number) :
  amount a = true -> amount b = true -> Num.isNaN (Num.sub a b) = false.
Proof.
  intros Ha Hb.
  destruct (amount_cases a Ha) as [[s ->] | (m & e & -> & _)];
    destruct (amount_cases b Hb) as [[s' ->] | (m' & e' & -> & _)].
  - destruct s, s'; reflexivity.
  - reflexivity.
  - reflexivity.
  - rewrite sub_finite_rnd. unfold rnd, binary_normalize.
    destruct (_ - _) as [| p | p]; [reflexivity | |].
    + destruct (binary_round_bra false p (Z.min e e')) as (mz & e1 & -> & Hpre & _ & _).
      destruct (bra_spec false (Zpos mz) e1 loc_Exact ltac:(lia) Hpre) as (m2 & _ & _ & _ & _ & ->).
      apply pack_not_NaN.
    + destruct (binary_round_bra true p (Z.min e e')) as (mz & e1 & -> & Hpre & _ & _).
      destruct (bra_spec true (Zpos mz) e1 loc_Exact ltac:(lia) Hpre) as (m2 & _ & _ & _ & _ & ->).
      apply pack_not_NaN.
Qed.

(** [Math.max(0, elapsed - delay)]: what has elapsed after the delay. *)
Lemma after_delay_spec (elapsed delay : number) :
  amount elapsed = true -> amount delay = true ->
  let g := Math_max [Num.zero; Num.sub elapsed delay] in
  amount g = true /\
  (Num.leb elapsed delay = true -> g = Num.zero) /\
  (Num.ltb delay elapsed = true -> g = Num.sub elapsed delay).
Proof.
  intros He Hd g. unfold g.
  rewrite (Math_max_zero _ (sub_amounts_not_NaN _ _ He Hd)).
  destruct (sub_sign elapsed delay (amount_valid _ He) (amount_valid _ Hd)
              (amount_not_NaN _ He) (amount_not_NaN _ Hd)) as [-> _].
  destruct (Num.ltb delay elapsed) eqn:L.
  - split; [apply sub_amount; [exact He | exact Hd | now apply ltb_leb] |].
    split; [| reflexivity]. intros C. apply leb_not_ltb in C. congruence.
  - split; [reflexivity |]. split; [reflexivity | discriminate].
Qed.

Lemma rates_valid (data : Card1.summary) :
  Num.valid (Card1.total_completed data) = true ->
  Num.valid (Card1.gold_star_completed data) = true ->
  Num.valid (Card1.total_available data) = true ->
  Num.valid (Card1.finalRateTotal data) = true /\
  Num.valid (Card1.finalRateGold data) = true.
Proof.
  intros V1 V2 V3. unfold Card1.finalRateTotal, Card1.finalRateGold.
  split; apply mul_valid; try reflexivity; now apply div_valid.
Qed.

(** A frame after the first, [elapsed] after the start. *)
Lemma draw_later (data : Card1.summary) (t0 t : number) :
  Num.valid (Card1.finalRateTotal data) = true ->
  Num.valid (Card1.finalRateGold data) = true ->
  amount t0 = true -> truthy (VNumber t0) = true ->
  amount t = true -> Num.leb t0 t = true ->
  fst (Arc.draw data (Some t0) t) = t0 /\
  let f := snd (Arc.draw data (Some t0) t) in
  (Num.leb Num.zero (Arc.progressTotal f) = true /\
   Num.leb (Arc.progressTotal f) Num.one = true /\
   Num.leb Num.zero (Arc.progressGold f) = true /\
   Num.leb (Arc.progressGold f) Num.one = true) /\
  Arc.again f = Num.ltb (Num.sub t t0) Arc.duration /\
  (Arc.again f = false ->
   Arc.currentRateTotal f = Card1.finalRateTotal data /\
   Arc.currentRateGold f = Card1.finalRateGold data /\
   Arc.rate f = Number_toFixed0 (Card1.finalRateGold data) ++ js "%").
Proof.
  intros VT VG H0 Tr Ht Hle.
  unfold Arc.draw. cbn [fst snd Arc.started]. rewrite Tr.
  split; [reflexivity |].
  cbn [Arc.progressTotal Arc.progressGold Arc.again Arc.currentRateTotal Arc.currentRateGold
       Arc.rate].
  destruct (sub_amount t t0 Ht H0 Hle) as [Ae _].
  set (elapsed := Num.sub t t0) in *.
  rewrite gold_span_value, duration_value.
  destruct (progress_spec elapsed 5497558138880000 (-41) Ae eq_refl eq_refl eq_refl
              ltac:(vm_compute; reflexivity)) as (Ap & Lp & Ea & P1 & _).
  set (pT := Math_min [Num.one; Num.div elapsed (S754_finite false 5497558138880000 (-41))]) in *.
  destruct (after_delay_spec elapsed Arc.goldArcDelay Ae eq_refl) as (Ag & _ & G1).
  set (g := Math_max [Num.zero; Num.sub elapsed Arc.goldArcDelay]) in *.
  destruct (progress_spec g 4617948836659200 (-41) Ag eq_refl eq_refl eq_refl
              ltac:(vm_compute; reflexivity)) as (Apg & Lpg & _ & PG1 & _).
  set (pG := Math_min [Num.one; Num.div g (S754_finite false 4617948836659200 (-41))]) in *.
  split; [split; [now apply amount_nonneg | split; [exact Lp | split;
            [now apply amount_nonneg | exact Lpg]]] |].
  split; [exact Ea |].
  intros Hend. rewrite Hend. rewrite Ea in Hend.
  assert (Hge : Num.leb (S754_finite false 5497558138880000 (-41)) elapsed = true)
    by (apply not_ltb_leb; [now apply amount_not_NaN | reflexivity | exact Hend]).
  rewrite (P1 Hend), (mul_one_valid _ VT).
  assert (Hg : g = Num.sub elapsed Arc.goldArcDelay).
  { apply G1. rewrite goldArcDelay_value.
    apply (ltb_leb_trans _ (S754_finite false 5497558138880000 (-41))); [reflexivity | exact Hge]. }
  assert (Hspan : Num.leb (S754_finite false 4617948836659200 (-41)) g = true).
  { rewrite Hg, <- gold_span_value, duration_value.
    apply sub_mono_l; [reflexivity | exact Ae | reflexivity | reflexivity | exact Hge]. }
  rewrite (PG1 (leb_not_ltb _ _ Hspan)), (mul_one_valid _ VG).
  repeat split; reflexivity.
Qed.

(** The first frame sets [startTime] and shows no progress yet. *)
Lemma draw_first (data : Card1.summary) (t0 : number) :
  amount t0 = true -> truthy (VNumber t0) = true ->
  fst (Arc.draw data None t0) = t0 /\
  let f := snd (Arc.draw data None t0) in
  (Num.leb Num.zero (Arc.progressTotal f) = true /\
   Num.leb (Arc.progressTotal f) Num.one = true /\
   Num.leb Num.zero (Arc.progressGold f) = true /\
   Num.leb (Arc.progressGold f) Num.one = true) /\
  Arc.again f = true.
Proof.
  intros H0 Tr. split; [reflexivity |].
  unfold Arc.draw. cbn [fst snd Arc.started].
  cbn [Arc.progressTotal Arc.progressGold Arc.again].
  destruct (sub_self_amount t0 H0) as [s ->].
  rewrite gold_span_value, duration_value, goldArcDelay_value.
  destruct s; vm_compute; repeat split; reflexivity.
Qed.

Lemma frames_spec (data : Card1.summary) (t0 : number) :
  Num.valid (Card1.finalRateTotal data) = true ->
  Num.valid (Card1.finalRateGold data) = true ->
  amount t0 = true -> truthy (VNumber t0) = true ->
  forall later : list number,
    (forall t, In t later -> amount t = true /\ Num.leb t0 t = true) ->
    (forall f, In f (Arc.frames data (Some t0) later) ->
       (Num.leb Num.zero (Arc.progressTotal f) = true /\
        Num.leb (Arc.progressTotal f) Num.one = true /\
        Num.leb Num.zero (Arc.progressGold f) = true /\
        Num.leb (Arc.progressGold f) Num.one = true) /\
       (Arc.again f = false ->
        Arc.currentRateTotal f = Card1.finalRateTotal data /\
        Arc.currentRateGold f = Card1.finalRateGold data /\
        Arc.rate f = Number_toFixed0 (Card1.finalRateGold data) ++ js "%")) /\
    (forall before f after,
       Arc.frames data (Some t0) later = before ++ f :: after ->
       Arc.again f = false -> after = []) /\
    ((exists t, In t later /\ Num.leb Arc.duration (Num.sub t t0) = true) ->
     exists f, In f (Arc.frames data (Some t0) later) /\ Arc.again f = false).
Proof.
  intros VT VG H0 Tr. induction later as [| t later IH]; intros Hall.
  - cbn [Arc.frames]. split; [intros f [] |]. split.
    + intros [| b before] f after E; discriminate E.
    + intros (t & [] & _).
  - destruct (Hall t (or_introl eq_refl)) as [At Lt].
    destruct (draw_later data t0 t VT VG H0 Tr At Lt) as (E0 & Hb & Ea & Hend).
    specialize (IH (fun t' Ht' => Hall t' (or_intror Ht'))).
    destruct IH as (IH1 & IH2 & IH3).
    cbn [Arc.frames].
    destruct (Arc.draw data (Some t0) t) as [st f]. cbn [fst snd] in *. subst st.
    split; [| split].
    + intros f' [<- | Hin]; [split; assumption |].
      destruct (Arc.again f); [now apply IH1 | destruct Hin].
    + intros before f' after E Hf'.
      destruct before as [| b before]; cbn [app] in E; injection E as E1 E2.
      * subst f'. rewrite Hf' in E2. now symmetry.
      * destruct (Arc.again f); [| now destruct before].
        exact (IH2 before f' after E2 Hf').
    + intros (t' & [<- | Hin] & Hd).
      * exists f. split; [now left |]. rewrite Ea. now apply leb_not_ltb.
      * destruct (Arc.again f) eqn:Ag; [| exists f; split; [now left | exact Ag]].
        destruct (IH3 (ex_intro _ t' (conj Hin Hd))) as (f' & Hf' & Ef').
        exists f'. split; [now right | exact Ef'].
Qed.

(** X15.  The arcs of Card 1 end at the final rates.  For the frames
    the browser gives [animateArc], at time stamps that are amounts,
    the first above zero and none before the first: both progresses
    stay between 0 and 1 in every frame; a frame in which [draw] asks
    for no other frame is the last one, and in it the arcs are drawn at
    [finalRateTotal] and [finalRateGold] exactly and the text shows
    [finalRateGold]; such a frame comes with the first time stamp that
    is [duration] = 2500 or more after the first one. *)
Theorem arcs_end_at_the_final_rates
    (data : Card1.summary) (t0 : number) (later : list number) :
  Num.valid (Card1.total_completed data) = true ->
  Num.valid (Card1.gold_star_completed data) = true ->
  Num.valid (Card1.total_available data) = true ->
  amount t0 = true -> truthy (VNumber t0) = true ->
  (forall t, In t later -> amount t = true /\ Num.leb t0 t = true) ->
  (forall f, In f (Arc.animateArc data (t0 :: later)) ->
     Num.leb Num.zero (Arc.progressTotal f) = true /\
     Num.leb (Arc.progressTotal f) Num.one = true /\
     Num.leb Num.zero (Arc.progressGold f) = true /\
     Num.leb (Arc.progressGold f) Num.one = true) /\
  (forall f, In f (Arc.animateArc data (t0 :: later)) -> Arc.again f = false ->
     Arc.currentRateTotal f = Card1.finalRateTotal data /\
     Arc.currentRateGold f = Card1.finalRateGold data /\
     Arc.rate f = Number_toFixed0 (Card1.finalRateGold data) ++ js "%") /\
  (forall before f after,
     Arc.animateArc data (t0 :: later) = before ++ f :: after ->
     Arc.again f = false -> after = []) /\
  ((exists t, In t later /\ Num.leb Arc.duration (Num.sub t t0) = true) ->
   exists f, In f (Arc.animateArc data (t0 :: later)) /\ Arc.again f = false).
Proof.
  intros V1 V2 V3 H0 Tr Hall.
  destruct (rates_valid data V1 V2 V3) as [VT VG].
  destruct (frames_spec data t0 VT VG H0 Tr later Hall) as (S1 & S2 & S3).
  destruct (draw_first data t0 H0 Tr) as (E0 & Hb & Ag).
  unfold Arc.animateArc. cbn [Arc.frames].
  destruct (Arc.draw data None t0) as [st f0]. cbn [fst snd] in *. subst st.
  rewrite Ag.
  split; [| split; [| split]].
  - intros f [<- | Hin]; [exact Hb | now apply S1].
  - intros f [<- | Hin] Hf; [congruence | now apply S1].
  - intros before f after E Hf.
    destruct before as [| b before]; cbn [app] in E; injection E as E1 E2.
    + subst f. congruence.
    + exact (S2 before f after E2 Hf).
  - intros Hex. destruct (S3 Hex) as (f & Hin & Hf). exists f. split; [now right | exact Hf].
Qed.

(** 150 of 200 puzzles solved, 50 of them with a gold star; frames at
    1000, 2000 and 3600 milliseconds. *)
Lemma arcs_end_witness :
  exists f,
    In f (Arc.animateArc
            {| Card1.total_completed := Num.of_Z 150;
               Card1.gold_star_completed := Num.of_Z 50;
               Card1.total_available := Num.of_Z 200 |}
            [Num.of_Z 1000; Num.of_Z 2000; Num.of_Z 3600]) /\
    Arc.again f = false.
Proof.
  apply (arcs_end_at_the_final_rates
           {| Card1.total_completed := Num.of_Z 150;
              Card1.gold_star_completed := Num.of_Z 50;
              Card1.total_available := Num.of_Z 200 |}
           (Num.of_Z 1000) [Num.of_Z 2000; Num.of_Z 3600]);
    try (vm_compute; reflexivity).
  - intros t [<- | [<- | []]]; split; vm_compute; reflexivity.
  - exists (Num.of_Z 3600). split; [cbn; auto | vm_compute; reflexivity].
Defined.

Lemma min_one_mono (q q' : number) :
  Num.isNaN q = false -> Num.isNaN q' = false -> Num.leb q q' = true ->
  Num.leb (Math_min [Num.one; q]) (Math_min [Num.one; q']) = true.
Proof.
  intros N N' L. rewrite (Math_min_one q N), (Math_min_one q' N').
  destruct (Num.ltb q Num.one) eqn:E, (Num.ltb q' Num.one) eqn:E'.
  - exact L.
  - now apply ltb_leb.
  - exfalso. assert (C := leb_ltb_trans _ _ _ L E'). congruence.
  - reflexivity.
Qed.

Lemma after_delay_mono (elapsed elapsed' delay : number) :
  amount elapsed = true -> amount elapsed' = true -> amount delay = true ->
  Num.leb elapsed elapsed' = true ->
  Num.leb (Math_max [Num.zero; Num.sub elapsed delay])
          (Math_max [Num.zero; Num.sub elapsed' delay]) = true.
Proof.
  intros He He' Hd L.
  destruct (after_delay_spec elapsed delay He Hd) as (Ag & G0 & G1).
  destruct (after_delay_spec elapsed' delay He' Hd) as (Ag' & G0' & G1').
  destruct (Num.ltb delay elapsed) eqn:E.
  - assert (E' : Num.ltb delay elapsed' = true) by exact (ltb_leb_trans _ _ _ E L).
    rewrite (G1 eq_refl), (G1' E').
    apply sub_mono_l; try assumption. now apply ltb_leb.
  - rewrite G0.
    + now apply amount_nonneg.
    + apply not_ltb_leb; [now apply amount_not_NaN | now apply amount_not_NaN | exact E].
Qed.

(** The rates of the summary are amounts when no more puzzles are
    solved than there are. *)
Lemma rates_amounts (data : Card1.summary) :
  amount (Card1.total_completed data) = true ->
  amount (Card1.gold_star_completed data) = true ->
  amount (Card1.total_available data) = true ->
  Num.leb (Card1.total_completed data) (Card1.total_available data) = true ->
  Num.leb (Card1.gold_star_completed data) (Card1.total_available data) = true ->
  Num.ltb Num.zero (Card1.total_available data) = true ->
  amount (Card1.finalRateTotal data) = true /\ amount (Card1.finalRateGold data) = true.
Proof.
  intros A1 A2 A3 L1 L2 P. unfold Card1.finalRateTotal, Card1.finalRateGold.
  destruct (amount_cases _ A3) as [[s E] | (m & e & E & _)];
    [rewrite E in P; destruct s; discriminate P |].
  rewrite E in *.
  destruct (div_amount _ m e A1 A3 L1) as [Q1 B1].
  destruct (div_amount _ m e A2 A3 L2) as [Q2 B2].
  split; [exact (proj1 (mul_amount _ Num.n100 Q1 eq_refl B1))
         | exact (proj1 (mul_amount _ Num.n100 Q2 eq_refl B2))].
Qed.

(** X16.  The arcs of Card 1 never go back and never pass the final
    rates.  For a summary with no more puzzles solved than there are,
    and two frames of the same animation, the second no earlier than
    the first: both progresses and both rates drawn are no smaller in
    the second frame, and no rate drawn is above its final rate; as
    long as no more than [goldArcDelay] = 400 has elapsed, the
    progress of the gold arc is 0. *)
Theorem arcs_never_go_back (data : Card1.summary) (t0 t t' : number) :
  amount (Card1.total_completed data) = true ->
  amount (Card1.gold_star_completed data) = true ->
  amount (Card1.total_available data) = true ->
  Num.leb (Card1.total_completed data) (Card1.total_available data) = true ->
  Num.leb (Card1.gold_star_completed data) (Card1.total_available data) = true ->
  Num.ltb Num.zero (Card1.total_available data) = true ->
  amount t0 = true -> truthy (VNumber t0) = true ->
  amount t = true -> amount t' = true ->
  Num.leb t0 t = true -> Num.leb t t' = true ->
  let f := snd (Arc.draw data (Some t0) t) in
  let f' := snd (Arc.draw data (Some t0) t') in
  Num.leb (Arc.progressTotal f) (Arc.progressTotal f') = true /\
  Num.leb (Arc.progressGold f) (Arc.progressGold f') = true /\
  Num.leb (Arc.currentRateTotal f) (Arc.currentRateTotal f') = true /\
  Num.leb (Arc.currentRateTotal f') (Card1.finalRateTotal data) = true /\
  Num.leb (Arc.currentRateGold f) (Arc.currentRateGold f') = true /\
  Num.leb (Arc.currentRateGold f') (Card1.finalRateGold data) = true /\
  (Num.leb (Num.sub t t0) Arc.goldArcDelay = true -> Arc.progressGold f = Num.zero).
Proof.
  intros A1 A2 A3 L1 L2 P H0 Tr Ht Ht' Hle Hle'.
  destruct (rates_amounts data A1 A2 A3 L1 L2 P) as [RT RG].
  assert (Hle0' := leb_trans _ _ _ Hle Hle').
  unfold Arc.draw. cbn [fst snd Arc.started]. rewrite Tr.
  cbn [Arc.progressTotal Arc.progressGold Arc.currentRateTotal Arc.currentRateGold].
  destruct (sub_amount t t0 Ht H0 Hle) as [Ae _].
  destruct (sub_amount t' t0 Ht' H0 Hle0') as [Ae' _].
  assert (Le := sub_mono_l t t' t0 Ht Ht' H0 Hle Hle').
  set (elapsed := Num.sub t t0) in *. set (elapsed' := Num.sub t' t0) in *.
  rewrite gold_span_value, duration_value.
  destruct (progress_spec elapsed 5497558138880000 (-41) Ae eq_refl eq_refl eq_refl
              ltac:(vm_compute; reflexivity)) as (Ap & Lp & _).
  destruct (progress_spec elapsed' 5497558138880000 (-41) Ae' eq_refl eq_refl eq_refl
              ltac:(vm_compute; reflexivity)) as (Ap' & Lp' & _).
  destruct (div_mono_l elapsed elapsed' 5497558138880000 (-41) Ae Ae' Le) as (_ & Nq & Lq).
  assert (Nq' : Num.isNaN (Num.div elapsed' (S754_finite false 5497558138880000 (-41))) = false)
    by (apply leb_not_NaN in Lq; tauto).
  assert (Nq0 : Num.isNaN (Num.div elapsed (S754_finite false 5497558138880000 (-41))) = false)
    by (apply leb_not_NaN in Lq; tauto).
  assert (MT := min_one_mono _ _ Nq0 Nq' Lq).
  set (pT := Math_min [Num.one; Num.div elapsed (S754_finite false 5497558138880000 (-41))]) in *.
  set (pT' := Math_min [Num.one; Num.div elapsed' (S754_finite false 5497558138880000 (-41))]) in *.
  destruct (after_delay_spec elapsed Arc.goldArcDelay Ae eq_refl) as (Ag & G0 & _).
  destruct (after_delay_spec elapsed' Arc.goldArcDelay Ae' eq_refl) as (Ag' & _ & _).
  assert (Lg := after_delay_mono elapsed elapsed' Arc.goldArcDelay Ae Ae' eq_refl Le).
  set (g := Math_max [Num.zero; Num.sub elapsed Arc.goldArcDelay]) in *.
  set (g' := Math_max [Num.zero; Num.sub elapsed' Arc.goldArcDelay]) in *.
  destruct (progress_spec g 4617948836659200 (-41) Ag eq_refl eq_refl eq_refl
              ltac:(vm_compute; reflexivity)) as (Apg & Lpg & _).
  destruct (progress_spec g' 4617948836659200 (-41) Ag' eq_refl eq_refl eq_refl
              ltac:(vm_compute; reflexivity)) as (Apg' & Lpg' & _).
  destruct (div_mono_l g g' 4617948836659200 (-41) Ag Ag' Lg) as (_ & _ & Lqg).
  assert (Ng' : Num.isNaN (Num.div g' (S754_finite false 4617948836659200 (-41))) = false)
    by (apply leb_not_NaN in Lqg; tauto).
  assert (Ng0 : Num.isNaN (Num.div g (S754_finite false 4617948836659200 (-41))) = false)
    by (apply leb_not_NaN in Lqg; tauto).
  assert (MG := min_one_mono _ _ Ng0 Ng' Lqg).
  assert (Zero : Num.leb elapsed Arc.goldArcDelay = true ->
                 Math_min [Num.one; Num.div g (S754_finite false 4617948836659200 (-41))]
                 = Num.zero).
  { intros Hw. rewrite (G0 Hw). vm_compute. reflexivity. }
  set (pG := Math_min [Num.one; Num.div g (S754_finite false 4617948836659200 (-41))]) in *.
  set (pG' := Math_min [Num.one; Num.div g' (S754_finite false 4617948836659200 (-41))]) in *.
  split; [exact MT |]. split; [exact MG |].
  destruct (mul_mono_r _ _ _ Ap Ap' RT MT) as (_ & _ & M1).
  destruct (mul_mono_r (Card1.finalRateTotal data) pT' Num.one Ap' eq_refl RT Lp')
    as (_ & _ & M2).
  rewrite (mul_one_r _ RT) in M2.
  destruct (mul_mono_r _ _ _ Apg Apg' RG MG) as (_ & _ & M3).
  destruct (mul_mono_r (Card1.finalRateGold data) pG' Num.one Apg' eq_refl RG Lpg')
    as (_ & _ & M4).
  rewrite (mul_one_r _ RG) in M4.
  repeat split; assumption.
Qed.

(** 150 of 200 puzzles solved, 50 of them with a gold star; frames
    1000 and 2600 milliseconds after the first. *)
Lemma arcs_never_go_back_witness :
  Num.leb
    (Arc.currentRateTotal
       (snd (Arc.draw {| Card1.total_completed := Num.of_Z 150;
                         Card1.gold_star_completed := Num.of_Z 50;
                         Card1.total_available := Num.of_Z 200 |}
               (Some (Num.of_Z 1000)) (Num.of_Z 2000))))
    (Arc.currentRateTotal
       (snd (Arc.draw {| Card1.total_completed := Num.of_Z 150;
                         Card1.gold_star_completed := Num.of_Z 50;
                         Card1.total_available := Num.of_Z 200 |}
               (Some (Num.of_Z 1000)) (Num.of_Z 3600)))) = true.
Proof.
  apply (arcs_never_go_back
           {| Card1.total_completed := Num.of_Z 150;
              Card1.gold_star_completed := Num.of_Z 50;
              Card1.total_available := Num.of_Z 200 |}
           (Num.of_Z 1000) (Num.of_Z 2000) (Num.of_Z 3600));
    vm_compute; reflexivity.
Defined.

(** ** Card 4: the points lie within the y axis *)

Lemma d3_min_fold (vs : list number) :
  forall (seen : list number) (mn : option number),
    match mn with
    | Some m => In m seen /\ Num.isNaN m = false /\
                forall v, In v seen -> Num.ltb v m = false
    | None => forall v, In v seen -> Num.isNaN v = true
    end ->
    match fold_left
            (fun (min : option number) (value : number) =>
               match min with
               | Some m => if Num.gtb m value then Some value else min
               | None => if Num.geb value value then Some value else None
               end) vs mn with
    | Some m => In m (seen ++ vs) /\ Num.isNaN m = false /\
                forall v, In v (seen ++ vs) -> Num.ltb v m = false
    | None => forall v, In v (seen ++ vs) -> Num.isNaN v = true
    end.
Proof.
  induction vs as [| x vs IH]; intros seen mn H.
  - cbn [fold_left]. rewrite app_nil_r. exact H.
  - cbn [fold_left].
    replace (seen ++ x :: vs) with ((seen ++ [x]) ++ vs) by (rewrite <- app_assoc; reflexivity).
    apply IH.
    destruct mn as [m |].
    + destruct H as (Hin & Hn & Hall). unfold Num.gtb. fold (Num.ltb x m).
      destruct (Num.ltb x m) eqn:L.
      * destruct (ltb_not_NaN _ _ L) as [Nx _].
        split; [apply in_app_iff; right; now left |]. split; [exact Nx |].
        intros v Hv. apply in_app_iff in Hv as [Hv | [<- | []]]; [| apply ltb_irrefl].
        destruct (Num.ltb v x) eqn:L'; [| reflexivity].
        rewrite <- (Hall v Hv). symmetry. exact (ltb_trans _ _ _ L' L).
      * split; [apply in_app_iff; now left |]. split; [exact Hn |].
        intros v Hv. apply in_app_iff in Hv as [Hv | [<- | []]]; [now apply Hall | exact L].
    + rewrite geb_self. destruct (Num.isNaN x) eqn:Nx; cbn [negb].
      * intros v Hv. apply in_app_iff in Hv as [Hv | [<- | []]]; [now apply H | exact Nx].
      * split; [apply in_app_iff; right; now left |]. split; [exact Nx |].
        intros v Hv. apply in_app_iff in Hv as [Hv | [<- | []]]; [| apply ltb_irrefl].
        specialize (H v Hv). destruct v; try discriminate H. reflexivity.
Qed.

(** [d3.min]: a value that is not NaN and that no value is below;
    [undefined] when every value is NaN. *)
Lemma d3_min_spec (vs : list number) :
  match Replay.d3_min vs with
  | Some m => In m vs /\ Num.isNaN m = false /\
              forall v, In v vs -> Num.ltb v m = false
  | None => forall v, In v vs -> Num.isNaN v = true
  end.
Proof. unfold Replay.d3_min. apply (d3_min_fold vs [] None). intros v []. Qed.

Lemma of_Z_amount (k : Z) : 0 <= k < 2 ^ 53 -> amount (Num.of_Z k) = true.
Proof.
  intros [H0 H1]. destruct (Z.eq_dec k 0) as [-> | Hnz]; [reflexivity |].
  unfold amount. rewrite of_Z_valid, of_Z_exact by lia. reflexivity.
Qed.

(** [Math.floor] of an amount: an amount no greater. *)
Lemma floor_amount (x : number) :
  amount x = true ->
  amount (Math_floor x) = true /\ Num.leb (Math_floor x) x = true.
Proof.
  intros Hx. destruct (amount_cases x Hx) as [[s ->] | (m & e & -> & C & He)].
  - split; [exact Hx | destruct s; reflexivity].
  - unfold Math_floor. destruct (Z.leb_spec 0 e) as [Hp | Hn].
    + split; [exact Hx | now apply leb_refl_amount].
    + cbn [cond_Zopp].
      assert (P := pow2_pos (- e) ltac:(lia)).
      set (q := Zpos m / 2 ^ (- e)).
      assert (Hq0 : 0 <= q) by (apply Z.div_pos; lia).
      assert (Hqm : q * 2 ^ (- e) <= Zpos m) by (rewrite Z.mul_comm; apply Z.mul_div_le; lia).
      assert (Hm53 : Zpos m < 2 ^ 53).
      { destruct (Zdigits2_bounds (Zpos m) ltac:(lia)) as [_ Hhi].
        eapply Z.lt_le_trans; [exact Hhi |]. apply Z.pow_le_mono_r; [lia |].
        unfold canonical, fexp53 in C. lia. }
      assert (Hq53 : q < 2 ^ 53) by nia.
      assert (Aq := of_Z_amount q (conj Hq0 Hq53)).
      split; [exact Aq |].
      destruct (Z.eq_dec q 0) as [E | Hnz]; [rewrite E; reflexivity |].
      assert (Dq := Zdigits2_pos q ltac:(lia)).
      assert (Dq53 : Zdigits2 q <= 53) by (apply digits_le_of_lt_pow; lia).
      set (c := Z.min e (Zdigits2 q - 53)).
      apply (leb_val c _ _ Aq Hx).
      * rewrite of_Z_exact by lia. cbn [fits]. unfold c. lia.
      * cbn [fits]. unfold c. lia.
      * rewrite of_Z_exact by lia. cbn [val scaled_value cond_Zopp].
        assert (P1 := pow2_pos (53 - Zdigits2 q) ltac:(lia)).
        rewrite Z2Pos.id by nia.
        rewrite <- Z.mul_assoc, <- Z.pow_add_r by (unfold c; lia).
        replace (53 - Zdigits2 q + (Zdigits2 q - 53 - c)) with ((- e) + (e - c)) by lia.
        rewrite Z.pow_add_r by (unfold c; lia).
        assert (P2 := pow2_pos (e - c) ltac:(unfold c; lia)). nia.
Qed.

(** [Math.floor] returns a whole Number, an infinity or NaN. *)
Lemma floor_whole (x : number) : Num.valid x = true -> whole_or_not_finite (Math_floor x) = true.
Proof.
  intros V. destruct x as [s | s | | s m e]; try reflexivity.
  unfold Math_floor. destruct (Z.leb_spec 0 e) as [Hp | Hn].
  - unfold whole_or_not_finite. now rewrite finite_nonneg_exponent_integral.
  - apply of_decimal_integral.
Qed.

(** The normalised times of a trend with positive averages are
    amounts, 100 at most. *)
Lemma normalized_amount (chartData : list Card4.point) :
  positive_averages chartData ->
  forall d', In d' (Card4.normalize chartData) ->
    exists v, Card4.normalized_time d' = Some v /\ amount v = true /\
              Num.leb v Num.n100 = true.
Proof.
  intros Hpos d' Hd'.
  destruct (normalize_in_range chartData Hpos d' Hd')
    as (wmax & v & Emax & _ & Ev & Eform & N0 & N100 & _).
  exists v. split; [exact Ev |]. split; [| exact N100].
  apply (amount_below v Num.n100); [| exact N0 | exact N100 | reflexivity].
  rewrite Eform. apply mul_valid; [| reflexivity]. apply div_valid.
  - apply in_normalize in Hd' as (d & Hd & _ & _ & Ea & _). rewrite Ea.
    now destruct (Hpos d Hd) as (_ & V & _).
  - assert (M := d3_max_spec (map Card4.average_time_min
                   (with_key Card4.Day_of_Week (Card4.Day_of_Week d') chartData))).
    rewrite Emax in M. destruct M as (Hin & _).
    apply in_map_iff in Hin as (d & <- & Hd). apply in_with_key in Hd as [Hd _].
    now destruct (Hpos d Hd) as (_ & V & _).
Qed.

(** X17.  Every point of the trend chart of [renderCard4] lies within
    the domain [[100, yMinDomain]] of the scale [y]: for trend data
    with labels of [DAY_ORDER] and average times that are finite and
    above zero, [yMinDomain] = [Math.floor(minNormalizedTime * 0.95)]
    is a whole Number that is not negative and no normalised time is
    below it, as none is above 100. *)
Theorem trend_points_lie_within_the_y_domain :
  forall json : list Card4.json_point,
    (forall d, In d (map Card4.coerce json) ->
       In (Card4.Day_of_Week d) DAY_ORDER /\
       Num.isFinite (Card4.average_time_min d) = true /\
       Num.ltb Num.zero (Card4.average_time_min d) = true) ->
    let chartData := Card4.renderCard4_data json in
    forall d' v, In d' chartData -> Card4.normalized_time d' = Some v ->
      whole_or_not_finite (snd (TrendAxis.y_domain chartData)) = true /\
      Num.leb Num.zero (snd (TrendAxis.y_domain chartData)) = true /\
      Num.leb (snd (TrendAxis.y_domain chartData)) v = true /\
      Num.leb v (fst (TrendAxis.y_domain chartData)) = true.
Proof.
  intros json H chartData d' v Hd' Ev.
  assert (Hpos : positive_averages (map Card4.coerce json)).
  { intros d Hd. destruct (H d Hd) as (Hday & Hf & Hp).
    split; [exact Hday |]. split; [| split; assumption].
    apply in_map_iff in Hd as (j & <- & _). apply parseFloat_valid. }
  assert (All := normalized_amount _ Hpos). fold (Card4.renderCard4_data json) in All.
  fold chartData in All.
  destruct (All d' Hd') as (v' & Ev' & Av & L100). rewrite Ev in Ev'. injection Ev' as <-.
  unfold TrendAxis.y_domain, TrendAxis.yMinDomain, TrendAxis.minNormalizedTime. cbn [fst snd].
  set (vs := map (fun d => Num.of_optional (Card4.normalized_time d)) chartData).
  assert (Hv : In v vs).
  { apply in_map_iff. exists d'. split; [now rewrite Ev | exact Hd']. }
  assert (Avs : forall x, In x vs -> amount x = true).
  { intros x Hx. apply in_map_iff in Hx as (d & <- & Hd).
    destruct (All d Hd) as (x & -> & Ax & _). exact Ax. }
  assert (M := d3_min_spec vs).
  destruct (Replay.d3_min vs) as [mn |].
  2:{ exfalso. specialize (M v Hv). rewrite (amount_not_NaN _ Av) in M. discriminate. }
  destruct M as (Hin & Nmn & Hleast). cbn [Num.of_optional].
  assert (Amn := Avs mn Hin).
  assert (Lmn : Num.leb mn v = true)
    by (apply not_ltb_leb; [now apply amount_not_NaN | exact Nmn | now apply Hleast]).
  destruct (mul_mono_r mn (Num.of_decimal false 95 (-2)) Num.one eq_refl eq_refl Amn eq_refl)
    as (Vx & Nx & Lx).
  rewrite (mul_one_r mn Amn) in Lx.
  assert (Ax : amount (Num.mul mn (Num.of_decimal false 95 (-2))) = true)
    by exact (amount_below _ mn Vx Nx Lx Amn).
  destruct (floor_amount _ Ax) as [Af Lf].
  split; [apply floor_whole; exact Vx |].
  split; [now apply amount_nonneg |].
  split; [| exact L100].
  exact (leb_trans _ _ _ Lf (leb_trans _ _ _ Lx Lmn)).
Qed.

(** Two Mondays, at 12.5 and at 10 minutes. *)
Lemma trend_points_witness :
  Num.leb
    (snd (TrendAxis.y_domain
            (Card4.renderCard4_data
               [ {| Card4.json_day_of_year := VNumber (Num.of_Z 6);
                    Card4.json_Day_of_Week := js "Mon";
                    Card4.json_average_time_min := VString (js "12.5") |};
                 {| Card4.json_day_of_year := VNumber (Num.of_Z 13);
                    Card4.json_Day_of_Week := js "Mon";
                    Card4.json_average_time_min := VString (js "10") |} ])))
    (Num.of_Z 80) = true.
Proof.
  refine (proj1 (proj2 (proj2
    (trend_points_lie_within_the_y_domain
       [ {| Card4.json_day_of_year := VNumber (Num.of_Z 6);
            Card4.json_Day_of_Week := js "Mon";
            Card4.json_average_time_min := VString (js "12.5") |};
         {| Card4.json_day_of_year := VNumber (Num.of_Z 13);
            Card4.json_Day_of_Week := js "Mon";
            Card4.json_average_time_min := VString (js "10") |} ]
       _
       {| Card4.day_of_year := Num.of_Z 13; Card4.Day_of_Week := js "Mon";
          Card4.average_time_min := Num.of_Z 10;
          Card4.normalized_time := Some (Num.of_Z 80) |}
       (Num.of_Z 80) _ _)))).
  - intros d [<- | [<- | []]]; vm_compute; repeat split; auto 10.
  - vm_compute. right. left. reflexivity.
  - reflexivity.
Defined.

(** ** Card 7: the confetti starts on the screen *)

Lemma Math_max_with_zero (v : number) :
  Num.isNaN v = false ->
  Math_max [v; Num.zero]
  = match v with
    | S754_zero _ => Num.zero
    | _ => if Num.ltb v Num.zero then Num.zero else v
    end.
Proof.
  intros N. unfold Math_max. cbn [existsb]. rewrite N. cbn [Num.isNaN Num.zero orb fold_left].
  destruct v as [[|] | [|] | | [|] m e]; try discriminate; reflexivity.
Qed.

Lemma Math_min_with_one (q : number) :
  Num.isNaN q = false ->
  Math_min [q; Num.one] = if Num.ltb Num.one q then Num.one else q.
Proof.
  intros N. unfold Math_min. cbn [existsb]. rewrite N, one_value. cbn [Num.isNaN orb fold_left].
  destruct q as [[|] | [|] | | [|] m e]; try discriminate; try reflexivity.
Qed.

(** [clamp]: NaN for NaN; otherwise the nearest Number between 0 and 1. *)
Lemma clamp_spec (v : number) :
  Confetti.clamp v
  = if Num.isNaN v then Num.NaN
    else if Num.leb v Num.zero then Num.zero
    else if Num.ltb Num.one v then Num.one else v.
Proof.
  unfold Confetti.clamp.
  destruct (Num.isNaN v) eqn:N.
  - rewrite (Math_max_NaN [v; Num.zero]) by (cbn [existsb]; now rewrite N). reflexivity.
  - rewrite (Math_max_with_zero v N).
    destruct v as [[|] | [|] | | [|] m e]; try discriminate; reflexivity.
Qed.

Lemma clamp_on_screen (v : number) :
  Num.isNaN v = false -> on_screen (Confetti.clamp v).
Proof.
  intros N. rewrite clamp_spec, N. unfold on_screen.
  destruct (Num.leb v Num.zero) eqn:L0; [split; reflexivity |].
  destruct (Num.ltb Num.one v) eqn:L1; [split; reflexivity |].
  split; [| apply not_ltb_leb; [reflexivity | exact N | exact L1]].
  apply not_ltb_leb; [exact N | reflexivity |].
  destruct (Num.ltb v Num.zero) eqn:L; [| reflexivity].
  apply ltb_leb in L. congruence.
Qed.

Lemma clamp_mono (v v' : number) :
  Num.leb v v' = true -> Num.leb (Confetti.clamp v) (Confetti.clamp v') = true.
Proof.
  intros L. destruct (leb_not_NaN _ _ L) as [N N'].
  rewrite !clamp_spec, N, N'.
  destruct (Num.leb v Num.zero) eqn:A.
  - destruct (Num.leb v' Num.zero) eqn:A'; [reflexivity |].
    destruct (Num.ltb Num.one v') eqn:B'; [reflexivity |].
    apply not_ltb_leb; [exact N' | reflexivity |].
    destruct (Num.ltb v' Num.zero) eqn:C; [| reflexivity].
    apply ltb_leb in C. congruence.
  - assert (A' : Num.leb v' Num.zero = false).
    { destruct (Num.leb v' Num.zero) eqn:A'; [| reflexivity].
      rewrite (leb_trans _ _ _ L A') in A. discriminate. }
    rewrite A'.
    destruct (Num.ltb Num.one v) eqn:B, (Num.ltb Num.one v') eqn:B'.
    + reflexivity.
    + rewrite (ltb_leb_trans _ _ _ B L) in B'. discriminate.
    + apply not_ltb_leb; [reflexivity | exact N | exact B].
    + exact L.
Qed.

(** The quotient by a finite Number above zero grows with a dividend
    that is not negative, infinite or not. *)
Lemma div_mono_nonneg (a a' : number) (md : positive) (ed : Z) :
  Num.valid a = true -> Num.valid a' = true ->
  Num.leb Num.zero a = true -> Num.leb a a' = true ->
  Num.leb (Num.div a (S754_finite false md ed)) (Num.div a' (S754_finite false md ed)) = true.
Proof.
  intros V V' N L.
  assert (N' := leb_trans _ _ _ N L).
  destruct (Num.isFinite a') eqn:F'.
  - assert (A' : amount a' = true) by (unfold amount; now rewrite V', F', N').
    assert (A : amount a = true) by exact (amount_below a a' V N L A').
    now destruct (div_mono_l a a' md ed A A' L) as (_ & _ & M).
  - assert (E' : a' = S754_infinity false).
    { destruct a' as [| [|] | |]; try discriminate; reflexivity. }
    subst a'. change (Num.div (S754_infinity false) (S754_finite false md ed))
      with (S754_infinity false).
    destruct (Num.isFinite a) eqn:F.
    + assert (A : amount a = true) by (unfold amount; now rewrite V, F, N).
      destruct (div_mono_l a a md ed A A (leb_refl_amount _ A)) as (_ & M & _).
      destruct (leb_not_NaN _ _ M) as [_ Nn].
      destruct (Num.div a (S754_finite false md ed)) as [| [|] | |]; try reflexivity;
        discriminate.
    + destruct a as [| [|] | |]; try discriminate; reflexivity.
Qed.

Lemma or_else_positive (a b : number) :
  amount a = true -> Num.ltb Num.zero a = true ->
  exists m e, Confetti.or_else a b = S754_finite false m e.
Proof.
  intros A P. destruct (amount_cases a A) as [[s ->] | (m & e & -> & _)].
  - destruct s; discriminate P.
  - exists m, e. reflexivity.
Qed.

(** The fraction of a length that lies a share of another length
    behind a start, for amounts: not NaN, and growing with the share. *)
Lemma share_mono (start length k k' : number) (md : positive) (ed : Z) :
  amount start = true -> amount length = true ->
  amount k = true -> amount k' = true -> Num.leb k k' = true -> Num.leb k' Num.one = true ->
  Num.leb (Num.div (Num_add start (Num.mul length k)) (S754_finite false md ed))
          (Num.div (Num_add start (Num.mul length k')) (S754_finite false md ed)) = true.
Proof.
  intros As Al Ak Ak' L L1.
  destruct (mul_mono_r length k k' Ak Ak' Al L) as (V & N & M).
  destruct (mul_mono_r length k' Num.one Ak' eq_refl Al L1) as (V' & N' & M').
  rewrite (mul_one_r length Al) in M'.
  assert (A' : amount (Num.mul length k') = true) by exact (amount_below _ length V' N' M' Al).
  assert (A : amount (Num.mul length k) = true) by exact (amount_below _ _ V N M A').
  destruct (add_mono_r start _ _ As A A' M) as (Va & Na & La).
  destruct (add_mono_r start _ _ As A' A' (leb_refl_amount _ A')) as (Va' & _ & _).
  now apply div_mono_nonneg.
Qed.

(** X18.  The confetti of Card 7 starts on the screen.  For a frame
    whose rectangle has amounts for its position and its size, in a
    window with an inner width and height above zero, the origins
    [_confettiOrigins] returns have coordinates between 0 and 1, the
    left one is not to the right of the right one, and both are at the
    same height. *)
Theorem confetti_starts_on_the_screen
    (r : Confetti.rect) (innerWidth clientWidth innerHeight clientHeight : number) :
  amount (Confetti.left r) = true -> amount (Confetti.top r) = true ->
  amount (Confetti.width r) = true -> amount (Confetti.height r) = true ->
  amount innerWidth = true -> Num.ltb Num.zero innerWidth = true ->
  amount innerHeight = true -> Num.ltb Num.zero innerHeight = true ->
  let origins :=
    Confetti.confettiOrigins (Some r) innerWidth clientWidth innerHeight clientHeight in
  on_screen (Confetti.x (fst origins)) /\ on_screen (Confetti.y (fst origins)) /\
  on_screen (Confetti.x (snd origins)) /\ on_screen (Confetti.y (snd origins)) /\
  Num.leb (Confetti.x (fst origins)) (Confetti.x (snd origins)) = true /\
  Confetti.y (fst origins) = Confetti.y (snd origins).
Proof.
  intros Al At Aw Ah Aiw Piw Aih Pih origins. subst origins.
  unfold Confetti.confettiOrigins. cbn [fst snd Confetti.x Confetti.y].
  destruct (or_else_positive innerWidth clientWidth Aiw Piw) as (mw & ew & ->).
  destruct (or_else_positive innerHeight clientHeight Aih Pih) as (mh & eh & ->).
  assert (X := share_mono (Confetti.left r) (Confetti.width r)
                 (Num.of_decimal false 8 (-2)) (Num.of_decimal false 92 (-2)) mw ew
                 Al Aw eq_refl eq_refl eq_refl eq_refl).
  assert (Y := share_mono (Confetti.top r) (Confetti.height r)
                 (Num.of_decimal false 9 (-1)) (Num.of_decimal false 9 (-1)) mh eh
                 At Ah eq_refl eq_refl eq_refl eq_refl).
  destruct (leb_not_NaN _ _ X) as [NL NR]. destruct (leb_not_NaN _ _ Y) as [NY _].
  split; [now apply clamp_on_screen |]. split; [now apply clamp_on_screen |].
  split; [now apply clamp_on_screen |]. split; [now apply clamp_on_screen |].
  split; [now apply clamp_mono | reflexivity].
Qed.

(** A frame of 540 by 960 at (370, 32) in a window of 1280 by 1024. *)
Lemma confetti_witness :
  Num.leb
    (Confetti.x (fst (Confetti.confettiOrigins
       (Some {| Confetti.left := Num.of_Z 370; Confetti.top := Num.of_Z 32;
                Confetti.width := Num.of_Z 540; Confetti.height := Num.of_Z 960 |})
       (Num.of_Z 1280) (Num.of_Z 1280) (Num.of_Z 1024) (Num.of_Z 1024))))
    (Confetti.x (snd (Confetti.confettiOrigins
       (Some {| Confetti.left := Num.of_Z 370; Confetti.top := Num.of_Z 32;
                Confetti.width := Num.of_Z 540; Confetti.height := Num.of_Z 960 |})
       (Num.of_Z 1280) (Num.of_Z 1280) (Num.of_Z 1024) (Num.of_Z 1024)))) = true.
Proof.
  apply (confetti_starts_on_the_screen
           {| Confetti.left := Num.of_Z 370; Confetti.top := Num.of_Z 32;
              Confetti.width := Num.of_Z 540; Confetti.height := Num.of_Z 960 |}
           (Num.of_Z 1280) (Num.of_Z 1280) (Num.of_Z 1024) (Num.of_Z 1024));
    vm_compute; reflexivity.
Defined.

(** ** Card 5: the authors that occur more than once *)

Lemma jsstring_eqb_sym (a b : jsstring) : jsstring_eqb a b = jsstring_eqb b a.
Proof.
  destruct (jsstring_eqb a b) eqn:E.
  - apply jsstring_eqb_eq in E. subst. symmetry. apply jsstring_eqb_refl.
  - symmetry. apply jsstring_eqb_neq. apply jsstring_eqb_neq in E. congruence.
Qed.

Lemma own_put (o : list (jsstring * Card5.tally)) (k k' : jsstring) (v : Card5.tally) :
  Card5.own (Card5.put o k v) k' = if jsstring_eqb k k' then Some v else Card5.own o k'.
Proof.
  induction o as [| [k0 w] o IH]; cbn [Card5.put Card5.own]; [reflexivity |].
  destruct (jsstring_eqb k0 k) eqn:E.
  - apply jsstring_eqb_eq in E. subst k0. cbn [Card5.own].
    destruct (jsstring_eqb k k'); reflexivity.
  - cbn [Card5.own]. rewrite IH.
    destruct (jsstring_eqb k0 k') eqn:E'; [| reflexivity].
    apply jsstring_eqb_eq in E'. subst k0.
    rewrite jsstring_eqb_sym, E. reflexivity.
Qed.

Lemma own_keys (o : list (jsstring * Card5.tally)) (k : jsstring) :
  Card5.own o k = None <-> ~ In k (map fst o).
Proof.
  induction o as [| [k0 w] o IH]; cbn [Card5.own map fst In]; [tauto |].
  destruct (jsstring_eqb k0 k) eqn:E.
  - apply jsstring_eqb_eq in E. split; [discriminate | intros H; exfalso; apply H; now left].
  - apply jsstring_eqb_neq in E. rewrite IH. tauto.
Qed.

Lemma keys_put (o : list (jsstring * Card5.tally)) (k : jsstring) (v : Card5.tally) :
  map fst (Card5.put o k v)
  = match Card5.own o k with
    | Some _ => map fst o
    | None => map fst o ++ [k]
    end.
Proof.
  induction o as [| [k0 w] o IH]; cbn [Card5.put Card5.own map fst app]; [reflexivity |].
  destruct (jsstring_eqb k0 k) eqn:E; cbn [map fst]; [reflexivity |].
  rewrite IH. destruct (Card5.own o k); reflexivity.
Qed.

Lemma occurrences_snoc (k x : jsstring) (l : list jsstring) :
  occurrences k (l ++ [x])
  = (occurrences k l + if jsstring_eqb k x then 1 else 0)%nat.
Proof.
  unfold occurrences. rewrite filter_app, length_app. cbn [filter].
  destruct (jsstring_eqb k x); reflexivity.
Qed.

Lemma occurrences_zero (k : jsstring) (l : list jsstring) :
  occurrences k l = 0%nat <-> ~ In k l.
Proof.
  unfold occurrences. induction l as [| x l IH]; cbn [filter length In]; [tauto |].
  destruct (jsstring_eqb k x) eqn:E.
  - apply jsstring_eqb_eq in E. cbn [length]. split; [discriminate | intros H; exfalso; auto].
  - apply jsstring_eqb_neq in E. rewrite IH. split; intros H; [intros [C | C]; auto | tauto].
Qed.

Lemma occurrences_le (k : jsstring) (l : list jsstring) :
  (occurrences k l <= length l)%nat.
Proof. unfold occurrences. apply filter_length_le. Qed.

Lemma in_firsts (l : list jsstring) (k : jsstring) : In k (firsts l) <-> In k l.
Proof.
  induction l as [| x l IH]; cbn [firsts In]; [tauto |].
  rewrite filter_In, IH. destruct (jsstring_eqb x k) eqn:E.
  - apply jsstring_eqb_eq in E. cbn [negb]. split; [intros [H | [_ H]]; auto; discriminate | auto].
  - apply jsstring_eqb_neq in E. cbn [negb]. tauto.
Qed.

Lemma NoDup_firsts (l : list jsstring) : NoDup (firsts l).
Proof.
  induction l as [| x l IH]; cbn [firsts]; constructor.
  - intros H. apply filter_In in H as [_ H]. now rewrite jsstring_eqb_refl in H.
  - now apply NoDup_filter.
Qed.

Lemma filter_twice {A : Type} (p q : A -> bool) (l : list A) :
  filter p (filter q l) = filter (fun a => q a && p a) l.
Proof.
  induction l as [| x l IH]; cbn [filter]; [reflexivity |].
  destruct (q x); cbn [filter andb]; [destruct (p x) |]; now rewrite IH.
Qed.

Lemma filter_firsts (p : jsstring -> bool) (l : list jsstring) :
  firsts (filter p l) = filter p (firsts l).
Proof.
  induction l as [| x l IH]; cbn [firsts filter]; [reflexivity |].
  destruct (p x) eqn:Px; cbn [firsts filter]; rewrite ?Px, IH.
  - f_equal. rewrite !filter_twice. apply filter_ext. intros a. apply andb_comm.
  - rewrite filter_twice. apply filter_ext_in.
    intros a _. destruct (p a) eqn:Pa; [| now rewrite andb_false_r].
    rewrite andb_true_r. symmetry. apply negb_true_iff. apply jsstring_eqb_neq.
    intros ->. congruence.
Qed.

Lemma firsts_snoc (l : list jsstring) (x : jsstring) :
  firsts (l ++ [x])
  = if existsb (jsstring_eqb x) l then firsts l else firsts l ++ [x].
Proof.
  induction l as [| k l IH]; cbn [app firsts existsb filter]; [reflexivity |].
  rewrite IH. rewrite (jsstring_eqb_sym x k).
  destruct (jsstring_eqb k x) eqn:E; cbn [orb].
  - apply jsstring_eqb_eq in E. subst x.
    destruct (existsb (jsstring_eqb k) l); [reflexivity |].
    rewrite filter_app. cbn [filter]. rewrite jsstring_eqb_refl. cbn [negb].
    now rewrite app_nil_r.
  - destruct (existsb (jsstring_eqb x) l); [reflexivity |].
    rewrite filter_app. cbn [filter]. rewrite E. reflexivity.
Qed.

Lemma existsb_eqb_In (x : jsstring) (l : list jsstring) :
  existsb (jsstring_eqb x) l = true <-> In x l.
Proof.
  rewrite existsb_exists. split.
  - intros (y & Hy & E). apply jsstring_eqb_eq in E. now subst.
  - intros H. exists x. split; [exact H | apply jsstring_eqb_refl].
Qed.

(** Counting in Numbers: [c + 1] for a count below [2^53]. *)
Lemma add_of_Z (c : Z) :
  0 < c -> c + 1 < 2 ^ 53 -> Num_add (Num.of_Z c) Num.one = Num.of_Z (c + 1).
Proof.
  intros H0 H1.
  assert (A := of_Z_amount (c + 1) ltac:(lia)).
  assert (Dc := Zdigits2_pos c H0). assert (Dc53 : Zdigits2 c <= 53) by (apply digits_le_of_lt_pow; lia).
  assert (D1 := Zdigits2_pos (c + 1) ltac:(lia)).
  assert (D153 : Zdigits2 (c + 1) <= 53) by (apply digits_le_of_lt_pow; lia).
  assert (Pc := pow2_pos (53 - Zdigits2 c) ltac:(lia)).
  assert (P1 := pow2_pos (53 - Zdigits2 (c + 1)) ltac:(lia)).
  rewrite (of_Z_exact c) by lia. rewrite one_value, add_finite_rnd.
  replace (Z.min (Zdigits2 c - 53) (-52)) with (-52) by lia.
  transitivity (rnd (val (-52) (Num.of_Z (c + 1))) (-52)).
  - rewrite (of_Z_exact (c + 1)) by lia. f_equal.
    cbn [val scaled_value cond_Zopp].
    rewrite !Z2Pos.id by nia.
    rewrite <- !Z.mul_assoc, <- !Z.pow_add_r by lia.
    replace (53 - Zdigits2 c + (Zdigits2 c - 53 - -52)) with 52 by lia.
    replace (53 - Zdigits2 (c + 1) + (Zdigits2 (c + 1) - 53 - -52)) with 52 by lia.
    replace (-52 - -52) with 0 by lia.
    change (Zpos 4503599627370496) with (2 ^ 52). change (2 ^ 0) with 1. ring.
  - rewrite (rnd_exact (Num.of_Z (c + 1)) (-52) A).
    + rewrite (of_Z_exact (c + 1)) by lia. reflexivity.
    + rewrite (of_Z_exact (c + 1)) by lia. cbn [fits]. lia.
Qed.

Lemma gtb_of_Z_one (c : Z) : 0 < c < 2 ^ 53 -> Num.gtb (Num.of_Z c) Num.one = (2 <=? c).
Proof.
  intros [H0 H1]. unfold Num.gtb. fold (Num.ltb Num.one (Num.of_Z c)).
  destruct (Z.leb_spec 2 c) as [H2 | H2].
  - apply (ltb_leb_trans _ (Num.of_Z 2)); [reflexivity |]. apply of_Z_le; lia.
  - assert (c = 1) by lia. subst c. reflexivity.
Qed.

Lemma authorCounts_snoc (host : jsstring -> bool) (l : list Card6.row) (d : Card6.row) :
  Card5.authorCounts host (l ++ [d])
  = Card5.assign (Card5.authorCounts host l) (String_of (Card6.Author d))
      (Card5.incremented host (Card5.authorCounts host l) (String_of (Card6.Author d))).
Proof. unfold Card5.authorCounts. now rewrite fold_left_app. Qed.

(** [authorCounts] has a property for every key counted, [__proto__]
    apart, in the order in which the keys first occur, and it holds
    the number of occurrences of the key, or a string for a key that
    [Object.prototype] has. *)
Lemma authorCounts_spec (host : jsstring -> bool) (tableData : list Card6.row) :
  Z.of_nat (length tableData) < 2 ^ 32 ->
  map fst (Card5.authorCounts host tableData)
  = firsts (filter plain_key (author_keys tableData)) /\
  forall k, Card5.own (Card5.authorCounts host tableData) k
            = counted_as host (author_keys tableData) k.
Proof.
  induction tableData as [| d l IH] using rev_ind; intros Hlen.
  - split; [reflexivity |]. intros k. unfold counted_as. cbn.
    destruct (plain_key k); reflexivity.
  - rewrite length_app in Hlen. cbn [length] in Hlen.
    destruct (IH ltac:(lia)) as [IHk IHo]. clear IH.
    rewrite authorCounts_snoc. unfold author_keys in *. rewrite map_app. cbn [map].
    set (o := Card5.authorCounts host l) in *.
    set (names := map (fun d => String_of (Card6.Author d)) l) in *.
    set (key := String_of (Card6.Author d)).
    assert (Hocc : (occurrences key names <= length l)%nat).
    { unfold names. rewrite <- (length_map (fun d => String_of (Card6.Author d)) l).
      apply occurrences_le. }
    unfold Card5.assign. fold (plain_key key).
    destruct (jsstring_eqb key (js "__proto__")) eqn:Ep.
    + (* the setter of __proto__ ignores the string *)
      apply jsstring_eqb_eq in Ep.
      split.
      * rewrite filter_app. cbn [filter]. unfold plain_key at 2.
        rewrite (proj2 (jsstring_eqb_eq key (js "__proto__")) Ep). cbn [negb].
        rewrite app_nil_r. exact IHk.
      * intros k. rewrite IHo. unfold counted_as.
        destruct (plain_key k) eqn:Pk; [| reflexivity].
        rewrite occurrences_snoc.
        assert (E : jsstring_eqb k key = false).
        { apply jsstring_eqb_neq. intros ->. unfold plain_key in Pk.
          rewrite (proj2 (jsstring_eqb_eq key (js "__proto__")) Ep) in Pk. discriminate. }
        rewrite E, Nat.add_0_r. reflexivity.
    + assert (Pkey : plain_key key = true) by (unfold plain_key; now rewrite Ep).
      assert (Own := IHo key). unfold counted_as in Own. rewrite Pkey in Own.
      assert (V : Card5.incremented host o key
                  = if host key then Card5.Written
                    else Card5.Counted (Num.of_Z (Z.of_nat (S (occurrences key names))))).
      { unfold Card5.incremented, Card5.inherited. rewrite Own, Ep. cbn [orb].
        destruct (occurrences key names) as [| c] eqn:Eo.
        - destruct (host key); reflexivity.
        - destruct (host key); [reflexivity |].
          assert (T : truthy (VNumber (Num.of_Z (Z.of_nat (S c)))) = true).
          { rewrite of_Z_exact by lia. reflexivity. }
          rewrite T, add_of_Z by lia. do 2 f_equal. lia. }
      split.
      * rewrite keys_put, Own, IHk, filter_app. cbn [filter]. rewrite Pkey, firsts_snoc.
        destruct (occurrences key names) as [| c] eqn:Eo.
        -- assert (N : ~ In key names) by (apply occurrences_zero; exact Eo).
           destruct (existsb (jsstring_eqb key) (filter plain_key names)) eqn:Ex; [| reflexivity].
           apply existsb_eqb_In, filter_In in Ex as [Ex _]. contradiction.
        -- assert (I : In key names).
           { destruct (in_dec (list_eq_dec N.eq_dec) key names) as [I | N]; [exact I |].
             apply occurrences_zero in N. lia. }
           rewrite (proj2 (existsb_eqb_In key (filter plain_key names)));
             [reflexivity | apply filter_In; auto].
      * intros k. rewrite own_put, V, IHo. unfold counted_as.
        rewrite occurrences_snoc, (jsstring_eqb_sym k key).
        destruct (jsstring_eqb key k) eqn:E.
        -- apply jsstring_eqb_eq in E. subst k. rewrite Pkey.
           replace (occurrences key names + 1)%nat with (S (occurrences key names)) by lia.
           reflexivity.
        -- now rewrite Nat.add_0_r.
Qed.

Lemma filter_split_perm {A : Type} (p q : A -> bool) (l : list A) :
  (forall x, q x = negb (p x)) -> Permutation l (filter p l ++ filter q l).
Proof.
  intros H. induction l as [| x l IH]; cbn [filter]; [constructor |].
  rewrite H. destruct (p x); cbn [negb app].
  - now constructor.
  - now apply Permutation_cons_app.
Qed.

Lemma Object_keys_perm {A : Type} (o : list (jsstring * A)) :
  Permutation (map fst o) (Object_keys o).
Proof.
  unfold Object_keys.
  etransitivity; [apply (filter_split_perm
    (fun key => match array_index key with Some _ => true | None => false end)
    (fun key => match array_index key with Some _ => false | None => true end)) |].
  - intros x. destruct (array_index x); reflexivity.
  - apply Permutation_app_tail, array_sort_perm.
Qed.

Lemma Object_keys_plain {A : Type} (o : list (jsstring * A)) :
  (forall k, In k (map fst o) -> array_index k = None) -> Object_keys o = map fst o.
Proof.
  intros H. unfold Object_keys.
  assert (E : forall l : list jsstring, (forall k, In k l -> array_index k = None) ->
     filter (fun key => match array_index key with Some _ => true | None => false end) l = [] /\
     filter (fun key => match array_index key with Some _ => false | None => true end) l = l).
  { induction l as [| k l IH]; intros Hl; cbn [filter]; [split; reflexivity |].
    rewrite (Hl k (or_introl eq_refl)).
    destruct IH as [E1 E2]; [intros k' Hk'; apply Hl; now right |].
    split; [exact E1 | now rewrite E2]. }
  destruct (E (map fst o) H) as [E1 E2]. rewrite E1, E2. reflexivity.
Qed.

Lemma occurrences_pos (k : jsstring) (l : list jsstring) :
  (0 < occurrences k l)%nat <-> In k l.
Proof.
  assert (Z := occurrences_zero k l).
  destruct (in_dec (list_eq_dec N.eq_dec) k l) as [I | N].
  - split; [auto | intros _]. destruct (occurrences k l); [| lia]. exfalso. now apply Z.
  - apply Z in N. split; [lia | intros I]. exfalso. apply Z in N. auto.
Qed.

(** [authorCounts[author] > 1] after the count. *)
Lemma more_than_once_spec (host : jsstring -> bool) (tableData : list Card6.row)
    (a : jsstring) :
  Z.of_nat (length tableData) < 2 ^ 32 ->
  Card5.more_than_once (Card5.authorCounts host tableData) a
  = (2 <=? occurrences a (author_keys tableData))%nat && negb (Card5.inherited host a).
Proof.
  intros Hlen. destruct (authorCounts_spec host tableData Hlen) as [_ Ho].
  unfold Card5.more_than_once, Card5.inherited. rewrite Ho. unfold counted_as, plain_key.
  assert (L : (occurrences a (author_keys tableData) <= length tableData)%nat).
  { unfold author_keys.
    rewrite <- (length_map (fun d => String_of (Card6.Author d)) tableData).
    apply occurrences_le. }
  destruct (jsstring_eqb a (js "__proto__")); cbn [negb orb].
  - now rewrite andb_false_r.
  - destruct (occurrences a (author_keys tableData)) as [| c] eqn:Eo; [reflexivity |].
    destruct (host a); cbn [negb]; [now rewrite andb_false_r |].
    rewrite andb_true_r, gtb_of_Z_one by lia.
    destruct (Nat.leb_spec 2 (S c)); [apply Z.leb_le | apply Z.leb_gt]; lia.
Qed.

(** The authors [frequentAuthors] names. *)
Lemma in_frequentAuthors (host : jsstring -> bool) (tableData : list Card6.row)
    (a : jsstring) :
  Z.of_nat (length tableData) < 2 ^ 32 ->
  In a (Card5.frequentAuthors host tableData) <->
  (2 <= occurrences a (author_keys tableData))%nat /\ Card5.inherited host a = false.
Proof.
  intros Hlen. unfold Card5.frequentAuthors.
  rewrite filter_In, more_than_once_spec by exact Hlen.
  destruct (authorCounts_spec host _ Hlen) as [Hk _].
  rewrite andb_true_iff, negb_true_iff, Nat.leb_le. split; [tauto |].
  intros [H2 Hi]. split; [| tauto].
  apply (Permutation_in _ (Object_keys_perm _)). rewrite Hk.
  apply in_firsts, filter_In. split.
  - apply occurrences_pos. lia.
  - unfold Card5.inherited in Hi. apply orb_false_iff in Hi as [Hp _].
    unfold plain_key. now rewrite Hp.
Qed.

(** X19. [renderCard5], for a table of fewer than 2^32 puzzles:
    [frequentAuthors] names no author twice; it names the authors that
    occur more than once in the table, but never one whose name is
    [__proto__] or a property name of [Object.prototype], such as
    [constructor]; and, when no name is an array index, it names them
    in the order in which they first occur in the table. *)
Theorem frequentAuthors_are_the_authors_of_several_puzzles
    (host : jsstring -> bool) (tableData : list Card6.row) :
  Z.of_nat (length tableData) < 2 ^ 32 ->
  NoDup (Card5.frequentAuthors host tableData) /\
  (forall a, In a (Card5.frequentAuthors host tableData) <->
             (2 <= occurrences a (author_keys tableData))%nat /\
             Card5.inherited host a = false) /\
  ((forall a, In a (author_keys tableData) -> array_index a = None) ->
   Card5.frequentAuthors host tableData
   = filter (fun a => (2 <=? occurrences a (author_keys tableData))%nat
                      && negb (Card5.inherited host a))
       (firsts (author_keys tableData))).
Proof.
  intros Hlen. destruct (authorCounts_spec host tableData Hlen) as [Hk Ho].
  assert (P := Object_keys_perm (Card5.authorCounts host tableData)).
  unfold Card5.frequentAuthors. split; [| split].
  - apply NoDup_filter. apply (Permutation_NoDup P). rewrite Hk. apply NoDup_firsts.
  - intros a. apply (in_frequentAuthors host tableData a Hlen).
  - intros Hplain. rewrite Object_keys_plain.
    + rewrite Hk, filter_firsts, filter_twice. apply filter_ext. intros a.
      rewrite more_than_once_spec by exact Hlen.
      unfold plain_key, Card5.inherited.
      destruct (jsstring_eqb a (js "__proto__")); cbn [negb orb andb];
        [now rewrite andb_false_r | reflexivity].
    + intros k Hin. rewrite Hk in Hin. apply in_firsts, filter_In in Hin as [Hin _].
      now apply Hplain.
Qed.

(** Three puzzles, two of them by Ada Cross. *)
Lemma frequentAuthors_witness :
  Card5.frequentAuthors small_host three_puzzles = [js "Ada Cross"].
Proof.
  destruct (frequentAuthors_are_the_authors_of_several_puzzles small_host three_puzzles)
    as (_ & _ & H).
  - vm_compute. reflexivity.
  - rewrite H; [vm_compute; reflexivity |].
    intros a [<- | [<- | [<- | []]]]; vm_compute; reflexivity.
Defined.



(** ** The decimal of a whole Number below 2^53 *)

Lemma digits_value_lt (ds : jsstring) :
  forallb isDigit ds = true ->
  forall a, (digits_value ds a < (a + 1) * 10 ^ N.of_nat (length ds))%N.
Proof.
  induction ds as [| d ds IH]; intros Hd a.
  - cbn. lia.
  - cbn [forallb] in Hd. apply andb_prop in Hd as [H1 H2].
    cbn [digits_value length]. rewrite Nat2N.inj_succ, N.pow_succ_r'.
    specialize (IH H2 (10 * a + (d - 48))%N).
    assert (B := digit_value_add d a H1).
    set (t := (10 ^ N.of_nat (length ds))%N) in *. clearbody t. nia.
Qed.

Lemma digits_same_length (ds1 : jsstring) :
  forall ds2 a1 a2,
    length ds1 = length ds2 ->
    forallb isDigit ds1 = true -> forallb isDigit ds2 = true ->
    digits_value ds1 a1 = digits_value ds2 a2 -> a1 = a2 /\ ds1 = ds2.
Proof.
  induction ds1 as [| d1 ds1 IH]; intros [| d2 ds2] a1 a2 Hl H1 H2 E; try discriminate.
  - cbn in E. now split.
  - cbn [forallb] in H1, H2. apply andb_prop in H1 as [D1 H1]. apply andb_prop in H2 as [D2 H2].
    cbn [digits_value] in E. injection Hl as Hl.
    destruct (IH ds2 _ _ Hl H1 H2 E) as [Ea ->].
    unfold isDigit in D1, D2. rewrite andb_true_iff, !N.leb_le in D1, D2.
    assert (a1 = a2) by lia. subst a2. split; [reflexivity |]. f_equal. lia.
Qed.

(** A positive integer has one decimal without a leading zero. *)
Lemma digits_unique (ds1 ds2 : jsstring) (n : N) :
  forallb isDigit ds1 = true -> forallb isDigit ds2 = true ->
  digits_value ds1 0 = n -> digits_value ds2 0 = n ->
  (10 ^ N.of_nat (length ds1) <= 10 * n)%N ->
  (10 ^ N.of_nat (length ds2) <= 10 * n)%N ->
  ds1 = ds2.
Proof.
  intros H1 H2 V1 V2 L1 L2.
  assert (B1 := digits_value_lt ds1 H1 0%N). assert (B2 := digits_value_lt ds2 H2 0%N).
  rewrite V1 in B1. rewrite V2 in B2.
  assert (El : length ds1 = length ds2).
  { assert (A : (10 ^ N.of_nat (length ds1) < 10 ^ N.succ (N.of_nat (length ds2)))%N)
      by (rewrite N.pow_succ_r'; lia).
    assert (B : (10 ^ N.of_nat (length ds2) < 10 ^ N.succ (N.of_nat (length ds1)))%N)
      by (rewrite N.pow_succ_r'; lia).
    apply N.pow_lt_mono_r_iff in A; [| lia]. apply N.pow_lt_mono_r_iff in B; [| lia]. lia. }
  apply (digits_same_length ds1 ds2 0%N 0%N El H1 H2). congruence.
Qed.

Lemma digits_of_shifted (s : positive) (j : nat) :
  digits_of (Npos s) ++ repeat 48%N j = digits_of (Npos s * 10 ^ N.of_nat j).
Proof.
  destruct (digits_of_spec (Npos s)) as (D1 & _ & V1 & L1).
  specialize (L1 ltac:(discriminate)).
  assert (P : (0 < 10 ^ N.of_nat j)%N) by (apply N.neq_0_lt_0, N.pow_nonzero; lia).
  destruct (digits_of_spec (Npos s * 10 ^ N.of_nat j)) as (D2 & _ & V2 & L2).
  specialize (L2 ltac:(lia)).
  apply (digits_unique _ _ (Npos s * 10 ^ N.of_nat j)%N).
  - rewrite forallb_app, D1. now apply forallb_repeat.
  - exact D2.
  - rewrite digits_value_app, digits_value_zeros, V1. lia.
  - rewrite V2. lia.
  - rewrite length_app, repeat_length, Nat2N.inj_add, N.pow_add_r.
    set (t := (10 ^ N.of_nat (length (digits_of (Npos s))))%N) in *. clearbody t. nia.
  - exact L2.
Qed.

Lemma finite_inj (s s' : bool) (m m' : positive) (e e' : Z) :
  S754_finite s m e = S754_finite s' m' e' -> m = m' /\ e = e'.
Proof. intros H. split; congruence. Qed.

(** An integer from [2^53] on reads as a Number with a positive
    exponent, or as an infinity. *)
Lemma round_ratio_ge_2p53 (a : positive) (m : positive) (e : Z) :
  2 ^ 53 <= Zpos a -> Num.round_ratio false a 1 = S754_finite false m e -> 1 <= e.
Proof.
  intros Hbig. unfold Num.round_ratio. rewrite div_core_eq by lia.
  destruct (div_core_pre (Zpos a) 0 1 0) as [Hq Hpre]; try lia.
  cbv zeta in Hq, Hpre.
  assert (Da : 54 <= Zdigits2 (Zpos a)) by (apply (digits_ge_of_le_pow (Zpos a) 53); lia).
  change (Zdigits2 1) with 1 in *.
  replace (Zdigits2 (Zpos a) + 0 - (1 + 0)) with (Zdigits2 (Zpos a) - 1) in * by lia.
  replace (0 - 0) with 0 in * by lia.
  set (da := Zdigits2 (Zpos a)) in *.
  assert (E' : Z.min (fexp53 (da - 1)) 0 = 0) by (unfold fexp53; lia).
  rewrite E' in *. replace (0 - 0) with 0 in * by lia.
  change (2 ^ 0) with 1 in *. rewrite Z.mul_1_r, Z.div_1_r in *.
  destruct (bra_spec false (Zpos a) 0 (new_location 1 (Zpos a mod 1)) Hq Hpre)
    as (m2 & _ & _ & _ & _ & ->).
  replace (Zdigits2 (Zpos a) + 0) with da by (unfold da; lia).
  assert (E1 : fexp53 da = da - 53) by (unfold fexp53; lia).
  rewrite E1. unfold pack. clearbody da. intros E.
  destruct (m2 =? 0); [discriminate E |].
  destruct (m2 <? 2 ^ 53).
  - destruct (da - 53 <=? 971); [| discriminate E]. apply finite_inj in E. lia.
  - destruct (da - 53 + 1 <=? 971); [| discriminate E]. apply finite_inj in E. lia.
Qed.

Lemma of_Z_pos (V : Z) : 0 < V -> Num.of_Z V = Num.of_decimal false (Z.to_N V) 0.
Proof. intros H. destruct V; try lia. reflexivity. Qed.

(** Two positive integers that read as one Number, one of them below
    [2^53], are equal. *)
Lemma of_Z_inj (V n : Z) :
  0 < V -> 0 < n < 2 ^ 53 -> Num.of_Z V = Num.of_Z n -> V = n.
Proof.
  intros HV Hn E.
  assert (Dn := Zdigits2_pos n ltac:(lia)).
  assert (Dn53 : Zdigits2 n <= 53) by (apply digits_le_of_lt_pow; lia).
  destruct (Z.lt_ge_cases V (2 ^ 53)) as [Hlt | Hge].
  - rewrite (of_Z_exact V), (of_Z_exact n) in E by lia.
    apply finite_inj in E as [Em Ee].
    assert (Ed : Zdigits2 V = Zdigits2 n) by lia. rewrite Ed in Em.
    assert (P := pow2_pos (53 - Zdigits2 n) ltac:(lia)).
    apply (f_equal Zpos) in Em. rewrite !Z2Pos.id in Em by nia. nia.
  - exfalso. rewrite (of_Z_exact n) in E by lia.
    destruct V as [| p | p]; try lia.
    unfold Num.of_Z in E. change (Zpos p <? 0) with false in E.
    change (Z.abs_N (Zpos p)) with (Npos p) in E.
    unfold Num.of_decimal in E.
    destruct (strip10_value (Pos.to_nat (Pos.size p)) p 0) as [V K].
    destruct (Num.strip10 _ p 0) as [p' k]. cbn [fst snd] in V, K.
    destruct k as [| k | k]; try lia.
    + apply round_ratio_ge_2p53 in E; [lia |].
      rewrite V in Hge. change (10 ^ (0 - 0)) with 1 in Hge. lia.
    + apply round_ratio_ge_2p53 in E; [lia |].
      rewrite Pos2Z.inj_mul, Pos2Z.inj_pow. rewrite V in Hge.
      replace (Zpos k - 0) with (Zpos k) in Hge by lia. exact Hge.
Qed.

(** [String(n)] for a whole Number [0 <= n < 2^53]: its decimal digits. *)
Lemma Number_toString_of_Z (n : Z) :
  0 <= n < 2 ^ 53 -> Number_toString (Num.of_Z n) = digits_of (Z.to_N n).
Proof.
  intros [H0 H53]. destruct (Z.eq_dec n 0) as [-> | Hnz]; [reflexivity |].
  assert (Hv := of_Z_valid n).
  assert (Hi := of_decimal_integral false (Z.to_N n)).
  rewrite <- of_Z_pos in Hi by lia.
  assert (Dn := Zdigits2_pos n ltac:(lia)).
  assert (Dn53 : Zdigits2 n <= 53) by (apply digits_le_of_lt_pow; lia).
  assert (Ex := of_Z_exact n ltac:(lia)).
  set (m := Z.to_pos (n * 2 ^ (53 - Zdigits2 n))) in *.
  set (e := Zdigits2 n - 53) in *.
  assert (He0 : e <= 0) by (unfold e; lia). clearbody m e.
  rewrite Ex in Hv, Hi.
  apply valid_finite in Hv as [Hc He].
  unfold whole_or_not_finite in Hi. cbn [Num.isFinite negb] in Hi. rewrite orb_false_r in Hi.
  assert (Hlt : Num.ltb (S754_finite false m e) n1e21 = true).
  { rewrite n1e21_value. unfold Num.ltb, SFltb, SFcompare.
    destruct (Z.compare_spec e 17); try lia; reflexivity. }
  assert (Hsc := shortest_decimal_scale m e Hc He Hi).
  assert (Hlen := shortest_decimal_length m e Hc He Hlt Hsc).
  assert (R := shortest_decimal_reads_back m e Hc He).
  rewrite Ex. unfold Number_toString.
  destruct (shortest_decimal (S754_finite false m e) m e) as [s scale].
  cbn [fst snd] in *. cbv zeta. cbn [app].
  set (ds := digits_of (Npos s)) in *.
  assert (El : layout ds (scale + Z.of_nat (length ds)) = ds ++ repeat 48%N (Z.to_nat scale)).
  { unfold layout.
    destruct (Z.leb_spec (Z.of_nat (length ds)) (scale + Z.of_nat (length ds))); [| lia].
    destruct (Z.leb_spec (scale + Z.of_nat (length ds)) 21); [| lia].
    cbn [andb]. do 2 f_equal. lia. }
  rewrite El. unfold ds. rewrite digits_of_shifted. f_equal.
  assert (P := pow10_pos scale Hsc).
  assert (PV : 0 < Zpos s * 10 ^ scale) by nia.
  assert (EV : Num.of_decimal false (Npos s) scale = Num.of_Z (Zpos s * 10 ^ scale)).
  { rewrite of_Z_pos by lia.
    apply (of_decimal_value_N false _ _ scale 0 0); try lia.
    rewrite Z2N.id by lia. change (Z.of_N (Npos s)) with (Zpos s).
    rewrite !Z.sub_0_r. change (10 ^ 0) with 1. lia. }
  rewrite EV, <- Ex in R. apply of_Z_inj in R; [| lia | lia].
  rewrite <- R. rewrite Z2N.inj_mul, Z2N.inj_pow by lia.
  rewrite Z_nat_N. reflexivity.
Qed.

(** ** Whole parts, quotients and remainders of whole Numbers *)

Lemma amount_fits (x : number) : amount x = true -> fits (-1074) x.
Proof.
  intros H. destruct (amount_cases x H) as [[s ->] | (m & e & -> & C & _)]; cbn [fits];
    [exact I |].
  unfold canonical, fexp53 in C. lia.
Qed.

Lemma val_of_Z (c k : Z) :
  0 <= k < 2 ^ 53 -> c <= -52 -> val c (Num.of_Z k) = k * 2 ^ (- c).
Proof.
  intros [H0 H1] Hc. destruct (Z.eq_dec k 0) as [-> | Hnz]; [reflexivity |].
  assert (Dk := Zdigits2_pos k ltac:(lia)).
  assert (Dk53 : Zdigits2 k <= 53) by (apply digits_le_of_lt_pow; lia).
  assert (P := pow2_pos (53 - Zdigits2 k) ltac:(lia)).
  rewrite of_Z_exact by lia. cbn [val]. unfold scaled_value. cbn [cond_Zopp].
  rewrite Z2Pos.id by nia.
  rewrite <- Z.mul_assoc, <- Z.pow_add_r by lia. f_equal. f_equal. lia.
Qed.

Lemma fits_of_Z (c k : Z) : 0 <= k < 2 ^ 53 -> c <= -52 -> fits c (Num.of_Z k).
Proof.
  intros [H0 H1] Hc. destruct (Z.eq_dec k 0) as [-> | Hnz]; [exact I |].
  assert (Dk := Zdigits2_pos k ltac:(lia)).
  rewrite of_Z_exact by lia. cbn [fits]. lia.
Qed.

(** [Math.floor(x)] for an amount between two successive integers. *)
Lemma floor_between (x : number) (Q c : Z) :
  amount x = true -> x <> S754_zero true -> fits c x -> c <= -52 ->
  0 <= Q -> Q + 1 < 2 ^ 53 ->
  Q * 2 ^ (- c) <= val c x < (Q + 1) * 2 ^ (- c) ->
  Math_floor x = Num.of_Z Q.
Proof.
  intros Hx Hnz F Hc HQ HQ53 [Hlo Hhi].
  assert (AQ := of_Z_amount Q ltac:(lia)).
  assert (FQ := fits_of_Z c Q ltac:(lia) Hc).
  assert (VQ := val_of_Z c Q ltac:(lia) Hc).
  assert (Pc := pow2_pos (- c) ltac:(lia)).
  destruct (amount_cases x Hx) as [[[|] ->] | (m & e & -> & C & He)].
  - congruence.
  - cbn [val] in *. assert (Q = 0) by nia. subst Q. reflexivity.
  - cbn [val fits] in *. unfold scaled_value in *. cbn [cond_Zopp] in *.
    assert (Pe := pow2_pos (e - c) ltac:(lia)).
    unfold Math_floor. destruct (Z.leb_spec 0 e) as [Hp | Hn].
    + (* a whole Number already *)
      assert (Pe0 := pow2_pos e Hp).
      assert (E : Zpos m * 2 ^ (e - c) = Zpos m * 2 ^ e * 2 ^ (- c)).
      { rewrite <- Z.mul_assoc, <- Z.pow_add_r by lia. reflexivity. }
      rewrite E in Hlo, Hhi.
      assert (EQ : Zpos m * 2 ^ e = Q) by nia.
      destruct (leb_antisym_amount (S754_finite false m e) (Num.of_Z Q) Hx AQ) as [-> | [[s Hs] _]];
        [| | reflexivity | discriminate Hs].
      * apply (leb_val c _ _ Hx AQ); [cbn [fits]; lia | exact FQ |].
        rewrite VQ. cbn [val]. unfold scaled_value. cbn [cond_Zopp]. lia.
      * apply (leb_val c _ _ AQ Hx); [exact FQ | cbn [fits]; lia |].
        rewrite VQ. cbn [val]. unfold scaled_value. cbn [cond_Zopp]. lia.
    + cbn [cond_Zopp]. f_equal.
      assert (Pn := pow2_pos (- e) ltac:(lia)).
      assert (E : 2 ^ (- c) = 2 ^ (- e) * 2 ^ (e - c)).
      { rewrite <- Z.pow_add_r by lia. f_equal. lia. }
      rewrite E in Hlo, Hhi.
      symmetry. apply (Z.div_unique_pos _ _ Q (Zpos m - Q * 2 ^ (- e))); [| ring].
      split; nia.
Qed.

(** A Number no greater than a quotient is no greater than the Number
    the quotient is rounded to, and one above it no smaller. *)
Lemma div_between (ma md mb : positive) (ea ed eb : Z) :
  canonical mb eb -> eb <= 971 ->
  Z.min (fexp53 (Zdigits2 (Zpos ma) + ea - (Zdigits2 (Zpos md) + ed))) (ea - ed) <= eb ->
  let e' := Z.min (fexp53 (Zdigits2 (Zpos ma) + ea - (Zdigits2 (Zpos md) + ed))) (ea - ed) in
  (Zpos mb * 2 ^ (eb - e') * Zpos md <= Zpos ma * 2 ^ (ea - ed - e') ->
   Num.leb (S754_finite false mb eb)
           (Num.div (S754_finite false ma ea) (S754_finite false md ed)) = true) /\
  (Zpos ma * 2 ^ (ea - ed - e') < Zpos mb * 2 ^ (eb - e') * Zpos md ->
   Num.leb (Num.div (S754_finite false ma ea) (S754_finite false md ed))
           (S754_finite false mb eb) = true).
Proof.
  intros Cb Hb He e'.
  unfold Num.div, SFdiv. rewrite div_core_eq by lia. cbn [xorb]. fold e'.
  destruct (div_core_pre (Zpos ma) ea (Zpos md) ed ltac:(lia) ltac:(lia)) as [Hq Hpre].
  fold e' in Hq, Hpre. fold e' in He.
  set (N := Zpos ma * 2 ^ (ea - ed - e')) in *.
  assert (Pb := pow2_pos (eb - e') ltac:(lia)).
  split; intros H.
  - apply (bra_lower (N / Zpos md) e' _ mb eb e'); try assumption; try lia.
    rewrite Z.sub_diag, Z.mul_1_r. apply Z.div_le_lower_bound; lia.
  - apply (bra_upper (N / Zpos md) e' _ mb eb); try assumption.
    left. apply Z.div_lt_upper_bound; lia.
Qed.

Lemma div_not_negative_zero (ma md : positive) (ea ed : Z) :
  Num.div (S754_finite false ma ea) (S754_finite false md ed) <> S754_zero true.
Proof.
  destruct (div_finite_bra ma md ea ed) as (q & e' & r & -> & Hq & Hpre & _).
  destruct (bra_spec false q e' (new_location (Zpos md) r) Hq Hpre) as (m2 & _ & _ & _ & _ & ->).
  unfold pack. destruct (m2 =? 0); [discriminate |].
  destruct (m2 <? 2 ^ 53); destruct (_ <=? 971); discriminate.
Qed.

Lemma n60_value : Num.of_Z 60 = S754_finite false 8444249301319680 (-47).
Proof. vm_compute. reflexivity. Qed.

Lemma canonical_of_Z (k : Z) :
  0 < k < 2 ^ 53 ->
  canonical (Z.to_pos (k * 2 ^ (53 - Zdigits2 k))) (Zdigits2 k - 53) /\
  Zdigits2 k - 53 <= 971.
Proof.
  intros H. assert (V := of_Z_valid k). rewrite of_Z_exact in V by exact H.
  now apply valid_finite in V.
Qed.

(** The quotient of a whole Number by 60, rounded and then floored,
    is the integer quotient. *)
Lemma floor_div_60 (k : Z) :
  0 <= k < 2 ^ 52 ->
  Math_floor (Num.div (Num.of_Z k) (Num.of_Z 60)) = Num.of_Z (k / 60).
Proof.
  intros [H0 H52]. destruct (Z.eq_dec k 0) as [-> | Hnz]; [reflexivity |].
  set (Q := k / 60).
  assert (HQ : 60 * Q <= k < 60 * Q + 60).
  { unfold Q. assert (M := Z.mod_pos_bound k 60 ltac:(lia)).
    assert (D := Z.div_mod k 60 ltac:(lia)). lia. }
  assert (HQ0 : 0 <= Q) by lia.
  assert (E52 : 2 ^ 52 = 4503599627370496) by reflexivity.
  assert (E53 : 2 ^ 53 = 9007199254740992) by reflexivity.
  assert (Dk := Zdigits2_pos k ltac:(lia)).
  assert (Bk := Zdigits2_bounds k ltac:(lia)).
  assert (Dk52 : Zdigits2 k <= 52) by (apply digits_le_of_lt_pow; lia).
  set (dk := Zdigits2 k) in *.
  assert (Pk := pow2_pos (53 - dk) ltac:(lia)).
  (* the quotient as it is rounded *)
  rewrite (of_Z_exact k) by lia. rewrite n60_value. fold dk.
  set (mk := Z.to_pos (k * 2 ^ (53 - dk))).
  assert (Emk : Zpos mk = k * 2 ^ (53 - dk)) by (unfold mk; rewrite Z2Pos.id; nia).
  assert (Dmk : Zdigits2 (Zpos mk) = 53).
  { rewrite Emk. destruct k as [| p | p]; try lia.
    rewrite Zdigits2_mul_pow2 by lia. fold dk. lia. }
  assert (Dmd : Zdigits2 (Zpos 8444249301319680) = 53) by reflexivity.
  assert (Ee : Z.min (fexp53 (Zdigits2 (Zpos mk) + (dk - 53)
                              - (Zdigits2 (Zpos 8444249301319680) + -47)))
                     (dk - 53 - -47) = dk - 59).
  { rewrite Dmk, Dmd. unfold fexp53. lia. }
  set (x := Num.div (S754_finite false mk (dk - 53)) (S754_finite false 8444249301319680 (-47))).
  assert (EN : Zpos mk * 2 ^ (dk - 53 - -47 - (dk - 59)) = k * 2 ^ (106 - dk)).
  { rewrite Emk, <- Z.mul_assoc, <- Z.pow_add_r by lia. f_equal. f_equal. lia. }
  assert (P106 := pow2_pos (106 - dk) ltac:(lia)).
  assert (P100 := pow2_pos (100 - dk) ltac:(lia)).
  assert (E106 : 2 ^ (106 - dk) = 64 * 2 ^ (100 - dk)).
  { replace (106 - dk) with (6 + (100 - dk)) by lia. rewrite Z.pow_add_r by lia. reflexivity. }
  assert (Ak : amount (S754_finite false mk (dk - 53)) = true).
  { unfold mk, dk. rewrite <- (of_Z_exact k) by lia. apply of_Z_amount. lia. }
  destruct (div_mono_l _ _ 8444249301319680 (-47) Ak Ak (leb_refl_amount _ Ak)) as (Vx & Nx & _).
  fold x in Vx, Nx.
  assert (Zx : x <> S754_zero true) by apply div_not_negative_zero.
  (* above it: the quotient and 63/64 *)
  set (u := 64 * Q + 63).
  assert (Hu : k <= u < 2 ^ 53) by (unfold u; lia).
  assert (Du := Zdigits2_pos u ltac:(lia)).
  assert (Bu := Zdigits2_bounds u ltac:(lia)).
  assert (Du53 : Zdigits2 u <= 53) by (apply digits_le_of_lt_pow; lia).
  assert (Dku : dk <= Zdigits2 u).
  { apply (digits_le_of_lt_pow k (Zdigits2 u)); lia. }
  assert (Du6 : 6 <= Zdigits2 u).
  { apply (digits_ge_of_le_pow u 5); [unfold u; change (2 ^ 5) with 32; lia | lia]. }
  set (du := Zdigits2 u) in *.
  assert (Pu := pow2_pos (53 - du) ltac:(lia)).
  set (mu := Z.to_pos (u * 2 ^ (53 - du))).
  assert (Emu : Zpos mu = u * 2 ^ (53 - du)) by (unfold mu; rewrite Z2Pos.id; nia).
  assert (Cu : canonical mu (du - 59)).
  { unfold canonical. rewrite Emu. destruct u as [| p | p] eqn:Eu; try lia.
    rewrite Zdigits2_mul_pow2 by lia. fold du. unfold fexp53. lia. }
  set (U := S754_finite false mu (du - 59)).
  assert (AU : amount U = true) by (apply amount_finite; [exact Cu | lia]).
  destruct (div_between mk 8444249301319680 mu (dk - 53) (-47) (du - 59) Cu ltac:(lia))
    as [_ Hup]; [rewrite Ee; lia |].
  cbv zeta in Hup. rewrite Ee, EN in Hup. fold x in Hup.
  assert (LU : Num.leb x U = true).
  { apply Hup. rewrite Emu.
    replace (du - 59 - (dk - 59)) with (du - dk) by lia.
    rewrite <- (Z.mul_assoc u), <- Z.pow_add_r by lia.
    replace (53 - du + (du - dk)) with (53 - dk) by lia.
    change (Zpos 8444249301319680) with (60 * 2 ^ 47).
    rewrite E106.
    replace (u * 2 ^ (53 - dk) * (60 * 2 ^ 47)) with (60 * u * (2 ^ (53 - dk) * 2 ^ 47)) by ring.
    rewrite <- Z.pow_add_r by lia. replace (53 - dk + 47) with (100 - dk) by lia.
    unfold u. nia. }
  assert (Ax : amount x = true) by (apply (amount_below x U Vx Nx LU AU)).
  assert (Fx := amount_fits x Ax).
  assert (VU : val (-1074) U = u * 2 ^ 1068).
  { unfold U. cbn [val]. unfold scaled_value. cbn [cond_Zopp]. rewrite Emu.
    rewrite <- Z.mul_assoc, <- Z.pow_add_r by lia. f_equal. f_equal. lia. }
  assert (Hhi : val (-1074) x < (Q + 1) * 2 ^ (- -1074)).
  { assert (L := proj1 (leb_val (-1074) x U Ax AU Fx (amount_fits U AU)) LU).
    rewrite VU in L. change (- -1074) with (6 + 1068). rewrite Z.pow_add_r by lia.
    change (2 ^ 6) with 64. assert (P := pow2_pos 1068 ltac:(lia)). unfold u in L. nia. }
  (* below it: the quotient *)
  assert (Hlo : Q * 2 ^ (- -1074) <= val (-1074) x).
  { destruct (Z.eq_dec Q 0) as [-> | HQnz]; [rewrite Z.mul_0_l; now apply val_nonneg |].
    assert (HQ53 : 0 < Q < 2 ^ 53) by lia.
    assert (DQ := Zdigits2_pos Q ltac:(lia)).
    assert (DQ53 : Zdigits2 Q <= 53) by (apply digits_le_of_lt_pow; lia).
    assert (DQk : dk - 6 <= Zdigits2 Q).
    { destruct (Z.le_gt_cases dk 6) as [| Hgt]; [lia |].
      assert (B : 2 ^ (dk - 7) <= Q).
      { assert (E : 2 ^ (dk - 1) = 64 * 2 ^ (dk - 7)).
        { replace (dk - 1) with (6 + (dk - 7)) by lia. rewrite Z.pow_add_r by lia. reflexivity. }
        assert (P := pow2_pos (dk - 7) ltac:(lia)). lia. }
      apply digits_ge_of_le_pow in B; lia. }
    destruct (canonical_of_Z Q HQ53) as [CQ EQ971].
    set (dQ := Zdigits2 Q) in *.
    assert (PQ := pow2_pos (53 - dQ) ltac:(lia)).
    destruct (div_between mk 8444249301319680 (Z.to_pos (Q * 2 ^ (53 - dQ)))
                (dk - 53) (-47) (dQ - 53) CQ EQ971)
      as [Hdown _]; [rewrite Ee; lia |].
    cbv zeta in Hdown. rewrite Ee, EN in Hdown. fold x in Hdown.
    assert (LQ : Num.leb (Num.of_Z Q) x = true).
    { rewrite (of_Z_exact Q) by lia. fold dQ. apply Hdown.
      rewrite Z2Pos.id by nia.
      replace (dQ - 53 - (dk - 59)) with (dQ - dk + 6) by lia.
      rewrite <- (Z.mul_assoc Q), <- Z.pow_add_r by lia.
      replace (53 - dQ + (dQ - dk + 6)) with (59 - dk) by lia.
      change (Zpos 8444249301319680) with (60 * 2 ^ 47).
      replace (Q * 2 ^ (59 - dk) * (60 * 2 ^ 47)) with (60 * Q * (2 ^ (59 - dk) * 2 ^ 47)) by ring.
      rewrite <- Z.pow_add_r by lia. replace (59 - dk + 47) with (106 - dk) by lia.
      nia. }
    assert (L := proj1 (leb_val (-1074) (Num.of_Z Q) x (of_Z_amount Q ltac:(lia)) Ax
                          (fits_of_Z (-1074) Q ltac:(lia) ltac:(lia)) Fx) LQ).
    rewrite val_of_Z in L by lia. exact L. }
  apply (floor_between x Q (-1074) Ax Zx Fx); try lia.
Qed.

(** The Number nearest to a whole number below [2^53], given in units
    of [2^c], is that whole number. *)
Lemma rnd_of_Z (j c : Z) :
  0 < j < 2 ^ 53 -> c <= 0 -> rnd (j * 2 ^ (- c)) c = Num.of_Z j.
Proof.
  intros Hj Hc.
  set (c0 := Z.min c (-52)).
  assert (Aj := of_Z_amount j ltac:(lia)).
  assert (Fj := fits_of_Z c0 j ltac:(lia) ltac:(unfold c0; lia)).
  assert (Ej := rnd_exact (Num.of_Z j) c0 Aj Fj).
  rewrite val_of_Z in Ej by (unfold c0; lia).
  assert (Nz : forall s, Num.of_Z j <> S754_zero s).
  { intros s. rewrite of_Z_exact by lia. discriminate. }
  assert (Ej' : rnd (j * 2 ^ (- c0)) c0 = Num.of_Z j).
  { rewrite Ej. destruct (Num.of_Z j) as [s | | |]; try reflexivity. now destruct (Nz s). }
  assert (Pc := pow2_pos (- c) ltac:(lia)).
  assert (Pc0 := pow2_pos (- c0) ltac:(unfold c0; lia)).
  assert (Pd := pow2_pos (c - c0) ltac:(unfold c0; lia)).
  assert (E : j * 2 ^ (- c) * 2 ^ (c - c0) = j * 2 ^ (- c0)).
  { rewrite <- Z.mul_assoc, <- Z.pow_add_r by (unfold c0; lia). f_equal. f_equal. lia. }
  assert (L1 : Num.leb (rnd (j * 2 ^ (- c)) c) (rnd (j * 2 ^ (- c0)) c0) = true).
  { apply (rnd_mono _ _ c c0 c0); [nia | unfold c0; lia | unfold c0; lia |].
    rewrite Z.sub_diag, Z.mul_1_r. lia. }
  assert (L2 : Num.leb (rnd (j * 2 ^ (- c0)) c0) (rnd (j * 2 ^ (- c)) c) = true).
  { apply (rnd_mono _ _ c0 c c0); [nia | unfold c0; lia | unfold c0; lia |].
    rewrite Z.sub_diag, Z.mul_1_r. lia. }
  rewrite Ej' in L1, L2.
  assert (A : amount (rnd (j * 2 ^ (- c)) c) = true).
  { apply (amount_below _ (Num.of_Z j)); [apply rnd_valid | apply rnd_nonneg; nia | exact L1 | exact Aj]. }
  destruct (leb_antisym_amount _ _ A Aj L1 L2) as [-> | [_ [s Hs]]]; [reflexivity |].
  now destruct (Nz s).
Qed.

(** The remainder of a whole Number by 60. *)
Lemma rem_60 (k : Z) :
  0 <= k < 2 ^ 53 -> Num_rem (Num.of_Z k) (Num.of_Z 60) = Num.of_Z (k mod 60).
Proof.
  intros [H0 H53]. destruct (Z.eq_dec k 0) as [-> | Hnz]; [reflexivity |].
  assert (Dk := Zdigits2_pos k ltac:(lia)).
  assert (Dk53 : Zdigits2 k <= 53) by (apply digits_le_of_lt_pow; lia).
  assert (Pk := pow2_pos (53 - Zdigits2 k) ltac:(lia)).
  assert (M := Z.mod_pos_bound k 60 ltac:(lia)).
  rewrite (of_Z_exact k) by lia. rewrite n60_value.
  unfold Num_rem. rewrite Z2Pos.id by nia.
  set (c := Z.min (Zdigits2 k - 53) (-47)).
  assert (Pc := pow2_pos (- c) ltac:(unfold c; lia)).
  assert (E1 : k * 2 ^ (53 - Zdigits2 k) * 2 ^ (Zdigits2 k - 53 - c) = k * 2 ^ (- c)).
  { rewrite <- Z.mul_assoc, <- Z.pow_add_r by (unfold c; lia). f_equal. f_equal. lia. }
  assert (E2 : Zpos 8444249301319680 * 2 ^ (-47 - c) = 60 * 2 ^ (- c)).
  { change (Zpos 8444249301319680) with (60 * 2 ^ 47).
    rewrite <- Z.mul_assoc, <- Z.pow_add_r by (unfold c; lia). f_equal. f_equal. lia. }
  rewrite E1, E2, Z.mul_mod_distr_r by lia.
  destruct (Z.eqb_spec (k mod 60 * 2 ^ (- c)) 0) as [Ez | Nz].
  - assert (k mod 60 = 0) by nia. now replace (k mod 60) with 0.
  - cbn [cond_Zopp]. fold (rnd (k mod 60 * 2 ^ (- c)) c).
    apply rnd_of_Z; [| unfold c; lia].
    assert (k mod 60 <> 0) by (intros E; rewrite E in Nz; lia). lia.
Qed.

Lemma two_digits_padStart (s : Z) :
  0 <= s < 100 -> padStart (digits_of (Z.to_N s)) 2 (js "0") = two_digits s.
Proof.
  intros Hs.
  assert (T : forallb
                (fun n => jsstring_eqb (padStart (digits_of (N.of_nat n)) 2 (js "0"))
                            (two_digits (Z.of_nat n)))
                (seq 0 100) = true) by (vm_compute; reflexivity).
  rewrite forallb_forall in T.
  specialize (T (Z.to_nat s) ltac:(apply in_seq; lia)).
  apply jsstring_eqb_eq in T. rewrite Z2Nat.id in T by lia.
  rewrite <- T. do 2 f_equal. lia.
Qed.

Lemma rnd_not_negative_zero (V c : Z) : 0 <= V -> rnd V c <> S754_zero true.
Proof.
  intros H. destruct V as [| p | p]; [discriminate | | lia].
  unfold rnd, binary_normalize.
  destruct (binary_round_bra false p c) as (mz & e1 & -> & Hpre & _ & _).
  destruct (bra_spec false (Zpos mz) e1 loc_Exact ltac:(lia) Hpre) as (m2 & _ & _ & _ & _ & ->).
  unfold pack. destruct (m2 =? 0); [discriminate |].
  destruct (m2 <? 2 ^ 53); destruct (_ <=? 971); discriminate.
Qed.

(** [d3.interpolateNumber(0, b)] between the frames 0 and 1. *)
Lemma interpolate_from_zero (b t : number) :
  amount b = true -> amount t = true -> Num.leb t Num.one = true ->
  amount (Timer.interpolateNumber Num.zero b t) = true /\
  Timer.interpolateNumber Num.zero b t <> S754_zero true /\
  Num.leb (Timer.interpolateNumber Num.zero b t) b = true /\
  (t = Num.one -> Num.leb b (Timer.interpolateNumber Num.zero b t) = true).
Proof.
  intros Hb Ht Hle. unfold Timer.interpolateNumber.
  assert (W : Num.mul Num.zero (Num.sub Num.one t) = Num.zero).
  { destruct (sub_amount Num.one t eq_refl Ht Hle) as [Aw _].
    assert (Nw : Num.sub Num.one t <> S754_zero true).
    { rewrite one_value in *.
      destruct (sub_rnd 4503599627370496 (-52) t eq_refl Ht) as (c & Hc & Ft & ->).
      apply rnd_not_negative_zero.
      assert (F1 : fits c (S754_finite false 4503599627370496 (-52))) by (cbn [fits]; lia).
      assert (L := proj1 (leb_val c t (S754_finite false 4503599627370496 (-52))
                            Ht eq_refl Ft F1) Hle). lia. }
    destruct (amount_cases _ Aw) as [[[|] E] | (m & e & E & _)]; rewrite E in *;
      [congruence | reflexivity | reflexivity]. }
  rewrite W.
  destruct (mul_amount t b Ht Hb Hle) as [Aq Lq]. rewrite (mul_comm t b) in Aq, Lq.
  assert (V : Num_add Num.zero (Num.mul b t)
              = match Num.mul b t with S754_zero _ => Num.zero | q => q end).
  { destruct (amount_cases _ Aq) as [[s ->] | (m & e & -> & _)];
      [destruct s; reflexivity | reflexivity]. }
  rewrite V. split; [| split; [| split]].
  - destruct (Num.mul b t); exact Aq.
  - destruct (amount_cases _ Aq) as [[s ->] | (m & e & -> & _)]; discriminate.
  - destruct (amount_cases _ Aq) as [[s E] | (m & e & E & _)]; rewrite E in *;
      [now apply amount_nonneg | exact Lq].
  - intros ->. rewrite (mul_one_r b Hb).
    destruct (amount_cases _ Hb) as [[s ->] | (m & e & -> & _)];
      [destruct s; reflexivity | now apply leb_refl_amount].
Qed.

(** [Math.floor(x)] of an amount below [2^52]: the whole number [k]
    with [k <= x < k + 1]. *)
Lemma floor_whole_part (x : number) :
  amount x = true -> x <> S754_zero true ->
  Num.ltb x (Num.of_Z (2 ^ 52)) = true ->
  exists k, 0 <= k < 2 ^ 52 /\ Math_floor x = Num.of_Z k /\
            Num.leb (Num.of_Z k) x = true /\ Num.ltb x (Num.of_Z (k + 1)) = true.
Proof.
  intros Ax Zx Hlt.
  assert (Fx := amount_fits x Ax).
  assert (V0 := val_nonneg (-1074) x Ax Fx).
  assert (P := pow2_pos 1074 ltac:(lia)).
  assert (E52 : 2 ^ 52 = 4503599627370496) by reflexivity.
  assert (E53 : 2 ^ 53 = 9007199254740992) by reflexivity.
  assert (OfZ : forall j, 0 <= j < 2 ^ 53 ->
            amount (Num.of_Z j) = true /\ fits (-1074) (Num.of_Z j) /\
            val (-1074) (Num.of_Z j) = j * 2 ^ 1074).
  { intros j Hj. split; [now apply of_Z_amount |]. split; [apply fits_of_Z; lia |].
    rewrite val_of_Z by lia. reflexivity. }
  assert (Vhi : val (-1074) x < 2 ^ 52 * 2 ^ 1074).
  { destruct (Z.lt_ge_cases (val (-1074) x) (2 ^ 52 * 2 ^ 1074)) as [| Hge]; [assumption |].
    exfalso. destruct (OfZ (2 ^ 52) ltac:(lia)) as (A & F & Ev).
    assert (L : Num.leb (Num.of_Z (2 ^ 52)) x = true)
      by (apply (leb_val (-1074) _ _ A Ax F Fx); rewrite Ev; exact Hge).
    apply leb_not_ltb in L. congruence. }
  set (k := val (-1074) x / 2 ^ 1074).
  assert (Hk : k * 2 ^ 1074 <= val (-1074) x < (k + 1) * 2 ^ 1074).
  { unfold k. assert (M := Z.mod_pos_bound (val (-1074) x) (2 ^ 1074) P).
    assert (D := Z.div_mod (val (-1074) x) (2 ^ 1074) ltac:(lia)). lia. }
  assert (Hk0 : 0 <= k) by (unfold k; apply Z.div_pos; lia).
  assert (Hk52 : k < 2 ^ 52) by nia.
  exists k. split; [lia |]. split; [| split].
  - apply (floor_between x k (-1074) Ax Zx Fx); try lia; exact Hk.
  - destruct (OfZ k ltac:(lia)) as (A & F & Ev).
    apply (leb_val (-1074) _ _ A Ax F Fx). rewrite Ev. lia.
  - destruct (Num.ltb x (Num.of_Z (k + 1))) eqn:E; [reflexivity | exfalso].
    destruct (OfZ (k + 1) ltac:(lia)) as (A & F & Ev).
    apply not_ltb_leb in E; [| now apply amount_not_NaN | now apply amount_not_NaN].
    apply (leb_val (-1074) _ _ A Ax F Fx) in E. rewrite Ev in E. lia.
Qed.

(** X21. The timer of the replay of [renderCard7] shows whole minutes
    and seconds: for a time spent that is a finite Number, not
    negative and below [2^52], and a frame [t] between 0 and 1, the
    text is that of the whole number [k = Math.floor(i(t))] of seconds
    elapsed, as the decimal of [k / 60], a colon and the two digits of
    [k mod 60]; [k] is no more than the time spent, and at the last
    frame, [t = 1], it is the time spent without its fraction. *)
Theorem timer_shows_whole_minutes_and_seconds (actualSeconds t : number) :
  amount actualSeconds = true ->
  Num.ltb actualSeconds (Num.of_Z (2 ^ 52)) = true ->
  amount t = true -> Num.leb t Num.one = true ->
  exists k : Z,
    0 <= k /\
    Math_floor (Timer.interpolateNumber Num.zero actualSeconds t) = Num.of_Z k /\
    Num.leb (Num.of_Z k) actualSeconds = true /\
    (t = Num.one -> Num.ltb actualSeconds (Num.of_Z (k + 1)) = true) /\
    Timer.textContent (Some actualSeconds) t
    = digits_of (Z.to_N (k / 60)) ++ js ":" ++ two_digits (k mod 60).
Proof.
  intros Hb Hb52 Ht Hle.
  destruct (interpolate_from_zero actualSeconds t Hb Ht Hle) as (Av & Zv & Lv & Last).
  assert (Hv52 : Num.ltb (Timer.interpolateNumber Num.zero actualSeconds t)
                         (Num.of_Z (2 ^ 52)) = true)
    by (apply (leb_ltb_trans _ _ _ Lv Hb52)).
  destruct (floor_whole_part _ Av Zv Hv52) as (k & Hk & Ef & Lk & Uk).
  assert (E52 : 2 ^ 52 = 4503599627370496) by reflexivity.
  assert (E53 : 2 ^ 53 = 9007199254740992) by reflexivity.
  assert (M := Z.mod_pos_bound k 60 ltac:(lia)).
  assert (Q0 : 0 <= k / 60) by (apply Z.div_pos; lia).
  assert (Q1 : k / 60 <= k) by (apply Z.div_le_upper_bound; lia).
  exists k. split; [lia |]. split; [exact Ef |]. split; [exact (leb_trans _ _ _ Lk Lv) |].
  split.
  - intros E. exact (leb_ltb_trans _ _ _ (Last E) Uk).
  - unfold Timer.textContent. cbn [Num.of_optional]. rewrite Ef.
    rewrite floor_div_60, rem_60 by lia.
    rewrite !Number_toString_of_Z by lia.
    rewrite two_digits_padStart by lia. reflexivity.
Qed.

(** Ninety and a half seconds, at the last frame. *)
Lemma timer_witness :
  exists k : Z,
    Math_floor (Timer.interpolateNumber Num.zero (Num.of_decimal false 905 (-1)) Num.one)
    = Num.of_Z k /\
    Timer.textContent (Some (Num.of_decimal false 905 (-1))) Num.one
    = digits_of (Z.to_N (k / 60)) ++ js ":" ++ two_digits (k mod 60).
Proof.
  destruct (timer_shows_whole_minutes_and_seconds (Num.of_decimal false 905 (-1)) Num.one)
    as (k & _ & Ef & _ & _ & E); [vm_compute; reflexivity .. |].
  exists k. split; [exact Ef | exact E].
Defined.

(** X22. The timer of the replay shows [NaN:NaN] at every frame when
    the file has no [secondsSpentSolving], or has NaN for it. *)
Theorem timer_without_the_time_spent (t : number) :
  Timer.textContent None t = js "NaN:NaN" /\
  Timer.textContent (Some Num.NaN) t = js "NaN:NaN".
Proof.
  assert (E : Timer.interpolateNumber Num.zero Num.NaN t = Num.NaN).
  { unfold Timer.interpolateNumber.
    destruct (Num.mul Num.zero (Num.sub Num.one t)); destruct t; reflexivity. }
  unfold Timer.textContent. cbn [Num.of_optional]. rewrite E. split; reflexivity.
Qed.

(** ** The labels of the time axis *)

Lemma digits_of_no_leading_zero (n : N) :
  (1 <? length (digits_of n))%nat && startsWith0 (digits_of n) = false.
Proof.
  destruct (digits_of_spec n) as (D & Hne & V & L).
  destruct (digits_of n) as [| c [| c' ds]] eqn:E; try reflexivity.
  destruct (N.eq_dec c 48) as [-> | Hc].
  - exfalso. destruct (N.eq_dec n 0) as [-> | Hn]; [discriminate E |].
    specialize (L Hn). specialize (V 0%N).
    change (digits_value (48%N :: c' :: ds) 0) with (digits_value (c' :: ds) 0) in V.
    cbn [forallb] in D. apply andb_prop in D as [_ D].
    assert (B := digits_value_lt (c' :: ds) D 0%N).
    rewrite V in B. cbn [length] in *.
    rewrite !Nat2N.inj_succ, !N.pow_succ_r' in *.
    set (t := (10 ^ N.of_nat (length ds))%N) in *. clearbody t. lia.
  - cbn. destruct c as [| p]; [reflexivity |].
    destruct p as [p | p |]; try reflexivity.
    repeat (destruct p as [p | p |]; try reflexivity). congruence.
Qed.

Lemma digits_of_head (n : N) :
  exists c rest, digits_of n = c :: rest /\ isDigit c = true /\ isSpace c = false.
Proof.
  destruct (digits_of_spec n) as (D & Hne & _).
  destruct (digits_of n) as [| c rest]; [congruence |].
  cbn [forallb] in D. apply andb_prop in D as [Dc _].
  exists c, rest. split; [reflexivity |]. split; [exact Dc |].
  unfold isDigit in Dc. rewrite andb_true_iff, !N.leb_le in Dc.
  unfold isSpace.
  repeat match goal with
         | |- context [(?a <=? ?b)%N] => destruct (N.leb_spec a b); try lia
         | |- context [(?a =? ?b)%N] => destruct (N.eqb_spec a b); try lia
         end; reflexivity.
Qed.

(** [formatTimeToMMSS] on the string [tickFormat] makes of two whole
    numbers. *)
Lemma formatTimeToMMSS_of_numbers (m s : N) :
  formatTimeToMMSS (VString (digits_of m ++ js "m " ++ digits_of s ++ js "s"))
  = Returns (VString (digits_of m ++ js ":" ++ padStart (digits_of s) 2 (js "0"))).
Proof.
  destruct (digits_of_spec m) as (Dm & _).
  destruct (digits_of_spec s) as (Ds & _).
  destruct (digits_of_head m) as (cm & rm & Em & _ & _).
  destruct (digits_of_head s) as (cs & rs & Es & Dcs & Scs).
  assert (T : truthy (VString (digits_of m ++ js "m " ++ digits_of s ++ js "s")) = true)
    by (rewrite Em; reflexivity).
  unfold formatTimeToMMSS. rewrite T. cbn [negb].
  assert (M : match_here (digits_of m ++ js "m " ++ digits_of s ++ js "s")
              = Some (digits_of m, digits_of s)).
  { unfold match_here.
    rewrite (span_until isDigit (digits_of m) _ Dm) by reflexivity.
    rewrite Em at 1. change (js "m " ++ digits_of s ++ js "s")
      with (109%N :: 32%N :: digits_of s ++ js "s").
    cbn [span]. change (isSpace 109) with false. cbv iota.
    change (span isSpace (32%N :: digits_of s ++ js "s"))
      with (let '(a, b) := span isSpace (digits_of s ++ js "s") in (32%N :: a, b)).
    assert (S0 : span isSpace (digits_of s ++ js "s") = ([], digits_of s ++ js "s")).
    { rewrite Es. cbn [app span]. now rewrite Scs. }
    rewrite S0. rewrite (span_until isDigit (digits_of s) _ Ds) by reflexivity.
    rewrite Es at 1. reflexivity. }
  assert (R : regex_match (digits_of m ++ js "m " ++ digits_of s ++ js "s")
              = Some (digits_of m, digits_of s)).
  { destruct (digits_of m ++ js "m " ++ digits_of s ++ js "s"); cbn [regex_match]; now rewrite M. }
  rewrite R, digits_of_no_leading_zero. reflexivity.
Qed.

(** [x % 1] for a Number above zero: its fraction, an amount no
    greater than 1. *)
Lemma rem_one_amount (m : positive) (e : Z) :
  amount (S754_finite false m e) = true ->
  amount (Num_rem (S754_finite false m e) Num.one) = true /\
  Num.leb (Num_rem (S754_finite false m e) Num.one) Num.one = true.
Proof.
  intros Hx. rewrite one_value. unfold Num_rem.
  set (c := Z.min e (-52)).
  set (r := (Zpos m * 2 ^ (e - c)) mod (Zpos 4503599627370496 * 2 ^ (-52 - c))).
  assert (Pc := pow2_pos (-52 - c) ltac:(unfold c; lia)).
  assert (Hr : 0 <= r < Zpos 4503599627370496 * 2 ^ (-52 - c))
    by (apply Z.mod_pos_bound; lia).
  destruct (Z.eqb_spec r 0) as [_ | Hnz]; [split; reflexivity |].
  cbn [cond_Zopp]. fold (rnd r c).
  assert (F1 : fits c (S754_finite false 4503599627370496 (-52))) by (cbn [fits]; unfold c; lia).
  assert (L : Num.leb (rnd r c) (S754_finite false 4503599627370496 (-52)) = true).
  { apply rnd_upper; [lia | reflexivity | exact F1 |].
    cbn [val]. unfold scaled_value. cbn [cond_Zopp]. lia. }
  split; [| exact L].
  apply (amount_below _ _ (rnd_valid r c) (rnd_nonneg r c ltac:(lia)) L). reflexivity.
Qed.

(** [String(Math.round(y))] for an amount no greater than 60. *)
Lemma round_to_60 (y : number) :
  amount y = true -> Num.leb y (Num.of_Z 60) = true ->
  exists s, 0 <= s <= 60 /\ Number_toString (Math_round y) = digits_of (Z.to_N s).
Proof.
  intros Hy Hle.
  destruct (amount_cases y Hy) as [[s ->] | (m & e & -> & C & He)].
  - exists 0. split; [lia | reflexivity].
  - assert (A60 : amount (Num.of_Z 60) = true) by reflexivity.
    assert (L := proj1 (leb_val (-1074) _ _ Hy A60 (amount_fits _ Hy) (amount_fits _ A60)) Hle).
    rewrite (val_of_Z (-1074) 60) in L by (first [lia | split; [lia | reflexivity]]).
    cbn [val] in L. unfold scaled_value in L. cbn [cond_Zopp] in L.
    change (- -1074) with 1074 in L.
    assert (P1074 := pow2_pos 1074 ltac:(lia)).
    assert (Hneg : e < 0).
    { destruct (Z.lt_ge_cases e 0) as [| Hge]; [assumption | exfalso].
      assert (D : Zdigits2 (Zpos m) = 53) by (unfold canonical, fexp53 in C; lia).
      assert (B := Zdigits2_bounds (Zpos m) ltac:(lia)). rewrite D in B.
      change (2 ^ (53 - 1)) with 4503599627370496 in B.
      assert (Pe := pow2_pos e Hge).
      replace (e - -1074) with (e + 1074) in L by lia.
      rewrite Z.pow_add_r in L by lia. nia. }
    assert (He1074 : -1074 <= e) by (unfold canonical, fexp53 in C; lia).
    assert (Pe := pow2_pos (- e) ltac:(lia)).
    assert (Pd := pow2_pos (e - -1074) ltac:(lia)).
    assert (E : 2 ^ 1074 = 2 ^ (- e) * 2 ^ (e - -1074)).
    { rewrite <- Z.pow_add_r by lia. f_equal. lia. }
    assert (Hm : Zpos m <= 60 * 2 ^ (- e)) by (rewrite E in L; nia).
    unfold Math_round. destruct (Z.leb_spec 0 e) as [| _]; [lia |].
    cbn [cond_Zopp].
    assert (E1 : 2 ^ (1 - e) = 2 * 2 ^ (- e)).
    { replace (1 - e) with (1 + - e) by lia. rewrite Z.pow_add_r by lia. reflexivity. }
    set (q := (2 * Zpos m + 2 ^ (- e)) / 2 ^ (1 - e)).
    assert (Hq0 : 0 <= q) by (unfold q; apply Z.div_pos; lia).
    assert (Hq60 : q <= 60).
    { assert (q < 61); [| lia]. unfold q. apply Z.div_lt_upper_bound; lia. }
    exists q. split; [lia |].
    destruct (Z.eqb_spec q 0) as [-> | _]; [reflexivity |].
    apply Number_toString_of_Z. change (2 ^ 53) with 9007199254740992. lia.
Qed.

(** X23. The labels of the time axis of [renderDayHistogram]: the
    tick of a bin that ends at a finite Number of minutes above zero
    and below [2^52] is labelled with the decimal of the whole minutes
    [Math.floor(maxTimeMin)], a colon and two digits for the seconds
    [Math.round((maxTimeMin % 1) * 60)], which lie between 0 and 60:
    the fraction may be rounded up to a full minute, which is then
    written as 60 seconds. *)
Theorem tick_label_shows_minutes_and_seconds (maxTimeMin : number) :
  amount maxTimeMin = true -> truthy (VNumber maxTimeMin) = true ->
  Num.ltb maxTimeMin (Num.of_Z (2 ^ 52)) = true ->
  exists m s : Z,
    0 <= m /\ Math_floor maxTimeMin = Num.of_Z m /\
    0 <= s <= 60 /\
    Number_toString (Math_round (Num.mul (Num_rem maxTimeMin Num.one) (Num.of_Z 60)))
    = digits_of (Z.to_N s) /\
    TimeAxis.tickLabel maxTimeMin
    = Returns (VString (digits_of (Z.to_N m) ++ js ":" ++ two_digits s)).
Proof.
  intros Hx Ht H52.
  destruct (amount_cases _ Hx) as [[s E] | (mx & ex & E & _)]; rewrite E in *;
    [discriminate Ht |].
  destruct (floor_whole_part _ Hx ltac:(discriminate) H52) as (m & Hm & Ef & _ & _).
  destruct (rem_one_amount mx ex Hx) as [Af Lf].
  destruct (mul_amount _ (Num.of_Z 60) Af eq_refl Lf) as [Ay Ly].
  destruct (round_to_60 _ Ay Ly) as (s & Hs & Es).
  exists m, s. split; [lia |]. split; [exact Ef |]. split; [exact Hs |]. split; [exact Es |].
  unfold TimeAxis.tickLabel. rewrite Ht, Es, Ef.
  rewrite Number_toString_of_Z by (change (2 ^ 53) with 9007199254740992;
                                   change (2 ^ 52) with 4503599627370496 in Hm; lia).
  rewrite formatTimeToMMSS_of_numbers, two_digits_padStart by lia. reflexivity.
Qed.

(** A bin that ends 255/256 of a minute after five minutes: the label
    is [5:60]. *)
Lemma tick_label_witness :
  TimeAxis.tickLabel (Num.of_decimal false 599609375 (-8)) = Returns (VString (js "5:60")) /\
  exists m s : Z,
    Math_floor (Num.of_decimal false 599609375 (-8)) = Num.of_Z m /\
    0 <= s <= 60 /\
    TimeAxis.tickLabel (Num.of_decimal false 599609375 (-8))
    = Returns (VString (digits_of (Z.to_N m) ++ js ":" ++ two_digits s)).
Proof.
  split; [vm_compute; reflexivity |].
  destruct (tick_label_shows_minutes_and_seconds (Num.of_decimal false 599609375 (-8)))
    as (m & s & _ & Ef & Hs & _ & E); [vm_compute; reflexivity .. |].
  exists m, s. split; [exact Ef |]. split; [exact Hs | exact E].
Defined.
